(* ===== verification/_CoqProject ===== *)
-Q . S2P
Prelude.v
Loops.v
PyStr.v
FileSystem.v
ObjectStore.v
Gateway.v
Filename.v
WebP.v
Signatures.v
Refinement.v
Batch.v
Pipeline.v
Concurrent.v
Threads.v
Serial.v
Requests.v
Crash.v
Reference.v
Traversal.v
