(* ===== verification/Prelude.v ===== *)
(** * Verification of django-S3Minio ([src/s3_minio.py])

    The program is one Python module: the class [S3Minio], a gateway from a
    Django application to one bucket of an S3-compatible object store
    (MinIO) through the boto3 client, and the function
    [generate_image_filename], which builds the storage path of an uploaded
    image.  The gateway's methods are [__init__], [upload], [delete],
    [get_url] and [webp_converter].  Every method is a short sequence of
    calls to collaborators that are not part of the repository (boto3, the
    local filesystem through [os] and [shutil], Pillow, Django), wrapped in
    [try]/[except] blocks.  What the code itself decides is therefore: the
    order of the calls, which exceptions are caught and how they are
    re-raised, what is returned on each path, and the string manipulation of
    keys, paths and file names.  These are what the development models and
    proves.

    ** Files, in dependency order

    - [Prelude] (this file): the outcome of a Python call ([res]: a returned
      value or a raised exception), Python exceptions ([exn], with their
      class, their [str()] and their [__cause__]), the monad [Py] of calls
      that change a state and may raise, [try_except], the loop [py_for]
      with its early exit, the development's tactics and hint databases,
      and the lemmas on [string] every component uses.
    - [Loops]: the [for] loop once more, as a small-step machine
      ([loop_step] on the configurations [conf]): one step runs the body
      once, and the loop is left by [return] or [break], at its end, or by
      an exception.
    - [PyStr]: the methods of Python's [str] that the source calls:
      [strip], [replace], [in], [split], [re.sub] with a character class,
      [str(int)] and zero padding.  Characters are code points below 256
      (Rocq's [ascii]).
    - [FileSystem]: the local staging area as a finite map from path to
      file or directory, with [os.path.exists], [os.remove],
      [os.path.dirname], [os.listdir], [shutil.rmtree], and the invariant
      [fs_wf] (every path is in normal form and has its parent directory).
    - [ObjectStore]: what the gateway expects of the boto3 client, as the
      class [ObjectStore] of operations with the class [ObjectStoreLaws] of
      laws, and [mem_store], an in-memory S3 that implements both.
    - [Gateway], module [S3Minio]: the class [S3Minio]: its fields,
      [__init__], [upload], [delete], [get_url], each a definition in the
      monad [Py] over the world (file system, object store, standard
      output), with the same [try]/[except] nesting, the same early
      [return] inside the loop and the same order of effects as the source.
    - [Filename]: [generate_image_filename] and its local function
      [get_valid_filename], with [strftime] for the directives of the one
      format the source uses and [random.randint] as a function of what
      the generator supplies.
    - [WebP]: [webp_converter]: the Django import guard, the three Pillow
      calls behind the class [ImageCodec], the loop over the extensions
      with its [break], and the assignment to [image.name] on a heap of
      file objects shared with the caller ([Session]).
    - [Refinement]: the contract of the gateway for one key per call
      (module [Contract], from spec.md sections 3, 4.1 and 8: a step
      relation on states compared pointwise), the abstraction function
      [abs] from worlds, and the proof that [upload], [delete], [get_url]
      and every sequence of such calls are steps of the contract.
    - [Signatures]: what each method can return and raise ([signature],
      [has_sig]), with the rules that derive a signature along [mret],
      bind, [try_except] and [py_for], and the signatures of the four
      methods.
    - [Batch]: the contract of a call with several keys ([batch]), and
      the caller who calls [upload] once for every staged key
      ([drain_step]) with the modality [inevitably] (on every run,
      eventually) over a store that accepts uploads ([Accepting]).
    - [Pipeline]: the parts together: the [import] statements of the
      module over a set of installed packages ([load_module]), a gateway
      built and then used ([with_gateway]), and the path of
      [generate_image_filename] as a key of the staging area.
    - [Concurrent]: the cleanup at the end of [upload] call by call
      ([cleanup_step] on the points [pc]), beside other requests that
      make directories and write files in the shared staging area
      ([env_step]), in the order of a schedule ([sched_step], [exec]).
    - [Threads]: a whole call [upload(k)] as a thread of at most six
      steps ([upload_step] on the points [upc]: the look at the staging
      area for the diagnostic print, the transfer, then the calls of the
      cleanup), and a pool of such calls on one world whose steps are
      taken in any order ([pool_step], [pool_exec]).
    - [Serial]: concurrent uploads against the contract: the answers of
      the calls of a pool ([history]), what it means that they are those
      of the contract in some order ([serializable]), and what each point
      of a call says about the staging area ([staging_ok]) and about the
      bucket ([thread_ok]).
    - [Requests]: pools of calls of [upload], [delete] and [get_url]
      ([job], [job_step]): a deletion and a presign are one step each,
      their one client call being all they share with the other calls;
      [job_trace] runs a schedule and lists the requests in the order in
      which they take effect; [ghost] is the state of the contract at a
      point of a run, in which an upload counts from its transfer on.
    - [Crash]: a call [upload(k)] whose process is stopped at any point
      and which the caller makes again on the world the steps have left
      ([crash_event] with the events [Run] and [Restart], [crash_step],
      [crash_exec]), after the remark of spec.md section 5; [stored] is
      the state a stop between the transfer and [os.remove] leaves.
    - [Reference]: the testable properties of spec.md section 8 as a
      machine: [ref_step] and [ref_run], functions on the states of the
      contract that give the answer of every request, and the class
      [Answering] of what they need of the store, with [mem_store] as an
      instance.
    - [Traversal]: the path [upload] builds for a key, read as the
      operating system reads it: [normpath], the lexical resolution of
      [.], [..] and doubled slashes in a relative path, and [upload_at],
      the method [upload] with that resolution written out at every call
      that takes a path.

    ** What the theorems show

    - Termination: the loops of the source run over a tuple, so that a
      loop ends is a property of the [for] statement and not of a method
      ([loop_sn]; runs that end are unique and end where [py_for] ends,
      [loop_machine_py_for]).  What the methods decide is how far a loop
      gets: the loops of [upload] and [delete] are left in their first
      iteration, however many arguments there are, and have no run of more
      than one step ([gateway_loops_once]).
    - Types: [upload] and [delete] return [True] or [None] and never
      [False], and raise their own [ValueError] with a cause or an
      exception that is no [Exception] ([upload_signature]); [get_url]
      raises no [ClientError]; [webp_converter] raises its [ImportError],
      the [ValueError] of its outer handler, or an exception that is no
      [Exception].  These hold for any client and any codec.
    - Liveness: the caller who uploads one staged key per call inevitably
      has an empty staging area and every staged file in the bucket
      ([drain_inevitably]); the variant is the number of entries of the
      staging area.  A single call with several keys is the batch of its
      first key ([upload_batch_first]) and not of its arguments
      ([upload_batch_not_refined]).
    - Composition: the generated path is a staging path in normal form
      whose directory is [Class/stamp] ([generated_key_staging_path]); the
      module loads exactly when [boto3] and [PIL] are installed
      ([load_module_spec]), Django being needed by [webp_converter] only;
      a gateway is used only once its client is built
      ([with_gateway_spec]); the name a converted image has after
      [webp_converter] gives a key that ends in [.webp]
      ([converted_image_key]).
    - Interleaving: alone, the calls of the cleanup compute
      [cleanup_staged] ([cleanup_alone]); a file that another request
      stages between [os.listdir] and [shutil.rmtree] is removed with the
      directory ([cleanup_race]); when nothing is staged in that window
      no file of another request is ever removed, in any interleaving
      ([cleanup_keeps_files], by the invariant [cleanup_inv]).
    - Concurrent calls: alone, the steps of a call compute [upload]
      ([upload_thread_alone]); in every interleaving a call that is past
      its transfer has its object in the bucket with the bytes staged at
      the start ([uploads_true_stored], by the invariant [pool_inv]),
      also when it never takes another step; two calls that share a
      directory can both reach [shutil.rmtree], and the second then
      raises although its object is stored ([uploads_shared_directory]);
      every interleaving ends within six steps for each call
      ([uploads_terminate]).
    - Serializability: uploads whose staged files lie in different
      directories give, however their steps interleave, the answers and
      the final state of the contract for the uploads in the order of the
      pool ([uploads_serializable]); with deletions and presigns of any
      keys among them, the requests in the order in which they take
      effect are at every point a run of the contract to the state
      [ghost] ([requests_linearizable], by the invariants [jobs_ok] and
      [linear]), and at the end the answers of the calls are those of the
      contract in some order ([requests_serializable]); two uploads that
      share a directory have a run that is the run of no order
      ([uploads_shared_not_serializable]).  Every interleaving of
      requests ends ([requests_terminate]).
    - Stopping and calling again: at every point of every run with stops
      the key is as it was, stored with its file still staged, or
      uploaded, and nothing staged is lost ([crash_states], by the
      invariant [crash_inv]); the state in between is a state of no run
      of the contract ([crash_between_outside_contract]); while the file
      is staged, the call made again returns [True] in the state after
      the upload ([crash_retry_completes]); after a stop past
      [os.remove] every call made again raises, and the directory stays
      ([crash_in_cleanup_stuck], by the invariant [missing_inv]).  A run
      takes at most six steps between two calls ([crash_exec_runs]).
    - Functional behaviour on every path: a successful [upload] stores the
      staged bytes under the key, removes the staged file and removes its
      directory when that became empty ([upload_ok], [upload_directory]); a
      failing client call is re-raised as [ValueError] with both handlers'
      prefixes and the original exception as cause, and leaves bucket and
      staging area as they were ([upload_transfer_error],
      [upload_missing_file]); likewise for [delete], [get_url] and
      [webp_converter], each with its error paths.
    - The early [return] inside the loops of [upload], [delete] and
      [webp_converter]: only the first argument is processed
      ([upload_only_first], [delete_only_first],
      [webp_converter_only_first]).
    - [get_url] turns every [ClientError] of the existence probe into
      [None], lets other exceptions through, and changes nothing.
    - Frames: on every path, returning or raising, a call of [upload] in
      a staging area that is a tree changes no path but the staged file of
      its first key and the directory of that file, adds nothing, removes
      the staged file only when the bucket holds its bytes, changes no
      object under another key and keeps what was printed
      ([upload_frame]); the emptiness test before [shutil.rmtree] is what
      the first part rests on.  [fs_wf] is an invariant of the operations
      of [FileSystem], whatever the order in which a method calls them
      ([fs_ops_preserve_wf]), and says nothing of a method by itself.
      [webp_converter] changes the name of its first argument at most.
    - Refinement: every sequence of calls is a sequence of steps of the
      contract ([run_refines]); from it, an uploaded key is presigned and
      a deleted key is not.  Over a store that serves, accepts and
      answers, the calls compute the reference machine: the answers are
      those of [ref_run] and every URL names the bucket and the key
      ([run_reference]); the life of an image, uploaded, linked, deleted
      and no longer linked, has the four answers of the specification
      ([life_cycle_answers]).
    - Equivalence with a reference: the loop over the extensions computes
      [renamed] ([rename_loop_spec]).
    - Keys: a key in normal form is staged inside [temp/media], and only
      such keys have a staged file in a tree ([file_direct_inside],
      [staged_key_normal]); for such keys the method with the paths
      resolved is the method ([upload_at_normal]).  The key is not
      checked: the path built for the key [../../q] is the file [q]
      outside the staging directory ([file_direct_escapes]), and the
      method with the paths resolved uploads and removes that file
      ([upload_escapes]).
    - String results: the generated path has the shape
      [Class/stamp/stamp-NNNN.ext] with a stamp of thirty characters and a
      file name of characters of [A-Za-z0-9._-] only; two paths for
      files with the same extension, of instances of one class created in
      the same second, are equal exactly when the random numbers are
      ([generate_image_filename_collides]).

    ** Bounds and fuel

    The loop machine needs no fuel: [loop_step] is a relation, its runs
    are bounded by [fuel_of] (one more than the elements left), and
    [run_for], the machine as a function, reaches the final configuration
    with the fuel [S (length xs)] ([run_for_py_for]).  The caller of
    [Batch] takes at most as many steps as the staging area has entries.
    The cleanup has four calls: [run_alone] with the fuel 4 reaches its
    end on every path ([run_alone_cleanup_staged]); a call of [upload]
    has six steps, and [thread_run] with the fuel 6 reaches its end; a
    pool of requests takes at most [jobs_left] steps, six for an upload
    and one for a deletion or a presign; a run with stops takes at most
    six steps for the first call and for each call made again.
    Termination is by a measure that every step uses up ([sn_measure]).
    All other recursion is structural except the decimal printer [str_N], which
    runs on fuel; its fuel is the binary size of the number plus one, which
    is at least the number of decimal digits: any larger fuel gives the
    same string ([str_N_fuel_enough]) and the string reads back as the
    number for every number ([int_go_str_N]).  [strftime] pads the year
    to four digits and prints [%F] as the ISO date [%Y-%m-%d].  For the
    years 1000 to 9999 this is what every platform prints.  For the
    years 1 to 999, which [datetime_ok] admits as the constructor of
    [datetime] does, it is what Python prints where the C library pads
    the year and, in its recent versions, everywhere; an older
    interpreter on glibc prints such a year without padding, and there
    the thirty characters of [timestamp_shape] are those of the years
    from 1000 on.  Characters are 8-bit
    code points: a Python string with code points above 255 is outside the
    model.  Integers are unbounded ([N], [Z]), as Python's are.

    ** Not modelled

    The internals of boto3 (HTTP, signing, multipart transfer, retries),
    of Pillow (decoding and WEBP encoding) and of Django (file objects
    beyond their name and bytes): the source only calls them, and they
    appear as the operations of [ObjectStore] and [ImageCodec], each with
    a small instance for the examples ([mem_store], [toy_codec]).  The
    URL of [mem_store] is the path-style address with the key as it is:
    the signature and the percent-encoding of keys are not modelled.  The
    operating system below [os] and [shutil] is modelled by [FileSystem]
    for regular files and directories addressed by literal relative paths
    in normal form; symbolic links, permissions and the current directory
    are not, and the operations of [FileSystem] do not resolve [..]:
    the theorems on [upload] are about keys in normal form, for which
    the resolution changes nothing, and the keys with [..] are treated
    in [Traversal] by [upload_at].  The random generator and the clock
    are arguments of the functions that use them.  Of the import system
    only whether a package is installed is modelled: the import of
    [ContentFile] raises [ModuleNotFoundError] when Django is missing and
    succeeds otherwise, and an import that fails for another reason (a
    broken installation, an exception raised while the package loads) is
    outside the model, so that what [webp_converter_signature] says the
    method raises is said of these two cases.  The module documentation
    (lines 1 to 20 of the source) and the documentation string of the
    class (lines 32 to 44) are text.  [print] writes a line to a
    standard output that is a list of lines and does not raise.  The
    classes of exceptions are compared by name: the classes that botocore
    derives from [ClientError] for single error codes count as
    [ClientError], which is what the [except] clause of [get_url] makes
    of them.  A file object passed to [webp_converter] is its name and
    its bytes on a heap: the position in the file, lazy loading by
    Pillow and closed files are not modelled, and [Image.open] of a
    reference that names no file object raises an [AttributeError] of the
    model's own.  [created_at] is an optional value, and the attribute
    error that Python raises for [None.strftime] is the branch for
    [None]: the source has no test for it.  Calls that
    overlap in time (two requests of the web application staging or
    uploading at once) are modelled at the grain of the calls into [os],
    [shutil] and the client: each such call of [upload] is one atomic
    step ([os.path.exists] for the diagnostic print, [upload_file], the
    four calls of the cleanup), a print going with the call next to it;
    [delete] and [get_url] are one step each, since [delete_object] and
    [head_object] are their only access to what the calls share.  The
    store answers one client call at a time; what a client call does
    inside the store while another is in progress is not modelled.
    [webp_converter] and [generate_image_filename] work on the arguments
    of one request and are not part of a pool.  A process is stopped
    between two steps of a call of [upload], not inside a call into [os],
    [shutil] or the client: by the laws of the store a transfer stores
    the object or raises and leaves the bucket.  [delete] and [get_url]
    are one step, so a stop of them is the call made or not made. *)

From stdpp Require Export base tactics option list strings gmap relations.
From Stdlib Require Export Ascii NArith ZArith Lia ZifyN.


Declare Scope py_scope.
Delimit Scope py_scope with py.

(** ** Outcome of a Python call *)

(** A call either returns a value or raises. *)
Inductive res (E A : Type) : Type :=
| Ret (a : A)
| Raise (e : E).
Arguments Ret {E A} a.
Arguments Raise {E A} e.

#[export] Instance res_ret {E} : MRet (res E) := λ A a, Ret a.
#[export] Instance res_bind {E} : MBind (res E) := λ A B f r,
  match r with Ret a => f a | Raise e => Raise e end.
#[export] Instance res_fmap {E} : FMap (res E) := λ A B f r,
  match r with Ret a => Ret (f a) | Raise e => Raise e end.

Definition is_Ret {E A} (r : res E A) : bool :=
  match r with Ret _ => true | Raise _ => false end.

(** ** Python exceptions *)

(** The exception classes that can reach the handlers of the source.
    [KeyboardInterrupt] stands for the classes that derive from
    [BaseException] only, which [except Exception] does not catch. *)
Inductive exn_class : Type :=
| ValueError | ImportError | ModuleNotFoundError | TypeError | AttributeError
| FileNotFoundError | IsADirectoryError | NotADirectoryError | PermissionError
| UnidentifiedImageError
| ClientError | EndpointConnectionError | ParamValidationError
| S3UploadFailedError
| KeyboardInterrupt.

#[export] Instance exn_class_eq_dec : EqDecision exn_class.
Proof. solve_decision. Defined.

(** An exception object: its class, its [str()] and its [__cause__] (set by
    [raise ... from exc]). *)
#[warnings="-register-all"] Inductive exn : Type :=
| Exn (c : exn_class) (msg : string) (cause : option exn).

Definition exn_cls (e : exn) : exn_class := let 'Exn c _ _ := e in c.
Definition exn_str (e : exn) : string := let 'Exn _ m _ := e in m.
Definition exn_cause (e : exn) : option exn := let 'Exn _ _ c := e in c.

(** [isinstance(e, Exception)]. *)
Definition is_Exception (e : exn) : bool :=
  bool_decide (exn_cls e ≠ KeyboardInterrupt).

(** [isinstance(e, botocore.exceptions.ClientError)]. *)
Definition is_ClientError (e : exn) : bool :=
  bool_decide (exn_cls e = ClientError).

(** [except ImportError]: the class and its subclass [ModuleNotFoundError]. *)
Definition is_ImportError (e : exn) : bool :=
  bool_decide (exn_cls e = ImportError ∨ exn_cls e = ModuleNotFoundError).

(** Length of the [__cause__] chain below an exception. *)
Fixpoint exn_depth (e : exn) : nat :=
  match e with
  | Exn _ _ None => 0
  | Exn _ _ (Some c) => S (exn_depth c)
  end.

(** ** The monad of calls over a world *)

(** A call reads and changes a world [W] and returns or raises; the world
    it leaves is the world the caller continues in, also when it raises. *)
Definition Py (W A : Type) : Type := W → res exn A * W.

#[export] Instance Py_ret {W} : MRet (Py W) := λ A a w, (Ret a, w).
#[export] Instance Py_bind {W} : MBind (Py W) := λ A B f c w,
  match c w with
  | (Ret a, w') => f a w'
  | (Raise e, w') => (Raise e, w')
  end.

Definition py_raise {W A} (e : exn) : Py W A := λ w, (Raise e, w).
Definition py_get {W} : Py W W := λ w, (Ret w, w).
Definition py_modify {W} (f : W → W) : Py W () := λ w, (Ret (), f w).
Definition py_lift {W A} (r : res exn A) : Py W A := λ w, (r, w).

(** [try: body except C as exc: handler(exc)], where [catches] decides
    [isinstance(exc, C)]. *)
Definition try_except {W A} (body : Py W A) (catches : exn → bool)
    (handler : exn → Py W A) : Py W A := λ w,
  match body w with
  | (Ret a, w') => (Ret a, w')
  | (Raise e, w') => if catches e then handler e w' else (Raise e, w')
  end.

(** [raise C(msg) from exc]. *)
Definition raise_from {W A} (c : exn_class) (msg : string) (exc : exn) : Py W A :=
  py_raise (Exn c msg (Some exc)).

(** [for x in xs: body], where [body] yields [Some v] when it leaves the
    loop ([return v], or [break] with [v] the unit) and [None] when it
    reaches its end: the loop stops at the first [Some], and a loop that
    ends without one yields [None]. *)
Fixpoint py_for {W A R} (xs : list A) (body : A → Py W (option R)) : Py W (option R) :=
  match xs with
  | [] => mret None
  | x :: xs' =>
      r ← body x;
      match r with
      | Some v => mret (Some v)
      | None => py_for xs' body
      end
  end.

(** The line feed and the double quote, for messages. *)
Definition nl : string := String "010"%char "".
Definition dq : string := String "034"%char "".

(** [str(b)] for a Boolean. *)
Definition str_bool (b : bool) : string := if b then "True" else "False".

(** Removal of a key from a finite map, under a name that the methods
    called [delete] of the modelled classes do not hide. *)
Abbreviation map_del := base.delete.

(** ** Hint databases and tactics *)

Create HintDb py discriminated.
Create Rewrite HintDb py_rw.

(** Unfold the monad's operations in the goal and in the hypotheses. *)
Ltac py_unfold :=
  unfold mbind, mret, Py_bind, Py_ret, res_bind, res_ret,
    try_except, raise_from, py_raise, py_get, py_modify, py_lift in *.

(** Case analysis on the first scrutinee the goal is stuck on. *)
Ltac py_case :=
  match goal with
  | |- context [match ?x with _ => _ end] =>
      let E := fresh "E" in destruct x eqn:E; simplify_eq/=
  end.

Ltac py_cases := repeat (py_case; try done).

(** ** Laws of the monad *)

Section monad_laws.
Context {W : Type}.
Implicit Types (w : W).

Lemma Py_bind_ret_l {A B} (a : A) (f : A → Py W B) w :
  (mret a ≫= f) w = f a w.
Proof. done. Qed.

Lemma Py_bind_ret_r {A} (c : Py W A) w : (c ≫= mret) w = c w.
Proof. py_unfold. by destruct (c w) as [[]]. Qed.

Lemma Py_bind_assoc {A B C} (c : Py W A) (f : A → Py W B) (g : B → Py W C) w :
  ((c ≫= f) ≫= g) w = (c ≫= λ a, f a ≫= g) w.
Proof. py_unfold. by destruct (c w) as [[]]. Qed.

Lemma Py_bind_Ret {A B} (c : Py W A) (f : A → Py W B) w a w' :
  c w = (Ret a, w') → (c ≫= f) w = f a w'.
Proof. py_unfold. by intros ->. Qed.

Lemma Py_bind_Raise {A B} (c : Py W A) (f : A → Py W B) w e w' :
  c w = (Raise e, w') → (c ≫= f) w = (Raise e, w').
Proof. py_unfold. by intros ->. Qed.

Lemma try_except_Ret {A} (body : Py W A) catches handler w a w' :
  body w = (Ret a, w') → try_except body catches handler w = (Ret a, w').
Proof. py_unfold. by intros ->. Qed.

Lemma try_except_caught {A} (body : Py W A) catches handler w e w' :
  body w = (Raise e, w') → catches e = true →
  try_except body catches handler w = handler e w'.
Proof. py_unfold. by intros -> ->. Qed.

Lemma try_except_uncaught {A} (body : Py W A) catches handler w e w' :
  body w = (Raise e, w') → catches e = false →
  try_except body catches handler w = (Raise e, w').
Proof. py_unfold. by intros -> ->. Qed.

(** The loop stops at the first element whose body leaves it. *)
Lemma py_for_cons_returns {A R} (body : A → Py W (option R)) x xs w :
  (∀ w', body x w ≠ (Ret None, w')) → py_for (x :: xs) body w = py_for [x] body w.
Proof.
  intros Hret. cbn [py_for]. py_unfold.
  destruct (body x w) as [[[v|]|e] w'] eqn:Hb; [done| |done]. by destruct (Hret w').
Qed.

(** An element whose body reaches its end is skipped. *)
Lemma py_for_cons_continues {A R} (body : A → Py W (option R)) x xs w w' :
  body x w = (Ret None, w') → py_for (x :: xs) body w = py_for xs body w'.
Proof. intros Hb. cbn [py_for]. py_unfold. by rewrite Hb. Qed.

End monad_laws.

#[export] Hint Rewrite @Py_bind_ret_l @Py_bind_ret_r @Py_bind_assoc : py_rw.

(** ** Strings *)

(** Every character of a string satisfies a boolean predicate. *)
Fixpoint str_forall (P : ascii → bool) (s : string) : bool :=
  match s with
  | "" => true
  | String c s' => P c && str_forall P s'
  end.

(** Some character of a string satisfies a boolean predicate. *)
Fixpoint str_exists (P : ascii → bool) (s : string) : bool :=
  match s with
  | "" => false
  | String c s' => P c || str_exists P s'
  end.

Section strings.
Implicit Types (s t u : string) (c : ascii) (P : ascii → bool).

Lemma str_app_nil_l s : "" +:+ s = s.
Proof. done. Qed.

Lemma str_app_cons c s t : String c s +:+ t = String c (s +:+ t).
Proof. done. Qed.

Lemma str_app_nil_r s : s +:+ "" = s.
Proof. induction s as [|c s IH]; [done|]. by rewrite str_app_cons, IH. Qed.

Lemma str_app_assoc s t u : (s +:+ t) +:+ u = s +:+ t +:+ u.
Proof. induction s as [|c s IH]; [done|]. by rewrite !str_app_cons, IH. Qed.

Lemma str_length_app s t :
  String.length (s +:+ t) = String.length s + String.length t.
Proof. induction s as [|c s IH]; [done|]. rewrite str_app_cons. simpl. by rewrite IH. Qed.

Lemma str_app_eq_nil s t : s +:+ t = "" → s = "" ∧ t = "".
Proof. by destruct s. Qed.

Lemma str_length_zero s : String.length s = 0 → s = "".
Proof. by destruct s. Qed.

Lemma str_forall_app P s t :
  str_forall P (s +:+ t) = str_forall P s && str_forall P t.
Proof.
  induction s as [|c s IH]; [done|].
  rewrite str_app_cons. simpl. by rewrite IH, andb_assoc.
Qed.

Lemma str_exists_app P s t :
  str_exists P (s +:+ t) = str_exists P s || str_exists P t.
Proof.
  induction s as [|c s IH]; [done|].
  rewrite str_app_cons. simpl. by rewrite IH, orb_assoc.
Qed.

Lemma str_forall_impl P (Q : ascii → bool) s :
  (∀ c, P c = true → Q c = true) →
  str_forall P s = true → str_forall Q s = true.
Proof.
  intros HPQ. induction s as [|c s IH]; simpl; [done|].
  intros [? ?]%andb_true_iff. apply andb_true_iff; auto.
Qed.

Lemma str_exists_negb_forall P s :
  str_exists P s = negb (str_forall (λ c, negb (P c)) s).
Proof.
  induction s as [|c s IH]; simpl; [done|].
  rewrite IH. by destruct (P c).
Qed.

(** [String.prefix p s] holds exactly when [s] starts with [p]. *)
Lemma str_prefix_app p t : String.prefix p (p +:+ t) = true.
Proof.
  induction p as [|c p IH]; [by destruct t|].
  rewrite str_app_cons. simpl. destruct (ascii_dec c c); [done|congruence].
Qed.

Lemma str_prefix_inv p s : String.prefix p s = true → ∃ t, s = p +:+ t.
Proof.
  revert s. induction p as [|c p IH]; intros s; [by exists s|].
  destruct s as [|d s]; simpl; [done|].
  destruct (ascii_dec c d) as [->|]; [|done].
  intros [t ->]%IH. by exists t.
Qed.

Lemma str_prefix_iff p s : String.prefix p s = true ↔ ∃ t, s = p +:+ t.
Proof.
  split; [apply str_prefix_inv|]. intros [t ->]. apply str_prefix_app.
Qed.

Lemma str_prefix_nil s : String.prefix "" s = true.
Proof. by destruct s. Qed.

Lemma str_app_inv_head s t u : s +:+ t = s +:+ u → t = u.
Proof. induction s as [|c s IH]; [done|]. rewrite !str_app_cons. intros; simplify_eq; auto. Qed.

Lemma str_app_inv_length a b x y :
  String.length a = String.length b → a +:+ x = b +:+ y → a = b.
Proof.
  revert b. induction a as [|c a IH]; intros [|d b]; try done.
  rewrite !str_app_cons. intros [= Hl] [= -> H]. f_equal. by apply IH.
Qed.

End strings.

#[export] Hint Rewrite str_app_nil_l str_app_cons str_app_nil_r str_app_assoc
  str_length_app str_forall_app str_exists_app : py_rw.
#[export] Hint Resolve str_prefix_app str_prefix_nil : py.

(** ** Relations that use up a measure *)

Section measure.
Context {A : Type} (R : relation A) (m : A → nat).
Hypothesis Hm : ∀ x y, R x y → m y < m x.

(** A relation whose steps use up a measure has no infinite run, and a run
    is no longer than the measure at its start. *)
Lemma sn_measure x : sn R x.
Proof.
  remember (m x) as n eqn:Hn. revert x Hn.
  induction n as [n IH] using lt_wf_ind. intros x ->.
  constructor. intros y Hxy. apply (IH (m y)); [by apply Hm|done].
Qed.

Lemma nsteps_measure n x y : nsteps R n x y → n + m y ≤ m x.
Proof. induction 1 as [|n x y z Hxy _ IH]; [lia|]. apply Hm in Hxy. lia. Qed.

End measure.

(** Replacing an element of a list of numbers by a smaller one makes the
    sum smaller. *)
Lemma sum_list_insert_lt (l : list nat) i x y :
  l !! i = Some y → x < y → sum_list (<[i := x]> l) < sum_list l.
Proof.
  revert i. induction l as [|z l IH]; intros [|i] Hi Hxy; simplify_eq/=; [lia|].
  specialize (IH i Hi Hxy). lia.
Qed.

(** ** Lists under [omap], with an element replaced *)

Section omap_insert.
Context {A B : Type} (f : A → option B).
Implicit Types (l : list A).

Lemma omap_cons x l : omap f (x :: l) = from_option (λ b, [b]) [] (f x) ++ omap f l.
Proof. simpl. by destruct (f x). Qed.

Lemma omap_lookup_middle l i x :
  l !! i = Some x →
  omap f l = omap f (take i l) ++ from_option (λ b, [b]) [] (f x) ++ omap f (drop (S i) l).
Proof.
  intros Hi. rewrite <-(take_drop_middle l i x Hi) at 1. by rewrite omap_app, omap_cons.
Qed.

Lemma omap_insert_middle l i y :
  i < length l →
  omap f (<[i := y]> l)
  = omap f (take i l) ++ from_option (λ b, [b]) [] (f y) ++ omap f (drop (S i) l).
Proof. intros Hi. by rewrite insert_take_drop, omap_app, omap_cons. Qed.

Lemma omap_insert_same l i x y :
  l !! i = Some x → f y = f x → omap f (<[i := y]> l) = omap f l.
Proof.
  intros Hi Hf. rewrite (omap_lookup_middle l i x Hi), <-Hf.
  eauto using omap_insert_middle, lookup_lt_Some.
Qed.

Lemma omap_insert_new l i x y b :
  l !! i = Some x → f x = None → f y = Some b → omap f (<[i := y]> l) ≡ₚ b :: omap f l.
Proof.
  intros Hi Hx Hy. rewrite (omap_lookup_middle l i x Hi), Hx.
  rewrite omap_insert_middle, Hy by eauto using lookup_lt_Some. simpl.
  by rewrite Permutation_middle.
Qed.

Lemma NoDup_omap_lookup l i j x y b :
  NoDup (omap f l) → l !! i = Some x → l !! j = Some y → f x = Some b → f y = Some b → i = j.
Proof.
  assert (∀ l j y, l !! j = Some y → f y = Some b → b ∈ omap f l) as Hin.
  { intros l' j' y' Hj Hy. apply list_elem_of_omap. eauto using list_elem_of_lookup_2. }
  revert i j. induction l as [|z l IH]; intros [|i] [|j] Hnd Hi Hj Hx Hy;
    rewrite ?omap_cons in Hnd; simplify_eq/=; try done.
  - rewrite Hx in Hnd. apply NoDup_cons in Hnd as [[] _]. eauto.
  - rewrite Hy in Hnd. apply NoDup_cons in Hnd as [[] _]. eauto.
  - f_equal. apply NoDup_app in Hnd as (_ & _ & Hnd). eauto.
Qed.

Lemma mapM_omap (g : A → option B) l :
  Forall (λ x, is_Some (g x) ∧ f x = g x) l → mapM g l = Some (omap f l).
Proof.
  induction 1 as [|x l [[b Hg] Hf] _ IH]; [done|]. cbn. rewrite Hf, Hg. cbn. by rewrite IH.
Qed.

End omap_insert.
