(* ===== verification/Loops.v ===== *)
(** * Loops: the [for] loop as a machine

    [py_for] of the prelude gives the outcome of a loop at once.  Here the
    same loop runs step by step: a configuration is the loop at its head
    with the elements still to come, or the loop left by a [return] (or
    [break]), by reaching its end, or by an exception, and one step runs
    the body once.  The machine is deterministic, and a run that ends,
    ends in the outcome that [py_for] computes.  That a run ends is no
    property of a method: the loops of the source run over a tuple, and
    the machine uses up one element in every step ([loop_sn]).  What
    depends on the method is how many of the elements its loop reaches:
    a loop whose body leaves at the first element takes one step, however
    many elements there are ([loop_first_leaves_nsteps]); the loops of the
    gateway are of this kind, which is proved with each method. *)

From S2P Require Import Prelude.
From stdpp Require Import relations.

(** ** Configurations and steps *)

Section machine.
Context {W A R : Type}.

(** The loop at its head with [xs] still to come, or left: with the value
    of a [return] or [None] at its end, or with an exception. *)
Inductive conf : Type :=
| Iter (xs : list A) (w : W)
| Exited (v : option R) (w : W)
| Raised (e : exn) (w : W).

(** The configuration an outcome stands for, and the one after the body. *)
Definition conf_of (o : res exn (option R) * W) : conf :=
  match o with
  | (Ret v, w) => Exited v w
  | (Raise e, w) => Raised e w
  end.

Definition after_body (xs : list A) (o : res exn (option R) * W) : conf :=
  match o with
  | (Ret None, w) => Iter xs w
  | o => conf_of o
  end.

(** One step: the loop ends when nothing is left, and runs its body on the
    next element otherwise. *)
Inductive loop_step (body : A → Py W (option R)) : conf → conf → Prop :=
| loop_end w : loop_step body (Iter [] w) (Exited None w)
| loop_body x xs w : loop_step body (Iter (x :: xs) w) (after_body xs (body x w)).

(** A configuration in which the loop has been left. *)
Definition final (c : conf) : bool :=
  match c with
  | Iter _ _ => false
  | _ => true
  end.

(** The steps a configuration has left at most. *)
Definition fuel_of (c : conf) : nat :=
  match c with
  | Iter xs _ => S (length xs)
  | _ => 0
  end.

(** The machine as a function: the configuration after at most [n] steps. *)
Fixpoint run_for (body : A → Py W (option R)) (n : nat) (c : conf) : conf :=
  match n, c with
  | S n, Iter [] w => Exited None w
  | S n, Iter (x :: xs) w => run_for body n (after_body xs (body x w))
  | _, c => c
  end.

End machine.

Arguments conf : clear implicits.

(** ** The machine is deterministic and ends where [py_for] ends *)

Section machine_lemmas.
Context {W A R : Type} (body : A → Py W (option R)).
Implicit Types (c : conf W A R) (xs : list A) (w : W) (n : nat).

Lemma loop_step_det c c1 c2 : loop_step body c c1 → loop_step body c c2 → c1 = c2.
Proof. destruct 1; by inversion 1. Qed.

Lemma final_conf_of o : final (conf_of o : conf W A R) = true.
Proof. by destruct o as [[]]. Qed.

(** A final configuration takes no step, and every other one does. *)
Lemma final_nf c : final c = true ↔ nf (loop_step body) c.
Proof.
  split.
  - intros Hf [c' Hs]. by destruct Hs.
  - intros Hnf. destruct c as [[|x xs] w| |]; try done; destruct Hnf; eexists; constructor.
Qed.

Lemma after_body_fuel xs o : fuel_of (after_body xs o : conf W A R) ≤ S (length xs).
Proof. destruct o as [[[v|]|e] w]; simpl; lia. Qed.

(** Every step uses up fuel. *)
Lemma loop_step_fuel c c' : loop_step body c c' → fuel_of c' < fuel_of c.
Proof.
  destruct 1 as [w|x xs w]; [simpl; lia|].
  pose proof (after_body_fuel xs (body x w)). simpl. lia.
Qed.

(** The body, then the rest of the loop: [py_for] through the machine. *)
Lemma conf_of_py_for_cons x xs w :
  conf_of (py_for (x :: xs) body w)
  = match after_body xs (body x w) with
    | Iter xs' w' => conf_of (py_for xs' body w')
    | c => c
    end.
Proof. cbn [py_for]. py_unfold. by destruct (body x w) as [[[v|]|e] w']. Qed.

(** The machine, run as a function with enough fuel, ends where [py_for]
    ends. *)
Lemma run_for_py_for n xs w :
  length xs < n → run_for body n (Iter xs w) = conf_of (py_for xs body w).
Proof.
  revert xs w. induction n as [|n IH]; intros xs w Hn; [lia|].
  destruct xs as [|x xs]; [done|]. cbn [run_for]. rewrite conf_of_py_for_cons.
  destruct (body x w) as [[[v|]|e] w']; cbn [after_body conf_of]; try by destruct n.
  apply IH. simpl in Hn. lia.
Qed.

(** The function follows the steps. *)
Lemma run_for_steps n c : rtc (loop_step body) c (run_for body n c).
Proof.
  revert c. induction n as [|n IH]; intros c; [done|].
  destruct c as [[|x xs] w| |]; cbn [run_for]; try done.
  - apply rtc_once. constructor.
  - eapply rtc_l; [constructor|]. apply IH.
Qed.

Lemma run_for_final n c : fuel_of c ≤ n → final (run_for body n c) = true.
Proof.
  revert c. induction n as [|n IH]; intros c Hn.
  { destruct c; simpl in *; [lia|done..]. }
  destruct c as [[|x xs] w| |]; cbn [run_for]; try done.
  apply IH. pose proof (after_body_fuel xs (body x w)). simpl in Hn. lia.
Qed.

(** A run that has reached a final configuration has reached the one of
    the function. *)
Lemma rtc_final_unique c c1 c2 :
  rtc (loop_step body) c c1 → final c1 = true →
  rtc (loop_step body) c c2 → final c2 = true → c1 = c2.
Proof.
  intros H1 Hf1%final_nf H2 Hf2%final_nf. eapply confluent_rtc_nf; [|done..].
  apply deterministic_confluent. intros ???. apply loop_step_det.
Qed.

(** The loop as a machine computes [py_for]: a run from the head of
    the loop ends in a final configuration exactly when that configuration
    is the outcome of [py_for]. *)
Theorem loop_machine_py_for xs w c :
  rtc (loop_step body) (Iter xs w) c ∧ final c = true ↔ c = conf_of (py_for xs body w).
Proof.
  pose proof (run_for_steps (S (length xs)) (Iter xs w)) as Hrun.
  rewrite run_for_py_for in Hrun by lia. split.
  - intros [Hc Hf]. eapply rtc_final_unique; eauto using final_conf_of.
  - intros ->. eauto using final_conf_of.
Qed.

(** No configuration has an infinite run. *)
Lemma loop_sn c : sn (loop_step body) c.
Proof. apply (sn_measure _ fuel_of), loop_step_fuel. Qed.

(** A loop whose body leaves at the first element takes one step. *)
Lemma loop_first_leaves x xs w :
  (∀ w', body x w ≠ (Ret None, w')) →
  loop_step body (Iter (x :: xs) w) (conf_of (py_for (x :: xs) body w)).
Proof.
  intros Hb. rewrite conf_of_py_for_cons.
  replace (match after_body xs (body x w) with Iter xs' w' => _ | c => c end)
    with (after_body xs (body x w)); [constructor|].
  destruct (body x w) as [[[v|]|e] w'] eqn:Hbody; try done. by destruct (Hb w').
Qed.

(** Such a loop has no run of more than one step, whatever the number of
    elements, and its run of one step ends in the outcome of [py_for]. *)
Lemma loop_first_leaves_nsteps x xs w n c :
  (∀ w', body x w ≠ (Ret None, w')) →
  nsteps (loop_step body) n (Iter (x :: xs) w) c →
  n ≤ 1 ∧ (n = 1 → c = conf_of (py_for (x :: xs) body w)).
Proof.
  intros Hb Hn. pose proof (loop_first_leaves x xs w Hb) as Hstep.
  inversion Hn as [|m ? c1 ? Hs Hrest]; subst; [split; [lia|done]|].
  rewrite (loop_step_det _ _ _ Hs Hstep) in Hrest.
  inversion Hrest as [|m' ? c2 ? Hs2 _]; subst; [done|].
  by destruct (proj1 (final_nf _) (final_conf_of _) (ex_intro _ c2 Hs2)).
Qed.

End machine_lemmas.
