(* ===== verification/PyStr.v ===== *)
(** * PyStr: the methods of Python's [str] that [src/s3_minio.py] calls

    [str.strip], [str.replace], the substring test [in], [str.split] with
    a one-character separator, [re.sub] of a negated character class by the
    empty string, [str(int)] and zero padding.  A character is a code point
    below 256.  Each function is executable; the lemmas give the equations
    that characterise it and the facts the components need. *)

From S2P Require Import Prelude.

(** ** Definitions *)

(** [c.isspace()] for a code point below 256: TAB..CR, FS..US, SPACE,
    NEL (0x85) and NBSP (0xA0). *)
Definition isspace (c : ascii) : bool :=
  let n := N_of_ascii c in
  ((9 <=? n) && (n <=? 13) || (28 <=? n) && (n <=? 32) || (n =? 133) || (n =? 160))%N.

(** [s.lstrip()]. *)
Fixpoint lstrip (s : string) : string :=
  match s with
  | "" => ""
  | String c s' => if isspace c then lstrip s' else s
  end.

(** [s.rstrip()]. *)
Fixpoint rstrip (s : string) : string :=
  match s with
  | "" => ""
  | String c s' =>
      match rstrip s' with
      | "" => if isspace c then "" else String c ""
      | r => String c r
      end
  end.

(** [s.strip()]. *)
Definition strip (s : string) : string := lstrip (rstrip s).

(** [new.join(s)] over the characters of [s], followed by [new] after each:
    the result of replacing the empty string. *)
Fixpoint intersperse (new s : string) : string :=
  match s with
  | "" => ""
  | String c s' => String c (new +:+ intersperse new s')
  end.

(** The scan of [str.replace]: [skip] characters of a matched occurrence
    are still to be dropped. *)
Fixpoint replace_go (old new : string) (skip : nat) (s : string) : string :=
  match s with
  | "" => ""
  | String c s' =>
      match skip with
      | S k => replace_go old new k s'
      | 0 =>
          if String.prefix old s
          then new +:+ replace_go old new (String.length old - 1) s'
          else String c (replace_go old new 0 s')
      end
  end.

(** [s.replace(old, new)]: every non-overlapping occurrence, left to right. *)
Definition replace (old new s : string) : string :=
  match old with
  | "" => new +:+ intersperse new s
  | _ => replace_go old new 0 s
  end.

(** [sub in s]. *)
Fixpoint contains (sub s : string) : bool :=
  String.prefix sub s ||
  match s with
  | "" => false
  | String _ s' => contains sub s'
  end.

(** The string with [f] applied to every character. *)
Fixpoint str_map (f : ascii → ascii) (s : string) : string :=
  match s with
  | "" => ""
  | String c s' => String (f c) (str_map f s')
  end.

(** The characters of [s] that satisfy [keep], in order. *)
Fixpoint str_filter (keep : ascii → bool) (s : string) : string :=
  match s with
  | "" => ""
  | String c s' => if keep c then String c (str_filter keep s') else str_filter keep s'
  end.

(** Membership in the class [A-Za-z0-9._-]. *)
Definition is_valid_char (c : ascii) : bool :=
  let n := N_of_ascii c in
  ((65 <=? n) && (n <=? 90) || (97 <=? n) && (n <=? 122) ||
   (48 <=? n) && (n <=? 57) || (n =? 46) || (n =? 95) || (n =? 45))%N.

(** A string in which [sep] does not occur. *)
Definition no_sep (sep : ascii) (s : string) : bool :=
  str_forall (λ c, negb (Ascii.eqb c sep)) s.

(** [s.split(sep)] for a separator of one character. *)
Fixpoint split (sep : ascii) (s : string) : list string :=
  match s with
  | "" => [""]
  | String c s' =>
      match split sep s' with
      | [] => [String c ""]
      | h :: t => if Ascii.eqb c sep then "" :: h :: t else String c h :: t
      end
  end.

(** [l[-1]] on a list of strings known to be non-empty. *)
Definition last_item (l : list string) : string := List.last l "".

(** [sep.join(l)]. *)
Definition join (sep : string) (l : list string) : string := String.concat sep l.

(** Decimal digits. *)
Definition digit_char (d : N) : ascii := ascii_of_N (48 + d).

Definition is_digit (c : ascii) : bool :=
  let n := N_of_ascii c in ((48 <=? n) && (n <=? 57))%N.

(** The digits of [n], most significant first, in front of [acc]. *)
Fixpoint str_N_go (fuel : nat) (n : N) (acc : string) : string :=
  match fuel with
  | 0 => acc
  | S f =>
      let acc' := String (digit_char (n mod 10)) acc in
      if (n / 10 =? 0)%N then acc' else str_N_go f (n / 10) acc'
  end.

(** [str(n)] for a natural number. *)
Definition str_N (n : N) : string := str_N_go (S (N.to_nat (N.size n))) n "".

(** [str(z)] for an integer. *)
Definition str_Z (z : Z) : string :=
  if (z <? 0)%Z then "-" +:+ str_N (Z.abs_N z) else str_N (Z.to_N z).

(** [s.zfill(width)] for a string of digits (no sign). *)
Definition zfill (width : nat) (s : string) : string :=
  String.string_of_list_ascii (replicate (width - String.length s) "0"%char) +:+ s.

(** Reading digits back, the reference the printer is checked against
    ([int_go_str_N]): the value of a string of digits after the value [v]
    of the digits before it. *)
Definition digit_val (c : ascii) : N := (N_of_ascii c - 48)%N.

Fixpoint int_go (v : N) (s : string) : N :=
  match s with
  | "" => v
  | String c s => int_go (v * 10 + digit_val c)%N s
  end.

(** ** Examples: the functions agree with the interpreter *)

Example strip_ex : strip "  a b	" = "a b".
Proof. reflexivity. Qed.

Example replace_ex : replace ".jpg" ".webp" "a.jpg.b.jpg" = "a.webp.b.webp".
Proof. reflexivity. Qed.

Example replace_overlap_ex : replace "aa" "b" "aaaaa" = "bba".
Proof. reflexivity. Qed.

Example replace_empty_ex : replace "" "-" "abc" = "-a-b-c-".
Proof. reflexivity. Qed.

Example split_ex : split "." "a.b..c." = ["a"; "b"; ""; "c"; ""].
Proof. reflexivity. Qed.

Example str_Z_ex : str_Z 1000 = "1000" ∧ str_Z 0 = "0" ∧ str_Z (-42) = "-42".
Proof. by vm_compute. Qed.

Example zfill_ex : zfill 2 (str_N 5) = "05" ∧ zfill 2 (str_N 12) = "12".
Proof. by vm_compute. Qed.

(** ** Filtering and character classes *)

Section filter.
Implicit Types (s t : string) (c : ascii) (keep : ascii → bool).

Lemma str_filter_app keep s t :
  str_filter keep (s +:+ t) = str_filter keep s +:+ str_filter keep t.
Proof.
  induction s as [|c s IH]; [done|].
  rewrite str_app_cons. simpl. destruct (keep c); by rewrite ?str_app_cons, IH.
Qed.

Lemma str_filter_forall keep s : str_forall keep (str_filter keep s) = true.
Proof.
  induction s as [|c s IH]; [done|]. simpl.
  destruct (keep c) eqn:Hc; simpl; by rewrite ?Hc.
Qed.

Lemma str_filter_id keep s : str_forall keep s = true → str_filter keep s = s.
Proof.
  induction s as [|c s IH]; [done|]. simpl.
  intros [-> ?]%andb_true_iff. by rewrite IH.
Qed.

Lemma str_filter_idem keep s :
  str_filter keep (str_filter keep s) = str_filter keep s.
Proof. apply str_filter_id, str_filter_forall. Qed.

Lemma str_filter_length keep s :
  String.length (str_filter keep s) ≤ String.length s.
Proof. induction s as [|c s IH]; simpl; [done|]. destruct (keep c); simpl; lia. Qed.

Lemma str_filter_none keep s :
  str_forall (λ c, negb (keep c)) s = true → str_filter keep s = "".
Proof.
  induction s as [|c s IH]; [done|]. simpl.
  intros [Hc ?]%andb_true_iff. apply negb_true_iff in Hc. rewrite Hc. auto.
Qed.

(** A character of the class [A-Za-z0-9._-] is not white space. *)
Lemma valid_char_not_space c : is_valid_char c = true → isspace c = false.
Proof.
  unfold is_valid_char, isspace. generalize (N_of_ascii c). intros n.
  rewrite !orb_true_iff, !andb_true_iff, !orb_false_iff, !andb_false_iff,
    !N.leb_le, !N.eqb_eq, !N.leb_gt, !N.eqb_neq. lia.
Qed.

Lemma digit_is_valid c : is_digit c = true → is_valid_char c = true.
Proof.
  unfold is_valid_char, is_digit. generalize (N_of_ascii c). intros n.
  rewrite !orb_true_iff, !andb_true_iff, !N.leb_le, !N.eqb_eq. lia.
Qed.

End filter.

(** ** Stripping white space *)

Section strip.
Implicit Types (s t : string) (c : ascii).

Lemma lstrip_nonspace c s : isspace c = false → lstrip (String c s) = String c s.
Proof. simpl. by intros ->. Qed.

Lemma rstrip_nil_iff s : rstrip s = "" ↔ str_forall isspace s = true.
Proof.
  induction s as [|c s IH]; [done|]. simpl.
  destruct (rstrip s) eqn:Hr, (isspace c); simpl; try tauto; split; try done.
  all: intros H; apply IH in H; done.
Qed.

(** [rstrip] of a concatenation: trailing white space of [b] goes; if [b] is
    all white space, the trailing white space of [a] goes too. *)
Lemma rstrip_app a b :
  rstrip (a +:+ b) = match rstrip b with "" => rstrip a | r => a +:+ r end.
Proof.
  induction a as [|c a IH]; [rewrite str_app_nil_l; by destruct (rstrip b)|].
  rewrite str_app_cons. simpl. rewrite IH.
  destruct (rstrip b) eqn:Hb; [done|].
  rewrite str_app_cons. by destruct a.
Qed.

Lemma rstrip_no_space s :
  str_forall (λ c, negb (isspace c)) s = true → rstrip s = s.
Proof.
  induction s as [|c s IH]; [done|]. simpl.
  intros [Hc ->%IH]%andb_true_iff. apply negb_true_iff in Hc.
  rewrite Hc. by destruct s.
Qed.

Lemma lstrip_no_space s :
  str_forall (λ c, negb (isspace c)) s = true → lstrip s = s.
Proof.
  destruct s as [|c s]; [done|]. simpl.
  intros [Hc _]%andb_true_iff. apply negb_true_iff in Hc. by rewrite Hc.
Qed.

Lemma strip_no_space s :
  str_forall (λ c, negb (isspace c)) s = true → strip s = s.
Proof. intros H. unfold strip. by rewrite rstrip_no_space, lstrip_no_space. Qed.

(** A string that starts with a character that is not white space keeps
    its head under [strip]: only its tail is stripped on the right. *)
Lemma strip_head_nonspace c s :
  isspace c = false → strip (String c s) = String c (rstrip s).
Proof.
  intros Hc. unfold strip. simpl. rewrite Hc.
  destruct (rstrip s); simpl; by rewrite Hc.
Qed.

Lemma rstrip_idem s : rstrip (rstrip s) = rstrip s.
Proof.
  induction s as [|c s IH]; [done|]. simpl.
  destruct (rstrip s) as [|d r] eqn:Hr.
  - destruct (isspace c) eqn:Hc; simpl; by rewrite ?Hc.
  - simpl in *. by rewrite IH.
Qed.

End strip.

(** ** Substring test and replacement *)

Section replace.
Implicit Types (s t old new sub : string) (c : ascii).

Lemma contains_nil s : contains "" s = true.
Proof. by destruct s. Qed.

Lemma contains_prefix sub s : String.prefix sub s = true → contains sub s = true.
Proof. destruct s; simpl; intros ->; done. Qed.

Lemma contains_cons sub c s : contains sub s = true → contains sub (String c s) = true.
Proof. simpl. intros ->. apply orb_true_r. Qed.

Lemma contains_app sub a b : contains sub (a +:+ sub +:+ b) = true.
Proof.
  induction a as [|c a IH]; [rewrite str_app_nil_l; apply contains_prefix, str_prefix_app|].
  rewrite str_app_cons. by apply contains_cons.
Qed.

Lemma contains_app_r sub a s : contains sub s = true → contains sub (a +:+ s) = true.
Proof.
  intros Hs. induction a as [|c a IH]; [done|].
  rewrite str_app_cons. by apply contains_cons.
Qed.

Lemma contains_inv sub s : contains sub s = true → ∃ a b, s = a +:+ sub +:+ b.
Proof.
  induction s as [|c s IH]; cbn [contains]; rewrite orb_true_iff.
  - intros [[b Hb]%str_prefix_inv|]; [by exists "", b|done].
  - intros [[b Hb]%str_prefix_inv|(a & b & ->)%IH]; [by exists "", b|].
    by exists (String c a), b.
Qed.

(** [sub in s] holds exactly when [s] is [a + sub + b] for some [a], [b]. *)
Lemma contains_iff sub s : contains sub s = true ↔ ∃ a b, s = a +:+ sub +:+ b.
Proof. split; [apply contains_inv|]. intros (a & b & ->). apply contains_app. Qed.

Lemma contains_false_cons sub c s :
  contains sub (String c s) = false →
  String.prefix sub (String c s) = false ∧ contains sub s = false.
Proof. simpl. by intros ?%orb_false_iff. Qed.

Lemma replace_go_skip old new p t :
  replace_go old new (String.length p) (p +:+ t) = replace_go old new 0 t.
Proof. induction p as [|c p IH]; [done|]. by rewrite str_app_cons. Qed.

Lemma replace_go_match old new t :
  old ≠ "" → replace_go old new 0 (old +:+ t) = new +:+ replace_go old new 0 t.
Proof.
  destruct old as [|c o]; [done|]. intros _. rewrite str_app_cons.
  cbn [replace_go]. rewrite <-str_app_cons, str_prefix_app.
  cbn [String.length]. by rewrite Nat.sub_1_r, Nat.pred_succ, replace_go_skip.
Qed.

(** The equations of [replace]: at an occurrence of [old] the result
    continues after it with [new] in its place. *)
Lemma replace_match old new t :
  old ≠ "" → replace old new (old +:+ t) = new +:+ replace old new t.
Proof. destruct old; [done|]. intros. by apply replace_go_match. Qed.

(** Where [old] does not start, the character is kept. *)
Lemma replace_nomatch old new c s :
  String.prefix old (String c s) = false →
  replace old new (String c s) = String c (replace old new s).
Proof. destruct old; [done|]. unfold replace. cbn [replace_go]. by intros ->. Qed.

Lemma replace_nil old new : old ≠ "" → replace old new "" = "".
Proof. by destruct old. Qed.

(** Without an occurrence nothing changes. *)
Lemma replace_not_contains old new s : contains old s = false → replace old new s = s.
Proof.
  induction s as [|c s IH].
  - destruct old; [done|]. by intros _.
  - intros [Hp Hc]%contains_false_cons. by rewrite replace_nomatch, IH.
Qed.

Lemma prefix_head_mismatch o old c s :
  c ≠ o → String.prefix (String o old) (String c s) = false.
Proof. simpl. intros. destruct (ascii_dec o c); [congruence|done]. Qed.

(** An occurrence after a stretch [a] without the first character of [old]:
    [a] is kept and the occurrence is replaced. *)
Lemma replace_after o old new a t :
  str_forall (λ c, negb (Ascii.eqb c o)) a = true →
  replace (String o old) new (a +:+ String o old +:+ t)
  = a +:+ new +:+ replace (String o old) new t.
Proof.
  induction a as [|c a IH]; [intros _; rewrite !str_app_nil_l; by apply replace_match|].
  cbn [str_forall]. intros [Hc Ha]%andb_true_iff.
  apply negb_true_iff, Ascii.eqb_neq in Hc.
  rewrite !(str_app_cons c a), replace_nomatch, IH; auto using prefix_head_mismatch.
Qed.

End replace.

(** ** Splitting and joining *)

Section split.
Implicit Types (s t p e : string) (c sep : ascii) (l : list string).

Lemma split_nonempty sep s : split sep s ≠ [].
Proof. destruct s as [|c s]; [done|]. simpl. destruct (split sep s), (Ascii.eqb c sep); done. Qed.

Lemma split_cons sep c s :
  split sep (String c s) =
  match split sep s with
  | [] => [String c ""]
  | h :: t => if Ascii.eqb c sep then "" :: h :: t else String c h :: t
  end.
Proof. done. Qed.

Lemma join_cons_cons (j : string) x y l :
  join j (x :: y :: l) = x +:+ j +:+ join j (y :: l).
Proof. done. Qed.

(** Round trip of [split] and [join]: joining the pieces of
    [s.split(sep)] with the separator gives [s] back. *)
Theorem join_split sep s : join (String sep "") (split sep s) = s.
Proof.
  induction s as [|c s IH]; [done|]. rewrite split_cons.
  destruct (split sep s) as [|h t] eqn:Hs; [by destruct (split_nonempty sep s)|].
  destruct (Ascii.eqb_spec c sep) as [->|_].
  - by rewrite join_cons_cons, IH.
  - destruct t; [by rewrite <-IH|].
    rewrite join_cons_cons in *. by rewrite str_app_cons, IH.
Qed.

(** A string without the separator is one piece. *)
Lemma split_no_sep sep s :
  str_forall (λ c, negb (Ascii.eqb c sep)) s = true → split sep s = [s].
Proof.
  induction s as [|c s IH]; [done|]. cbn [str_forall].
  intros [Hc Hs]%andb_true_iff. rewrite split_cons, (IH Hs).
  apply negb_true_iff in Hc. by rewrite Hc.
Qed.

(** Splitting distributes over a separator. *)
Lemma split_app_sep sep p e :
  split sep (p +:+ String sep e) = split sep p ++ split sep e.
Proof.
  induction p as [|c p IH].
  - rewrite str_app_nil_l, split_cons, Ascii.eqb_refl.
    destruct (split sep e) eqn:He; [by destruct (split_nonempty sep e)|done].
  - rewrite str_app_cons, !split_cons, IH.
    destruct (split sep p) eqn:Hp; [by destruct (split_nonempty sep p)|].
    by destruct (Ascii.eqb c sep).
Qed.

Lemma last_item_app l1 l2 : l2 ≠ [] → last_item (l1 ++ l2) = last_item l2.
Proof.
  unfold last_item. intros Hl2. induction l1 as [|x l1 IH]; [done|].
  simpl. destruct (l1 ++ l2) eqn:Hl; [|done].
  by apply app_eq_nil in Hl as [_ ?].
Qed.

(** The text after the last separator: [s.split(sep)[-1]]. *)
Lemma last_item_split_app sep p e :
  str_forall (λ c, negb (Ascii.eqb c sep)) e = true →
  last_item (split sep (p +:+ String sep e)) = e.
Proof.
  intros He. rewrite split_app_sep, last_item_app by apply split_nonempty.
  by rewrite split_no_sep.
Qed.

(** The last piece contains no separator. *)
Lemma last_item_split_no_sep sep s :
  str_forall (λ c, negb (Ascii.eqb c sep)) (last_item (split sep s)) = true.
Proof.
  unfold last_item. induction s as [|c s IH]; [done|]. rewrite split_cons.
  destruct (split sep s) as [|h t] eqn:Hs; [by destruct (split_nonempty sep s)|].
  destruct (Ascii.eqb c sep) eqn:Hc; [done|].
  destruct t; [|done]. simpl in *. by rewrite Hc, IH.
Qed.

(** A string that splits into one piece is that piece. *)
Lemma split_singleton sep s h : split sep s = [h] → h = s.
Proof.
  revert h. induction s as [|c s IH]; intros h; [by intros [= <-]|].
  rewrite split_cons.
  destruct (split sep s) as [|h' t] eqn:Hs; [by destruct (split_nonempty sep s)|].
  destruct (Ascii.eqb c sep); [done|]. intros [= <- ->]. by rewrite (IH h').
Qed.

(** The last piece is a suffix of the string. *)
Lemma last_item_split_suffix sep s : ∃ p, s = p +:+ last_item (split sep s).
Proof.
  unfold last_item. induction s as [|c s [p IH]]; [by exists ""|]. rewrite split_cons.
  destruct (split sep s) as [|h t] eqn:Hs; [by destruct (split_nonempty sep s)|].
  destruct (Ascii.eqb c sep) eqn:Hc.
  - exists (String c p). cbn [List.last] in *. by rewrite str_app_cons, <-IH.
  - destruct t; [exists ""; by rewrite (split_singleton sep s h Hs)|].
    exists (String c p). cbn [List.last] in *. by rewrite str_app_cons, <-IH.
Qed.

End split.

(** ** Decimal rendering *)

Section digits.
Implicit Types (n d : N) (acc : string) (fuel : nat).
Local Open Scope N_scope.

Lemma digit_char_is_digit d : d < 10 → is_digit (digit_char d) = true.
Proof.
  intros Hd. unfold is_digit, digit_char.
  rewrite N_ascii_embedding by lia.
  apply andb_true_iff; split; apply N.leb_le; lia.
Qed.

Lemma str_N_go_digits fuel n acc :
  str_forall is_digit acc = true → str_forall is_digit (str_N_go fuel n acc) = true.
Proof.
  revert n acc. induction fuel as [|fuel IH]; intros n acc Hacc; [done|].
  assert (str_forall is_digit (String (digit_char (n mod 10)) acc) = true) as Hd.
  { simpl. rewrite Hacc, digit_char_is_digit; [done|]. by apply N.mod_lt. }
  simpl. destruct (n / 10 =? 0); auto.
Qed.

(** [str(n)] consists of decimal digits. *)
Lemma str_N_digits n : str_forall is_digit (str_N n) = true.
Proof. by apply str_N_go_digits. Qed.

(** One step of the printer on a number of one digit, and of several. *)
Lemma str_N_go_small fuel n acc :
  n < 10 → str_N_go (S fuel) n acc = String (digit_char n) acc.
Proof.
  intros Hn. simpl. rewrite (N.div_small n 10), (N.mod_small n 10) by done. done.
Qed.

Lemma str_N_go_step fuel n acc :
  10 ≤ n →
  str_N_go (S fuel) n acc = str_N_go fuel (n / 10) (String (digit_char (n mod 10)) acc).
Proof.
  intros Hn. simpl. destruct (N.eqb_spec (n / 10) 0) as [Hq|]; [|done].
  apply N.div_small_iff in Hq; lia.
Qed.

(** The result does not depend on the fuel once [n < 10 ^ fuel]. *)
Lemma str_N_go_fuel f1 f2 n acc :
  n < 10 ^ N.of_nat (S f1) → n < 10 ^ N.of_nat (S f2) →
  str_N_go (S f1) n acc = str_N_go (S f2) n acc.
Proof.
  revert f2 n acc. induction f1 as [|f1 IH]; intros f2 n acc H1 H2.
  { rewrite !str_N_go_small; [done|lia..]. }
  destruct (N.lt_ge_cases n 10) as [?|Hn]; [by rewrite !str_N_go_small|].
  destruct f2 as [|f2]; [simpl in H2; lia|].
  rewrite !(str_N_go_step (S _)) by done. apply IH.
  all: apply N.Div0.div_lt_upper_bound.
  all: by rewrite <-N.pow_succ_r', <-Nat2N.inj_succ.
Qed.

(** The fuel of [str_N] is enough: any fuel that covers the decimal digits
    gives the same string. *)
Lemma str_N_fuel_enough n fuel :
  n < 10 ^ N.of_nat (S fuel) → str_N n = str_N_go (S fuel) n "".
Proof.
  intros Hf. apply str_N_go_fuel; [|done].
  rewrite Nat2N.inj_succ, N2Nat.id, N.pow_succ_r'.
  pose proof (N.size_gt n).
  assert (2 ^ N.size n ≤ 10 ^ N.size n) by (apply N.pow_le_mono_l; lia).
  lia.
Qed.

(** A number of four digits prints as its four digits. *)
Lemma str_N_four_digits n :
  1000 ≤ n ≤ 9999 →
  str_N n = String (digit_char (n / 1000)) (String (digit_char (n / 100 mod 10))
           (String (digit_char (n / 10 mod 10)) (String (digit_char (n mod 10)) ""))).
Proof.
  intros Hn. rewrite (str_N_fuel_enough n 3) by (simpl; lia).
  rewrite 3!str_N_go_step, str_N_go_small by lia.
  rewrite !N.Div0.div_div. done.
Qed.

Lemma str_N_four_digits_length n :
  1000 ≤ n ≤ 9999 → String.length (str_N n) = 4%nat.
Proof. intros Hn. by rewrite str_N_four_digits. Qed.

(** On a natural number [str_Z] is [str_N]. *)
Lemma str_Z_nonneg z : (0 ≤ z)%Z → str_Z z = str_N (Z.to_N z).
Proof. intros Hz. unfold str_Z. destruct (Z.ltb_spec z 0); [lia|done]. Qed.

Lemma zfill_length width s :
  (String.length s ≤ width)%nat → String.length (zfill width s) = width.
Proof.
  intros Hw. unfold zfill. rewrite str_length_app.
  assert (∀ k, String.length (String.string_of_list_ascii (replicate k "0"%char)) = k) as ->.
  { induction k; simpl; congruence. }
  lia.
Qed.

Lemma zfill_ge width s : (width ≤ String.length s)%nat → zfill width s = s.
Proof. intros Hw. unfold zfill. by replace (width - String.length s)%nat with 0%nat by lia. Qed.

Lemma zfill_digits width s :
  str_forall is_digit s = true → str_forall is_digit (zfill width s) = true.
Proof.
  intros Hs. unfold zfill. rewrite str_forall_app, Hs, andb_true_r.
  induction (width - String.length s)%nat; simpl; [done|]. done.
Qed.

End digits.

(** ** Replacement of one character by another *)

Section replace_char.
Implicit Types (s : string) (a b c : ascii).

Lemma prefix_char a c s :
  String.prefix (String a "") (String c s) = Ascii.eqb a c.
Proof.
  simpl. destruct (ascii_dec a c) as [->|Hne].
  - rewrite Ascii.eqb_refl. by destruct s.
  - symmetry. by apply Ascii.eqb_neq.
Qed.

(** Replacing a one-character string by a one-character string maps the
    characters one by one. *)
Lemma replace_char a b s :
  replace (String a "") (String b "") s
  = str_map (λ c, if Ascii.eqb a c then b else c) s.
Proof.
  induction s as [|c s IH]; [done|]. cbn [str_map].
  destruct (Ascii.eqb a c) eqn:Hac.
  - apply Ascii.eqb_eq in Hac as ->.
    change (String c s) with (String c "" +:+ s). by rewrite replace_match, IH.
  - by rewrite replace_nomatch, IH by (by rewrite prefix_char).
Qed.

Lemma contains_char a s : contains (String a "") s = str_exists (Ascii.eqb a) s.
Proof.
  induction s as [|c s IH]; [done|].
  cbn [contains str_exists]. by rewrite prefix_char, IH.
Qed.

Lemma str_map_length f s : String.length (str_map f s) = String.length s.
Proof. induction s; simpl; congruence. Qed.

Lemma str_map_id f s :
  str_forall (λ c, Ascii.eqb (f c) c) s = true → str_map f s = s.
Proof.
  induction s as [|c s IH]; [done|]. simpl.
  intros [->%Ascii.eqb_eq ?]%andb_true_iff. by rewrite IH.
Qed.

Lemma str_map_app f s t : str_map f (s +:+ t) = str_map f s +:+ str_map f t.
Proof. induction s as [|c s IH]; [done|]. rewrite str_app_cons. simpl. by rewrite IH. Qed.

End replace_char.

(** ** Stripping and replacing in a string with a clean beginning *)

Section more_strip.
Implicit Types (s t : string) (c : ascii).

Lemma no_space_nonempty_head s :
  s ≠ "" → str_forall (λ c, negb (isspace c)) s = true →
  ∃ c s', s = String c s' ∧ isspace c = false.
Proof.
  destruct s as [|c s']; [done|]. cbn [str_forall].
  intros _ [Hc _]%andb_true_iff. apply negb_true_iff in Hc. eauto.
Qed.

(** A string that begins with a stretch free of white space is stripped on
    its right end only, and the stretch stays. *)
Lemma strip_app_no_space s t :
  s ≠ "" → str_forall (λ c, negb (isspace c)) s = true →
  strip (s +:+ t) = s +:+ rstrip t.
Proof.
  intros Hne Hs. unfold strip. rewrite rstrip_app, (rstrip_no_space s Hs).
  destruct (no_space_nonempty_head s Hne Hs) as (c & s' & -> & Hc).
  destruct (rstrip t) as [|d r]; [by rewrite str_app_nil_r, lstrip_nonspace|].
  by rewrite str_app_cons, lstrip_nonspace.
Qed.

Lemma valid_no_space s :
  str_forall is_valid_char s = true → str_forall (λ c, negb (isspace c)) s = true.
Proof.
  apply str_forall_impl. intros c Hc. by rewrite valid_char_not_space.
Qed.

Lemma replace_char_app a b s t :
  replace (String a "") (String b "") (s +:+ t)
  = replace (String a "") (String b "") s +:+ replace (String a "") (String b "") t.
Proof. by rewrite !replace_char, str_map_app. Qed.

(** Replacing a character that does not occur changes nothing. *)
Lemma replace_char_absent a b s :
  str_forall (λ c, negb (Ascii.eqb a c)) s = true →
  replace (String a "") (String b "") s = s.
Proof.
  intros Hs. rewrite replace_char. apply str_map_id.
  revert Hs. apply str_forall_impl. intros c Hc.
  apply negb_true_iff in Hc. rewrite Hc. apply Ascii.eqb_refl.
Qed.

Lemma valid_no_blank s :
  str_forall is_valid_char s = true →
  str_forall (λ c, negb (Ascii.eqb " " c)) s = true.
Proof.
  apply str_forall_impl. intros c Hc. apply negb_true_iff, Ascii.eqb_neq.
  intros <-. done.
Qed.

End more_strip.

Section more_digits.
Implicit Types (n : N) (acc : string) (fuel : nat).
Local Open Scope N_scope.

Lemma str_N_go_length fuel n acc :
  (String.length acc < String.length (str_N_go (S fuel) n acc)
   ≤ S fuel + String.length acc)%nat.
Proof.
  revert n acc. induction fuel as [|fuel IH]; intros n acc.
  - simpl. destruct (n / 10 =? 0); simpl; lia.
  - destruct (N.lt_ge_cases n 10) as [?|Hn]; [rewrite str_N_go_small by done; simpl; lia|].
    rewrite str_N_go_step by done.
    specialize (IH (n / 10) (String (digit_char (n mod 10)) acc)). simpl in *. lia.
Qed.

(** A number below [10 ^ k] prints with at least one and at most [k] digits. *)
Lemma str_N_length n k :
  n < 10 ^ N.of_nat (S k) → (1 ≤ String.length (str_N n) ≤ S k)%nat.
Proof.
  intros Hn. rewrite (str_N_fuel_enough n k Hn).
  pose proof (str_N_go_length k n ""). simpl in *. lia.
Qed.

End more_digits.

(** ** Reading the digits back *)

Section value.
Implicit Types (n v : N) (acc s t : string) (fuel : nat).
Local Open Scope N_scope.

Lemma digit_val_char d : d < 10 → digit_val (digit_char d) = d.
Proof. intros Hd. unfold digit_val, digit_char. rewrite N_ascii_embedding by lia. lia. Qed.

Lemma int_go_app v s t : int_go v (s +:+ t) = int_go (int_go v s) t.
Proof. revert v. induction s as [|c s IH]; intros v; [done|]. rewrite str_app_cons. apply IH. Qed.

(** The accumulator is only ever extended at its front. *)
Lemma str_N_go_acc fuel n acc : str_N_go fuel n acc = str_N_go fuel n "" +:+ acc.
Proof.
  revert n acc. induction fuel as [|fuel IH]; intros n acc; [done|]. cbn [str_N_go].
  destruct (n / 10 =? 0); [done|].
  by rewrite IH, (IH _ (String _ "")), str_app_assoc.
Qed.

(** The digits of a number of several digits: those of its tenth, then its
    last digit. *)
Lemma str_N_step n :
  10 ≤ n → str_N n = str_N (n / 10) +:+ String (digit_char (n mod 10)) "".
Proof.
  intros Hn. unfold str_N at 1. rewrite str_N_go_step, str_N_go_acc by done. f_equal.
  pose proof (N.size_gt n) as Hs.
  assert (2 ^ N.size n ≤ 10 ^ N.size n) by (apply N.pow_le_mono_l; lia).
  destruct (N.to_nat (N.size n)) as [|f] eqn:Hf.
  { assert (N.size n = 0) as Hz by lia. rewrite Hz in Hs. simpl in Hs. lia. }
  symmetry. apply str_N_fuel_enough. apply N.Div0.div_lt_upper_bound.
  rewrite <-Hf, N2Nat.id. lia.
Qed.

Lemma str_N_small n : n < 10 → str_N n = String (digit_char n) "".
Proof. intros Hn. unfold str_N. by rewrite str_N_go_small. Qed.

(** Round trip: the digits printed for [n] read back as [n], for every [n]:
    the fuel of the printer never runs out. *)
Lemma int_go_str_N n : int_go 0 (str_N n) = n.
Proof.
  induction n as [n IH] using (well_founded_induction N.lt_wf_0).
  destruct (N.lt_ge_cases n 10) as [?|Hn].
  { rewrite str_N_small by done. cbn [int_go]. rewrite digit_val_char by done. lia. }
  rewrite str_N_step, int_go_app, IH by (try apply N.div_lt; lia). cbn [int_go].
  rewrite digit_val_char by (apply N.mod_lt; lia).
  rewrite (N.div_mod n 10) at 3 by lia. lia.
Qed.

Lemma str_N_inj n m : str_N n = str_N m → n = m.
Proof. intros H. by rewrite <-(int_go_str_N n), H, int_go_str_N. Qed.

Lemma str_N_nonempty n : str_N n ≠ "".
Proof. pose proof (str_N_go_length (N.to_nat (N.size n)) n ""). unfold str_N. by destruct (str_N_go _ _ _); simpl in *; [lia|]. Qed.

End value.

(** ** Occurrences behind a stretch without the first character *)

Section contains_after.
Implicit Types (s t a old : string) (o c : ascii).

(** A stretch without the first character of [sub] holds no occurrence. *)
Lemma contains_after o old a t :
  no_sep o a = true →
  contains (String o old) (a +:+ t) = contains (String o old) t.
Proof.
  unfold no_sep. induction a as [|c a IH]; [done|]. cbn [str_forall].
  intros [Hc Ha]%andb_true_iff. apply negb_true_iff, Ascii.eqb_neq in Hc.
  rewrite str_app_cons. cbn [contains].
  by rewrite prefix_head_mismatch, IH.
Qed.

End contains_after.
