(* ===== verification/FileSystem.v ===== *)
(** * FileSystem: the local staging area under [temp/media/]

    [S3Minio.upload] reads the staged file through the boto3 client and
    then calls [os.remove], [os.path.dirname], [os.path.exists],
    [os.listdir] and [shutil.rmtree] on it and on its directory.  The file
    system is a finite map from a path, as the string the program passes to
    the operating system, to a regular file with its bytes or a directory.
    Paths are relative to the working directory and are compared as
    strings: the model covers paths in normal form ([path_ok]: components
    separated by single slashes, none of them empty, [.] or [..]).
    [fs_wf] is the invariant of a tree: every entry is in normal form and
    has its parent directory. *)

From S2P Require Import Prelude PyStr.

(** ** Data *)

Inductive node : Type :=
| File (data : string)
| Dir.

#[export] Instance node_eq_dec : EqDecision node.
Proof. solve_decision. Defined.

Abbreviation FS := (gmap string node).

Definition is_sep (c : ascii) : bool := Ascii.eqb c "/".

(** ** [os.path] on strings *)

(** [p[:p.rfind('/') + 1]]: the text up to and including the last slash. *)
Fixpoint head_part (p : string) : string :=
  match p with
  | "" => ""
  | String c p' =>
      match head_part p' with
      | "" => if is_sep c then String c "" else ""
      | h => String c h
      end
  end.

(** [p[p.rfind('/') + 1:]]: the text after the last slash. *)
Definition tail_part (p : string) : string := last_item (split "/" p).

(** [head.rstrip('/')]. *)
Fixpoint rstrip_sep (s : string) : string :=
  match s with
  | "" => ""
  | String c s' =>
      match rstrip_sep s' with
      | "" => if is_sep c then "" else String c ""
      | r => String c r
      end
  end.

(** [posixpath.dirname(p)]: the head, without its trailing slashes unless it
    consists of slashes only. *)
Definition dirname (p : string) : string :=
  let head := head_part p in
  if negb (String.eqb head "") && negb (str_forall is_sep head)
  then rstrip_sep head
  else head.

(** [posixpath.basename(p)]. *)
Definition basename (p : string) : string := tail_part p.

(** A component of a path in normal form. *)
Definition comp_ok (c : string) : bool :=
  negb (String.eqb c "") && negb (String.eqb c ".") && negb (String.eqb c "..").

(** A relative path in normal form. *)
Definition path_ok (p : string) : bool := forallb comp_ok (split "/" p).

(** [p] lies strictly below the directory [d]. *)
Definition under (d p : string) : bool := String.prefix (d +:+ "/") p.

(** ** Operations of [os] and [shutil] *)

(** [os.path.exists(p)]. *)
Definition os_path_exists (fs : FS) (p : string) : bool :=
  bool_decide (is_Some (fs !! p)).

(** The entries directly inside [d]. *)
Definition children (fs : FS) (d : string) : list string :=
  filter (λ p, dirname p = d) (elements (dom fs)).

(** [str(OSError)] as CPython prints it: errno, message and the path. *)
Definition os_error (c : exn_class) (errno text p : string) : exn :=
  Exn c ("[Errno " +:+ errno +:+ "] " +:+ text +:+ ": '" +:+ p +:+ "'") None.

Definition enoent (p : string) : exn :=
  os_error FileNotFoundError "2" "No such file or directory" p.
Definition eisdir (p : string) : exn :=
  os_error IsADirectoryError "21" "Is a directory" p.
Definition enotdir (p : string) : exn :=
  os_error NotADirectoryError "20" "Not a directory" p.

(** [os.remove(p)]: unlink a regular file. *)
Definition os_remove (p : string) (fs : FS) : res exn () * FS :=
  match fs !! p with
  | Some (File _) => (Ret (), delete p fs)
  | Some Dir => (Raise (eisdir p), fs)
  | None => (Raise (enoent p), fs)
  end.

(** [os.listdir(d)]: the names inside a directory. *)
Definition os_listdir (fs : FS) (d : string) : res exn (list string) :=
  match fs !! d with
  | Some Dir => Ret (basename <$> children fs d)
  | Some (File _) => Raise (enotdir d)
  | None => Raise (enoent d)
  end.

(** The file system without [d] and everything below it. *)
Definition without_tree (d : string) (fs : FS) : FS :=
  filter (λ kv, kv.1 ≠ d ∧ under d kv.1 = false) fs.

(** [shutil.rmtree(d)]: remove a directory and everything below it. *)
Definition shutil_rmtree (d : string) (fs : FS) : res exn () * FS :=
  match fs !! d with
  | Some Dir => (Ret (), without_tree d fs)
  | Some (File _) => (Raise (enotdir d), fs)
  | None => (Raise (enoent d), fs)
  end.

(** The bytes of a regular file, as the boto3 client reads them. *)
Definition read_file (fs : FS) (p : string) : res exn string :=
  match fs !! p with
  | Some (File data) => Ret data
  | Some Dir => Raise (eisdir p)
  | None => Raise (enoent p)
  end.

(** The file system is a world of its own: [os_remove p] and
    [shutil_rmtree d] are computations of [Py FS]; a call that only reads
    leaves it as it is. *)
Definition fs_reading {A} (f : FS → res exn A) : Py FS A := λ fs, (f fs, fs).

(** ** Invariant *)

(** The staging area is a tree: every entry is a path in normal form, and its
    parent is the working directory or a directory of the map. *)
Definition fs_wf (fs : FS) : Prop :=
  map_Forall (λ p _, path_ok p = true ∧ (dirname p = "" ∨ fs !! dirname p = Some Dir)) fs.

#[export] Instance fs_wf_dec fs : Decision (fs_wf fs).
Proof. unfold fs_wf. apply _. Defined.

(** A staging area for the examples: a directory with a file and a
    directory of its own with two files. *)
Definition demo_tree : FS :=
  {[ "temp" := Dir; "temp/a.png" := File "A"; "temp/Post" := Dir;
     "temp/Post/b.png" := File "B"; "temp/Post/c.png" := File "C" ]}.

(** ** Examples *)

Example dirname_ex :
  dirname "temp/media/a/b.png" = "temp/media/a" ∧ dirname "temp/media/x" = "temp/media" ∧
  dirname "x" = "" ∧ dirname "/x" = "/" ∧ dirname "a//b" = "a" ∧ dirname "temp/media/" = "temp/media".
Proof. by vm_compute. Qed.

Example path_ok_ex :
  path_ok "temp/media/a.png" = true ∧ path_ok "temp//a" = false ∧
  path_ok "temp/" = false ∧ path_ok "/temp" = false ∧ path_ok "a/../b" = false.
Proof. by vm_compute. Qed.

(** ** The operations, case by case *)

Section fs_ops.
Implicit Types (fs : FS) (p q d : string) (n : node) (e : exn).

Lemma os_path_exists_true fs p : os_path_exists fs p = true ↔ is_Some (fs !! p).
Proof. apply bool_decide_eq_true. Qed.

Lemma os_path_exists_false fs p : os_path_exists fs p = false ↔ fs !! p = None.
Proof. unfold os_path_exists. by rewrite bool_decide_eq_false, eq_None_not_Some. Qed.

Lemma os_remove_File fs p data :
  fs !! p = Some (File data) → os_remove p fs = (Ret (), delete p fs).
Proof. unfold os_remove. by intros ->. Qed.

Lemma os_remove_Ret_inv fs p fs' :
  os_remove p fs = (Ret (), fs') →
  (∃ data, fs !! p = Some (File data)) ∧ fs' = delete p fs.
Proof. unfold os_remove. destruct (fs !! p) as [[data|]|]; naive_solver. Qed.

Lemma os_remove_Raise_inv fs p e fs' :
  os_remove p fs = (Raise e, fs') →
  fs' = fs ∧ ∀ data, fs !! p ≠ Some (File data).
Proof. unfold os_remove. destruct (fs !! p) as [[data|]|]; naive_solver. Qed.

Lemma elem_of_children fs d q :
  q ∈ children fs d ↔ is_Some (fs !! q) ∧ dirname q = d.
Proof.
  unfold children. rewrite list_elem_of_filter, elem_of_elements, elem_of_dom. tauto.
Qed.

Lemma children_nil fs d :
  children fs d = [] ↔ ∀ q, is_Some (fs !! q) → dirname q ≠ d.
Proof.
  split.
  - intros Hnil q Hq Hd. assert (q ∈ children fs d) as Hin by by apply elem_of_children.
    rewrite Hnil in Hin. by apply not_elem_of_nil in Hin.
  - intros Hall. apply elem_of_nil_inv. intros q [??]%elem_of_children. naive_solver.
Qed.

Lemma os_listdir_Dir fs d :
  fs !! d = Some Dir → os_listdir fs d = Ret (basename <$> children fs d).
Proof. unfold os_listdir. by intros ->. Qed.

Lemma os_listdir_Ret_inv fs d names :
  os_listdir fs d = Ret names →
  fs !! d = Some Dir ∧ names = basename <$> children fs d.
Proof. unfold os_listdir. destruct (fs !! d) as [[]|]; naive_solver. Qed.

(** The listing is empty exactly when no entry has the directory as parent. *)
Lemma os_listdir_nil fs d :
  os_listdir fs d = Ret [] ↔
  fs !! d = Some Dir ∧ ∀ q, is_Some (fs !! q) → dirname q ≠ d.
Proof.
  rewrite <-children_nil. split.
  - intros [? Hn]%os_listdir_Ret_inv. split; [done|]. symmetry in Hn. by apply fmap_nil_inv in Hn.
  - intros [Hd Hn]. by rewrite os_listdir_Dir, Hn.
Qed.

Lemma shutil_rmtree_Dir fs d :
  fs !! d = Some Dir → shutil_rmtree d fs = (Ret (), without_tree d fs).
Proof. unfold shutil_rmtree. by intros ->. Qed.

Lemma shutil_rmtree_Ret_inv fs d fs' :
  shutil_rmtree d fs = (Ret (), fs') →
  fs !! d = Some Dir ∧ fs' = without_tree d fs.
Proof. unfold shutil_rmtree. destruct (fs !! d) as [[]|]; naive_solver. Qed.

Lemma shutil_rmtree_Raise_inv fs d e fs' :
  shutil_rmtree d fs = (Raise e, fs') → fs' = fs ∧ fs !! d ≠ Some Dir.
Proof. unfold shutil_rmtree. destruct (fs !! d) as [[]|]; naive_solver. Qed.

(** What is left after [rmtree d]: the entries that are neither [d] nor
    below it. *)
Lemma lookup_without_tree fs d q :
  without_tree d fs !! q =
  if decide (q ≠ d ∧ under d q = false) then fs !! q else None.
Proof.
  unfold without_tree. rewrite map_lookup_filter. destruct (fs !! q) as [n|]; simpl; [|by case_decide].
  by rewrite option_guard_decide; repeat case_decide.
Qed.

Lemma read_file_Ret_inv fs p data :
  read_file fs p = Ret data ↔ fs !! p = Some (File data).
Proof. unfold read_file. destruct (fs !! p) as [[]|]; naive_solver. Qed.

End fs_ops.

(** ** Paths *)

Section paths.
Implicit Types (p q d s t : string) (c : ascii).

Lemma head_part_prefix p : ∃ t, p = head_part p +:+ t.
Proof.
  induction p as [|c p [t IH]]; [by exists ""|]. simpl.
  destruct (head_part p) as [|c' h] eqn:Hh.
  - destruct (is_sep c); [by exists p|by exists (String c p)].
  - exists t. by rewrite str_app_cons, <-IH.
Qed.

Lemma rstrip_sep_prefix s : ∃ t, s = rstrip_sep s +:+ t.
Proof.
  induction s as [|c s [t IH]]; [by exists ""|]. simpl.
  destruct (rstrip_sep s) as [|c' r] eqn:Hr.
  - destruct (is_sep c); [by exists (String c s)|by exists s].
  - exists t. by rewrite str_app_cons, <-IH.
Qed.

(** [dirname p] is a prefix of [p]. *)
Lemma dirname_prefix p : ∃ t, p = dirname p +:+ t.
Proof.
  destruct (head_part_prefix p) as [t Ht]. unfold dirname.
  destruct (_ && _); [|by exists t].
  destruct (rstrip_sep_prefix (head_part p)) as [u Hu].
  exists (u +:+ t). by rewrite <-str_app_assoc, <-Hu.
Qed.

Lemma under_iff d p : under d p = true ↔ ∃ t, p = d +:+ "/" +:+ t.
Proof.
  unfold under. rewrite str_prefix_iff. by setoid_rewrite str_app_assoc.
Qed.

(** What lies below [d] has its parent at [d] or below it: a path whose
    parent is below [d] is below [d] itself. *)
Lemma under_dirname d p : under d (dirname p) = true → under d p = true.
Proof.
  rewrite !under_iff. intros [t Ht]. destruct (dirname_prefix p) as [u Hu].
  exists (t +:+ u). by rewrite Hu, Ht, !str_app_assoc.
Qed.

Lemma path_ok_nil : path_ok "" = false.
Proof. done. Qed.

End paths.

(** ** The invariant *)

Section wf.
Implicit Types (fs : FS) (p q d f : string) (n : node).

Lemma fs_wf_empty : fs_wf ∅.
Proof. apply map_Forall_empty. Qed.

Lemma fs_wf_lookup_nil fs : fs_wf fs → fs !! "" = None.
Proof.
  intros Hwf. destruct (fs !! "") as [n|] eqn:Hn; [|done].
  by destruct (Hwf _ _ Hn) as [? _].
Qed.

(** The parent of an entry is never a regular file. *)
Lemma fs_wf_parent fs p n data :
  fs_wf fs → fs !! p = Some n → fs !! dirname p ≠ Some (File data).
Proof.
  intros Hwf Hp. destruct (Hwf _ _ Hp) as [_ [Hd|Hd]]; rewrite Hd; [|done].
  by rewrite fs_wf_lookup_nil.
Qed.

(** Unlinking a regular file keeps the tree. *)
Lemma fs_wf_unlink fs f data :
  fs_wf fs → fs !! f = Some (File data) → fs_wf (map_del f fs).
Proof.
  intros Hwf Hf p n [Hne Hp]%lookup_delete_Some.
  destruct (Hwf _ _ Hp) as [Hok Hpar]. split; [done|].
  destruct Hpar as [?|Hd]; [by left|right].
  rewrite lookup_delete_ne; [done|]. intros Heq. rewrite <-Heq in Hd. congruence.
Qed.

(** Removing a directory that has no entry directly inside keeps the tree. *)
Lemma fs_wf_without_tree fs d :
  fs_wf fs → children fs d = [] → fs_wf (without_tree d fs).
Proof.
  intros Hwf Hc p n. rewrite lookup_without_tree.
  case_decide as Hp; [|done]. intros Hn.
  destruct (Hwf _ _ Hn) as [Hok Hpar]. split; [done|].
  destruct Hpar as [?|Hd]; [by left|right].
  rewrite lookup_without_tree, decide_True; [done|]. split.
  - apply (proj1 (children_nil fs d) Hc p). eauto.
  - destruct (under d (dirname p)) eqn:Hu; [|done].
    apply under_dirname in Hu. destruct Hp as [_ Hp]. congruence.
Qed.

End wf.

(** ** Parents of paths in normal form *)

Section dirname_paths.
Implicit Types (p q d s t a b h : string) (c : ascii).

Lemma path_ok_app_sep a b :
  path_ok (a +:+ String "/" b) = path_ok a && path_ok b.
Proof. unfold path_ok. by rewrite split_app_sep, forallb_app. Qed.

Lemma path_ok_cons_sep b : path_ok (String "/" b) = false.
Proof.
  unfold path_ok. rewrite split_cons.
  destruct (split "/" b) eqn:Hb; [by destruct (split_nonempty "/" b)|done].
Qed.

(** A path in normal form does not consist of slashes. *)
Lemma path_ok_not_seps p : path_ok p = true → str_forall is_sep p = false.
Proof.
  destruct p as [|c p]; [done|]. cbn [str_forall]. intros Hp.
  destruct (is_sep c) eqn:Hc; [|done].
  apply Ascii.eqb_eq in Hc as ->. by rewrite path_ok_cons_sep in Hp.
Qed.

Lemma head_part_no_sep b : no_sep "/" b = true → head_part b = "".
Proof.
  unfold no_sep. induction b as [|c b IH]; [done|]. cbn [str_forall head_part].
  intros [Hc Hb]%andb_true_iff. rewrite (IH Hb). unfold is_sep.
  by apply negb_true_iff in Hc as ->.
Qed.

Lemma head_part_app a h : head_part h ≠ "" → head_part (a +:+ h) = a +:+ head_part h.
Proof.
  intros Hh. induction a as [|c a IH]; [done|]. rewrite !str_app_cons. cbn [head_part].
  rewrite IH. destruct (a +:+ head_part h) eqn:Ha; [|done].
  by apply str_app_eq_nil in Ha as [_ ?].
Qed.

Lemma rstrip_sep_app_seps a b :
  rstrip_sep b = "" → rstrip_sep (a +:+ b) = rstrip_sep a.
Proof.
  intros Hb. induction a as [|c a IH]; [done|]. rewrite str_app_cons. cbn [rstrip_sep].
  by rewrite IH.
Qed.

Lemma rstrip_sep_fixed p : (∀ a, p ≠ a +:+ "/") → rstrip_sep p = p.
Proof.
  induction p as [|c p IH]; [done|]. intros Hp. cbn [rstrip_sep].
  destruct p as [|c' p'].
  - unfold is_sep. destruct (Ascii.eqb_spec c "/") as [->|]; [by destruct (Hp "")|done].
  - rewrite IH; [done|]. intros a Ha. apply (Hp (String c a)). by rewrite str_app_cons, <-Ha.
Qed.

(** Nothing is stripped from a path in normal form. *)
Lemma rstrip_sep_path_ok p : path_ok p = true → rstrip_sep p = p.
Proof.
  intros Hp. apply rstrip_sep_fixed. intros a ->.
  by rewrite path_ok_app_sep, andb_false_r in Hp.
Qed.

(** The parent of [p/b], for a path [p] in normal form and a name [b]. *)
Lemma dirname_app_base p b :
  path_ok p = true → no_sep "/" b = true → dirname (p +:+ String "/" b) = p.
Proof.
  intros Hp Hb. unfold dirname.
  assert (head_part (p +:+ String "/" b) = p +:+ "/") as ->.
  { rewrite head_part_app; cbn [head_part]; by rewrite (head_part_no_sep b Hb). }
  assert (str_forall is_sep (p +:+ "/") = false) as ->.
  { by rewrite str_forall_app, (path_ok_not_seps p Hp). }
  destruct (String.eqb_spec (p +:+ "/") "") as [[_ ?]%str_app_eq_nil|_]; [done|].
  cbn [negb andb]. by rewrite rstrip_sep_app_seps, rstrip_sep_path_ok.
Qed.

(** A name without a slash has no parent. *)
Lemma dirname_no_sep b : no_sep "/" b = true → dirname b = "".
Proof. intros Hb. unfold dirname. by rewrite (head_part_no_sep b Hb). Qed.

(** A string is a name, or a prefix, a slash and a name. *)
Lemma last_sep_decompose t :
  no_sep "/" t = true ∨ ∃ p b, t = p +:+ String "/" b ∧ no_sep "/" b = true.
Proof.
  unfold no_sep. induction t as [|c t IH]; [by left|]. cbn [str_forall].
  destruct IH as [Ht|(p & b & -> & Hb)].
  - destruct (Ascii.eqb_spec c "/") as [->|Hc]; [right; by exists "", t|left].
    by rewrite Ht.
  - right. exists (String c p), b. by rewrite str_app_cons.
Qed.

(** A path in normal form with a parent is that parent, a slash and a name. *)
Lemma path_ok_decompose q :
  path_ok q = true →
  (dirname q = "" ∧ no_sep "/" q = true) ∨
  ∃ b, q = dirname q +:+ String "/" b ∧ no_sep "/" b = true ∧ path_ok (dirname q) = true.
Proof.
  intros Hq. destruct (last_sep_decompose q) as [Hn|(p & b & -> & Hb)].
  - left. by rewrite dirname_no_sep.
  - right. rewrite path_ok_app_sep in Hq. apply andb_true_iff in Hq as [Hp _].
    rewrite dirname_app_base by done. by exists b.
Qed.

(** What lies below [d] has its parent at [d] or below [d]. *)
Lemma under_parent d q :
  path_ok q = true → under d q = true → dirname q = d ∨ under d (dirname q) = true.
Proof.
  intros Hq [t Ht]%under_iff.
  destruct (last_sep_decompose t) as [Hnt|(p & b' & -> & Hb')].
  - left. rewrite Ht. apply dirname_app_base; [|done].
    rewrite Ht in Hq. change ("/" +:+ t) with (String "/" t) in Hq.
    rewrite path_ok_app_sep in Hq. by apply andb_true_iff in Hq as [? _].
  - right. rewrite Ht. change ("/" +:+ p +:+ String "/" b') with (String "/" (p +:+ String "/" b')).
    rewrite <-(str_app_cons "/"), <-str_app_assoc, dirname_app_base.
    + apply under_iff. by exists p.
    + rewrite Ht in Hq. change ("/" +:+ p +:+ String "/" b') with (String "/" (p +:+ String "/" b')) in Hq.
      rewrite <-(str_app_cons "/"), <-str_app_assoc, path_ok_app_sep in Hq.
      by apply andb_true_iff in Hq as [? _].
    + done.
Qed.

(** A path in normal form lies below its parent. *)
Lemma under_own_parent q :
  path_ok q = true → dirname q ≠ "" → under (dirname q) q = true.
Proof.
  intros Hq Hd. destruct (path_ok_decompose q Hq) as [[? _]|(b & Hb & _)]; [done|].
  apply under_iff. by exists b.
Qed.

(** The parent is shorter than the path. *)
Lemma dirname_length q : q ≠ "" → path_ok q = true → String.length (dirname q) < String.length q.
Proof.
  intros Hne Hq. destruct (path_ok_decompose q Hq) as [[-> _]|(b & Hb & _)].
  - destruct q; [done|simpl; lia].
  - rewrite Hb at 2. rewrite str_length_app. simpl. lia.
Qed.

End dirname_paths.

(** ** Directories of a tree *)

Section tree.
Implicit Types (fs : FS) (p q d f c : string) (n : node).

(** In a tree, below a directory that holds something there is an entry
    directly inside it. *)
Lemma fs_wf_under_child fs d q :
  fs_wf fs → is_Some (fs !! q) → under d q = true →
  ∃ c, is_Some (fs !! c) ∧ dirname c = d.
Proof.
  intros Hwf. remember (String.length q) as m eqn:Hm. revert q Hm.
  induction m as [m IH] using lt_wf_ind. intros q -> [n Hq] Hu.
  destruct (Hwf _ _ Hq) as [Hok Hpar].
  destruct (under_parent d q Hok Hu) as [Hd|Hd]; [by eauto|].
  destruct Hpar as [Hnil|Hdir]; [rewrite Hnil in Hd; by destruct d|].
  apply (IH (String.length (dirname q))) with (dirname q); eauto.
  apply dirname_length; [by intros ->|done].
Qed.

(** In a tree, nothing lies below a directory that has no entry. *)
Lemma fs_wf_empty_dir fs d q :
  fs_wf fs → children fs d = [] → is_Some (fs !! q) → under d q = false.
Proof.
  intros Hwf Hc Hq. destruct (under d q) eqn:Hu; [|done].
  destruct (fs_wf_under_child fs d q Hwf Hq Hu) as (c & Hcin & Hcd).
  by destruct (proj1 (children_nil fs d) Hc c Hcin).
Qed.

(** Removing the tree of an empty directory removes the directory only. *)
Lemma without_tree_empty fs d :
  fs_wf fs → children fs d = [] → without_tree d fs = map_del d fs.
Proof.
  intros Hwf Hc. apply map_eq. intros q. rewrite lookup_without_tree.
  destruct (decide (q = d)) as [->|Hne].
  - rewrite lookup_delete_eq. by rewrite decide_False by tauto.
  - rewrite lookup_delete_ne by done. case_decide as Hq; [done|].
    destruct (fs !! q) eqn:Hfq; [|done]. destruct Hq. split; [done|].
    apply (fs_wf_empty_dir fs); eauto.
Qed.

(** A directory that is empty stays empty when entries are removed. *)
Lemma children_nil_subseteq fs fs' d : fs' ⊆ fs → children fs d = [] → children fs' d = [].
Proof.
  rewrite !children_nil. intros Hsub Hnil q [n Hq]. apply Hnil.
  exists n. by eapply lookup_weaken.
Qed.

(** [shutil.rmtree] keeps the tree, whatever the directory holds. *)
Lemma fs_wf_rmtree fs d : fs_wf fs → fs_wf (without_tree d fs).
Proof.
  intros Hwf p n. rewrite lookup_without_tree.
  case_decide as Hp; [|done]. intros Hn. destruct Hp as [Hpd Hpu].
  destruct (Hwf _ _ Hn) as [Hok Hpar]. split; [done|].
  destruct Hpar as [?|Hd]; [by left|right].
  rewrite lookup_without_tree, decide_True; [done|]. split.
  - intros Heq. rewrite <-Heq, under_own_parent in Hpu; [done..|].
    intros Hnil. rewrite Hnil in Hd. by rewrite (fs_wf_lookup_nil fs Hwf) in Hd.
  - destruct (under d (dirname p)) eqn:Hu; [|done].
    apply under_dirname in Hu. congruence.
Qed.

End tree.

(** ** The operations keep the tree *)

Section preservation.
Implicit Types (fs : FS) (p : string).

(** [os.remove] and [shutil.rmtree] keep the staging area a tree,
    whether they succeed or raise, and whatever the directory removed
    holds. *)
Theorem fs_ops_preserve_wf fs p :
  fs_wf fs → fs_wf (os_remove p fs).2 ∧ fs_wf (shutil_rmtree p fs).2.
Proof.
  intros Hwf. unfold os_remove, shutil_rmtree.
  destruct (fs !! p) as [[data|]|] eqn:Hp; simpl; eauto using fs_wf_unlink, fs_wf_rmtree.
Qed.

Lemma fs_ops_preserve_wf_witness :
  fs_wf (os_remove "temp/Post" demo_tree).2 ∧ fs_wf (shutil_rmtree "temp/Post" demo_tree).2.
Proof.
  apply fs_ops_preserve_wf. apply (bool_decide_unpack (fs_wf demo_tree)). by vm_compute.
Defined.

End preservation.
