(* ===== verification/ObjectStore.v ===== *)
(** * ObjectStore: what the gateway expects of the boto3 S3 client

    [S3Minio] calls five things of boto3: [boto3.client], and the client's
    [upload_file], [delete_object], [head_object] and
    [generate_presigned_url].  The class [ObjectStore] gives them as
    operations on the state of a store; [objects] observes which keys of
    which bucket hold which bytes.  [ObjectStoreLaws] states what the
    gateway's guarantees rest on.  [mem_store] is an in-memory S3 with
    buckets, credentials and a network that can be down; it implements the
    class and satisfies the laws. *)

From S2P Require Import Prelude PyStr FileSystem.

(** ** The client and the interface *)

(** The arguments [boto3.client] keeps. *)
Record client : Type := Client {
  endpoint_url : string;
  aws_access_key_id : string;
  aws_secret_access_key : string;
}.

Class ObjectStore (St : Type) : Type := {
  (** [boto3.client("s3", endpoint_url=..., aws_access_key_id=...,
      aws_secret_access_key=...)]: no request is sent. *)
  boto3_client : string → string → string → res exn client;
  (** [client.upload_file(Filename, Bucket, Key)]: reads the local file. *)
  upload_file : client → FS → string → string → string → St → res exn () * St;
  (** [client.delete_object(Bucket=..., Key=...)]. *)
  delete_object : client → string → string → St → res exn () * St;
  (** [client.head_object(Bucket=..., Key=...)]: the existence probe. *)
  head_object : client → string → string → St → res exn ();
  (** [client.generate_presigned_url('get_object', Params={'Bucket': ...,
      'Key': ...}, ExpiresIn=...)]: computed locally. *)
  generate_presigned_url : client → string → string → Z → res exn string;
  (** The bytes stored under (bucket, key). *)
  objects : St → gmap (string * string) string;
}.

(** What every store the gateway talks to must satisfy. *)
Class ObjectStoreLaws (St : Type) `{ObjectStore St} : Prop := {
  upload_file_Ret c fs f b k st st' :
    upload_file c fs f b k st = (Ret (), st') →
    ∃ data, fs !! f = Some (File data) ∧ objects st' = <[(b, k) := data]> (objects st);
  upload_file_Raise c fs f b k st e st' :
    upload_file c fs f b k st = (Raise e, st') → objects st' = objects st;
  delete_object_Ret c b k st st' :
    delete_object c b k st = (Ret (), st') → objects st' = delete (b, k) (objects st);
  delete_object_Raise c b k st e st' :
    delete_object c b k st = (Raise e, st') → objects st' = objects st;
  head_object_Ret c b k st :
    head_object c b k st = Ret () → is_Some (objects st !! (b, k));
}.

(** ** An in-memory store *)

(** The state of an S3 endpoint: whether it can be reached, the credentials
    it accepts, its buckets and their objects. *)
Record mem_store : Type := MemStore {
  ms_online : bool;
  ms_credentials : gset (string * string);
  ms_buckets : gset string;
  ms_objects : gmap (string * string) string;
}.

Definition ms_set_objects (o : gmap (string * string) string) (st : mem_store) : mem_store :=
  {| ms_online := ms_online st; ms_credentials := ms_credentials st;
     ms_buckets := ms_buckets st; ms_objects := o |}.

(** botocore's [str(ClientError)]. *)
Definition client_error (code op text : string) : exn :=
  Exn ClientError ("An error occurred (" +:+ code +:+ ") when calling the " +:+ op
                   +:+ " operation: " +:+ text) None.

(** botocore's [EndpointConnectionError] for the client's endpoint. *)
Definition connection_error (c : client) : exn :=
  Exn EndpointConnectionError
    ("Could not connect to the endpoint URL: " +:+ dq +:+ endpoint_url c +:+ dq) None.

(** botocore's [ParamValidationError] for an empty key. *)
Definition empty_key_error : exn :=
  Exn ParamValidationError
    ("Parameter validation failed:" +:+ nl +:+
     "Invalid length for parameter Key, value: 0, valid min length: 1") None.

(** The checks every request goes through before it reaches the bucket: the
    key is validated locally, then the endpoint is contacted, then the
    credentials and the bucket are checked by the server. *)
Definition ms_request (c : client) (op b k : string) (st : mem_store) : res exn () :=
  if String.eqb k "" then
    Raise empty_key_error
  else if negb (ms_online st) then
    Raise (connection_error c)
  else if negb (bool_decide ((aws_access_key_id c, aws_secret_access_key c) ∈ ms_credentials st)) then
    Raise (client_error "InvalidAccessKeyId" op
      "The Access Key Id you provided does not exist in our records.")
  else if negb (bool_decide (b ∈ ms_buckets st)) then
    Raise (client_error "NoSuchBucket" op "The specified bucket does not exist")
  else Ret ().

(** [upload_file]: the local file is read first; a [ClientError] of the
    request is re-raised by the transfer layer as [S3UploadFailedError]. *)
Definition ms_upload_file (c : client) (fs : FS) (f b k : string) (st : mem_store)
    : res exn () * mem_store :=
  match read_file fs f with
  | Raise e => (Raise e, st)
  | Ret data =>
      match ms_request c "PutObject" b k st with
      | Raise e =>
          if is_ClientError e
          then (Raise (Exn S3UploadFailedError
                  ("Failed to upload " +:+ f +:+ " to " +:+ b +:+ "/" +:+ k +:+ ": "
                   +:+ exn_str e) (Some e)), st)
          else (Raise e, st)
      | Ret _ => (Ret (), ms_set_objects (<[(b, k) := data]> (ms_objects st)) st)
      end
  end.

(** [delete_object]: deleting a key that holds nothing succeeds, as in S3. *)
Definition ms_delete_object (c : client) (b k : string) (st : mem_store)
    : res exn () * mem_store :=
  match ms_request c "DeleteObject" b k st with
  | Raise e => (Raise e, st)
  | Ret _ => (Ret (), ms_set_objects (delete (b, k) (ms_objects st)) st)
  end.

(** [head_object]: a key that holds nothing is a [ClientError] with code 404. *)
Definition ms_head_object (c : client) (b k : string) (st : mem_store) : res exn () :=
  match ms_request c "HeadObject" b k st with
  | Raise e => Raise e
  | Ret _ =>
      match ms_objects st !! (b, k) with
      | Some _ => Ret ()
      | None => Raise (client_error "404" "HeadObject" "Not Found")
      end
  end.

(** [generate_presigned_url]: a path-style URL with the expiry in its query
    string.  The signature, a keyed hash, is not part of the model. *)
Definition ms_generate_presigned_url (c : client) (b k : string) (expires : Z)
    : res exn string :=
  Ret (endpoint_url c +:+ "/" +:+ b +:+ "/" +:+ k
       +:+ "?X-Amz-Algorithm=AWS4-HMAC-SHA256&X-Amz-Credential=" +:+ aws_access_key_id c
       +:+ "&X-Amz-Expires=" +:+ str_Z expires).

(** [boto3.client]: the endpoint must be an http or https URL. *)
Definition ms_boto3_client (endpoint key_id secret : string) : res exn client :=
  if String.prefix "http://" endpoint || String.prefix "https://" endpoint
  then Ret (Client endpoint key_id secret)
  else Raise (Exn ValueError ("Invalid endpoint: " +:+ endpoint) None).

#[export] Instance mem_store_ops : ObjectStore mem_store := {|
  boto3_client := ms_boto3_client;
  upload_file := ms_upload_file;
  delete_object := ms_delete_object;
  head_object := ms_head_object;
  generate_presigned_url := ms_generate_presigned_url;
  objects := ms_objects;
|}.

(** ** A client that is interrupted

    A store without state whose every request is cut short by
    [KeyboardInterrupt], as when the user stops the process during a
    transfer: the exception derives from [BaseException] only. *)

Definition interrupt : exn := Exn KeyboardInterrupt "" None.

#[export] Instance interrupted_ops : ObjectStore () := {|
  boto3_client endpoint key_id secret := Ret (Client endpoint key_id secret);
  upload_file _ _ _ _ _ st := (Raise interrupt, st);
  delete_object _ _ _ st := (Raise interrupt, st);
  head_object _ _ _ _ := Raise interrupt;
  generate_presigned_url _ _ _ _ := Raise interrupt;
  objects _ := ∅;
|}.

#[export] Instance interrupted_laws : ObjectStoreLaws ().
Proof. by split. Qed.

(** ** The in-memory store satisfies the laws *)

Section mem_store.
Implicit Types (c : client) (st : mem_store) (b k f : string) (fs : FS).

Lemma ms_upload_file_Ret c fs f b k st st' :
  ms_upload_file c fs f b k st = (Ret (), st') →
  ∃ data, fs !! f = Some (File data) ∧
    st' = ms_set_objects (<[(b, k) := data]> (ms_objects st)) st.
Proof.
  unfold ms_upload_file, read_file. intros Hu.
  destruct (fs !! f) as [[data|]|]; simplify_eq.
  destruct (ms_request _ _ _ _ _); [|destruct (is_ClientError _)]; simplify_eq.
  by exists data.
Qed.

Lemma ms_upload_file_Raise c fs f b k st e st' :
  ms_upload_file c fs f b k st = (Raise e, st') → st' = st.
Proof.
  unfold ms_upload_file. intros Hu.
  destruct (read_file _ _); simplify_eq; [|done].
  destruct (ms_request _ _ _ _ _); [|destruct (is_ClientError _)]; by simplify_eq.
Qed.

Lemma ms_delete_object_Ret c b k st st' :
  ms_delete_object c b k st = (Ret (), st') →
  st' = ms_set_objects (delete (b, k) (ms_objects st)) st.
Proof. unfold ms_delete_object. destruct (ms_request _ _ _ _ _); naive_solver. Qed.

Lemma ms_delete_object_Raise c b k st e st' :
  ms_delete_object c b k st = (Raise e, st') → st' = st.
Proof. unfold ms_delete_object. destruct (ms_request _ _ _ _ _); naive_solver. Qed.

Lemma ms_head_object_Ret c b k st :
  ms_head_object c b k st = Ret () → is_Some (ms_objects st !! (b, k)).
Proof.
  unfold ms_head_object. destruct (ms_request _ _ _ _ _); [|done].
  destruct (ms_objects st !! (b, k)); naive_solver.
Qed.

End mem_store.

#[export] Instance mem_store_laws : ObjectStoreLaws mem_store.
Proof.
  split; simpl.
  - intros * (data & ? & ->)%ms_upload_file_Ret. by exists data.
  - by intros * ->%ms_upload_file_Raise.
  - by intros * ->%ms_delete_object_Ret.
  - by intros * ->%ms_delete_object_Raise.
  - apply ms_head_object_Ret.
Qed.
