(* ===== verification/Gateway.v ===== *)
(** * Gateway: the class [S3Minio] of [src/s3_minio.py]

    The gateway holds a boto3 client and a bucket name.  Its methods run in
    a world made of the local file system, the state of the object store
    and the standard output; each is a definition in the monad [Py] with
    the [try]/[except] blocks, the loop with its [return] and the order of
    calls of the source.  The theorems are proved for any store that
    satisfies [ObjectStoreLaws]; the witnesses run on [mem_store]. *)

From S2P Require Import Prelude Loops PyStr FileSystem ObjectStore.

Module S3Minio.

(** ** The world and the object *)

(** What a method can read and change: the staging area, the store behind
    the client, and what [print] has written. *)
Record World (St : Type) : Type := mkWorld {
  w_fs : FS;
  w_s3 : St;
  w_out : list string;
}.
Arguments mkWorld {St} _ _ _.
Arguments w_fs {St} _.
Arguments w_s3 {St} _.
Arguments w_out {St} _.

(** The attributes [self.s3] and [self.s3_bucket_name]. *)
Record S3Minio : Type := mkS3Minio {
  s3 : client;
  s3_bucket_name : string;
}.

Section methods.
Context {St : Type} `{!ObjectStore St}.

Abbreviation W := (World St).

(** ** Effects of the world *)

(** What [print(a1, ..., an)] writes: the arguments separated by a space,
    then a line feed. *)
Definition printed (args : list string) : string := join " " args +:+ nl.

(** [print(a1, ..., an)]: one entry of [w_out] per call. *)
Definition print (args : list string) : Py W () :=
  py_modify (λ w, mkWorld (w_fs w) (w_s3 w) (w_out w ++ [printed args])).

(** A call of [os] or [shutil] that changes the file system. *)
Definition on_fs {A} (f : FS → res exn A * FS) : Py W A := λ w,
  let '(r, fs') := f (w_fs w) in (r, mkWorld fs' (w_s3 w) (w_out w)).

(** A call of the client that changes the store. *)
Definition on_s3 {A} (f : St → res exn A * St) : Py W A := λ w,
  let '(r, st') := f (w_s3 w) in (r, mkWorld (w_fs w) st' (w_out w)).

(** A call that only reads the world. *)
Definition reading {A} (f : W → res exn A) : Py W A := λ w, (f w, w).

(** ** [__init__] *)

(** The arguments of the [print] call of [__init__]. *)
Definition init_message (endpoint_url access_key_id secret_access_key bucket_name : string)
    : list string :=
  ["Initializing S3Minio with endpoint: " +:+ endpoint_url +:+ ", "
   +:+ "access_key_id: " +:+ access_key_id +:+ ", "
   +:+ "secret_access_key: " +:+ secret_access_key +:+ ", "
   +:+ "bucket_name: " +:+ bucket_name].

Definition init (endpoint_url access_key_id secret_access_key bucket_name : string)
    : Py W S3Minio :=
  print (init_message endpoint_url access_key_id secret_access_key bucket_name);;
  c ← py_lift (boto3_client endpoint_url access_key_id secret_access_key);
  mret (mkS3Minio c bucket_name).

(** ** [upload] *)

(** [f"temp/media/{path}"]. *)
Definition file_direct (path : string) : string := "temp/media/" +:+ path.

(** [ValueError(f"Upload Error: {exc}")] with [exc] as its cause. *)
Definition upload_exn (exc : exn) : exn :=
  Exn ValueError ("Upload Error: " +:+ exn_str exc) (Some exc).

(** The handler of both [except Exception as exc] clauses of [upload]. *)
Definition upload_error {A} (exc : exn) : Py W A := py_raise (upload_exn exc).

(** The arguments of the three [print] calls of [upload]. *)
Definition uploading_message (path : string) : list string :=
  ["Uploading " +:+ file_direct path +:+ " to MinIO..."].

Definition file_message (self : S3Minio) (path : string) (found : bool) : list string :=
  ["File " +:+ file_direct path +:+ nl;
   "exists: " +:+ str_bool found +:+ nl;
   "Bucket: " +:+ s3_bucket_name self +:+ nl;
   "Path: " +:+ path].

Definition uploaded_message (path : string) : list string :=
  ["File " +:+ file_direct path +:+ " uploaded successfully to MinIO."].

(** The inner [try] block: the diagnostic print, the transfer, the
    success message. *)
Definition upload_transfer (self : S3Minio) (path : string) : Py W () :=
  found ← reading (λ w, Ret (os_path_exists (w_fs w) (file_direct path)));
  print (file_message self path found);;
  fs ← reading (λ w, Ret (w_fs w));
  on_s3 (upload_file (s3 self) fs (file_direct path) (s3_bucket_name self) path);;
  print (uploaded_message path).

(** Removal of the staged file, and of its directory when that exists and
    is empty: calls of [os] and [shutil] on the file system alone. *)
Definition cleanup_staged (file_direct : string) : Py FS () :=
  os_remove file_direct;;
  let dir_local := dirname file_direct in
  found ← fs_reading (λ fs, Ret (os_path_exists fs dir_local));
  if found : bool then
    names ← fs_reading (λ fs, os_listdir fs dir_local);
    match names with
    | [] => shutil_rmtree dir_local
    | _ :: _ => mret ()
    end
  else mret ().

Definition upload_cleanup (path : string) : Py W () :=
  on_fs (cleanup_staged (file_direct path)).

(** The body of the loop of [upload] for one element of [args]. *)
Definition upload_body (self : S3Minio) (path : string) : Py W (option bool) :=
  try_except
    (print (uploading_message path);;
     try_except (upload_transfer self path) is_Exception upload_error;;
     upload_cleanup path;;
     mret (Some true))
    is_Exception upload_error.

(** [upload(self, *args)]. *)
Definition upload (self : S3Minio) (args : list string) : Py W (option bool) :=
  py_for args (upload_body self).

(** ** [delete] *)

(** [ValueError(f"Delete Error: {exc}")] with [exc] as its cause. *)
Definition delete_exn (exc : exn) : exn :=
  Exn ValueError ("Delete Error: " +:+ exn_str exc) (Some exc).

Definition delete_error {A} (exc : exn) : Py W A := py_raise (delete_exn exc).

(** The body of the loop of [delete] for one element of [args]. *)
Definition delete_body (self : S3Minio) (path : string) : Py W (option bool) :=
  try_except
    (on_s3 (delete_object (s3 self) (s3_bucket_name self) path);;
     mret (Some true))
    is_Exception delete_error.

(** [delete(self, *args)]. *)
Definition delete (self : S3Minio) (args : list string) : Py W (option bool) :=
  py_for args (delete_body self).

(** ** [get_url] *)

(** [ExpiresIn=3600]. *)
Definition expires_in : Z := 3600.

(** [get_url(self, path)]: [Some url], or [None] for Python's [None]. *)
Definition get_url (self : S3Minio) (path : string) : Py W (option string) :=
  let bucket_name := s3_bucket_name self in
  try_except
    (reading (λ w, head_object (s3 self) bucket_name path (w_s3 w));;
     url ← py_lift (generate_presigned_url (s3 self) bucket_name path expires_in);
     mret (Some url))
    is_ClientError (λ _, mret None).

End methods.

(** ** A concrete world

    A gateway for the bucket [media] of a reachable endpoint, and a staging
    area with two files in one directory and one file in a directory of its
    own. *)

Definition demo_client : client := Client "http://minio:9000" "admin" "hunter2".

Definition demo_self : S3Minio := mkS3Minio demo_client "media".

Definition demo_store : mem_store :=
  MemStore true {[("admin", "hunter2")]} {["media"]} ∅.

Definition demo_fs : FS :=
  {[ "temp" := Dir; "temp/media" := Dir;
     "temp/media/a.png" := File "PNG-a"; "temp/media/b.png" := File "PNG-b";
     "temp/media/Post" := Dir; "temp/media/Post/c.png" := File "PNG-c" ]}.

Definition demo_world : World mem_store := mkWorld demo_fs demo_store [].

(** The same world with the endpoint unreachable, and with [a.png] already
    in the bucket. *)
Definition demo_offline : World mem_store :=
  mkWorld demo_fs (MemStore false {[("admin", "hunter2")]} {["media"]} ∅) [].

Definition demo_stored : World mem_store :=
  mkWorld demo_fs (ms_set_objects {[("media", "a.png") := "PNG-a"]} demo_store) [].

(** A world whose client is interrupted. *)
Definition demo_interrupted : World () := mkWorld demo_fs () [].

Section reference.
Context {St : Type} `{!ObjectStore St}.

(** ** Reference outcomes *)

(** What an [except Exception as exc] clause with handler [h] makes of an
    exception: [h exc] when it is caught, the exception itself otherwise. *)
Definition caught (h : exn → exn) (e : exn) : exn :=
  if is_Exception e then h e else e.

End reference.

(** ** The cleanup of the staging area *)

Section cleanup.
Implicit Types (fs : FS) (f q d : string) (n : node) (e : exn) (r : res exn ()).

(** Different keys are staged under different paths. *)
Lemma file_direct_inj k k' : file_direct k = file_direct k' → k = k'.
Proof. apply str_app_inv_head. Qed.

(** The cleanup, by cases on the staged path and on its directory. *)
Lemma cleanup_staged_eq f fs :
  cleanup_staged f fs =
  match fs !! f with
  | Some (File _) =>
      match map_del f fs !! dirname f with
      | None => (Ret (), map_del f fs)
      | Some (File _) => (Raise (enotdir (dirname f)), map_del f fs)
      | Some Dir =>
          if decide (children (map_del f fs) (dirname f) = [])
          then (Ret (), without_tree (dirname f) (map_del f fs))
          else (Ret (), map_del f fs)
      end
  | Some Dir => (Raise (eisdir f), fs)
  | None => (Raise (enoent f), fs)
  end.
Proof.
  unfold cleanup_staged, fs_reading, os_remove. py_unfold.
  destruct (fs !! f) as [[data|]|]; [|done..].
  unfold os_path_exists, os_listdir, shutil_rmtree.
  destruct (map_del f fs !! dirname f) as [[]|] eqn:Hd; rewrite ?Hd.
  - rewrite bool_decide_eq_true_2 by eauto. by rewrite Hd.
  - rewrite bool_decide_eq_true_2 by eauto. rewrite Hd.
    case_decide as Hc; [rewrite Hc; simpl; by rewrite Hd|].
    by destruct (children _ _).
  - by rewrite bool_decide_eq_false_2 by (by intros [??]).
Qed.

(** Case analysis on the outcome of the cleanup, once it is written by
    cases. *)
Ltac cleanup_cases f fs :=
  destruct (fs !! f) as [[?|]|] eqn:?; simplify_eq/=;
  try (destruct (map_del f fs !! dirname f) as [[?|]|] eqn:?; simplify_eq/=);
  try (case_decide; simplify_eq/=).

Lemma without_tree_subseteq d fs : without_tree d fs ⊆ fs.
Proof. apply map_filter_subseteq. Qed.

(** The cleanup only removes entries. *)
Lemma cleanup_staged_subseteq f fs r fs' :
  cleanup_staged f fs = (r, fs') → fs' ⊆ fs.
Proof.
  rewrite cleanup_staged_eq. cleanup_cases f fs; intros; simplify_eq; try done; try apply delete_subseteq.
  etrans; [apply without_tree_subseteq|apply delete_subseteq].
Qed.

(** After a cleanup that returns, the staged file is gone. *)
Lemma cleanup_staged_Ret f fs fs' :
  cleanup_staged f fs = (Ret (), fs') →
  (∃ data, fs !! f = Some (File data)) ∧ fs' !! f = None.
Proof.
  rewrite cleanup_staged_eq. cleanup_cases f fs; intros; simplify_eq; (split; [by eauto|]).
  all: rewrite ?lookup_without_tree; try case_decide; by rewrite ?lookup_delete_eq.
Qed.

(** Entries other than the staged file, its directory and what lies below
    that directory are as before. *)
Lemma cleanup_staged_frame f fs r fs' q :
  cleanup_staged f fs = (r, fs') →
  q ≠ f → q ≠ dirname f → under (dirname f) q = false → fs' !! q = fs !! q.
Proof.
  rewrite cleanup_staged_eq. cleanup_cases f fs; intros; simplify_eq; try done.
  all: rewrite ?lookup_without_tree, ?decide_True by done; by rewrite lookup_delete_ne.
Qed.

(** The cleanup keeps the staging area a tree. *)
Lemma cleanup_staged_wf f fs r fs' :
  fs_wf fs → cleanup_staged f fs = (r, fs') → fs_wf fs'.
Proof.
  intros Hwf. rewrite cleanup_staged_eq. cleanup_cases f fs; intros; simplify_eq; try done.
  all: eauto using fs_wf_unlink, fs_wf_without_tree.
Qed.

(** In a tree, the cleanup of a staged regular file does not raise. *)
Lemma cleanup_staged_total f fs data :
  fs_wf fs → fs !! f = Some (File data) → ∃ fs', cleanup_staged f fs = (Ret (), fs').
Proof.
  intros Hwf Hf. rewrite cleanup_staged_eq, Hf.
  destruct (map_del f fs !! dirname f) as [[d|]|] eqn:Hd; [|case_decide; eauto|eauto].
  apply lookup_delete_Some in Hd as [_ Hd]. by destruct (fs_wf_parent _ _ _ d Hwf Hf).
Qed.

(** When the staged file was the only entry of its directory, the directory
    is removed with it. *)
Lemma cleanup_staged_dir_removed f fs data :
  fs !! f = Some (File data) → fs !! dirname f = Some Dir →
  (∀ q, is_Some (fs !! q) → dirname q = dirname f → q = f) →
  cleanup_staged f fs = (Ret (), without_tree (dirname f) (map_del f fs)).
Proof.
  intros Hf Hd Honly. rewrite cleanup_staged_eq, Hf.
  rewrite lookup_delete_ne, Hd by (intros Heq; rewrite <-Heq in Hd; congruence).
  rewrite decide_True; [done|]. apply children_nil.
  intros q [n [Hne Hq]%lookup_delete_Some] Hdq. destruct Hne. symmetry. eauto.
Qed.

(** When the directory holds another entry, only the staged file goes. *)
Lemma cleanup_staged_dir_kept f fs data q :
  fs !! f = Some (File data) → fs !! dirname f = Some Dir →
  is_Some (fs !! q) → dirname q = dirname f → q ≠ f →
  cleanup_staged f fs = (Ret (), map_del f fs).
Proof.
  intros Hf Hd Hq Hdq Hne. rewrite cleanup_staged_eq, Hf.
  rewrite lookup_delete_ne, Hd by (intros Heq; rewrite <-Heq in Hd; congruence).
  rewrite decide_False; [done|]. rewrite children_nil. intros Hnone.
  apply (Hnone q); [|done]. by rewrite lookup_delete_ne.
Qed.

(** In a tree the cleanup touches no other regular file. *)
Lemma cleanup_staged_files f fs r fs' q x :
  fs_wf fs → cleanup_staged f fs = (r, fs') → q ≠ f →
  fs !! q = Some (File x) → fs' !! q = Some (File x).
Proof.
  intros Hwf. rewrite cleanup_staged_eq.
  destruct (fs !! f) as [[data|]|] eqn:Hf; [|by intros; simplify_eq..].
  destruct (map_del f fs !! dirname f) as [[?|]|] eqn:Hd; [| |].
  1,3: intros; simplify_eq; by rewrite lookup_delete_ne.
  case_decide as Hc; intros [= _ <-] Hq Hx; [|by rewrite lookup_delete_ne].
  rewrite without_tree_empty by eauto using fs_wf_unlink.
  rewrite !lookup_delete_ne; [done..|].
  intros <-. rewrite lookup_delete_ne in Hd by done. congruence.
Qed.

(** In a tree the cleanup changes the staged file and its directory, and
    nothing else: the directory it removes is empty. *)
Lemma cleanup_staged_only f fs r fs' q :
  fs_wf fs → cleanup_staged f fs = (r, fs') → q ≠ f → q ≠ dirname f →
  fs' !! q = fs !! q.
Proof.
  intros Hwf. rewrite cleanup_staged_eq. cleanup_cases f fs; intros; simplify_eq; try done.
  all: rewrite ?without_tree_empty by eauto using fs_wf_unlink.
  all: by rewrite !lookup_delete_ne.
Qed.

End cleanup.

(** ** The methods, outcome by outcome *)

Section outcomes.
Context {St : Type} `{!ObjectStore St}.
Implicit Types (self : S3Minio) (w : World St) (k path : string) (e : exn).

(** Unfold the effects of the world down to pairs. *)
Ltac world_unfold :=
  unfold print, reading, on_s3, on_fs, upload_error, delete_error in *; py_unfold.

Lemma caught_Exception h e : is_Exception e = true → caught h e = h e.
Proof. unfold caught. by intros ->. Qed.

Lemma caught_not_Exception h e : is_Exception e = false → caught h e = e.
Proof. unfold caught. by intros ->. Qed.

Lemma upload_exn_is_Exception e : is_Exception (upload_exn e) = true.
Proof. done. Qed.

Lemma delete_exn_is_Exception e : is_Exception (delete_exn e) = true.
Proof. done. Qed.

(** The inner [try] of [upload]: the outcome is the outcome of the client's
    [upload_file]; the staging area is not touched. *)
Lemma upload_transfer_eq self k w :
  upload_transfer self k w =
  let out := w_out w ++ [printed (file_message self k (os_path_exists (w_fs w) (file_direct k)))] in
  match upload_file (s3 self) (w_fs w) (file_direct k) (s3_bucket_name self) k (w_s3 w) with
  | (Ret _, st') => (Ret (), mkWorld (w_fs w) st' (out ++ [printed (uploaded_message k)]))
  | (Raise e, st') => (Raise e, mkWorld (w_fs w) st' out)
  end.
Proof.
  unfold upload_transfer. world_unfold. simpl.
  by destruct (upload_file _ _ _ _ _ _) as [[[]|e] st'].
Qed.

(** The body of [upload], on each of its paths. *)
Lemma upload_body_eq self k w :
  upload_body self k w =
  let out := w_out w ++ [printed (uploading_message k);
      printed (file_message self k (os_path_exists (w_fs w) (file_direct k)))] in
  match upload_file (s3 self) (w_fs w) (file_direct k) (s3_bucket_name self) k (w_s3 w) with
  | (Raise e, st') =>
      (Raise (caught upload_exn (caught upload_exn e)), mkWorld (w_fs w) st' out)
  | (Ret _, st') =>
      match cleanup_staged (file_direct k) (w_fs w) with
      | (Raise e, fs') =>
          (Raise (caught upload_exn e), mkWorld fs' st' (out ++ [printed (uploaded_message k)]))
      | (Ret _, fs') =>
          (Ret (Some true), mkWorld fs' st' (out ++ [printed (uploaded_message k)]))
      end
  end.
Proof.
  unfold upload_body, upload_cleanup, try_except at 1 2.
  unfold mbind at 1 2 3, Py_bind, print at 1, py_modify. rewrite upload_transfer_eq.
  cbn [w_fs w_s3 w_out]. rewrite <-!app_assoc. cbn [app].
  destruct (upload_file _ _ _ _ _ _) as [[[]|e] st']; unfold caught.
  - unfold on_fs. cbn [w_fs w_s3 w_out].
    destruct (cleanup_staged _ _) as [[[]|e] fs']; [done|].
    by destruct (is_Exception e).
  - destruct (is_Exception e) eqn:He; [|by rewrite He]. done.
Qed.

End outcomes.

(** ** [upload] *)

Section upload.
Context {St : Type} `{!ObjectStore St} `{!ObjectStoreLaws St}.
Implicit Types (self : S3Minio) (w : World St) (k path : string) (ks : list string) (e : exn).

Lemma upload_body_returns self k w w' : upload_body self k w ≠ (Ret None, w').
Proof.
  rewrite upload_body_eq. cbv zeta.
  destruct (upload_file _ _ _ _ _ _) as [[[]|e] st']; [|done].
  by destruct (cleanup_staged _ _) as [[[]|e] fs'].
Qed.

(** C2. [upload] processes its first argument only: the [return] inside the
    loop ends the call, whatever follows in [args] is never looked at. *)
Theorem upload_only_first self k ks w :
  upload self (k :: ks) w = upload self [k] w.
Proof. apply py_for_cons_returns, upload_body_returns. Qed.

Lemma upload_cons self k ks w :
  upload self (k :: ks) w =
  match upload_body self k w with
  | (Ret (Some v), w') => (Ret (Some v), w')
  | (Ret None, w') => upload self ks w'
  | (Raise e, w') => (Raise e, w')
  end.
Proof.
  unfold upload. cbn [py_for]. py_unfold.
  by destruct (upload_body self k w) as [[[v|]|e] w'].
Qed.

(** The outcome of [upload] with at least one argument is the outcome of
    the body on the first. *)
Lemma upload_cons_body self k ks w : upload self (k :: ks) w = upload_body self k w.
Proof.
  rewrite upload_cons. destruct (upload_body self k w) as [[[v|]|e] w'] eqn:Hb; try done.
  by destruct (upload_body_returns self k w w').
Qed.

(** Without arguments [upload] does nothing and returns [None], which is
    neither of the two results its documentation string names. *)
Theorem upload_nil self w : upload self [] w = (Ret None, w).
Proof. done. Qed.

(** C1. A successful upload: when the staging area is a tree and the client
    accepts the transfer, [upload] returns [True], the bucket holds the
    staged bytes under the key, and the staged file is gone. *)
Theorem upload_ok self k ks w st' :
  fs_wf (w_fs w) →
  upload_file (s3 self) (w_fs w) (file_direct k) (s3_bucket_name self) k (w_s3 w)
    = (Ret (), st') →
  ∃ w' data,
    upload self (k :: ks) w = (Ret (Some true), w') ∧
    w_s3 w' = st' ∧
    w_fs w !! file_direct k = Some (File data) ∧
    objects (w_s3 w') !! (s3_bucket_name self, k) = Some data ∧
    w_fs w' !! file_direct k = None.
Proof.
  intros Hwf Hup. destruct (upload_file_Ret _ _ _ _ _ _ _ Hup) as (data & Hf & Hobj).
  destruct (cleanup_staged_total _ _ _ Hwf Hf) as [fs' Hc].
  rewrite upload_cons_body, upload_body_eq. cbv zeta. rewrite Hup, Hc.
  eexists _, data. split_and!; [done..| |].
  - cbn [w_s3]. by rewrite Hobj, lookup_insert_eq.
  - by apply cleanup_staged_Ret in Hc as [_ ?].
Qed.

(** C3. A failing transfer: an exception of the client is caught by the
    inner handler and again by the outer one, so that the caller sees a
    [ValueError] whose message carries the prefix twice and whose cause
    chain ends in the client's exception; the staging area is untouched and
    the bucket holds what it held. *)
Theorem upload_transfer_error self k ks w e st' :
  upload_file (s3 self) (w_fs w) (file_direct k) (s3_bucket_name self) k (w_s3 w)
    = (Raise e, st') →
  is_Exception e = true →
  ∃ w',
    upload self (k :: ks) w = (Raise (upload_exn (upload_exn e)), w') ∧
    exn_str (upload_exn (upload_exn e)) = "Upload Error: Upload Error: " +:+ exn_str e ∧
    w_fs w' = w_fs w ∧
    objects (w_s3 w') = objects (w_s3 w).
Proof.
  intros Hup He. rewrite upload_cons_body, upload_body_eq. cbv zeta. rewrite Hup.
  rewrite (caught_Exception _ e He), caught_Exception by done.
  eexists. split_and!; [done..|]. cbn [w_s3]. eauto using upload_file_Raise.
Qed.

(** An exception that is no [Exception] passes both handlers as it is. *)
Theorem upload_transfer_interrupt self k ks w e st' :
  upload_file (s3 self) (w_fs w) (file_direct k) (s3_bucket_name self) k (w_s3 w)
    = (Raise e, st') →
  is_Exception e = false →
  ∃ out, upload self (k :: ks) w = (Raise e, mkWorld (w_fs w) st' out).
Proof.
  intros Hup He. rewrite upload_cons_body, upload_body_eq. cbv zeta. rewrite Hup.
  rewrite !(caught_not_Exception _ e He). eauto.
Qed.

(** The staging area after [upload] is the staging area after the cleanup,
    or the one before when the transfer failed. *)
Lemma upload_fs self k ks w :
  w_fs (upload self (k :: ks) w).2 = w_fs w ∨
  w_fs (upload self (k :: ks) w).2 = (cleanup_staged (file_direct k) (w_fs w)).2.
Proof.
  rewrite upload_cons_body, upload_body_eq. cbv zeta.
  destruct (upload_file _ _ _ _ _ _) as [[[]|e] st']; [|by left].
  right. by destruct (cleanup_staged _ _) as [[[]|e] fs'].
Qed.

(** [upload] keeps the staging area a tree, on every path. *)
Lemma upload_fs_wf self args w :
  fs_wf (w_fs w) → fs_wf (w_fs (upload self args w).2).
Proof.
  intros Hwf. destruct args as [|k ks]; [done|].
  destruct (upload_fs self k ks w) as [-> | ->]; [done|].
  destruct (cleanup_staged _ _) as [r fs'] eqn:Hc. eauto using cleanup_staged_wf.
Qed.

(** [upload] changes at most the object under its first key. *)
Theorem upload_other_keys self k ks w b' k' :
  (b', k') ≠ (s3_bucket_name self, k) →
  objects (w_s3 (upload self (k :: ks) w).2) !! (b', k') = objects (w_s3 w) !! (b', k').
Proof.
  intros Hne. rewrite upload_cons_body, upload_body_eq. cbv zeta.
  destruct (upload_file _ _ _ _ _ _) as [[[]|e] st'] eqn:Hup.
  - apply upload_file_Ret in Hup as (data & _ & Hobj).
    destruct (cleanup_staged _ _) as [[[]|e] fs']; cbn [snd w_s3];
      by rewrite Hobj, lookup_insert_ne.
  - apply upload_file_Raise in Hup. cbn [snd w_s3]. by rewrite Hup.
Qed.

(** [upload] never adds an entry to the staging area. *)
Theorem upload_fs_subseteq self args w : w_fs (upload self args w).2 ⊆ w_fs w.
Proof.
  destruct args as [|k ks]; [done|].
  destruct (upload_fs self k ks w) as [-> | ->]; [done|].
  destruct (cleanup_staged _ _) as [r fs'] eqn:Hc. eauto using cleanup_staged_subseteq.
Qed.

(** The staged file leaves the staging area only for the bucket. *)
Lemma upload_removed_stored self k ks w data :
  w_fs w !! file_direct k = Some (File data) →
  w_fs (upload self (k :: ks) w).2 !! file_direct k = None →
  objects (w_s3 (upload self (k :: ks) w).2) !! (s3_bucket_name self, k) = Some data.
Proof.
  intros Hf. rewrite upload_cons_body, upload_body_eq. cbv zeta.
  destruct (upload_file _ _ _ _ _ _) as [[[]|e] st'] eqn:Hup; [|cbn [snd w_fs]; congruence].
  apply upload_file_Ret in Hup as (data' & Hf' & Hobj). intros _.
  destruct (cleanup_staged _ _) as [[[]|e] fs']; cbn [snd w_s3];
    rewrite Hobj, lookup_insert_eq; congruence.
Qed.

(** What was printed before the call is still there after it. *)
Lemma upload_out_prefix self k ks w : w_out w `prefix_of` w_out (upload self (k :: ks) w).2.
Proof.
  rewrite upload_cons_body, upload_body_eq. cbv zeta.
  destruct (upload_file _ _ _ _ _ _) as [[[]|e] st']; [|by apply prefix_app_r].
  destruct (cleanup_staged _ _) as [[[]|e] fs']; cbn [snd w_out];
    rewrite <-app_assoc; by apply prefix_app_r.
Qed.

(** C4. What a call of [upload] can change, whether it returns or raises:
    in a staging area that is a tree, every path other than the staged
    file of the first key and the directory of that file holds what it
    held, and nothing is added; the staged file leaves the staging area
    only when the bucket holds its bytes under the key; every object
    under another key or in another bucket is as it was; and what was
    printed before is still there. *)
Theorem upload_frame self k ks w :
  fs_wf (w_fs w) →
  let w' := (upload self (k :: ks) w).2 in
  (∀ q, q ≠ file_direct k → q ≠ dirname (file_direct k) → w_fs w' !! q = w_fs w !! q) ∧
  w_fs w' ⊆ w_fs w ∧
  (∀ data, w_fs w !! file_direct k = Some (File data) → w_fs w' !! file_direct k = None →
           objects (w_s3 w') !! (s3_bucket_name self, k) = Some data) ∧
  (∀ b' k', (b', k') ≠ (s3_bucket_name self, k) →
            objects (w_s3 w') !! (b', k') = objects (w_s3 w) !! (b', k')) ∧
  w_out w `prefix_of` w_out w'.
Proof.
  intros Hwf w'. subst w'.
  split_and!; eauto using upload_fs_subseteq, upload_removed_stored, upload_other_keys,
    upload_out_prefix.
  intros q Hq Hd. destruct (upload_fs self k ks w) as [-> | ->]; [done|].
  destruct (cleanup_staged _ _) as [r fs'] eqn:Hc. eauto using cleanup_staged_only.
Qed.

(** C33. The directory of the staged file: after a transfer that succeeded,
    the directory is removed when the staged file was its only entry, and
    it stays, with its other entries, when it holds another one. *)
Theorem upload_directory self k ks w st' :
  upload_file (s3 self) (w_fs w) (file_direct k) (s3_bucket_name self) k (w_s3 w) = (Ret (), st') →
  w_fs w !! dirname (file_direct k) = Some Dir →
  let fs' := w_fs (upload self (k :: ks) w).2 in
  ((∀ q, is_Some (w_fs w !! q) → dirname q = dirname (file_direct k) → q = file_direct k) →
   fs' !! dirname (file_direct k) = None) ∧
  (∀ q, is_Some (w_fs w !! q) → dirname q = dirname (file_direct k) → q ≠ file_direct k →
   fs' !! dirname (file_direct k) = Some Dir ∧ fs' !! q = w_fs w !! q).
Proof.
  intros Hup Hd. rewrite upload_cons_body, upload_body_eq, Hup. cbv zeta.
  destruct (upload_file_Ret _ _ _ _ _ _ _ Hup) as (data & Hf & _).
  assert (dirname (file_direct k) ≠ file_direct k) as Hne by congruence.
  split.
  - intros Honly. rewrite (cleanup_staged_dir_removed _ _ data) by done. simpl.
    rewrite lookup_without_tree. apply decide_False. tauto.
  - intros q Hq Hdq Hqf. rewrite (cleanup_staged_dir_kept _ _ data q) by done. simpl.
    by rewrite !lookup_delete_ne.
Qed.

End upload.

(** ** [delete] *)

Section delete.
Context {St : Type} `{!ObjectStore St} `{!ObjectStoreLaws St}.
Implicit Types (self : S3Minio) (w : World St) (k path : string) (ks : list string) (e : exn).

(** The body of [delete], on each of its paths. *)
Lemma delete_body_eq self k w :
  delete_body self k w =
  match delete_object (s3 self) (s3_bucket_name self) k (w_s3 w) with
  | (Ret _, st') => (Ret (Some true), mkWorld (w_fs w) st' (w_out w))
  | (Raise e, st') => (Raise (caught delete_exn e), mkWorld (w_fs w) st' (w_out w))
  end.
Proof.
  unfold delete_body, on_s3, delete_error, caught. py_unfold.
  destruct (delete_object _ _ _ _) as [[[]|e] st']; [done|].
  by destruct (is_Exception e).
Qed.

Lemma delete_body_returns self k w w' : delete_body self k w ≠ (Ret None, w').
Proof. rewrite delete_body_eq. by destruct (delete_object _ _ _ _) as [[[]|e] st']. Qed.

Lemma delete_cons_body self k ks w : delete self (k :: ks) w = delete_body self k w.
Proof.
  unfold delete. rewrite py_for_cons_returns by (intros w'; apply delete_body_returns).
  cbn [py_for]. py_unfold. by destruct (delete_body self k w) as [[[v|]|e] w'].
Qed.

(** C18. The loops of [upload] and [delete] end in their first iteration:
    however many arguments the call has, one step of the loop from its
    head reaches the outcome of the method, and no run of the loop has
    more than this one step: the store and the staging area are reached
    for the first argument only. *)
Theorem gateway_loops_once self k ks w :
  (loop_step (upload_body self) (Iter (k :: ks) w) (conf_of (upload self (k :: ks) w)) ∧
   ∀ n c, nsteps (loop_step (upload_body self)) n (Iter (k :: ks) w) c → n ≤ 1) ∧
  (loop_step (delete_body self) (Iter (k :: ks) w) (conf_of (delete self (k :: ks) w)) ∧
   ∀ n c, nsteps (loop_step (delete_body self)) n (Iter (k :: ks) w) c → n ≤ 1).
Proof.
  split; (split; [apply loop_first_leaves|intros n c Hn; eapply loop_first_leaves_nsteps, Hn]);
    intros w'; apply upload_body_returns || apply delete_body_returns.
Qed.

(** [delete] processes its first argument only. *)
Theorem delete_only_first self k ks w : delete self (k :: ks) w = delete self [k] w.
Proof. by rewrite !delete_cons_body. Qed.

(** C8. A successful deletion: [delete] returns [True], the key holds
    nothing afterwards, and nothing else changes. *)
Theorem delete_ok self k ks w st' :
  delete_object (s3 self) (s3_bucket_name self) k (w_s3 w) = (Ret (), st') →
  delete self (k :: ks) w = (Ret (Some true), mkWorld (w_fs w) st' (w_out w)) ∧
  objects st' = map_del (s3_bucket_name self, k) (objects (w_s3 w)).
Proof.
  intros Hd. rewrite delete_cons_body, delete_body_eq, Hd.
  eauto using delete_object_Ret.
Qed.

(** C26. A failing deletion is re-raised as [ValueError] with the client's
    exception as cause; the bucket holds what it held. *)
Theorem delete_error_wrapped self k ks w e st' :
  delete_object (s3 self) (s3_bucket_name self) k (w_s3 w) = (Raise e, st') →
  is_Exception e = true →
  delete self (k :: ks) w = (Raise (delete_exn e), mkWorld (w_fs w) st' (w_out w)) ∧
  exn_str (delete_exn e) = "Delete Error: " +:+ exn_str e ∧
  exn_cause (delete_exn e) = Some e ∧
  objects st' = objects (w_s3 w).
Proof.
  intros Hd He. rewrite delete_cons_body, delete_body_eq, Hd, caught_Exception by done.
  eauto using delete_object_Raise.
Qed.

(** [delete] never touches the staging area or the output. *)
Theorem delete_keeps_local self args w :
  w_fs (delete self args w).2 = w_fs w ∧ w_out (delete self args w).2 = w_out w.
Proof.
  destruct args as [|k ks]; [done|]. rewrite delete_cons_body, delete_body_eq.
  by destruct (delete_object _ _ _ _) as [[[]|e] st'].
Qed.

End delete.

(** ** [get_url] *)

Section get_url.
Context {St : Type} `{!ObjectStore St} `{!ObjectStoreLaws St}.
Implicit Types (self : S3Minio) (w : World St) (k path url : string) (e : exn).

(** [get_url], on each of its paths. *)
Lemma get_url_eq self k w :
  get_url self k w =
  match head_object (s3 self) (s3_bucket_name self) k (w_s3 w) with
  | Ret _ =>
      match generate_presigned_url (s3 self) (s3_bucket_name self) k expires_in with
      | Ret url => (Ret (Some url), w)
      | Raise e => if is_ClientError e then (Ret None, w) else (Raise e, w)
      end
  | Raise e => if is_ClientError e then (Ret None, w) else (Raise e, w)
  end.
Proof.
  unfold get_url, reading. py_unfold.
  destruct (head_object _ _ _ _) as [[]|e]; [|done].
  by destruct (generate_presigned_url _ _ _ _).
Qed.

(** [get_url] reads only: whatever it returns or raises, the world is
    as before. *)
Theorem get_url_pure self k w : (get_url self k w).2 = w.
Proof.
  rewrite get_url_eq.
  destruct (head_object _ _ _ _) as [[]|e];
    [destruct (generate_presigned_url _ _ _ _) as [url|e]|];
    try destruct (is_ClientError e); done.
Qed.

(** C5. Any [ClientError] of the existence probe, whatever its code, makes
    [get_url] return [None]. *)
Theorem get_url_client_error self k w e :
  head_object (s3 self) (s3_bucket_name self) k (w_s3 w) = Raise e →
  is_ClientError e = true →
  get_url self k w = (Ret None, w).
Proof. intros Hh He. by rewrite get_url_eq, Hh, He. Qed.

(** C37. An exception of the probe that is no [ClientError] reaches the
    caller as it is. *)
Theorem get_url_other_error self k w e :
  head_object (s3 self) (s3_bucket_name self) k (w_s3 w) = Raise e →
  is_ClientError e = false →
  get_url self k w = (Raise e, w).
Proof. intros Hh He. by rewrite get_url_eq, Hh, He. Qed.

(** When the probe succeeds, [get_url] returns the URL the client
    signs for the bucket, the key and 3600 seconds. *)
Theorem get_url_present self k w url :
  head_object (s3 self) (s3_bucket_name self) k (w_s3 w) = Ret () →
  generate_presigned_url (s3 self) (s3_bucket_name self) k 3600 = Ret url →
  get_url self k w = (Ret (Some url), w).
Proof. intros Hh Hu. rewrite get_url_eq, Hh. unfold expires_in. by rewrite Hu. Qed.

(** C23. A URL is returned only for a key that holds an object. *)
Theorem get_url_Some_inv self k w url w' :
  get_url self k w = (Ret (Some url), w') →
  is_Some (objects (w_s3 w) !! (s3_bucket_name self, k)).
Proof.
  rewrite get_url_eq. destruct (head_object _ _ _ _) as [[]|e] eqn:Hh.
  - intros _. eauto using head_object_Ret.
  - by destruct (is_ClientError e).
Qed.

End get_url.

(** ** [__init__] *)

Section init.
Context {St : Type} `{!ObjectStore St}.
Implicit Types (w : World St).

(** [__init__], on each of its paths: the line is printed before the client
    is built. *)
Lemma init_eq endpoint key_id secret bucket w :
  init endpoint key_id secret bucket w =
  let w' := mkWorld (w_fs w) (w_s3 w)
              (w_out w ++ [printed (init_message endpoint key_id secret bucket)]) in
  match boto3_client endpoint key_id secret with
  | Ret c => (Ret (mkS3Minio c bucket), w')
  | Raise e => (Raise e, w')
  end.
Proof.
  unfold init, print, py_lift. py_unfold. simpl.
  by destruct (boto3_client _ _ _).
Qed.

(** C39. [__init__] writes the secret access key to the standard output in
    clear, whether or not the client can be built. *)
Theorem init_prints_secret endpoint key_id secret bucket w :
  ∃ line, w_out (init endpoint key_id secret bucket w).2 = w_out w ++ [line] ∧
    contains secret line = true.
Proof.
  rewrite init_eq. cbv zeta. eexists. split.
  { by destruct (boto3_client _ _ _). }
  unfold printed, init_message, join. cbn [String.concat].
  rewrite !str_app_assoc.
  repeat first [apply contains_prefix, str_prefix_app | apply contains_app_r].
Qed.

End init.

(** ** Witnesses on the concrete world *)

Lemma demo_fs_wf : fs_wf demo_fs.
Proof. apply (bool_decide_unpack (fs_wf demo_fs)). by vm_compute. Qed.

Lemma upload_ok_witness :
  ∃ w' data,
    upload demo_self ["a.png"; "b.png"] demo_world = (Ret (Some true), w') ∧
    w_s3 w' = ms_set_objects {[("media", "a.png") := "PNG-a"]} demo_store ∧
    w_fs demo_world !! file_direct "a.png" = Some (File data) ∧
    objects (w_s3 w') !! (s3_bucket_name demo_self, "a.png") = Some data ∧
    w_fs w' !! file_direct "a.png" = None.
Proof.
  apply (upload_ok demo_self "a.png" ["b.png"] demo_world); [apply demo_fs_wf|].
  by vm_compute.
Defined.

Lemma upload_transfer_error_witness :
  ∃ w',
    upload demo_self ["missing.png"] demo_world
      = (Raise (upload_exn (upload_exn (enoent "temp/media/missing.png"))), w') ∧
    exn_str (upload_exn (upload_exn (enoent "temp/media/missing.png")))
      = "Upload Error: Upload Error: " +:+ exn_str (enoent "temp/media/missing.png") ∧
    w_fs w' = w_fs demo_world ∧
    objects (w_s3 w') = objects (w_s3 demo_world).
Proof.
  apply (upload_transfer_error demo_self "missing.png" [] demo_world _ demo_store);
    by vm_compute.
Defined.

Lemma upload_transfer_interrupt_witness :
  ∃ out, upload demo_self ["a.png"] demo_interrupted
         = (Raise interrupt, mkWorld demo_fs () out).
Proof.
  apply (upload_transfer_interrupt demo_self "a.png" [] demo_interrupted interrupt ());
    by vm_compute.
Defined.

Lemma upload_frame_witness :
  let w' := (upload demo_self ["Post/c.png"; "a.png"] demo_world).2 in
  (∀ q, q ≠ file_direct "Post/c.png" → q ≠ dirname (file_direct "Post/c.png") →
        w_fs w' !! q = w_fs demo_world !! q) ∧
  w_fs w' ⊆ w_fs demo_world ∧
  (∀ data, w_fs demo_world !! file_direct "Post/c.png" = Some (File data) →
           w_fs w' !! file_direct "Post/c.png" = None →
           objects (w_s3 w') !! (s3_bucket_name demo_self, "Post/c.png") = Some data) ∧
  (∀ b' k', (b', k') ≠ (s3_bucket_name demo_self, "Post/c.png") →
            objects (w_s3 w') !! (b', k') = objects (w_s3 demo_world) !! (b', k')) ∧
  w_out demo_world `prefix_of` w_out w'.
Proof. apply (upload_frame demo_self "Post/c.png" ["a.png"] demo_world), demo_fs_wf. Defined.

Lemma upload_other_keys_witness :
  objects (w_s3 (upload demo_self ["a.png"] demo_stored).2) !! ("media", "b.png")
  = objects (w_s3 demo_stored) !! ("media", "b.png").
Proof. by apply (upload_other_keys demo_self "a.png" [] demo_stored "media" "b.png"). Defined.

Lemma delete_ok_witness :
  delete demo_self ["a.png"; "b.png"] demo_stored
    = (Ret (Some true), mkWorld demo_fs demo_store []) ∧
  objects demo_store = map_del ("media", "a.png") (objects (w_s3 demo_stored)).
Proof. apply (delete_ok demo_self "a.png" ["b.png"] demo_stored demo_store). by vm_compute. Defined.

Lemma delete_error_wrapped_witness :
  delete demo_self ["a.png"] demo_offline
    = (Raise (delete_exn (connection_error demo_client)), demo_offline) ∧
  exn_str (delete_exn (connection_error demo_client))
    = "Delete Error: " +:+ exn_str (connection_error demo_client) ∧
  exn_cause (delete_exn (connection_error demo_client)) = Some (connection_error demo_client) ∧
  objects (w_s3 demo_offline) = objects (w_s3 demo_offline).
Proof.
  apply (delete_error_wrapped demo_self "a.png" [] demo_offline
           (connection_error demo_client) (w_s3 demo_offline)); by vm_compute.
Defined.

Lemma get_url_client_error_witness :
  get_url demo_self "a.png" demo_world = (Ret None, demo_world).
Proof.
  apply (get_url_client_error demo_self "a.png" demo_world
           (client_error "404" "HeadObject" "Not Found")); by vm_compute.
Defined.

Lemma get_url_other_error_witness :
  get_url demo_self "a.png" demo_offline = (Raise (connection_error demo_client), demo_offline).
Proof.
  apply (get_url_other_error demo_self "a.png" demo_offline (connection_error demo_client));
    by vm_compute.
Defined.

Lemma get_url_present_witness :
  get_url demo_self "a.png" demo_stored
  = (Ret (Some ("http://minio:9000/media/a.png?X-Amz-Algorithm=AWS4-HMAC-SHA256"
                +:+ "&X-Amz-Credential=admin&X-Amz-Expires=3600")), demo_stored).
Proof. apply (get_url_present demo_self "a.png" demo_stored); by vm_compute. Defined.

Lemma get_url_Some_inv_witness :
  is_Some (objects (w_s3 demo_stored) !! (s3_bucket_name demo_self, "a.png")).
Proof.
  eapply (get_url_Some_inv demo_self "a.png" demo_stored). by vm_compute.
Defined.

Lemma upload_directory_witness :
  let fs' := w_fs (upload demo_self ["Post/c.png"; "a.png"] demo_world).2 in
  ((∀ q, is_Some (demo_fs !! q) → dirname q = dirname (file_direct "Post/c.png") →
         q = file_direct "Post/c.png") →
   fs' !! dirname (file_direct "Post/c.png") = None) ∧
  (∀ q, is_Some (demo_fs !! q) → dirname q = dirname (file_direct "Post/c.png") →
        q ≠ file_direct "Post/c.png" →
        fs' !! dirname (file_direct "Post/c.png") = Some Dir ∧ fs' !! q = demo_fs !! q).
Proof.
  apply (upload_directory demo_self "Post/c.png" ["a.png"] demo_world
           (ms_set_objects (<[("media", "Post/c.png") := "PNG-c"]> (ms_objects demo_store))
              demo_store)); by vm_compute.
Defined.

End S3Minio.
