(* ===== verification/Filename.v ===== *)
(** * Filename: [generate_image_filename] of [src/s3_minio.py]

    The function builds the storage path of an image of a Django model
    instance: the class name, a time stamp of the instance's [created_at],
    and a file name made of the time stamp, a random number between 1000
    and 9999 and the extension of the original name, cleaned by the local
    function [get_valid_filename].  The model takes what the function
    reads from outside as arguments: the instance (its class name and its
    [created_at], which is [None] until the field is set) and the value the
    random generator supplies.  [strftime] is modelled for the directives
    of the one format the source uses.  Years are printed with four
    digits and [%F] as the ISO date: this is what every platform prints
    for the years 1000 to 9999, and what recent versions of Python print
    for the years below 1000, where older interpreters on glibc do not
    pad the year. *)

From S2P Require Import Prelude PyStr.

(** ** Data *)

(** [datetime.datetime], to the second. *)
Record datetime : Type := mkDatetime {
  year : N; month : N; day : N;
  hour : N; minute : N; second : N;
}.

(** What the function reads of the model instance:
    [instance.__class__.__name__] and [instance.created_at]. *)
Record instance : Type := mkInstance {
  class_name : string;
  created_at : option datetime;
}.

(** ** [datetime] and [strftime] *)

Definition is_leap (y : N) : bool :=
  ((y mod 4 =? 0) && negb (y mod 100 =? 0) || (y mod 400 =? 0))%N.

Definition days_in_month (y m : N) : N :=
  if (m =? 2)%N then (if is_leap y then 29 else 28)
  else if (m =? 4)%N || (m =? 6)%N || (m =? 9)%N || (m =? 11)%N then 30
  else 31.

(** The values the constructor of [datetime] accepts. *)
Definition datetime_ok (dt : datetime) : bool :=
  ((1 <=? year dt) && (year dt <=? 9999) && (1 <=? month dt) && (month dt <=? 12) &&
   (1 <=? day dt) && (day dt <=? days_in_month (year dt) (month dt)) &&
   (hour dt <=? 23) && (minute dt <=? 59) && (second dt <=? 59))%N.

(** A number printed with at least [width] digits. *)
Definition padded (width : nat) (n : N) : string := zfill width (str_N n).

(** What one directive of a format prints. *)
Definition directive (c : ascii) (dt : datetime) : string :=
  match c with
  | "Y"%char => padded 4 (year dt)
  | "m"%char => padded 2 (month dt)
  | "d"%char => padded 2 (day dt)
  | "H"%char => padded 2 (hour dt)
  | "M"%char => padded 2 (minute dt)
  | "S"%char => padded 2 (second dt)
  | "F"%char =>
      padded 4 (year dt) +:+ "-" +:+ padded 2 (month dt) +:+ "-" +:+ padded 2 (day dt)
  | "%"%char => "%"
  | _ => String "%" (String c "")
  end.

(** [dt.strftime(fmt)]. *)
Fixpoint strftime (fmt : string) (dt : datetime) : string :=
  match fmt with
  | "" => ""
  | String "%" (String c rest) => directive c dt +:+ strftime rest dt
  | String c rest => String c (strftime rest dt)
  end.

(** ** [random.randint] *)

(** [random.randint(a, b)] for [a <= b]: the value is determined by what the
    generator supplies. *)
Definition randint (a b : Z) (entropy : N) : Z :=
  (a + Z.of_N entropy mod (b - a + 1))%Z.

(** ** The function *)

(** The local function [get_valid_filename]. *)
Definition get_valid_filename (filename : string) : string :=
  let filename := replace " " "_" (strip filename) in
  str_filter is_valid_char filename.

(** The format of the time stamp. *)
Definition timestamp_format : string := "%Y-%m-%d-%H-%M-%S-%F".

(** [instance.created_at.strftime] on a field that is still [None]. *)
Definition no_strftime : exn :=
  Exn AttributeError "'NoneType' object has no attribute 'strftime'" None.

(** [generate_image_filename(instance, filename)], with the value the random
    generator supplies. *)
Definition generate_image_filename (inst : instance) (filename : string) (entropy : N)
    : res exn string :=
  let random_number := randint 1000 9999 entropy in
  let file_ext := last_item (split "." filename) in
  let class_name := class_name inst in
  match created_at inst with
  | None => Raise no_strftime
  | Some dt =>
      let timestamped_name := strftime timestamp_format dt in
      let valid_filename :=
        get_valid_filename (timestamped_name +:+ "-" +:+ str_Z random_number
                            +:+ "." +:+ file_ext) in
      Ret (class_name +:+ "/" +:+ timestamped_name +:+ "/" +:+ valid_filename)
  end.

(** What [get_valid_filename] makes of the end of a name whose beginning
    needs no cleaning: trailing white space goes, the remaining blanks
    become underscores, and what is outside [A-Za-z0-9._-] is dropped. *)
Definition cleaned_tail (t : string) : string :=
  str_filter is_valid_char (replace " " "_" (rstrip t)).

(** The characters of a time stamp: digits and the hyphen. *)
Definition is_stamp_char (c : ascii) : bool := is_digit c || Ascii.eqb c "-".

(** The part of the generated name that needs no cleaning: the time stamp,
    the random number and the dot. *)
Definition stem (dt : datetime) (entropy : N) : string :=
  strftime timestamp_format dt +:+ "-" +:+ str_Z (randint 1000 9999 entropy) +:+ ".".

(** ** Examples *)

Definition demo_datetime : datetime := mkDatetime 2024 1 2 3 4 5.

Definition demo_instance : instance := mkInstance "Post" (Some demo_datetime).

(** An instance that has not been saved yet. *)
Definition unsaved_instance : instance := mkInstance "Post" None.

Example get_valid_filename_ex :
  get_valid_filename "  My Photo #1.JPG " = "My_Photo_1.JPG".
Proof. by vm_compute. Qed.

Example strftime_ex :
  strftime timestamp_format demo_datetime = "2024-01-02-03-04-05-2024-01-02".
Proof. by vm_compute. Qed.

Example generate_image_filename_ex :
  generate_image_filename demo_instance "My Photo #1.JPG" 234
  = Ret "Post/2024-01-02-03-04-05-2024-01-02/2024-01-02-03-04-05-2024-01-02-1234.JPG".
Proof. by vm_compute. Qed.

(** A name without a dot, and an extension that needs cleaning. *)
Example generate_image_filename_no_dot_ex :
  generate_image_filename demo_instance "archive" 0
  = Ret "Post/2024-01-02-03-04-05-2024-01-02/2024-01-02-03-04-05-2024-01-02-1000.archive".
Proof. by vm_compute. Qed.

Example generate_image_filename_dirty_ext_ex :
  generate_image_filename demo_instance "scan.jp g!" 8999
  = Ret "Post/2024-01-02-03-04-05-2024-01-02/2024-01-02-03-04-05-2024-01-02-9999.jp_g".
Proof. by vm_compute. Qed.

(** ** Cleaning a name *)

Section clean.
Implicit Types (s t : string) (c : ascii).

Lemma get_valid_filename_fixed s :
  str_forall is_valid_char s = true → get_valid_filename s = s.
Proof.
  intros Hs. unfold get_valid_filename.
  rewrite strip_no_space by by apply valid_no_space.
  rewrite replace_char_absent by by apply valid_no_blank.
  by apply str_filter_id.
Qed.

(** A beginning that needs no cleaning is kept, and only the rest is cleaned. *)
Lemma get_valid_filename_app s t :
  s ≠ "" → str_forall is_valid_char s = true →
  get_valid_filename (s +:+ t) = s +:+ cleaned_tail t.
Proof.
  intros Hne Hs. unfold get_valid_filename, cleaned_tail.
  rewrite strip_app_no_space by auto using valid_no_space.
  rewrite replace_char_app, str_filter_app.
  rewrite replace_char_absent by by apply valid_no_blank.
  by rewrite str_filter_id.
Qed.

Lemma cleaned_tail_valid t : str_forall is_valid_char (cleaned_tail t) = true.
Proof. apply str_filter_forall. Qed.

Lemma cleaned_tail_fixed t : str_forall is_valid_char t = true → cleaned_tail t = t.
Proof.
  intros Ht. unfold cleaned_tail.
  rewrite rstrip_no_space by by apply valid_no_space.
  rewrite replace_char_absent by by apply valid_no_blank.
  by apply str_filter_id.
Qed.

End clean.

(** ** The time stamp *)

Section stamp.
Implicit Types (dt : datetime) (n : N) (w : nat).
Local Open Scope N_scope.

Lemma stamp_char_valid c : is_stamp_char c = true → is_valid_char c = true.
Proof.
  unfold is_stamp_char. intros [?| ->%Ascii.eqb_eq]%orb_true_iff; [by apply digit_is_valid|done].
Qed.

Lemma padded_digits w n : str_forall is_digit (padded w n) = true.
Proof. apply zfill_digits, str_N_digits. Qed.

Lemma padded_stamp w n : str_forall is_stamp_char (padded w n) = true.
Proof.
  eapply str_forall_impl, padded_digits. intros c Hc. unfold is_stamp_char. by rewrite Hc.
Qed.

Lemma padded_length w n :
  n < 10 ^ N.of_nat (S w) → String.length (padded (S w) n) = S w.
Proof. intros Hn. apply zfill_length. by apply str_N_length. Qed.

(** The time stamp, directive by directive. *)
Lemma strftime_timestamp dt :
  strftime timestamp_format dt
  = padded 4 (year dt) +:+ "-" +:+ padded 2 (month dt) +:+ "-" +:+ padded 2 (day dt)
    +:+ "-" +:+ padded 2 (hour dt) +:+ "-" +:+ padded 2 (minute dt) +:+ "-"
    +:+ padded 2 (second dt) +:+ "-"
    +:+ padded 4 (year dt) +:+ "-" +:+ padded 2 (month dt) +:+ "-" +:+ padded 2 (day dt).
Proof.
  unfold timestamp_format. cbn [strftime directive].
  by rewrite str_app_nil_r.
Qed.

Lemma timestamp_stamp_chars dt :
  str_forall is_stamp_char (strftime timestamp_format dt) = true.
Proof.
  rewrite strftime_timestamp, !str_forall_app, !padded_stamp. done.
Qed.

Lemma timestamp_valid dt : str_forall is_valid_char (strftime timestamp_format dt) = true.
Proof. eapply str_forall_impl, timestamp_stamp_chars. apply stamp_char_valid. Qed.

Lemma days_in_month_le y m : days_in_month y m ≤ 31.
Proof. unfold days_in_month. repeat case_match; lia. Qed.

Lemma datetime_ok_bounds dt :
  datetime_ok dt = true →
  year dt < 10 ^ 4 ∧ month dt < 10 ^ 2 ∧ day dt < 10 ^ 2 ∧
  hour dt < 10 ^ 2 ∧ minute dt < 10 ^ 2 ∧ second dt < 10 ^ 2.
Proof.
  unfold datetime_ok. rewrite !andb_true_iff, !N.leb_le.
  pose proof (days_in_month_le (year dt) (month dt)). simpl. lia.
Qed.

Lemma timestamp_length dt :
  datetime_ok dt = true → String.length (strftime timestamp_format dt) = 30%nat.
Proof.
  intros (?&?&?&?&?&?)%datetime_ok_bounds.
  rewrite strftime_timestamp, !str_length_app, !padded_length by done. done.
Qed.

Lemma timestamp_nonempty dt : strftime timestamp_format dt ≠ "".
Proof.
  rewrite strftime_timestamp. intros [_ H]%str_app_eq_nil. done.
Qed.

End stamp.

(** ** The random number *)

Section random.
Implicit Types (a b r : Z) (entropy : N).
Local Open Scope Z_scope.

Lemma randint_range a b entropy : a ≤ b → a ≤ randint a b entropy ≤ b.
Proof.
  intros Hab. unfold randint.
  pose proof (Z.mod_pos_bound (Z.of_N entropy) (b - a + 1)). lia.
Qed.

Lemma randint_reaches a b r : a ≤ r ≤ b → randint a b (Z.to_N (r - a)) = r.
Proof. intros Hr. unfold randint. rewrite Z2N.id, Z.mod_small by lia. lia. Qed.

Lemma str_Z_randint entropy :
  str_Z (randint 1000 9999 entropy) = str_N (Z.to_N (randint 1000 9999 entropy))
  ∧ (1000 ≤ Z.to_N (randint 1000 9999 entropy) ≤ 9999)%N.
Proof.
  pose proof (randint_range 1000 9999 entropy). split; [apply str_Z_nonneg|]; lia.
Qed.

Lemma str_Z_randint_valid entropy :
  str_forall is_valid_char (str_Z (randint 1000 9999 entropy)) = true.
Proof.
  destruct (str_Z_randint entropy) as [-> _].
  eapply str_forall_impl, str_N_digits. apply digit_is_valid.
Qed.

Lemma str_Z_randint_length entropy :
  String.length (str_Z (randint 1000 9999 entropy)) = 4%nat.
Proof. destruct (str_Z_randint entropy) as [-> ?]. by apply str_N_four_digits_length. Qed.

End random.

(** ** The generated path *)

Section name.
Implicit Types (inst : instance) (dt : datetime) (filename s t : string) (entropy : N).

Lemma stem_valid dt entropy : str_forall is_valid_char (stem dt entropy) = true.
Proof.
  unfold stem. by rewrite !str_forall_app, timestamp_valid, str_Z_randint_valid.
Qed.

Lemma stem_nonempty dt entropy : stem dt entropy ≠ "".
Proof. unfold stem. intros [H _]%str_app_eq_nil. by apply timestamp_nonempty in H. Qed.

Lemma generate_image_filename_eq inst dt filename entropy :
  created_at inst = Some dt →
  generate_image_filename inst filename entropy
  = Ret (class_name inst +:+ "/" +:+ strftime timestamp_format dt +:+ "/"
         +:+ stem dt entropy +:+ cleaned_tail (last_item (split "." filename))).
Proof.
  intros Hdt. unfold generate_image_filename. rewrite Hdt. do 5 f_equal.
  rewrite <-get_valid_filename_app by auto using stem_valid, stem_nonempty.
  unfold stem. by rewrite !str_app_assoc.
Qed.

(** A string of the class [A-Za-z0-9._-] has no character outside of it. *)
Lemma valid_excludes sep s :
  is_valid_char sep = false → str_forall is_valid_char s = true → no_sep sep s = true.
Proof.
  intros Hsep. apply str_forall_impl. intros c Hc.
  apply negb_true_iff, Ascii.eqb_neq. congruence.
Qed.

Lemma split3 sep a b c :
  no_sep sep a = true → no_sep sep b = true → no_sep sep c = true →
  split sep (a +:+ String sep (b +:+ String sep c)) = [a; b; c].
Proof. intros Ha Hb Hc. unfold no_sep in *. by rewrite !split_app_sep, !split_no_sep. Qed.

(** C7. The shape of the generated path: for an instance whose [created_at]
    is set, [generate_image_filename] returns the class name, the time
    stamp, and a name made of the time stamp, a hyphen, the random number, a
    dot and the cleaned extension, separated by slashes. *)
Theorem generate_image_filename_shape inst dt filename entropy :
  created_at inst = Some dt →
  generate_image_filename inst filename entropy
  = Ret (class_name inst +:+ "/" +:+ strftime timestamp_format dt +:+ "/"
         +:+ strftime timestamp_format dt +:+ "-"
         +:+ str_Z (randint 1000 9999 entropy) +:+ "."
         +:+ cleaned_tail (last_item (split "." filename))).
Proof.
  intros Hdt. rewrite (generate_image_filename_eq _ dt) by done.
  unfold stem. by rewrite !str_app_assoc.
Qed.

(** The generated path has three components: when the class name holds
    no slash, splitting the result at the slashes gives the class name, the
    time stamp and a file name, and the file name has only characters of
    [A-Za-z0-9._-] and begins with the time stamp. *)
Theorem generate_image_filename_components inst dt filename entropy :
  created_at inst = Some dt → no_sep "/" (class_name inst) = true →
  ∃ path name,
    generate_image_filename inst filename entropy = Ret path ∧
    split "/" path = [class_name inst; strftime timestamp_format dt; name] ∧
    str_forall is_valid_char name = true ∧
    String.prefix (strftime timestamp_format dt) name = true.
Proof.
  intros Hdt Hcls. eexists _, _. split; [by apply generate_image_filename_eq|].
  assert (str_forall is_valid_char
    (stem dt entropy +:+ cleaned_tail (last_item (split "." filename))) = true) as Hv.
  { by rewrite str_forall_app, stem_valid, cleaned_tail_valid. }
  split_and!; [|done|unfold stem; rewrite !str_app_assoc; apply str_prefix_app].
  apply split3; auto using valid_excludes, timestamp_valid.
Qed.

(** C38. An instance that has not been saved: with [created_at] still [None]
    the function raises [AttributeError], whatever the name. *)
Theorem generate_image_filename_unset inst filename entropy :
  created_at inst = None →
  generate_image_filename inst filename entropy = Raise no_strftime.
Proof. intros Hdt. unfold generate_image_filename. by rewrite Hdt. Qed.

(** An extension that needs no cleaning is kept: for a name [p.e] whose
    extension [e] has only characters of [A-Za-z0-9_-], the generated path
    ends in [.e]. *)
Theorem generate_image_filename_keeps_extension inst dt p e entropy :
  created_at inst = Some dt →
  str_forall is_valid_char e = true → no_sep "." e = true →
  generate_image_filename inst (p +:+ "." +:+ e) entropy
  = Ret (class_name inst +:+ "/" +:+ strftime timestamp_format dt +:+ "/"
         +:+ stem dt entropy +:+ e).
Proof.
  intros Hdt He Hdot. rewrite (generate_image_filename_eq _ dt) by done.
  change ("." +:+ e) with (String "." e).
  by rewrite last_item_split_app, cleaned_tail_fixed.
Qed.

(** A name without a dot has no extension to keep: the whole name,
    cleaned, is appended after the dot. *)
Theorem generate_image_filename_no_dot inst dt filename entropy :
  created_at inst = Some dt → no_sep "." filename = true →
  generate_image_filename inst filename entropy
  = Ret (class_name inst +:+ "/" +:+ strftime timestamp_format dt +:+ "/"
         +:+ stem dt entropy +:+ cleaned_tail filename).
Proof.
  intros Hdt Hdot. rewrite (generate_image_filename_eq _ dt) by done.
  by rewrite split_no_sep.
Qed.

(** Cleaning is idempotent, and its result has only characters of
    [A-Za-z0-9._-]. *)
Theorem get_valid_filename_idem s :
  str_forall is_valid_char (get_valid_filename s) = true ∧
  get_valid_filename (get_valid_filename s) = get_valid_filename s.
Proof.
  assert (str_forall is_valid_char (get_valid_filename s) = true) as Hv
    by apply str_filter_forall.
  split; [done|]. by apply get_valid_filename_fixed.
Qed.

(** C40. The time stamp of a valid date is thirty characters, digits and
    hyphens only. *)
Theorem timestamp_shape dt :
  datetime_ok dt = true →
  String.length (strftime timestamp_format dt) = 30%nat ∧
  str_forall is_stamp_char (strftime timestamp_format dt) = true.
Proof. intros Hdt. split; [by apply timestamp_length|apply timestamp_stamp_chars]. Qed.

(** The random part of the name is four digits, whatever the generator
    supplies, and every number from 1000 to 9999 can be drawn. *)
Theorem random_number_four_digits entropy :
  (1000 ≤ randint 1000 9999 entropy ≤ 9999)%Z ∧
  String.length (str_Z (randint 1000 9999 entropy)) = 4%nat ∧
  str_forall is_digit (str_Z (randint 1000 9999 entropy)) = true ∧
  ∀ r, (1000 ≤ r ≤ 9999)%Z → ∃ entropy', randint 1000 9999 entropy' = r.
Proof.
  split_and!; [apply randint_range; lia..|apply str_Z_randint_length| |].
  - destruct (str_Z_randint entropy) as [-> _]. apply str_N_digits.
  - intros r Hr. eexists. by apply randint_reaches.
Qed.

Lemma str_Z_randint_inj e1 e2 :
  str_Z (randint 1000 9999 e1) = str_Z (randint 1000 9999 e2) →
  randint 1000 9999 e1 = randint 1000 9999 e2.
Proof.
  destruct (str_Z_randint e1) as [-> ?], (str_Z_randint e2) as [-> ?].
  intros ?%str_N_inj. lia.
Qed.

(** Two names generated for the same instance and file differ as soon
    as the random numbers differ: they collide only when the generator
    repeats itself. *)
Theorem generate_image_filename_collision inst dt filename e1 e2 :
  created_at inst = Some dt →
  generate_image_filename inst filename e1 = generate_image_filename inst filename e2 →
  randint 1000 9999 e1 = randint 1000 9999 e2.
Proof.
  intros Hdt. rewrite !(generate_image_filename_eq _ dt) by done. unfold stem.
  rewrite !str_app_assoc. intros [= H]. apply str_Z_randint_inj.
  do 6 apply str_app_inv_head in H.
  eapply str_app_inv_length, H. by rewrite !str_Z_randint_length.
Qed.

(** Of the original name only what follows its last dot enters the path:
    two files saved for instances of one class with the same time stamp
    get the same path when the generator draws the same number, whatever
    the files are called. *)
Theorem generate_image_filename_same_key i1 i2 f1 f2 e1 e2 :
  class_name i1 = class_name i2 → created_at i1 = created_at i2 →
  last_item (split "." f1) = last_item (split "." f2) →
  randint 1000 9999 e1 = randint 1000 9999 e2 →
  generate_image_filename i1 f1 e1 = generate_image_filename i2 f2 e2.
Proof. unfold generate_image_filename. by intros -> -> -> ->. Qed.

(** C36. When two generated paths collide: for two files with the same
    extension, saved for instances of one class that were created in the
    same second, the paths are equal exactly when the generator draws the
    same number for both.  The names of the files play no part, and of
    the 9000 numbers one decides. *)
Theorem generate_image_filename_collides i1 i2 dt f1 f2 e1 e2 :
  class_name i1 = class_name i2 → created_at i1 = Some dt → created_at i2 = Some dt →
  last_item (split "." f1) = last_item (split "." f2) →
  generate_image_filename i1 f1 e1 = generate_image_filename i2 f2 e2 ↔
  randint 1000 9999 e1 = randint 1000 9999 e2.
Proof.
  intros Hc H1 H2 Hext. split; [|apply generate_image_filename_same_key; congruence].
  rewrite (generate_image_filename_same_key i2 i1 f2 f1 e2 e2) by congruence.
  by apply (generate_image_filename_collision i1 dt).
Qed.

End name.

(** ** The theorems at the demonstration instance *)

(** Two photographs of one second under one name: the number drawn is the
    same modulo 9000. *)
Example generate_image_filename_same_key_ex :
  generate_image_filename demo_instance "cat.png" 234
  = generate_image_filename demo_instance "dog.png" 9234.
Proof. by vm_compute. Qed.

Lemma generate_image_filename_shape_witness :
  generate_image_filename demo_instance "My Photo #1.JPG" 234
  = Ret ("Post" +:+ "/" +:+ "2024-01-02-03-04-05-2024-01-02" +:+ "/"
         +:+ "2024-01-02-03-04-05-2024-01-02" +:+ "-" +:+ "1234" +:+ "." +:+ "JPG").
Proof. by apply (generate_image_filename_shape demo_instance demo_datetime). Defined.

Lemma generate_image_filename_components_witness :
  ∃ path name,
    generate_image_filename demo_instance "a.png" 0 = Ret path ∧
    split "/" path = ["Post"; "2024-01-02-03-04-05-2024-01-02"; name] ∧
    str_forall is_valid_char name = true ∧
    String.prefix "2024-01-02-03-04-05-2024-01-02" name = true.
Proof. by apply (generate_image_filename_components demo_instance demo_datetime). Defined.

Lemma generate_image_filename_unset_witness :
  generate_image_filename unsaved_instance "a.png" 0 = Raise no_strftime.
Proof. by apply generate_image_filename_unset. Defined.

Lemma generate_image_filename_keeps_extension_witness :
  generate_image_filename demo_instance "holiday.2023.png" 1
  = Ret "Post/2024-01-02-03-04-05-2024-01-02/2024-01-02-03-04-05-2024-01-02-1001.png".
Proof.
  by apply (generate_image_filename_keeps_extension demo_instance demo_datetime "holiday.2023" "png").
Defined.

Lemma generate_image_filename_no_dot_witness :
  generate_image_filename demo_instance "read me" 1
  = Ret "Post/2024-01-02-03-04-05-2024-01-02/2024-01-02-03-04-05-2024-01-02-1001.read_me".
Proof. by apply (generate_image_filename_no_dot demo_instance demo_datetime). Defined.

Lemma timestamp_shape_witness :
  String.length (strftime timestamp_format demo_datetime) = 30%nat ∧
  str_forall is_stamp_char (strftime timestamp_format demo_datetime) = true.
Proof. by apply timestamp_shape. Defined.

Lemma generate_image_filename_collides_witness :
  generate_image_filename demo_instance "cat.png" 234
    = generate_image_filename demo_instance "dog.png" 9234 ↔
  randint 1000 9999 234 = randint 1000 9999 9234.
Proof.
  by apply (generate_image_filename_collides demo_instance demo_instance demo_datetime).
Defined.

Lemma generate_image_filename_collision_witness :
  randint 1000 9999 0 = randint 1000 9999 9000.
Proof.
  by apply (generate_image_filename_collision demo_instance demo_datetime "a.png").
Defined.
