(* ===== verification/WebP.v ===== *)
(** * WebP: [S3Minio.webp_converter] of [src/s3_minio.py]

    The method converts the first of the image files it is given to WEBP
    and renames the file object: the first listed extension that occurs in
    [image.name] is replaced by [.webp].  The file objects are shared with
    the caller, so they live in a heap addressed by references and the
    method changes the heap.  Pillow is behind the interface [ImageCodec]
    (open, convert, save); whether Django can be imported is part of the
    state.  A small codec, [toy_codec], instantiates the interface for the
    examples. *)

From S2P Require Import Prelude PyStr ObjectStore Gateway.

(** ** Data *)

(** A reference to a file object. *)
Abbreviation ref := positive.

(** A file object of Django: what the method reads and writes of it.  [name]
    is [None] for a file that has none. *)
Record File : Type := mkFile {
  name : option string;
  data : string;
}.

#[export] Instance File_eq_dec : EqDecision File.
Proof. solve_decision. Defined.

(** [ContentFile(content)]: the result, a file object without a name. *)
Record ContentFile : Type := mkContentFile {
  content : string;
}.

(** The state the method runs in: whether [django] can be imported, and the
    file objects. *)
Record Session : Type := mkSession {
  django : bool;
  heap : gmap ref File;
}.

(** Pillow, as far as the method calls it: [Image.open(fp)] on the bytes of
    the file, [img.convert(mode)], and [img.save(buffer, format,
    quality=q)] giving the bytes written to the buffer. *)
Class ImageCodec (Img : Type) : Type := {
  Image_open : string → res exn Img;
  Image_convert : Img → string → res exn Img;
  Image_save : Img → string → Z → res exn string;
}.

(** What a codec promises: what it saves it can open again. *)
Class ImageCodecLaws (Img : Type) `{!ImageCodec Img} : Prop := {
  Image_save_open img fmt q bytes :
    Image_save img fmt q = Ret bytes → is_Ret (Image_open bytes) = true;
}.

(** ** The method *)

Definition import_error_message : string :=
  "Convert Error (Exclusive to Django models) | pip install django django-storages".
Definition rename_error_message : string :=
  "Converter Error (Exclusive to Django models) | pip install django django-storages".
Definition convert_error_message : string :=
  "Converter Error (Exclusive to Django models) | pip install django".

Definition extensions : list string := [".jpg"; ".jpeg"; ".png"; ".svg"; ".gif"].

(** The exceptions of the interpreter the method can meet. *)
Definition no_django : exn :=
  Exn ModuleNotFoundError "No module named 'django'" None.
Definition not_iterable : exn :=
  Exn TypeError "argument of type 'NoneType' is not iterable" None.
Definition not_a_file : exn :=
  Exn AttributeError "object has no attribute 'read'" None.

(** [from django.core.files.base import ContentFile]. *)
Definition import_ContentFile : Py Session () := λ w,
  if django w then (Ret (), w) else (Raise no_django, w).

(** The file object behind a reference.  Every reference a program holds
    is in the heap; for one that is not, the model answers as an object
    without the attributes of a file. *)
Definition get_file (image : ref) : Py Session File := λ w,
  match heap w !! image with
  | Some f => (Ret f, w)
  | None => (Raise not_a_file, w)
  end.

(** [image.name]. *)
Definition get_name (image : ref) : Py Session (option string) :=
  f ← get_file image; mret (name f).

(** The session in which the file object behind [image] has the name [n]. *)
Definition with_name (image : ref) (n : string) (w : Session) : Session :=
  mkSession (django w) (alter (λ f, mkFile (Some n) (data f)) image (heap w)).

(** [image.name = n]. *)
Definition set_name (image : ref) (n : string) : Py Session () :=
  py_modify (with_name image n).

(** [e in image.name]. *)
Definition name_contains (e : string) (image : ref) : Py Session bool :=
  n ← get_name image;
  match n with
  | Some n => mret (contains e n)
  | None => py_raise not_iterable
  end.

(** [image.name.replace(e, ".webp")]. *)
Definition name_replace (e : string) (image : ref) : Py Session string :=
  n ← get_name image;
  match n with
  | Some n => mret (replace e ".webp" n)
  | None => py_raise (Exn AttributeError "'NoneType' object has no attribute 'replace'" None)
  end.

(** The body of the loop over the extensions; [Some ()] is [break]. *)
Definition rename_step (image : ref) (e : string) : Py Session (option ()) :=
  try_except
    (found ← name_contains e image;
     if (found : bool) then
       n ← name_replace e image;
       set_name image n;;
       mret (Some ())
     else mret None)
    is_Exception (λ exc, raise_from ValueError rename_error_message exc).

Section method.
Context {Img : Type} `{!ImageCodec Img}.

(** The body of the loop over the images. *)
Definition convert_body (image : ref) : Py Session (option ContentFile) :=
  try_except
    (f ← get_file image;
     img ← py_lift (Image_open (data f));
     img ← py_lift (Image_convert img "RGB");
     buffer ← py_lift (Image_save img "WEBP" 75);
     py_for extensions (rename_step image);;
     mret (Some (mkContentFile buffer)))
    is_Exception (λ exc, raise_from ValueError convert_error_message exc).

(** [webp_converter(self, *args)]. *)
Definition webp_converter (self : S3Minio.S3Minio) (args : list ref)
    : Py Session (option ContentFile) :=
  try_except import_ContentFile
    is_ImportError (λ exc, raise_from ImportError import_error_message exc);;
  py_for args convert_body.

End method.

(** ** Reference: the new name *)

(** The name after the loop over the extensions: the first listed
    extension that occurs in the name is replaced, everywhere it occurs. *)
Definition renamed (n : string) : string :=
  match List.find (λ e, contains e n) extensions with
  | Some e => replace e ".webp" n
  | None => n
  end.

Section reference.
Context {Img : Type} `{!ImageCodec Img}.

(** The three calls into the codec, as one function of the bytes. *)
Definition encode (bytes : string) : res exn string :=
  img ← Image_open bytes;
  img ← Image_convert img "RGB";
  Image_save img "WEBP" 75.

(** What the handlers make of an exception. *)
Definition convert_error (e : exn) : exn :=
  if is_Exception e then Exn ValueError convert_error_message (Some e) else e.
Definition rename_error (e : exn) : exn :=
  if is_Exception e then Exn ValueError rename_error_message (Some e) else e.

(** What the method does with the image it processes: the outcome of the
    codec decides, then the name. *)
Definition converted (image : ref) (f : File) (w : Session)
    : res exn (option ContentFile) * Session :=
  match encode (data f), name f with
  | Raise e, _ => (Raise (convert_error e), w)
  | Ret buffer, Some n => (Ret (Some (mkContentFile buffer)), with_name image (renamed n) w)
  | Ret _, None => (Raise (convert_error (rename_error not_iterable)), w)
  end.

End reference.

(** ** A small codec *)

(** An image: the format it was read from, its mode and its pixels.  Its
    bytes are the three, separated by colons. *)
Record toy_image : Type := mkToy {
  t_format : string;
  t_mode : string;
  t_pixels : string;
}.

Definition toy_formats : list string := ["PNG"; "JPEG"; "GIF"; "WEBP"].

Definition unidentified : exn :=
  Exn UnidentifiedImageError "cannot identify image file" None.
Definition unknown_format : exn :=
  Exn ValueError "unknown file extension" None.

Definition toy_open (bytes : string) : res exn toy_image :=
  match split ":" bytes with
  | [fmt; mode; px] =>
      if bool_decide (fmt ∈ toy_formats) then Ret (mkToy fmt mode px) else Raise unidentified
  | _ => Raise unidentified
  end.

Definition toy_convert (img : toy_image) (mode : string) : res exn toy_image :=
  Ret (mkToy (t_format img) mode (t_pixels img)).

Definition toy_save (img : toy_image) (fmt : string) (quality : Z) : res exn string :=
  if bool_decide (fmt ∈ toy_formats)
     && no_sep ":" fmt && no_sep ":" (t_mode img) && no_sep ":" (t_pixels img)
  then Ret (fmt +:+ ":" +:+ t_mode img +:+ ":" +:+ t_pixels img)
  else Raise unknown_format.

#[export] Instance toy_codec : ImageCodec toy_image :=
  {| Image_open := toy_open; Image_convert := toy_convert; Image_save := toy_save |}.

(** ** A session for the examples *)

Definition demo_session : Session :=
  mkSession true
    (<[1%positive := mkFile (Some "cat.png") "PNG:RGBA:meow"]>
     (<[2%positive := mkFile (Some "dog.jpeg") "JPEG:RGB:woof"]>
      (<[3%positive := mkFile None "GIF:P:blub"]>
       (<[4%positive := mkFile (Some "notes.txt") "hello"]> ∅)))).

Definition demo_no_django : Session := mkSession false (heap demo_session).

(** ** The reference name *)

Section renamed.
Implicit Types (n stem e : string).

Lemma renamed_found e n :
  List.find (λ e, contains e n) extensions = Some e → renamed n = replace e ".webp" n.
Proof. unfold renamed. by intros ->. Qed.

Lemma renamed_not_found n :
  List.find (λ e, contains e n) extensions = None → renamed n = n.
Proof. unfold renamed. by intros ->. Qed.

(** In a name with a single dot, the one before a listed extension, that
    extension is the one the loop finds. *)
Lemma find_extension stem e :
  no_sep "." stem = true → e ∈ extensions →
  List.find (λ e', contains e' (stem +:+ e)) extensions = Some e.
Proof.
  intros Hstem He. unfold extensions in *. cbn [List.find].
  rewrite !elem_of_cons, elem_of_nil in He.
  destruct He as [->|[->|[->|[->|[->|[]]]]]]; by rewrite !contains_after.
Qed.

End renamed.

(** ** The loop over the extensions *)

Section rename.
Implicit Types (image : ref) (w : Session) (n e d : string) (es : list string).

Lemma with_name_same image n d w :
  heap w !! image = Some (mkFile (Some n) d) → with_name image n w = w.
Proof.
  intros Hf. destruct w as [dj h]. unfold with_name. simpl in *. f_equal.
  apply alter_id. intros f Hf'. by simplify_eq.
Qed.

Lemma get_file_eq image f w : heap w !! image = Some f → get_file image w = (Ret f, w).
Proof. intros Hf. unfold get_file. by rewrite Hf. Qed.

Lemma rename_step_named image e n d w :
  heap w !! image = Some (mkFile (Some n) d) →
  rename_step image e w
  = if contains e n then (Ret (Some ()), with_name image (replace e ".webp" n) w)
    else (Ret None, w).
Proof.
  intros Hf. unfold rename_step, name_contains, name_replace, get_name, set_name.
  py_unfold. rewrite (get_file_eq _ _ _ Hf). simpl.
  destruct (contains e n); [|done]. by rewrite (get_file_eq _ _ _ Hf).
Qed.

Lemma rename_step_unnamed image e d w :
  heap w !! image = Some (mkFile None d) →
  rename_step image e w = (Raise (rename_error not_iterable), w).
Proof.
  intros Hf. unfold rename_step, name_contains, get_name. py_unfold.
  by rewrite (get_file_eq _ _ _ Hf).
Qed.

Lemma rename_loop_named es image n d w :
  heap w !! image = Some (mkFile (Some n) d) →
  py_for es (rename_step image) w
  = match List.find (λ e, contains e n) es with
    | Some e => (Ret (Some ()), with_name image (replace e ".webp" n) w)
    | None => (Ret None, w)
    end.
Proof.
  intros Hf. induction es as [|e es IH]; [done|]. cbn [py_for List.find]. py_unfold.
  rewrite (rename_step_named _ _ _ _ _ Hf). destruct (contains e n); [done|]. apply IH.
Qed.

(** The loop over the extensions leaves the file with its new name. *)
Lemma rename_loop_renamed image n d w :
  heap w !! image = Some (mkFile (Some n) d) →
  ∃ r, py_for extensions (rename_step image) w = (Ret r, with_name image (renamed n) w).
Proof.
  intros Hf. rewrite (rename_loop_named _ _ _ _ _ Hf). unfold renamed.
  destruct (List.find _ _); eexists; [done|]. by rewrite (with_name_same _ _ _ _ Hf).
Qed.

End rename.

(** ** The method in terms of its reference *)

Section method.
Context {Img : Type} `{!ImageCodec Img}.
Implicit Types (image : ref) (w : Session) (n d : string) (self : S3Minio.S3Minio) (f : File).

(** The body of the loop over the images, in terms of [converted]. *)
Lemma convert_body_eq image f w :
  heap w !! image = Some f → convert_body image w = converted image f w.
Proof.
  intros Hf. unfold convert_body, converted, encode, convert_error. py_unfold.
  rewrite (get_file_eq _ _ _ Hf).
  destruct (Image_open (data f)) as [img|e]; [|by destruct (is_Exception e)].
  cbn [mbind res_bind].
  destruct (Image_convert img "RGB") as [img'|e]; [|by destruct (is_Exception e)].
  cbn [mbind res_bind].
  destruct (Image_save img' "WEBP" 75) as [buffer|e]; [|by destruct (is_Exception e)].
  destruct f as [[n|] d]; cbn [name].
  - destruct (rename_loop_renamed image n d w Hf) as [r Hr]. by rewrite Hr.
  - unfold extensions. cbn [py_for]. py_unfold.
    by rewrite (rename_step_unnamed _ _ _ _ Hf).
Qed.

Lemma convert_body_absent image w :
  heap w !! image = None → convert_body image w = (Raise (convert_error not_a_file), w).
Proof. intros Hf. unfold convert_body, get_file. py_unfold. by rewrite Hf. Qed.


Lemma convert_body_returns image w w' : convert_body image w ≠ (Ret None, w').
Proof.
  destruct (heap w !! image) as [f|] eqn:Hf; [|by rewrite convert_body_absent].
  rewrite (convert_body_eq _ f) by done. unfold converted.
  by destruct (encode (data f)), (name f).
Qed.

Lemma webp_converter_eq self args w :
  webp_converter self args w
  = if django w then py_for args convert_body w
    else (Raise (Exn ImportError import_error_message (Some no_django)), w).
Proof. unfold webp_converter, import_ContentFile. py_unfold. by destruct (django w). Qed.

Lemma webp_converter_cons self image rest f w :
  django w = true → heap w !! image = Some f →
  webp_converter self (image :: rest) w = converted image f w.
Proof.
  intros Hdj Hf. rewrite webp_converter_eq, Hdj, py_for_cons_returns
    by (intros w'; apply convert_body_returns).
  cbn [py_for]. py_unfold. rewrite (convert_body_eq _ f) by done.
  by destruct (converted image f w) as [[[r|]|e] w'].
Qed.

End method.

(** ** What a call changes *)

Section frame.
Implicit Types (image j : ref) (w : Session) (n d : string).

Lemma with_name_lookup image n w :
  heap (with_name image n w) !! image = (λ f, mkFile (Some n) (data f)) <$> heap w !! image.
Proof. apply lookup_alter_eq. Qed.

Lemma with_name_lookup_ne image j n w :
  image ≠ j → heap (with_name image n w) !! j = heap w !! j.
Proof. apply lookup_alter_ne. Qed.

Lemma with_name_data image j n w :
  data <$> heap (with_name image n w) !! j = data <$> heap w !! j.
Proof.
  destruct (decide (image = j)) as [->|?]; [|by rewrite with_name_lookup_ne].
  rewrite with_name_lookup. by destruct (heap w !! j).
Qed.

End frame.

(** ** The method *)

Section method_theorems.
Context {Img : Type} `{!ImageCodec Img}.
Implicit Types (image j : ref) (w : Session) (n d : string) (self : S3Minio.S3Minio) (f : File).

(** The state after a call: the one before, or the one before with a new
    name for the first image. *)
Lemma webp_converter_state self args w r w' :
  webp_converter self args w = (r, w') →
  w' = w ∨ ∃ image n, head args = Some image ∧ w' = with_name image n w.
Proof.
  rewrite webp_converter_eq. destruct (django w) eqn:Hdj; [|intros [= _ <-]; by left].
  destruct args as [|image rest]; [intros [= _ <-]; by left|].
  rewrite py_for_cons_returns by (intros ?; apply convert_body_returns).
  cbn [py_for]. py_unfold.
  destruct (heap w !! image) as [f|] eqn:Hf.
  - rewrite (convert_body_eq _ f) by done. unfold converted.
    destruct (encode (data f)), (name f) as [n|]; intros [= _ <-]; eauto.
  - rewrite convert_body_absent by done. intros [= _ <-]. by left.
Qed.

(** C6. A successful conversion: when Django is there, the first image is
    a file with a name whose bytes the codec opens, converts and saves,
    [webp_converter] returns a [ContentFile] with the bytes saved, and
    afterwards the file object has the new name and its old bytes; no other
    file object has changed. *)
Theorem webp_converter_ok self image rest n d buffer w :
  django w = true → heap w !! image = Some (mkFile (Some n) d) →
  encode d = Ret buffer →
  ∃ w', webp_converter self (image :: rest) w = (Ret (Some (mkContentFile buffer)), w') ∧
    heap w' !! image = Some (mkFile (Some (renamed n)) d) ∧
    (∀ j, image ≠ j → heap w' !! j = heap w !! j) ∧ django w' = true.
Proof.
  intros Hdj Hf Henc. eexists. split_and!.
  - rewrite (webp_converter_cons _ _ _ _ _ Hdj Hf). unfold converted. cbn [data name].
    by rewrite Henc.
  - by rewrite with_name_lookup, Hf.
  - intros j Hj. by apply with_name_lookup_ne.
  - done.
Qed.

(** C25. Only the first image is converted: the [return] inside the loop
    ends the call, so [webp_converter(i, *rest)] is [webp_converter(i)]. *)
Theorem webp_converter_only_first self image rest w :
  webp_converter self (image :: rest) w = webp_converter self [image] w.
Proof.
  rewrite !webp_converter_eq. destruct (django w); [|done].
  apply py_for_cons_returns. intros w'. apply convert_body_returns.
Qed.

(** Without Django the method raises [ImportError] with the message of
    the source and the import's exception as cause, whatever the
    arguments, and changes nothing. *)
Theorem webp_converter_no_django self args w :
  django w = false →
  webp_converter self args w
  = (Raise (Exn ImportError import_error_message (Some no_django)), w).
Proof. intros Hdj. by rewrite webp_converter_eq, Hdj. Qed.

(** C35. A failure of the codec: when opening, converting or saving raises
    an [Exception], the method raises [ValueError] with the message of the
    outer handler and that exception as cause; the file object keeps its
    name. *)
Theorem webp_converter_codec_error self image rest f e w :
  django w = true → heap w !! image = Some f →
  encode (data f) = Raise e → is_Exception e = true →
  webp_converter self (image :: rest) w
  = (Raise (Exn ValueError convert_error_message (Some e)), w).
Proof.
  intros Hdj Hf Henc He. rewrite (webp_converter_cons _ _ _ _ _ Hdj Hf).
  unfold converted, convert_error. by rewrite Henc, He.
Qed.

(** A file without a name: the test [e in image.name] raises
    [TypeError], the inner handler wraps it, and the outer handler wraps
    that: the caller gets a [ValueError] whose cause is a [ValueError]
    whose cause is the [TypeError]. *)
Theorem webp_converter_unnamed self image rest d buffer w :
  django w = true → heap w !! image = Some (mkFile None d) →
  encode d = Ret buffer →
  webp_converter self (image :: rest) w
  = (Raise (Exn ValueError convert_error_message
             (Some (Exn ValueError rename_error_message (Some not_iterable)))), w).
Proof.
  intros Hdj Hf Henc. rewrite (webp_converter_cons _ _ _ _ _ Hdj Hf).
  unfold converted. cbn [data name]. by rewrite Henc.
Qed.

(** What a call can change: on every path, whatever it returns or
    raises, the bytes of every file object and the availability of Django
    are as before, and every file object other than the first argument is
    as before. *)
Theorem webp_converter_frame self args w r w' :
  webp_converter self args w = (r, w') →
  django w' = django w ∧
  (∀ j, data <$> heap w' !! j = data <$> heap w !! j) ∧
  (∀ j, head args ≠ Some j → heap w' !! j = heap w !! j).
Proof.
  intros [->|(image & n & Hhd & ->)]%webp_converter_state; [done|].
  split_and!; [done|intros j; apply with_name_data|].
  intros j Hj. apply with_name_lookup_ne. congruence.
Qed.

End method_theorems.

(** ** The new name *)

Section renamed_theorems.
Implicit Types (n stem e : string) (image : ref) (w : Session).

Lemma extension_dot e : e ∈ extensions → ∃ old, e = String "." old.
Proof.
  unfold extensions. rewrite !elem_of_cons, elem_of_nil.
  intros [->|[->|[->|[->|[->|[]]]]]]; eauto.
Qed.

(** The new name of an ordinary image file: a name made of a stem
    without a dot and one of the listed extensions gets the extension
    [.webp]. *)
Theorem renamed_extension stem e :
  no_sep "." stem = true → e ∈ extensions → renamed (stem +:+ e) = stem +:+ ".webp".
Proof.
  intros Hstem He. rewrite (renamed_found e) by by apply find_extension.
  destruct (extension_dot e He) as [old ->].
  rewrite <-(str_app_nil_r (String "." old)) at 2.
  by rewrite replace_after, replace_nil.
Qed.

(** C24. The loop over the extensions computes [renamed]: for a file with
    the name [n] it ends with the name [renamed n], it stops with [break]
    exactly when one of the extensions occurs in [n], and it raises
    nothing. *)
Theorem rename_loop_spec image n d w :
  heap w !! image = Some (mkFile (Some n) d) →
  py_for extensions (rename_step image) w
  = (Ret (if existsb (λ e, contains e n) extensions then Some () else None),
     with_name image (renamed n) w).
Proof.
  intros Hf. rewrite (rename_loop_named _ _ _ _ _ Hf). unfold renamed.
  destruct (List.find _ _) as [e|] eqn:Hfind.
  - apply find_some in Hfind as [Hin He].
    by rewrite (proj2 (existsb_exists _ _) (ex_intro _ e (conj Hin He))).
  - rewrite (with_name_same _ _ _ _ Hf).
    destruct (existsb _ _) eqn:Hex; [|done].
    apply existsb_exists in Hex as (e & Hin & He).
    by rewrite (find_none _ _ Hfind e Hin) in He.
Qed.

End renamed_theorems.

(** ** The small codec keeps the promise of a codec *)

Section toy.

Lemma toy_save_Ret img fmt q bytes :
  toy_save img fmt q = Ret bytes →
  fmt ∈ toy_formats ∧ no_sep ":" fmt = true ∧ no_sep ":" (t_mode img) = true ∧
  no_sep ":" (t_pixels img) = true ∧
  bytes = fmt +:+ ":" +:+ t_mode img +:+ ":" +:+ t_pixels img.
Proof.
  unfold toy_save. case_match eqn:Hc; [|done]. intros [= <-].
  rewrite !andb_true_iff, bool_decide_eq_true in Hc. tauto.
Qed.

Lemma toy_open_saved fmt mode px :
  fmt ∈ toy_formats → no_sep ":" fmt = true → no_sep ":" mode = true →
  no_sep ":" px = true →
  toy_open (fmt +:+ ":" +:+ mode +:+ ":" +:+ px) = Ret (mkToy fmt mode px).
Proof.
  intros Hfmt H1 H2 H3. unfold toy_open, no_sep in *.
  change (":" +:+ mode +:+ ":" +:+ px) with (String ":" (mode +:+ String ":" px)).
  rewrite !split_app_sep, !split_no_sep by done. cbn [app].
  by rewrite bool_decide_eq_true_2.
Qed.

#[export] Instance toy_codec_laws : ImageCodecLaws toy_image.
Proof.
  split. intros img fmt q bytes (?&?&?&?&->)%toy_save_Ret.
  cbn [Image_open toy_codec]. by rewrite toy_open_saved.
Qed.

End toy.

(** ** Over a lawful codec *)

Section laws.
Context {Img : Type} `{!ImageCodec Img} `{!ImageCodecLaws Img}.
Implicit Types (image j : ref) (w : Session) (self : S3Minio.S3Minio).

Lemma encode_Ret bytes buffer :
  encode bytes = Ret buffer → ∃ img, Image_save img "WEBP" 75 = Ret buffer.
Proof.
  unfold encode. destruct (Image_open bytes) as [img|]; [|done]. cbn [mbind res_bind].
  destruct (Image_convert img "RGB") as [img'|]; [|done]. eauto.
Qed.

Lemma converted_Ret image f w r w' :
  converted image f w = (Ret r, w') →
  ∃ buffer, r = Some (mkContentFile buffer) ∧ encode (data f) = Ret buffer.
Proof.
  unfold converted. destruct (encode (data f)) as [buffer|], (name f); intros [= <- _]; eauto.
Qed.

Lemma webp_converter_Ret self args w r w' :
  webp_converter self args w = (Ret r, w') →
  (args = [] ∧ r = None) ∨
  ∃ image f buffer, head args = Some image ∧ heap w !! image = Some f ∧
    r = Some (mkContentFile buffer) ∧ encode (data f) = Ret buffer.
Proof.
  destruct (django w) eqn:Hdj; [|by rewrite webp_converter_eq, Hdj].
  destruct args as [|image rest]; [rewrite webp_converter_eq, Hdj; intros [= <- _]; by left|].
  destruct (heap w !! image) as [f|] eqn:Hf.
  - rewrite (webp_converter_cons _ _ _ f) by done.
    intros (buffer & -> & ?)%converted_Ret. right. by exists image, f, buffer.
  - rewrite webp_converter_eq, Hdj, py_for_cons_returns by (intros ?; apply convert_body_returns).
    cbn [py_for]. py_unfold. by rewrite convert_body_absent.
Qed.

(** What the method returns is an image: over a codec that can open
    what it saves, the content of the [ContentFile] returned opens. *)
Theorem webp_converter_result_opens self args w cf w' :
  webp_converter self args w = (Ret (Some cf), w') →
  is_Ret (Image_open (content cf)) = true.
Proof.
  intros [[_ [=]]|(image & f & buffer & _ & _ & [= ->] & Henc)]%webp_converter_Ret.
  apply encode_Ret in Henc as [img Hsave]. by apply (Image_save_open img "WEBP" 75).
Qed.

End laws.

(** ** Examples and the theorems at the demonstration session *)

Example webp_converter_ex :
  webp_converter S3Minio.demo_self [1; 2]%positive demo_session
  = (Ret (Some (mkContentFile "WEBP:RGB:meow")), with_name 1 "cat.webp" demo_session).
Proof. by vm_compute. Qed.

(** The test is a substring test and the replacement replaces every
    occurrence; capital letters are not recognised; a second call renames
    further. *)
Example renamed_ex :
  renamed "my.png.backup.gif" = "my.webp.backup.gif" ∧
  renamed "x.jpg.jpg" = "x.webp.webp" ∧
  renamed "IMG_0001.PNG" = "IMG_0001.PNG" ∧
  renamed "a.jpg.png" = "a.webp.png" ∧ renamed "a.webp.png" = "a.webp.webp".
Proof. by vm_compute. Qed.

Lemma webp_converter_ok_witness :
  ∃ w', webp_converter S3Minio.demo_self [1; 2]%positive demo_session
        = (Ret (Some (mkContentFile "WEBP:RGB:meow")), w') ∧
    heap w' !! 1%positive = Some (mkFile (Some (renamed "cat.png")) "PNG:RGBA:meow") ∧
    (∀ j, 1%positive ≠ j → heap w' !! j = heap demo_session !! j) ∧ django w' = true.
Proof. by apply (webp_converter_ok S3Minio.demo_self 1 [2%positive] "cat.png" "PNG:RGBA:meow"). Defined.

Lemma webp_converter_no_django_witness :
  webp_converter S3Minio.demo_self [1%positive] demo_no_django
  = (Raise (Exn ImportError import_error_message (Some no_django)), demo_no_django).
Proof. by apply webp_converter_no_django. Defined.

Lemma webp_converter_codec_error_witness :
  webp_converter S3Minio.demo_self [4; 1]%positive demo_session
  = (Raise (Exn ValueError convert_error_message (Some unidentified)), demo_session).
Proof.
  by apply (webp_converter_codec_error S3Minio.demo_self 4 [1%positive]
              (mkFile (Some "notes.txt") "hello")).
Defined.

Lemma webp_converter_unnamed_witness :
  webp_converter S3Minio.demo_self [3%positive] demo_session
  = (Raise (Exn ValueError convert_error_message
             (Some (Exn ValueError rename_error_message (Some not_iterable)))), demo_session).
Proof. by apply (webp_converter_unnamed S3Minio.demo_self 3 [] "GIF:P:blub" "WEBP:RGB:blub"). Defined.

Lemma webp_converter_frame_witness :
  django (with_name 2 "dog.webp" demo_session) = django demo_session ∧
  (∀ j, data <$> heap (with_name 2 "dog.webp" demo_session) !! j
        = data <$> heap demo_session !! j) ∧
  (∀ j, head [2; 1]%positive ≠ Some j →
        heap (with_name 2 "dog.webp" demo_session) !! j = heap demo_session !! j).
Proof.
  by apply (webp_converter_frame S3Minio.demo_self [2; 1]%positive demo_session
              (Ret (Some (mkContentFile "WEBP:RGB:woof")))).
Defined.

Lemma renamed_extension_witness : renamed ("holiday" +:+ ".jpeg") = "holiday" +:+ ".webp".
Proof.
  apply renamed_extension; [done|].
  apply (bool_decide_unpack (".jpeg" ∈ extensions)). by vm_compute.
Defined.

Lemma rename_loop_spec_witness :
  py_for extensions (rename_step 2) demo_session
  = (Ret (if existsb (λ e, contains e "dog.jpeg") extensions then Some () else None),
     with_name 2 (renamed "dog.jpeg") demo_session).
Proof. by apply (rename_loop_spec 2 "dog.jpeg" "JPEG:RGB:woof"). Defined.

Lemma webp_converter_result_opens_witness :
  is_Ret (Image_open (content (mkContentFile "WEBP:RGB:meow"))) = true.
Proof.
  by apply (webp_converter_result_opens S3Minio.demo_self [1%positive] demo_session
              (mkContentFile "WEBP:RGB:meow") (with_name 1 "cat.webp" demo_session)).
Defined.
