(* ===== verification/Signatures.v ===== *)
(** * Signatures: what each method can return and raise

    Python does not check what a function returns or raises; the
    documentation strings of the source state it ("True if successful,
    False otherwise").  A [signature] is a set of values and a set of
    exceptions, [has_sig c s] says that the call [c] returns in the first or
    raises in the second from every state, and the rules of the section
    [rules] derive signatures along the structure of a definition: [mret],
    bind, [try_except], [py_for].  The signatures of the methods are derived
    with these rules alone, for any client and any codec, whatever their
    operations return or raise. *)

From S2P Require Import Prelude Loops PyStr FileSystem ObjectStore Gateway WebP.

(** ** Signatures *)

Record signature (A : Type) : Type := Sig {
  returns : A → Prop;
  raises : exn → Prop;
}.
Arguments Sig {A} returns raises.
Arguments returns {A} s v.
Arguments raises {A} s e.

(** No constraint. *)
Definition any {A : Type} : A → Prop := λ _, True.

(** An outcome within a signature. *)
Definition conforms {A} (s : signature A) (r : res exn A) : Prop :=
  match r with
  | Ret v => returns s v
  | Raise e => raises s e
  end.

(** A call that stays within a signature from every state. *)
Definition has_sig {W A} (c : Py W A) (s : signature A) : Prop :=
  ∀ w, conforms s (c w).1.

(** The value of a loop or of a function that may fall off its end: [None],
    or a value of [P]. *)
Definition optional {A} (P : A → Prop) : option A → Prop := from_option P True.

(** ** The exceptions of the methods *)

(** An exception of the gateway: a [ValueError] whose message starts with
    the prefix of the method and whose cause is set. *)
Definition gateway_error (prefix : string) (e : exn) : Prop :=
  exn_cls e = ValueError ∧ String.prefix prefix (exn_str e) = true ∧ is_Some (exn_cause e).

(** An exception that no [except Exception] clause catches. *)
Definition passes_through (e : exn) : Prop := is_Exception e = false.

(** An exception with a class, a message and a cause. *)
Definition wrapped (c : exn_class) (msg : string) (e : exn) : Prop :=
  exn_cls e = c ∧ exn_str e = msg ∧ is_Some (exn_cause e).

(** The signatures of the methods. *)
Definition upload_sig : signature (option bool) :=
  Sig (optional (λ b, b = true))
      (λ e, gateway_error "Upload Error: " e ∨ passes_through e).

Definition delete_sig : signature (option bool) :=
  Sig (optional (λ b, b = true))
      (λ e, gateway_error "Delete Error: " e ∨ passes_through e).

Definition get_url_sig : signature (option string) :=
  Sig any (λ e, is_ClientError e = false).

Definition webp_converter_sig : signature (option ContentFile) :=
  Sig (optional any) (λ e, wrapped ImportError import_error_message e ∨
                wrapped ValueError convert_error_message e ∨ passes_through e).

(** ** The rules *)

Section rules.
Context {W : Type}.
Implicit Types (e : exn) (w : W).

Lemma has_sig_weaken {A} (c : Py W A) (s s' : signature A) :
  has_sig c s → (∀ v, returns s v → returns s' v) → (∀ e, raises s e → raises s' e) →
  has_sig c s'.
Proof. intros Hc Hr He w. specialize (Hc w). destruct (c w).1; simpl in *; auto. Qed.

Lemma has_sig_any {A} (c : Py W A) : has_sig c (Sig any any).
Proof. intros w. by destruct (c w).1. Qed.

Lemma has_sig_ret {A} (v : A) (P : A → Prop) E : P v → has_sig (W:=W) (mret v) (Sig P E).
Proof. by intros Hv w. Qed.

Lemma has_sig_raise {A} e (P : A → Prop) (E : exn → Prop) :
  E e → has_sig (W:=W) (py_raise e) (Sig P E).
Proof. by intros He w. Qed.

Lemma has_sig_raise_from {A} c msg e (P : A → Prop) (E : exn → Prop) :
  E (Exn c msg (Some e)) → has_sig (W:=W) (raise_from c msg e) (Sig P E).
Proof. by intros He w. Qed.

Lemma has_sig_bind {A B} (c : Py W A) (f : A → Py W B) P Q E :
  has_sig c (Sig P E) → (∀ v, P v → has_sig (f v) (Sig Q E)) →
  has_sig (c ≫= f) (Sig Q E).
Proof.
  intros Hc Hf w. specialize (Hc w). py_unfold.
  destruct (c w) as [[v|e] w']; simpl in *; [by apply Hf|done].
Qed.

(** Whatever has run before, what runs last decides what is returned. *)
Lemma has_sig_then {A B} (c : Py W A) (f : A → Py W B) Q :
  (∀ v, has_sig (f v) (Sig Q any)) → has_sig (c ≫= f) (Sig Q any).
Proof. intros Hf. apply (has_sig_bind _ _ any); [apply has_sig_any|auto]. Qed.

(** [try ... except]: the handler decides for what is caught, the rest
    passes. *)
Lemma has_sig_try {A} (body : Py W A) catches (h : exn → Py W A) P E0 E :
  has_sig body (Sig P E0) →
  (∀ e, E0 e → catches e = true → has_sig (h e) (Sig P E)) →
  (∀ e, E0 e → catches e = false → E e) →
  has_sig (try_except body catches h) (Sig P E).
Proof.
  intros Hb Hh Hpass w. specialize (Hb w). py_unfold.
  destruct (body w) as [[v|e] w']; simpl in *; [done|].
  destruct (catches e) eqn:Hc; [by apply Hh|by apply Hpass].
Qed.

(** A loop returns what its body returns, or nothing. *)
Lemma has_sig_for {A R} (xs : list A) (body : A → Py W (option R)) P E :
  (∀ x, has_sig (body x) (Sig (optional P) E)) →
  has_sig (py_for xs body) (Sig (optional P) E).
Proof.
  intros Hb. induction xs as [|x xs IH]; [by intros w|].
  cbn [py_for]. eapply has_sig_bind; [apply Hb|].
  intros [v|] Hv; [by apply has_sig_ret|done].
Qed.

End rules.

(** ** The methods *)

Section gateway.
Context {St : Type} `{!ObjectStore St}.
Implicit Types (self : S3Minio.S3Minio) (e : exn).

Lemma upload_exn_gateway_error e : gateway_error "Upload Error: " (S3Minio.upload_exn e).
Proof. split_and!; [done|apply str_prefix_app|by eexists]. Qed.

Lemma delete_exn_gateway_error e : gateway_error "Delete Error: " (S3Minio.delete_exn e).
Proof. split_and!; [done|apply str_prefix_app|by eexists]. Qed.

(** C19. The signature of [upload]: for any client and any arguments it
    returns [True] or [None], never [False], and what it raises is a
    [ValueError] with the prefix [Upload Error: ] and a cause, or an
    exception that is not an [Exception]. *)
Theorem upload_signature self args : has_sig (S3Minio.upload self args) upload_sig.
Proof.
  apply has_sig_for. intros k. apply (has_sig_try _ _ _ _ any).
  - do 3 (apply has_sig_then; intros _). by apply has_sig_ret.
  - intros e _ _. apply has_sig_raise. left. apply upload_exn_gateway_error.
  - intros e _ He. by right.
Qed.

Lemma delete_signature self args : has_sig (S3Minio.delete self args) delete_sig.
Proof.
  apply has_sig_for. intros k. apply (has_sig_try _ _ _ _ any).
  - apply has_sig_then; intros _. by apply has_sig_ret.
  - intros e _ _. apply has_sig_raise. left. apply delete_exn_gateway_error.
  - intros e _ He. by right.
Qed.

(** The signature of [get_url]: for any client it raises no
    [ClientError]; every other exception of the client passes. *)
Theorem get_url_signature self path : has_sig (S3Minio.get_url self path) get_url_sig.
Proof.
  apply (has_sig_try _ _ _ _ any); [apply has_sig_any|..].
  - intros e _ _. by apply has_sig_ret.
  - by intros e _ He.
Qed.

End gateway.

Section converter.
Context {Img : Type} `{!ImageCodec Img}.

(** C34. The signature of [webp_converter]: for any codec and any file
    objects, what it raises is the [ImportError] of its guard, the
    [ValueError] of its outer handler, each with its message and a cause,
    or an exception that is not an [Exception]. *)
Theorem webp_converter_signature self args :
  has_sig (webp_converter self args) webp_converter_sig.
Proof.
  eapply has_sig_bind.
  - apply (has_sig_try _ _ _ any (λ e, e = no_django)).
    + intros w. unfold import_ContentFile. by destruct (django w).
    + intros e _ _. apply has_sig_raise_from. left. by split_and!.
    + by intros e -> He.
  - intros _ _. apply has_sig_for. intros image. apply (has_sig_try _ _ _ _ any).
    + apply has_sig_weaken with (Sig any any); [apply has_sig_any|by intros []|done].
    + intros e _ _. apply has_sig_raise_from. right. left. by split_and!.
    + intros e _ He. by right; right.
Qed.

End converter.
