(* ===== verification/Refinement.v ===== *)
(** * Refinement: the gateway against the contract of an object-storage gateway

    [Contract] is the abstract machine that spec.md describes for a single
    key: a bucket and a staging area, both maps from keys to bytes, and a
    step relation for upload, delete and presign with their answers.  Its
    states are functions compared pointwise.  The gateway of [Gateway.v]
    implements it: [abs] maps a world to a state of the contract, [call]
    runs one request on the world, and every call is a step of the contract
    between the abstractions ([upload_refines], [delete_refines],
    [get_url_refines]); so is every sequence of calls ([run_refines]).  The
    calls are those with one key: with several, the methods process the
    first only.

    The theorems hold over any store that satisfies [ObjectStoreLaws]; the
    presign needs in addition that the existence probe fails with a
    [ClientError] only for a key that holds nothing, which is what [Serving]
    asks of the states the store goes through.  The in-memory store
    satisfies it while it is online and knows the client's credentials and
    the bucket ([mem_store_serving]). *)

From S2P Require Import Prelude PyStr FileSystem ObjectStore Gateway.
Import S3Minio.

(** ** The contract *)

Module Contract.

(** Per key, the bytes stored in the bucket and the bytes staged locally. *)
Record state : Type := mkState {
  bucket : string → option string;
  staged : string → option string;
}.

Inductive request : Type :=
| Upload (key : string)
| Delete (key : string)
| GetPresignedURL (key : string).

(** The error kinds of the gateway; [Unhandled] is an exception of the
    backend that the gateway passes on as it is. *)
Inductive error_kind : Type := UploadError | DeleteError | Unhandled.

Inductive answer : Type :=
| Done
| Url (url : string)
| Absent
| Failed (kind : error_kind).

#[export] Instance error_kind_eq_dec : EqDecision error_kind.
Proof. solve_decision. Defined.
#[export] Instance answer_eq_dec : EqDecision answer.
Proof. solve_decision. Defined.
#[export] Instance request_eq_dec : EqDecision request.
Proof. solve_decision. Defined.

(** States are compared key by key. *)
#[export] Instance state_equiv : Equiv state := λ s t,
  (∀ k, bucket s k = bucket t k) ∧ (∀ k, staged s k = staged t k).

(** The state after a successful upload of [k], and after a deletion. *)
Definition put (k data : string) (s : state) : state :=
  mkState (λ k', if decide (k' = k) then Some data else bucket s k')
          (λ k', if decide (k' = k) then None else staged s k').

Definition remove (k : string) (s : state) : state :=
  mkState (λ k', if decide (k' = k) then None else bucket s k') (staged s).

(** The failures a request may answer with. *)
Definition may_fail (rq : request) (kind : error_kind) : bool :=
  match rq, kind with
  | Upload _, UploadError | Delete _, DeleteError | _, Unhandled => true
  | _, _ => false
  end.

(** One request: an upload moves the staged bytes into the bucket, a
    deletion empties the key, a presign answers with a URL for a key that
    holds an object and with [Absent] for one that holds nothing, and a
    failure changes nothing. *)
Inductive step : state → request → answer → state → Prop :=
| step_upload s k data s' :
    staged s k = Some data → s' ≡ put k data s → step s (Upload k) Done s'
| step_delete s k s' :
    s' ≡ remove k s → step s (Delete k) Done s'
| step_url s k url s' :
    is_Some (bucket s k) → s' ≡ s → step s (GetPresignedURL k) (Url url) s'
| step_absent s k s' :
    bucket s k = None → s' ≡ s → step s (GetPresignedURL k) Absent s'
| step_failed s rq kind s' :
    may_fail rq kind = true → s' ≡ s → step s rq (Failed kind) s'.

(** A sequence of requests with their answers. *)
Inductive steps : state → list (request * answer) → state → Prop :=
| steps_nil s s' : s' ≡ s → steps s [] s'
| steps_cons s rq a s1 tr s' :
    step s rq a s1 → steps s1 tr s' → steps s ((rq, a) :: tr) s'.

End Contract.

Import Contract.

(** ** The gateway as an implementation *)

Section implementation.
Context {St : Type} `{!ObjectStore St}.

(** The bytes staged for a key. *)
Definition staged_bytes (fs : FS) (k : string) : option string :=
  match fs !! file_direct k with
  | Some (File data) => Some data
  | _ => None
  end.

(** The state of the contract a world stands for. *)
Definition abs (self : S3Minio) (w : World St) : state :=
  mkState (λ k, objects (w_s3 w) !! (s3_bucket_name self, k)) (staged_bytes (w_fs w)).

(** The error kind of an exception the gateway raises: its own
    [ValueError] with the prefix of the method, or an exception passed on. *)
Definition failure (prefix : string) (kind : error_kind) (e : exn) : answer :=
  if bool_decide (exn_cls e = ValueError) && String.prefix prefix (exn_str e)
  then Failed kind else Failed Unhandled.

(** The answer of the contract a result stands for; [None] for a result
    the contract does not know. *)
Definition upload_answer (r : res exn (option bool)) : option answer :=
  match r with
  | Ret (Some true) => Some Done
  | Ret _ => None
  | Raise e => Some (failure "Upload Error: " UploadError e)
  end.

Definition delete_answer (r : res exn (option bool)) : option answer :=
  match r with
  | Ret (Some true) => Some Done
  | Ret _ => None
  | Raise e => Some (failure "Delete Error: " DeleteError e)
  end.

Definition get_url_answer (r : res exn (option string)) : option answer :=
  match r with
  | Ret (Some url) => Some (Url url)
  | Ret None => Some Absent
  | Raise e => Some (Failed Unhandled)
  end.

(** One request on the world. *)
Definition call (self : S3Minio) (rq : request) (w : World St)
    : option answer * World St :=
  match rq with
  | Upload k => let '(r, w') := upload self [k] w in (upload_answer r, w')
  | Delete k => let '(r, w') := delete self [k] w in (delete_answer r, w')
  | GetPresignedURL k => let '(r, w') := get_url self k w in (get_url_answer r, w')
  end.

(** A sequence of requests on the world: the answers, and the world at the
    end; [None] when a result was not an answer of the contract. *)
Fixpoint run (self : S3Minio) (rqs : list request) (w : World St)
    : option (list (request * answer)) * World St :=
  match rqs with
  | [] => (Some [], w)
  | rq :: rqs' =>
      match call self rq w with
      | (Some a, w1) =>
          let '(tr, w') := run self rqs' w1 in (cons (rq, a) <$> tr, w')
      | (None, w1) => (None, w1)
      end
  end.

(** What the presign needs of the states the store goes through: they are
    closed under the requests of the client, in them the probe fails with
    a [ClientError] only for a key that holds nothing, and the computation
    of the URL raises no [ClientError]. *)
Class Serving (self : S3Minio) (serving : St → Prop) : Prop := {
  serving_upload fs f k st r st' :
    serving st → upload_file (s3 self) fs f (s3_bucket_name self) k st = (r, st') →
    serving st';
  serving_delete k st r st' :
    serving st → delete_object (s3 self) (s3_bucket_name self) k st = (r, st') →
    serving st';
  serving_probe k st e :
    serving st → head_object (s3 self) (s3_bucket_name self) k st = Raise e →
    is_ClientError e = true → objects st !! (s3_bucket_name self, k) = None;
  serving_presign k e :
    generate_presigned_url (s3 self) (s3_bucket_name self) k expires_in = Raise e →
    is_ClientError e = false;
}.

(** What the calls keep: the staging area is a tree and the store serves. *)
Definition ready (serving : St → Prop) (w : World St) : Prop :=
  fs_wf (w_fs w) ∧ serving (w_s3 w).

End implementation.

(** The states in which the in-memory store serves a gateway. *)
Definition ms_serving (self : S3Minio) (st : mem_store) : Prop :=
  ms_online st = true ∧
  (aws_access_key_id (s3 self), aws_secret_access_key (s3 self)) ∈ ms_credentials st ∧
  s3_bucket_name self ∈ ms_buckets st.

(** ** The contract: states up to pointwise equality *)

Section contract.
Implicit Types (s t : state) (k : string) (rq : request) (a : answer).

#[export] Instance state_equivalence : Equivalence (≡@{state}).
Proof.
  split.
  - by intros s.
  - intros s t [??]. by split.
  - intros s t u [Hb Hs] [Hb' Hs']. split; intros k; [by rewrite Hb|by rewrite Hs].
Qed.

#[export] Instance bucket_proper : Proper ((≡) ==> (=) ==> (=)) bucket.
Proof. by intros s t [Hb _] k _ <-. Qed.

#[export] Instance staged_proper : Proper ((≡) ==> (=) ==> (=)) staged.
Proof. by intros s t [_ Hs] k _ <-. Qed.

#[export] Instance put_proper k data : Proper ((≡) ==> (≡)) (put k data).
Proof. intros s t [Hb Hs]. split; intros k'; simpl; by rewrite ?Hb, ?Hs. Qed.

#[export] Instance remove_proper k : Proper ((≡) ==> (≡)) (remove k).
Proof. intros s t [Hb Hs]. split; intros k'; simpl; by rewrite ?Hb, ?Hs. Qed.

(** The step relation does not distinguish equivalent states. *)
#[export] Instance step_proper : Proper ((≡) ==> (=) ==> (=) ==> (≡) ==> iff) step.
Proof.
  assert (∀ s t rq a s' t', s ≡ t → s' ≡ t' → step s rq a s' → step t rq a t') as Himp.
  { intros s t rq a s' t' Hs Hs'. destruct 1 as [s k data s' Hk Hp|s k s' Hp|s k url s' Hk Hp
      |s k s' Hk Hp|s rq kind s' Hf Hp]; try rewrite Hs in Hk.
    - apply (step_upload _ _ data); [done|]. by rewrite <-Hs', Hp, Hs.
    - apply step_delete. by rewrite <-Hs', Hp, Hs.
    - apply step_url; [done|]. by rewrite <-Hs', Hp.
    - apply step_absent; [done|]. by rewrite <-Hs', Hp.
    - apply step_failed; [done|]. by rewrite <-Hs', Hp. }
  intros s t Hs rq _ <- a _ <- s' t' Hs'. split; apply Himp; done.
Qed.

#[export] Instance steps_proper : Proper ((≡) ==> (=) ==> (≡) ==> iff) steps.
Proof.
  assert (∀ tr s t s' t', s ≡ t → s' ≡ t' → steps s tr s' → steps t tr t') as Himp.
  { intros tr s t s' t' Hs Hs' Hst. revert t Hs. induction Hst as [s s' Hp|s rq a s1 tr s' H1 Hst IH];
      intros t Hs.
    - apply steps_nil. by rewrite <-Hs', Hp.
    - eapply steps_cons; [by rewrite <-Hs|]. by apply IH. }
  intros s t Hs tr _ <- s' t' Hs'. split; apply Himp; done.
Qed.

(** A failure, and a presign, leave the state as it is. *)
Lemma step_keeps s rq a s' :
  step s rq a s' → (∀ k, rq ≠ Upload k) → (∀ k, rq ≠ Delete k) → s' ≡ s.
Proof. destruct 1; intros Hu Hd; try done; [by destruct (Hu k)|by destruct (Hd k)]. Qed.

(** After an upload that is done the key holds the staged bytes. *)
Lemma step_upload_done s k s' :
  step s (Upload k) Done s' → bucket s' k = staged s k ∧ staged s' k = None.
Proof.
  inversion 1 as [? ? data ? Hk Hp| | | |]; subst. rewrite Hp. simpl.
  by rewrite !decide_True.
Qed.

Lemma step_delete_done s k s' : step s (Delete k) Done s' → bucket s' k = None.
Proof. inversion 1 as [|? ? ? Hp| | |]; subst. rewrite Hp. simpl. by rewrite decide_True. Qed.

(** The presign answers [Absent] only for a key that holds nothing, and
    with a URL only for one that holds an object. *)
Lemma step_presign s k a s' :
  step s (GetPresignedURL k) a s' →
  match a with
  | Url _ => is_Some (bucket s k)
  | Absent => bucket s k = None
  | _ => True
  end.
Proof. by inversion 1. Qed.

Lemma step_upload_stored s k s' : step s (Upload k) Done s' → is_Some (bucket s' k).
Proof.
  inversion 1 as [? ? data ? Hk Hp| | | |]; subst. rewrite Hp. simpl.
  by rewrite decide_True.
Qed.

End contract.

(** ** Worlds and the states they stand for *)

Section abstraction.
Context {St : Type} `{!ObjectStore St} `{!ObjectStoreLaws St}.
Implicit Types (self : S3Minio) (w : World St) (k : string) (fs : FS) (e : exn).

(** The staged bytes of the other keys survive the cleanup. *)
Lemma staged_bytes_cleanup fs k r fs' k' :
  fs_wf fs → cleanup_staged (file_direct k) fs = (r, fs') → k' ≠ k →
  staged_bytes fs' k' = staged_bytes fs k'.
Proof.
  intros Hwf Hc Hk. unfold staged_bytes.
  assert (file_direct k' ≠ file_direct k) as Hne by (by intros ?%file_direct_inj).
  destruct (fs !! file_direct k') as [[x|]|] eqn:Hq.
  - by rewrite (cleanup_staged_files _ _ _ _ _ x Hwf Hc Hne Hq).
  - destruct (fs' !! file_direct k') as [n|] eqn:Hq'; [|done].
    apply (lookup_weaken _ fs) in Hq'; [|by eapply cleanup_staged_subseteq].
    by simplify_eq.
  - destruct (fs' !! file_direct k') as [n|] eqn:Hq'; [|done].
    apply (lookup_weaken _ fs) in Hq'; [|by eapply cleanup_staged_subseteq].
    by simplify_eq.
Qed.

(** Two worlds with the same objects and the same staging area stand for
    the same state. *)
Lemma abs_equiv self w w' :
  objects (w_s3 w') = objects (w_s3 w) → w_fs w' = w_fs w → abs self w' ≡ abs self w.
Proof. intros Ho Hf. split; intros k; simpl; by rewrite ?Ho, ?Hf. Qed.

(** What the handlers of [upload] raise is an upload error or an exception
    passed on. *)
Lemma failure_upload e :
  failure "Upload Error: " UploadError (caught upload_exn (caught upload_exn e))
  = Failed (if is_Exception e then UploadError else Unhandled).
Proof.
  unfold caught. destruct (is_Exception e) eqn:He.
  - rewrite upload_exn_is_Exception. unfold failure, upload_exn. cbn [exn_cls exn_str].
    by rewrite bool_decide_eq_true_2, str_prefix_app by done.
  - rewrite He. unfold failure. rewrite bool_decide_eq_false_2; [done|].
    intros Hc. unfold is_Exception in He. rewrite Hc in He. done.
Qed.

Lemma failure_delete e :
  failure "Delete Error: " DeleteError (caught delete_exn e)
  = Failed (if is_Exception e then DeleteError else Unhandled).
Proof.
  unfold caught. destruct (is_Exception e) eqn:He.
  - unfold failure, delete_exn. cbn [exn_cls exn_str].
    by rewrite bool_decide_eq_true_2, str_prefix_app by done.
  - unfold failure. rewrite bool_decide_eq_false_2; [done|].
    intros Hc. unfold is_Exception in He. rewrite Hc in He. done.
Qed.

End abstraction.

(** ** Each method is a step of the contract *)

Section steps.
Context {St : Type} `{!ObjectStore St} `{!ObjectStoreLaws St}.
Implicit Types (self : S3Minio) (w : World St) (k : string) (fs : FS) (e : exn).

(** The state after a transfer and a cleanup that both succeed. *)
Lemma abs_uploaded self k w data st' fs' :
  fs_wf (w_fs w) →
  objects st' = <[(s3_bucket_name self, k) := data]> (objects (w_s3 w)) →
  cleanup_staged (file_direct k) (w_fs w) = (Ret (), fs') → ∀ out,
  abs self (mkWorld fs' st' out) ≡ put k data (abs self w).
Proof.
  intros Hwf Hobj Hc out. split; intros k'; simpl; case_decide as Hk; subst.
  - by rewrite Hobj, lookup_insert_eq.
  - rewrite Hobj, lookup_insert_ne; [done|congruence].
  - unfold staged_bytes. by rewrite (proj2 (cleanup_staged_Ret _ _ _ Hc)).
  - by apply (staged_bytes_cleanup _ k (Ret ())).
Qed.

(** [upload] implements the upload of the contract: in a staging area
    that is a tree, a call with the key [k] first is a step [Upload k] of
    the contract between the states the worlds stand for, with the answer
    the result stands for. *)
Lemma upload_refines self k ks w r w' :
  fs_wf (w_fs w) → upload self (k :: ks) w = (r, w') →
  ∃ a, upload_answer r = Some a ∧ step (abs self w) (Upload k) a (abs self w').
Proof.
  intros Hwf. rewrite upload_cons_body, upload_body_eq. cbv zeta.
  destruct (upload_file _ _ _ _ _ _) as [[[]|e] st'] eqn:Hup.
  - destruct (upload_file_Ret _ _ _ _ _ _ _ Hup) as (data & Hf & Hobj).
    destruct (cleanup_staged_total _ _ data Hwf Hf) as [fs' Hc]. rewrite Hc.
    intros [= <- <-]. exists Done. split; [done|].
    apply (step_upload _ _ data); [|by apply abs_uploaded].
    simpl. unfold staged_bytes. by rewrite Hf.
  - intros [= <- <-]. eexists. split; [cbn; by rewrite failure_upload|].
    apply step_failed; [by destruct (is_Exception e)|].
    apply abs_equiv; [|done]. by eapply upload_file_Raise.
Qed.

(** [delete] implements the deletion of the contract. *)
Lemma delete_refines self k ks w r w' :
  delete self (k :: ks) w = (r, w') →
  ∃ a, delete_answer r = Some a ∧ step (abs self w) (Delete k) a (abs self w').
Proof.
  rewrite delete_cons_body, delete_body_eq.
  destruct (delete_object _ _ _ _) as [[[]|e] st'] eqn:Hdel; intros [= <- <-].
  - exists Done. split; [done|]. apply step_delete.
    apply delete_object_Ret in Hdel. split; intros k'; simpl; [|done].
    rewrite Hdel. case_decide; subst; [by rewrite lookup_delete_eq|].
    rewrite lookup_delete_ne; [done|congruence].
  - eexists. split; [cbn; by rewrite failure_delete|].
    apply step_failed; [by destruct (is_Exception e)|].
    apply abs_equiv; [|done]. by eapply delete_object_Raise.
Qed.

Section presign.
Context (self : S3Minio) (serving : St → Prop) `{!Serving self serving}.

(** [get_url] implements the presign of the contract, in the states in
    which the store serves the gateway: it answers with a URL only for a
    key that holds an object and with [None] only for a key that holds
    nothing. *)
Lemma get_url_refines k w r w' :
  serving (w_s3 w) → get_url self k w = (r, w') →
  ∃ a, get_url_answer r = Some a ∧ step (abs self w) (GetPresignedURL k) a (abs self w').
Proof.
  intros Hs. rewrite get_url_eq.
  destruct (head_object _ _ _ _) as [[]|e] eqn:Hhead.
  - apply head_object_Ret in Hhead.
    destruct (generate_presigned_url _ _ _ _) as [url|e] eqn:Hgen.
    + intros [= <- <-]. exists (Url url). split; [done|]. by apply step_url.
    + rewrite (serving_presign _ _ Hgen). intros [= <- <-]. eexists. split; [done|].
      by apply step_failed.
  - destruct (is_ClientError e) eqn:He; intros [= <- <-]; (eexists; split; [done|]).
    + apply step_absent; [|done]. by apply (serving_probe k _ e).
    + by apply step_failed.
Qed.

End presign.
End steps.

(** ** The in-memory store serves *)

Section mem.
Implicit Types (self : S3Minio) (st : mem_store) (k : string).

Lemma ms_serving_set_objects self o st :
  ms_serving self st → ms_serving self (ms_set_objects o st).
Proof. done. Qed.

(** In a serving state a request with a key reaches the bucket. *)
Lemma ms_request_serving self op k st :
  ms_serving self st →
  ms_request (s3 self) op (s3_bucket_name self) k st
  = if String.eqb k "" then Raise empty_key_error else Ret ().
Proof.
  intros (Hon & Hcred & Hb). unfold ms_request. destruct (String.eqb k ""); [done|].
  by rewrite Hon, !bool_decide_eq_true_2.
Qed.

#[export] Instance mem_store_serving self : Serving self (ms_serving self).
Proof.
  split.
  - intros fs f k st r st' Hs. cbn [upload_file mem_store_ops]. unfold ms_upload_file.
    destruct (read_file fs f); [|by intros [= _ <-]].
    rewrite (ms_request_serving _ _ _ _ Hs).
    destruct (String.eqb k ""); intros [= _ <-]; [done|by apply ms_serving_set_objects].
  - intros k st r st' Hs. cbn [delete_object mem_store_ops]. unfold ms_delete_object.
    rewrite (ms_request_serving _ _ _ _ Hs).
    destruct (String.eqb k ""); intros [= _ <-]; [done|by apply ms_serving_set_objects].
  - intros k st e Hs. cbn [head_object objects mem_store_ops]. unfold ms_head_object.
    rewrite (ms_request_serving _ _ _ _ Hs).
    destruct (String.eqb k ""); [by intros [= <-]|].
    by destruct (ms_objects st !! _).
  - done.
Qed.

End mem.

(** ** Sequences of calls *)

Section traces.
Context {St : Type} `{!ObjectStore St} `{!ObjectStoreLaws St}.
Context (self : S3Minio) (serving : St → Prop) `{!Serving self serving}.
Implicit Types (w : World St) (k : string) (rq : request) (rqs : list request).

Lemma upload_ready k w : ready serving w → ready serving (upload self [k] w).2.
Proof.
  intros [Hwf Hs]. rewrite upload_cons_body, upload_body_eq. cbv zeta.
  destruct (upload_file _ _ _ _ _ _) as [r st'] eqn:Hup.
  pose proof (serving_upload _ _ _ _ _ _ Hs Hup) as Hs'. destruct r as [[]|e]; [|done].
  destruct (cleanup_staged _ _) as [[[]|e] fs'] eqn:Hc; split; simpl;
    eauto using cleanup_staged_wf.
Qed.

Lemma delete_ready k w : ready serving w → ready serving (delete self [k] w).2.
Proof.
  intros [Hwf Hs]. rewrite delete_cons_body, delete_body_eq.
  destruct (delete_object _ _ _ _) as [r st'] eqn:Hdel.
  pose proof (serving_delete _ _ _ _ Hs Hdel) as Hs'. by destruct r as [[]|e].
Qed.

Lemma get_url_ready k w : ready serving w → ready serving (get_url self k w).2.
Proof.
  intros Hr. rewrite get_url_eq.
  destruct (head_object _ _ _ _) as [[]|e]; [destruct (generate_presigned_url _ _ _ _)|];
    by repeat case_match.
Qed.

(** One call is one step, and the world stays ready. *)
Lemma call_refines rq w :
  ready serving w →
  ∃ a, (call self rq w).1 = Some a ∧
       step (abs self w) rq a (abs self (call self rq w).2) ∧ ready serving (call self rq w).2.
Proof.
  intros Hr. destruct rq as [k|k|k]; cbn [call].
  - pose proof (upload_ready k w Hr). destruct (upload self [k] w) as [r w'] eqn:Hc.
    destruct (upload_refines self k [] w r w' (proj1 Hr) Hc) as (a & ? & ?). eauto.
  - pose proof (delete_ready k w Hr). destruct (delete self [k] w) as [r w'] eqn:Hc.
    destruct (delete_refines self k [] w r w' Hc) as (a & ? & ?). eauto.
  - pose proof (get_url_ready k w Hr). destruct (get_url self k w) as [r w'] eqn:Hc.
    destruct (get_url_refines self serving k w r w' (proj2 Hr) Hc) as (a & ? & ?). eauto.
Qed.

(** C9. Every sequence of calls is a sequence of steps of the contract:
    from a world whose staging area is a tree and whose store serves the
    gateway, [run] answers every request, the requests with their answers
    are steps of the contract from the state the world stands for to the
    state the last world stands for, and the last world is as ready as the
    first. *)
Theorem run_refines rqs w :
  ready serving w →
  ∃ tr, (run self rqs w).1 = Some tr ∧ tr.*1 = rqs ∧
        steps (abs self w) tr (abs self (run self rqs w).2) ∧ ready serving (run self rqs w).2.
Proof.
  revert w. induction rqs as [|rq rqs IH]; intros w Hr.
  { exists []. split_and!; [done..|by apply steps_nil|done]. }
  destruct (call_refines rq w Hr) as (a & Ha & Hstep & Hr1). cbn [run].
  destruct (call self rq w) as [oa w1]. simpl in Ha, Hstep, Hr1. subst oa.
  destruct (IH w1 Hr1) as (tr & Htr & Hrq & Hsteps & Hr').
  destruct (run self rqs w1) as [otr w']. simpl in *. subst otr.
  exists ((rq, a) :: tr). split_and!; [done|by rewrite <-Hrq| |done].
  by eapply steps_cons.
Qed.

End traces.

(** ** The testable properties of spec.md, from the contract *)

Section scenarios.
Context {St : Type} `{!ObjectStore St} `{!ObjectStoreLaws St}.
Context (self : S3Minio) (serving : St → Prop) `{!Serving self serving}.
Implicit Types (w : World St) (k : string).

(** Upload, then presign: after an upload that returned [True], the
    presign of the same key does not answer [None]. *)
Theorem upload_then_get_url k w :
  ready serving w → (upload self [k] w).1 = Ret (Some true) →
  (get_url self k (upload self [k] w).2).1 ≠ Ret None.
Proof.
  intros Hr Hup Hget. pose proof (upload_ready self serving k w Hr) as [_ Hs1].
  destruct (upload self [k] w) as [r w1] eqn:Hc. simpl in *. subst r.
  destruct (upload_refines self k [] w _ w1 (proj1 Hr) Hc) as (a & [= <-] & Hstep).
  destruct (get_url self k w1) as [r2 w2] eqn:Hc2. simpl in *. subst r2.
  destruct (get_url_refines self serving k w1 _ w2 Hs1 Hc2) as (a & [= <-] & Hstep2).
  apply step_presign in Hstep2. apply step_upload_stored in Hstep.
  rewrite Hstep2 in Hstep. by destruct Hstep.
Qed.

(** Delete, then presign: after a deletion that returned [True], the
    presign of the same key hands out no URL. *)
Theorem delete_then_get_url k w url :
  (delete self [k] w).1 = Ret (Some true) →
  (get_url self k (delete self [k] w).2).1 ≠ Ret (Some url).
Proof.
  intros Hdel Hget.
  destruct (delete self [k] w) as [r w1] eqn:Hc. simpl in *. subst r.
  destruct (delete_refines self k [] w _ w1 Hc) as (a & [= <-] & Hstep).
  apply step_delete_done in Hstep.
  destruct (get_url self k w1) as [r2 w2] eqn:Hc2. simpl in *. subst r2.
  rewrite get_url_eq in Hc2.
  destruct (head_object _ _ _ _) as [[]|e] eqn:Hhead; [|by case_match].
  apply head_object_Ret in Hhead. simpl in Hstep. rewrite Hstep in Hhead. by destruct Hhead.
Qed.

End scenarios.

Section upload_more.
Context {St : Type} `{!ObjectStore St} `{!ObjectStoreLaws St}.
Implicit Types (self : S3Minio) (w : World St) (k : string) (ks : list string).

(** C32. Upload without a staged file: when nothing is staged for the key,
    [upload] raises, and neither the bucket nor the staging area has
    changed. *)
Theorem upload_missing_file self k ks w :
  staged_bytes (w_fs w) k = None →
  ∃ e w', upload self (k :: ks) w = (Raise e, w') ∧
    objects (w_s3 w') = objects (w_s3 w) ∧ w_fs w' = w_fs w ∧
    (is_Exception e = true →
     exn_cls e = ValueError ∧ String.prefix "Upload Error: " (exn_str e) = true).
Proof.
  intros Hk. rewrite upload_cons_body, upload_body_eq. cbv zeta.
  destruct (upload_file _ _ _ _ _ _) as [[[]|e] st'] eqn:Hup.
  { destruct (upload_file_Ret _ _ _ _ _ _ _ Hup) as (data & Hf & _).
    unfold staged_bytes in Hk. by rewrite Hf in Hk. }
  eexists _, _. split_and!; [done|by eapply upload_file_Raise|done|].
  unfold caught. destruct (is_Exception e) eqn:He; [|by rewrite !He].
  rewrite upload_exn_is_Exception. intros _. split; [done|apply str_prefix_app].
Qed.

End upload_more.

(** ** Examples and the theorems at the demonstration world *)

Lemma demo_ready : ready (ms_serving demo_self) demo_world.
Proof.
  split; [apply demo_fs_wf|]. refine (conj _ (conj _ _)); [done|..].
  all: apply (bool_decide_unpack _); by vm_compute.
Qed.

(** A staged file goes to the bucket and back out of it. *)
Example run_ex :
  (run demo_self [Upload "a.png"; GetPresignedURL "a.png"; Delete "a.png";
                  GetPresignedURL "a.png"; Upload "a.png"] demo_world).1
  = Some [(Upload "a.png", Done);
          (GetPresignedURL "a.png",
           Url "http://minio:9000/media/a.png?X-Amz-Algorithm=AWS4-HMAC-SHA256&X-Amz-Credential=admin&X-Amz-Expires=3600");
          (Delete "a.png", Done);
          (GetPresignedURL "a.png", Absent);
          (Upload "a.png", Failed UploadError)].
Proof. by vm_compute. Qed.

(** Deleting a key that holds nothing succeeds on a store with the
    semantics of S3. *)
Example delete_absent_ex :
  (call demo_self (Delete "nothing.png") demo_world).1 = Some Done.
Proof. by vm_compute. Qed.

Lemma run_refines_witness :
  ∃ tr, (run demo_self [Upload "a.png"; GetPresignedURL "a.png"; Delete "a.png"]
           demo_world).1 = Some tr ∧
    tr.*1 = [Upload "a.png"; GetPresignedURL "a.png"; Delete "a.png"] ∧
    steps (abs demo_self demo_world) tr
      (abs demo_self (run demo_self [Upload "a.png"; GetPresignedURL "a.png"; Delete "a.png"]
                        demo_world).2) ∧
    ready (ms_serving demo_self)
      (run demo_self [Upload "a.png"; GetPresignedURL "a.png"; Delete "a.png"] demo_world).2.
Proof. apply (run_refines demo_self (ms_serving demo_self)), demo_ready. Defined.

Lemma upload_then_get_url_witness :
  (get_url demo_self "a.png" (upload demo_self ["a.png"] demo_world).2).1 ≠ Ret None.
Proof.
  apply (upload_then_get_url demo_self (ms_serving demo_self)); [apply demo_ready|].
  by vm_compute.
Defined.

Lemma delete_then_get_url_witness :
  (get_url demo_self "a.png" (delete demo_self ["a.png"] demo_stored).2).1
  ≠ Ret (Some "http://minio:9000/media/a.png").
Proof. apply delete_then_get_url. by vm_compute. Defined.

Lemma upload_missing_file_witness :
  ∃ e w', upload demo_self ["missing.png"; "a.png"] demo_world = (Raise e, w') ∧
    objects (w_s3 w') = objects (w_s3 demo_world) ∧ w_fs w' = w_fs demo_world ∧
    (is_Exception e = true →
     exn_cls e = ValueError ∧ String.prefix "Upload Error: " (exn_str e) = true).
Proof. apply upload_missing_file. by vm_compute. Defined.
