(* ===== verification/Batch.v ===== *)
(** * Batch: several keys in one call, and one call per key

    The documentation strings of [upload] and [delete] speak of the files
    of [args]: the contract of a batch, [batch], is the contract of
    [Refinement.v] applied to the keys one after the other until one
    fails.  The methods implement the batch of their first key only
    ([upload_batch_first]), and not the batch of their arguments
    ([upload_batch_not_refined]).  A caller who wants every staged file in
    the bucket calls [upload] once per key: [drain_step] is one such call
    for a key that is staged, and however the keys are chosen the staging
    area is inevitably empty and the bucket holds what was staged
    ([drain_inevitably]), over a store that accepts the uploads
    ([Accepting]). *)

From S2P Require Import Prelude Loops PyStr FileSystem ObjectStore Gateway Refinement.
From stdpp Require Import relations.
Import S3Minio Contract.

(** ** The contract of a batch *)

(** The requests one after the other: the batch is done when every request
    is done, and it fails with the first request that fails, the later
    ones not being tried. *)
Inductive batch : state → list request → answer → state → Prop :=
| batch_nil s s' : s' ≡ s → batch s [] Done s'
| batch_done s rq s1 rqs a s' :
    step s rq Done s1 → batch s1 rqs a s' → batch s (rq :: rqs) a s'
| batch_failed s rq kind rqs s' :
    step s rq (Failed kind) s' → batch s (rq :: rqs) (Failed kind) s'.

(** ** One call per key *)

(** Eventually [P], on every run of [R]: [P] holds now, or there is a step
    and after every step inevitably [P]. *)
Inductive inevitably {A : Type} (R : relation A) (P : A → Prop) (a : A) : Prop :=
| inevitably_now : P a → inevitably R P a
| inevitably_later : red R a → (∀ a', R a a' → inevitably R P a') → inevitably R P a.

Section driver.
Context {St : Type} `{!ObjectStore St}.

(** The key of a staged path: what follows [temp/media/]. *)
Fixpoint without_prefix (p s : string) : option string :=
  match p, s with
  | "", s => Some s
  | String a p, String b s => if Ascii.eqb a b then without_prefix p s else None
  | _, "" => None
  end.

(** The keys for which a file is staged. *)
Definition staged_keys (fs : FS) : list string :=
  omap (λ pn, match pn.2 with
              | File _ => without_prefix (file_direct "") pn.1
              | Dir => None
              end) (map_to_list fs).

(** One call of the caller who empties the staging area: [upload] for a
    key that is staged. *)
Definition drain_step (self : S3Minio) (w w' : World St) : Prop :=
  ∃ k, k ∈ staged_keys (w_fs w) ∧ w' = (upload self [k] w).2.

(** What the caller needs of the store: in the states in which it serves,
    it accepts the upload of a readable file under a key that is not
    empty. *)
Class Accepting (self : S3Minio) (serving : St → Prop) : Prop := {
  accepting_upload fs f k st data :
    serving st → k ≠ "" → fs !! f = Some (File data) →
    ∃ st', upload_file (s3 self) fs f (s3_bucket_name self) k st = (Ret (), st');
}.

(** What stays true while the staging area is emptied: what was staged at
    first, in the state [s0], is still staged or is in the bucket. *)
Definition kept (self : S3Minio) (serving : St → Prop) (s0 : state) (w : World St) : Prop :=
  ready serving w ∧
  ∀ k d, staged s0 k = Some d →
    staged (abs self w) k = Some d ∨
    (staged (abs self w) k = None ∧ bucket (abs self w) k = Some d).

End driver.

(** ** The methods and the batch *)

Section batch_lemmas.
Implicit Types (s : state) (rq : request) (rqs : list request) (a : answer).

(** The batch of one request is the request. *)
Lemma batch_one s rq a s' :
  a = Done ∨ (∃ kind, a = Failed kind) → step s rq a s' → batch s [rq] a s'.
Proof.
  intros [->|[kind ->]] Hs; [|by apply batch_failed].
  eapply batch_done; [done|]. by apply batch_nil.
Qed.

(** In a batch that is done every request is done. *)
Lemma batch_done_cons s rq rqs s' :
  batch s (rq :: rqs) Done s' → ∃ s1, step s rq Done s1 ∧ batch s1 rqs Done s'.
Proof. inversion 1; subst; eauto. Qed.

(** No request stages a file. *)
Lemma step_not_staged s rq a s' k : step s rq a s' → staged s k = None → staged s' k = None.
Proof.
  destruct 1 as [s k' data s' _ Hp|s k' s' Hp|s k' url s' _ Hp|s k' s' _ Hp|s rq kind s' _ Hp];
    rewrite Hp; simpl; [by case_decide|done..].
Qed.

Lemma batch_not_staged s rqs a s' k : batch s rqs a s' → staged s k = None → staged s' k = None.
Proof.
  induction 1 as [s s' Hp| |]; eauto using step_not_staged. by rewrite Hp.
Qed.

(** An upload that is done leaves the other keys staged as they were. *)
Lemma step_upload_other s k s' k' :
  step s (Upload k) Done s' → k' ≠ k → staged s' k' = staged s k'.
Proof.
  inversion 1 as [? ? data ? _ Hp| | | |]; subst. intros Hk. rewrite Hp. simpl.
  by rewrite decide_False.
Qed.

(** After a batch of uploads that is done none of its keys is staged. *)
Lemma batch_uploads_done ks s s' k :
  batch s (Upload <$> ks) Done s' → k ∈ ks → staged s' k = None.
Proof.
  revert s. induction ks as [|k' ks IH]; intros s Hb Hk; [by apply elem_of_nil in Hk|].
  apply batch_done_cons in Hb as (s1 & Hs & Hb).
  destruct (decide (k ∈ ks)) as [?|Hnin]; [by eapply IH|].
  apply elem_of_cons in Hk as [->|?]; [|done].
  apply step_upload_done in Hs as [_ Hs]. by eapply batch_not_staged.
Qed.

End batch_lemmas.

Section batch_methods.
Context {St : Type} `{!ObjectStore St} `{!ObjectStoreLaws St}.
Implicit Types (self : S3Minio) (w : World St) (k : string) (ks : list string).

Lemma upload_answer_cases (r : res exn (option bool)) a :
  upload_answer r = Some a → a = Done ∨ ∃ kind, a = Failed kind.
Proof.
  destruct r as [[[]|]|e]; simpl; intros [= <-]; [by left|right].
  unfold failure. case_match; eauto.
Qed.

(** [upload] implements the batch of its first key: in a staging area
    that is a tree, a call with the keys [k, ...] is the batch [Upload k]
    of the contract, with the answer the result stands for. *)
Theorem upload_batch_first self k ks w r w' :
  fs_wf (w_fs w) → upload self (k :: ks) w = (r, w') →
  ∃ a, upload_answer r = Some a ∧ batch (abs self w) [Upload k] a (abs self w').
Proof.
  intros Hwf Hup. destruct (upload_refines self k ks w r w' Hwf Hup) as (a & Ha & Hs).
  exists a. split; [done|]. apply batch_one; [|done]. by eapply upload_answer_cases.
Qed.

(** C29. [upload] does not implement the batch of its arguments: after a
    call with two keys or more that returned [True], a file staged for the
    second key is still staged, so the call is not the batch of the
    contract. *)
Theorem upload_batch_not_refined self k k' ks w r w' :
  fs_wf (w_fs w) → upload self (k :: k' :: ks) w = (r, w') → r = Ret (Some true) →
  k' ≠ k → is_Some (staged_bytes (w_fs w) k') →
  ¬ batch (abs self w) (Upload <$> k :: k' :: ks) Done (abs self w').
Proof.
  intros Hwf Hup -> Hk [d Hd] Hb.
  destruct (upload_refines self k _ w _ w' Hwf Hup) as (a & [= <-] & Hs).
  apply (step_upload_other _ _ _ k') in Hs; [|done].
  apply (batch_uploads_done _ _ _ k') in Hb; [|set_solver].
  simpl in *. congruence.
Qed.

End batch_methods.

(** ** The staged keys *)

Section staged.
Implicit Types (fs : FS) (p s k : string).

Lemma without_prefix_iff p s k : without_prefix p s = Some k ↔ s = p +:+ k.
Proof.
  revert s. induction p as [|a p IH]; intros s; [simpl; naive_solver|].
  destruct s as [|b s]; [done|]. rewrite str_app_cons. cbn [without_prefix].
  destruct (Ascii.eqb_spec a b) as [->|Hab]; [rewrite IH|]; (split; [|intros [=]]; congruence).
Qed.

(** The staged keys are the keys with staged bytes. *)
Lemma elem_of_staged_keys fs k : k ∈ staged_keys fs ↔ is_Some (staged_bytes fs k).
Proof.
  unfold staged_keys, staged_bytes. rewrite list_elem_of_omap. split.
  - intros ([p n] & Hin%elem_of_map_to_list & Hk). cbn [fst snd] in Hk.
    destruct n as [d|]; [|done]. apply without_prefix_iff in Hk as ->.
    change (file_direct "" +:+ k) with (file_direct k) in Hin. by rewrite Hin.
  - intros [d Hd]. destruct (fs !! file_direct k) as [[d'|]|] eqn:Hf; [|done..].
    exists (file_direct k, File d'). split; [by apply elem_of_map_to_list|].
    by apply without_prefix_iff.
Qed.

(** In a tree no file is staged for the empty key. *)
Lemma staged_bytes_empty_key fs : fs_wf fs → staged_bytes fs "" = None.
Proof.
  intros Hwf. unfold staged_bytes. destruct (fs !! file_direct "") as [n|] eqn:Hf; [|done].
  by destruct (Hwf _ _ Hf) as [Hok _].
Qed.

End staged.

(** ** Emptying the staging area *)

Section drain.
Context {St : Type} `{!ObjectStore St} `{!ObjectStoreLaws St}.
Context (self : S3Minio) (serving : St → Prop).
Context `{!Serving self serving} `{!Accepting self serving}.
Implicit Types (w : World St) (k : string) (s : state).

(** The upload of a staged key is done, and the staging area shrinks. *)
Lemma upload_staged k w :
  ready serving w → k ∈ staged_keys (w_fs w) →
  step (abs self w) (Upload k) Done (abs self (upload self [k] w).2) ∧
  ready serving (upload self [k] w).2 ∧
  size (w_fs (upload self [k] w).2) < size (w_fs w).
Proof.
  intros Hr [d Hd]%elem_of_staged_keys. pose proof (upload_ready self serving k w Hr) as Hr'.
  destruct Hr as [Hwf Hs]. unfold staged_bytes in Hd.
  destruct (w_fs w !! file_direct k) as [[d'|]|] eqn:Hf; [|done..].
  assert (k ≠ "") as Hk.
  { intros ->. pose proof (staged_bytes_empty_key _ Hwf) as Hn.
    unfold staged_bytes in Hn. by rewrite Hf in Hn. }
  destruct (accepting_upload (w_fs w) _ k _ d' Hs Hk Hf) as [st' Hup].
  destruct (upload self [k] w) as [r w'] eqn:Hc.
  destruct (upload_refines self k [] w r w' Hwf Hc) as (a & Ha & Hstep).
  rewrite upload_cons_body, upload_body_eq, Hup in Hc. cbv zeta in Hc.
  destruct (cleanup_staged_total _ _ d' Hwf Hf) as [fs' Hcl]. rewrite Hcl in Hc.
  injection Hc as <- <-. injection Ha as <-. split_and!; [done..|]. simpl.
  apply map_subset_size, map_subset_alt; split; [by eapply cleanup_staged_subseteq|].
  exists (file_direct k). split; [by apply cleanup_staged_Ret in Hcl as [_ ?]|by rewrite Hf].
Qed.

(** Over a store that accepts, the upload of a staged key returns [True]
    in the state after the upload of the contract. *)
Lemma upload_accepted k w data :
  ready serving w → staged_bytes (w_fs w) k = Some data →
  ∃ w', upload self [k] w = (Ret (Some true), w') ∧
        abs self w' ≡ put k data (abs self w) ∧ staged_bytes (w_fs w') k = None.
Proof.
  intros [Hwf Hs] Hd.
  assert (k ≠ "") as Hk by (intros ->; by rewrite staged_bytes_empty_key in Hd).
  unfold staged_bytes in Hd. destruct (w_fs w !! file_direct k) as [[x|]|] eqn:Hf; simplify_eq.
  destruct (accepting_upload (w_fs w) _ k _ data Hs Hk Hf) as [st' Hup].
  destruct (upload_file_Ret _ _ _ _ _ _ _ Hup) as (x & Hx & Hobj).
  assert (x = data) as -> by congruence.
  destruct (cleanup_staged_total _ _ data Hwf Hf) as [fs' Hc].
  rewrite upload_cons_body, upload_body_eq, Hup. cbv zeta. rewrite Hc.
  eexists. split_and!; [done|by apply abs_uploaded|].
  simpl. unfold staged_bytes. by rewrite (proj2 (cleanup_staged_Ret _ _ _ Hc)).
Qed.

Lemma kept_start w : ready serving w → kept self serving (abs self w) w.
Proof. intros Hr. split; [done|]. intros k d Hk. by left. Qed.

(** A call of the caller keeps what was staged at first. *)
Lemma kept_step s0 w w' :
  kept self serving s0 w → drain_step self w w' → kept self serving s0 w' ∧ size (w_fs w') < size (w_fs w).
Proof.
  intros [Hr Hk] (k & Hin & ->).
  destruct (upload_staged k w Hr Hin) as (Hstep & Hr' & Hsize).
  split; [split; [done|]|done]. intros k0 d Hk0.
  pose proof (step_upload_done _ _ _ Hstep) as [Hb Hs].
  destruct (decide (k0 = k)) as [->|Hne].
  - right. split; [done|]. rewrite Hb. apply elem_of_staged_keys in Hin as [d' Hd'].
    destruct (Hk k d Hk0) as [?|[Hn _]]; [done|]. simpl in *. congruence.
  - rewrite (step_upload_other _ _ _ k0 Hstep Hne).
    inversion Hstep as [? ? data ? _ Hp| | | |]; subst. rewrite Hp. simpl.
    rewrite decide_False by done. by apply Hk.
Qed.

(** While a key is staged the caller has a call to make. *)
Lemma drain_step_red w : staged_keys (w_fs w) ≠ [] → red (drain_step self) w.
Proof.
  destruct (staged_keys (w_fs w)) as [|k ks] eqn:Hks; [done|]. intros _.
  exists (upload self [k] w).2, k. split; [|done]. rewrite Hks. by left.
Qed.

Lemma drain_from s0 w :
  kept self serving s0 w →
  inevitably (drain_step self) (λ w', kept self serving s0 w' ∧ staged_keys (w_fs w') = []) w.
Proof.
  remember (size (w_fs w)) as n eqn:Hn. revert w Hn.
  induction n as [n IH] using lt_wf_ind. intros w -> Hk.
  destruct (decide (staged_keys (w_fs w) = [])) as [Hnil|Hne]; [by apply inevitably_now|].
  apply inevitably_later; [by apply drain_step_red|]. intros w' Hstep.
  destruct (kept_step s0 w w' Hk Hstep) as [Hk' Hsize]. by apply (IH (size (w_fs w'))).
Qed.

Lemma inevitably_weaken {A} (R : relation A) (P Q : A → Prop) a :
  (∀ a', P a' → Q a') → inevitably R P a → inevitably R Q a.
Proof. intros HPQ. induction 1; [apply inevitably_now|apply inevitably_later]; auto. Qed.

(** C16. One call per key empties the staging area: from a world whose
    staging area is a tree and whose store serves and accepts, the caller
    who keeps calling [upload] for a key that is staged, in whatever
    order, inevitably has nothing staged, and then every file that was
    staged is in the bucket with its bytes. *)
Theorem drain_inevitably w :
  ready serving w →
  inevitably (drain_step self)
    (λ w', ∀ k, staged (abs self w') k = None ∧
                ∀ d, staged (abs self w) k = Some d → bucket (abs self w') k = Some d) w.
Proof.
  intros Hr. eapply inevitably_weaken, drain_from, kept_start, Hr.
  intros w' [[_ Hk] Hnil] k.
  assert (staged (abs self w') k = None) as Hs.
  { apply eq_None_not_Some. simpl. rewrite <-elem_of_staged_keys, Hnil. apply not_elem_of_nil. }
  split; [done|]. intros d Hd. destruct (Hk k d Hd) as [?|[_ ?]]; [congruence|done].
Qed.

End drain.

(** ** The in-memory store accepts *)

#[export] Instance mem_store_accepting self : Accepting self (ms_serving self).
Proof.
  split. intros fs f k st data Hs Hk Hf. cbn [upload_file mem_store_ops].
  unfold ms_upload_file, read_file. rewrite Hf, (ms_request_serving _ _ _ _ Hs).
  destruct (String.eqb_spec k ""); [done|eauto].
Qed.

(** ** Examples and the theorems at the demonstration world *)

(** One call per key: every file reaches the bucket; the directories that
    became empty are removed, the staging directory itself included. *)
Example drain_ex :
  (run demo_self (Upload <$> ["a.png"; "Post/c.png"; "b.png"]) demo_world).1
  = Some [(Upload "a.png", Done); (Upload "Post/c.png", Done); (Upload "b.png", Done)].
Proof. by vm_compute. Qed.

Example drain_fs_ex :
  w_fs (run demo_self (Upload <$> ["a.png"; "Post/c.png"; "b.png"]) demo_world).2
  = {[ "temp" := Dir ]}.
Proof. by vm_compute. Qed.

Example drain_bucket_ex :
  (λ o, (o !! ("media", "a.png"), o !! ("media", "Post/c.png"), o !! ("media", "b.png"), size o))
    (objects (w_s3 (run demo_self (Upload <$> ["a.png"; "Post/c.png"; "b.png"]) demo_world).2))
  = (Some "PNG-a", Some "PNG-c", Some "PNG-b", 3).
Proof. by vm_compute. Qed.

(** One call with the three keys: the first file only. *)
Example upload_three_ex :
  (λ rw, (rw.1, staged_bytes (w_fs rw.2) <$> ["a.png"; "Post/c.png"; "b.png"],
          size (objects (w_s3 rw.2))))
    (upload demo_self ["a.png"; "Post/c.png"; "b.png"] demo_world)
  = (Ret (Some true), [None; Some "PNG-c"; Some "PNG-b"], 1).
Proof. by vm_compute. Qed.

Lemma upload_batch_first_witness :
  ∃ a, upload_answer (upload demo_self ["a.png"; "b.png"] demo_world).1 = Some a ∧
       batch (abs demo_self demo_world) [Upload "a.png"] a
         (abs demo_self (upload demo_self ["a.png"; "b.png"] demo_world).2).
Proof.
  apply (upload_batch_first demo_self "a.png" ["b.png"] demo_world); [apply demo_fs_wf|].
  by destruct (upload _ _ _).
Defined.

Lemma upload_batch_not_refined_witness :
  ¬ batch (abs demo_self demo_world) (Upload <$> ["a.png"; "b.png"]) Done
      (abs demo_self (upload demo_self ["a.png"; "b.png"] demo_world).2).
Proof.
  apply (upload_batch_not_refined demo_self "a.png" "b.png" [] demo_world (Ret (Some true)));
    [apply demo_fs_wf|by vm_compute|done|done|by eexists].
Defined.

Lemma drain_inevitably_witness :
  inevitably (drain_step demo_self)
    (λ w', ∀ k, staged (abs demo_self w') k = None ∧
                ∀ d, staged (abs demo_self demo_world) k = Some d →
                     bucket (abs demo_self w') k = Some d) demo_world.
Proof. apply (drain_inevitably demo_self (ms_serving demo_self)), demo_ready. Defined.
