(* ===== verification/Pipeline.v ===== *)
(** * Pipeline: the parts together

    How the parts of [src/s3_minio.py] meet when a Django application uses
    them: the module is imported (its [import] statements), a gateway is
    built and used ([__init__], then a method), and the path that
    [generate_image_filename] builds is the key under which the image is
    staged below [temp/media] and uploaded. *)

From S2P Require Import Prelude Loops PyStr FileSystem ObjectStore Gateway Filename WebP.
Import S3Minio.

(** ** Importing the module *)

(** The modules of the standard library that the source imports. *)
Definition stdlib_modules : list string := ["re"; "os"; "random"; "shutil"; "io"].

(** [import m] in an installation with the packages [installed]. *)
Definition import_ (installed : gset string) (m : string) : res exn () :=
  if bool_decide (m ∈ stdlib_modules) || bool_decide (m ∈ installed)
  then Ret ()
  else Raise (Exn ModuleNotFoundError ("No module named '" +:+ m +:+ "'") None).

(** The [import] statements at the top of the module, in their order. *)
Definition load_module (installed : gset string) : res exn () :=
  import_ installed "re";;
  import_ installed "os";;
  import_ installed "random";;
  import_ installed "shutil";;
  import_ installed "io";;
  import_ installed "boto3";;
  import_ installed "PIL".

(** The session of [webp_converter] in an installation. *)
Definition session_of (installed : gset string) (files : gmap ref File) : Session :=
  mkSession (bool_decide ("django" ∈ installed)) files.

(** ** Building a gateway and using it *)

Section program.
Context {St : Type} `{!ObjectStore St}.

(** [S3Minio(endpoint_url, access_key_id, secret_access_key, bucket_name)]
    followed by a use of the gateway. *)
Definition with_gateway {A} (endpoint_url access_key_id secret_access_key bucket_name : string)
    (use : S3Minio → Py (World St) A) : Py (World St) A :=
  self ← init endpoint_url access_key_id secret_access_key bucket_name;
  use self.

End program.

(** ** The generated path as a key *)

(** A Python identifier of ASCII letters, digits and underscores, as the
    name of a class is. *)
Definition is_identifier_char (c : ascii) : bool :=
  let n := N_of_ascii c in
  ((65 <=? n) && (n <=? 90) || (97 <=? n) && (n <=? 122) || (48 <=? n) && (n <=? 57)
   || (n =? 95))%N.

Definition is_identifier (s : string) : bool :=
  match s with
  | "" => false
  | String c _ => negb (is_digit c) && str_forall is_identifier_char s
  end.

(** Whether a call returned a value and not [None]. *)
Definition is_Some_url {E A} (r : res E (option A)) : bool :=
  match r with Ret (Some _) => true | _ => false end.

(** ** Examples *)

(** An installation with everything, and one without Django. *)
Definition demo_installed : gset string := {["boto3"; "PIL"; "django"]}.

Definition demo_no_django_installed : gset string := {["boto3"; "PIL"]}.

(** The key generated for a photograph of [demo_instance], and a world in
    which the photograph is staged under that key. *)
Definition demo_key : string :=
  "Post/2024-01-02-03-04-05-2024-01-02/2024-01-02-03-04-05-2024-01-02-1234.JPG".

Definition demo_staged : World mem_store :=
  mkWorld
    (<[file_direct demo_key := FileSystem.File "JPEG"]>
       (<[dirname (file_direct demo_key) := FileSystem.Dir]> demo_fs))
    demo_store [].

(** ** Lemmas on components of paths *)

Section components.
Implicit Types (s t : string) (c : ascii).

Lemma identifier_char_valid c : is_identifier_char c = true → is_valid_char c = true.
Proof.
  unfold is_identifier_char, is_valid_char. generalize (N_of_ascii c). intros n.
  rewrite !orb_true_iff, !andb_true_iff, !N.leb_le, !N.eqb_eq. lia.
Qed.

(** A string that begins with a character of [A-Za-z0-9_-] and has no
    slash is a component of a path in normal form. *)
Lemma comp_ok_head c s : c ≠ "."%char → comp_ok (String c s) = true.
Proof.
  intros Hc. unfold comp_ok. cbn [String.eqb].
  by destruct (Ascii.eqb_spec c ".").
Qed.

Lemma path_ok_component s : no_sep "/" s = true → comp_ok s = true → path_ok s = true.
Proof. intros Hs Hc. unfold path_ok, no_sep in *. rewrite split_no_sep by done. simpl. by rewrite Hc. Qed.

Lemma digit_not_dot c : is_digit c = true → c ≠ "."%char.
Proof. by intros Hc ->. Qed.

Lemma identifier_component s :
  is_identifier s = true → no_sep "/" s = true ∧ comp_ok s = true.
Proof.
  destruct s as [|c s]; [done|]. unfold is_identifier. intros [_ Hs]%andb_true_iff. split.
  - apply valid_excludes; [done|]. revert Hs. apply str_forall_impl, identifier_char_valid.
  - apply comp_ok_head. intros ->. cbn [str_forall] in Hs. done.
Qed.

End components.

(** ** The generated path as a key *)

Section key.
Implicit Types (inst : instance) (dt : datetime) (filename s t x y : string) (entropy : N).

Lemma path_ok_join s t : path_ok s = true → path_ok t = true → path_ok (s +:+ "/" +:+ t) = true.
Proof. intros Hs Ht. change ("/" +:+ t) with (String "/" t). by rewrite path_ok_app_sep, Hs, Ht. Qed.

(** A string that begins with digits begins with a digit. *)
Lemma digits_head x y :
  x ≠ "" → str_forall is_digit x = true → ∃ c s, x +:+ y = String c s ∧ is_digit c = true.
Proof.
  destruct x as [|c x]; [done|]. cbn [str_forall]. intros _ [Hc _]%andb_true_iff.
  exists c, (x +:+ y). by rewrite str_app_cons.
Qed.

Lemma padded_nonempty w n : padded w n ≠ "".
Proof.
  unfold padded, zfill. intros [_ H]%str_app_eq_nil. by apply str_N_nonempty in H.
Qed.

Lemma timestamp_head dt t :
  ∃ c s, strftime timestamp_format dt +:+ t = String c s ∧ is_digit c = true.
Proof.
  rewrite strftime_timestamp, !str_app_assoc.
  apply digits_head; [apply padded_nonempty|apply padded_digits].
Qed.

(** A string of [A-Za-z0-9._-] that begins with a digit is a component. *)
Lemma valid_component s :
  str_forall is_valid_char s = true → (∃ c s', s = String c s' ∧ is_digit c = true) →
  path_ok s = true.
Proof.
  intros Hs (c & s' & -> & Hc). apply path_ok_component.
  - by apply valid_excludes.
  - by apply comp_ok_head, digit_not_dot.
Qed.

Lemma timestamp_component dt : path_ok (strftime timestamp_format dt) = true.
Proof.
  apply valid_component; [apply timestamp_valid|].
  destruct (timestamp_head dt "") as (c & s & Hs & Hc). rewrite str_app_nil_r in Hs. eauto.
Qed.

(** C30. The generated path is a key that can be staged: for an instance
    whose [created_at] is set and whose class name is an identifier, the
    path under [temp/media] is in normal form, and its directory is the
    directory of the time stamp inside the directory of the class. *)
Theorem generated_key_staging_path inst dt filename entropy :
  created_at inst = Some dt → is_identifier (class_name inst) = true →
  ∃ key, generate_image_filename inst filename entropy = Ret key ∧
    path_ok (file_direct key) = true ∧
    dirname (file_direct key)
    = file_direct (class_name inst +:+ "/" +:+ strftime timestamp_format dt).
Proof.
  intros Hdt [Hsep Hcomp]%identifier_component. eexists. split; [by apply generate_image_filename_eq|].
  set (name := stem dt entropy +:+ cleaned_tail _).
  set (dir := class_name inst +:+ "/" +:+ strftime timestamp_format dt).
  assert (str_forall is_valid_char name = true) as Hv
    by (unfold name; by rewrite str_forall_app, stem_valid, cleaned_tail_valid).
  assert (path_ok (file_direct dir) = true) as Hdir.
  { apply (path_ok_join "temp/media"); [done|].
    apply path_ok_join; [by apply path_ok_component|apply timestamp_component]. }
  replace (file_direct _) with (file_direct dir +:+ String "/" name)
    by (unfold file_direct, dir; by rewrite !str_app_assoc).
  split.
  - rewrite path_ok_app_sep, Hdir. apply valid_component; [done|].
    unfold name, stem. rewrite !str_app_assoc. apply timestamp_head.
  - apply dirname_app_base; [done|]. by apply valid_excludes.
Qed.

End key.

(** ** The name of a converted image as a key *)

Section converted.
Context {Img : Type} `{!ImageCodec Img}.

(** A converted image is stored as [.webp]: when [webp_converter]
    has converted a file object whose name is a stem without a dot and one
    of the listed extensions, the name the file object has afterwards,
    given to [generate_image_filename], yields the path
    [Class/stamp/stamp-NNNN.webp]. *)
Theorem converted_image_key self image rest base e d buffer w inst dt entropy :
  django w = true → heap w !! image = Some (mkFile (Some (base +:+ e)) d) →
  encode d = Ret buffer → no_sep "." base = true → e ∈ extensions →
  created_at inst = Some dt →
  ∃ w' n,
    webp_converter self (image :: rest) w = (Ret (Some (mkContentFile buffer)), w') ∧
    name <$> heap w' !! image = Some (Some n) ∧
    generate_image_filename inst n entropy
    = Ret (class_name inst +:+ "/" +:+ strftime timestamp_format dt +:+ "/"
           +:+ stem dt entropy +:+ "webp").
Proof.
  intros Hdj Hf Henc Hbase He Hdt. eexists _, (base +:+ ".webp"). split_and!.
  - rewrite (webp_converter_cons _ _ _ _ _ Hdj Hf). unfold converted. cbn [data name].
    by rewrite Henc.
  - by rewrite with_name_lookup, Hf, renamed_extension.
  - by apply (generate_image_filename_keeps_extension inst dt base "webp").
Qed.

End converted.

(** ** Importing the module *)

Section imports.
Implicit Types (installed : gset string) (m : string).

Lemma import_stdlib installed m : m ∈ stdlib_modules → import_ installed m = Ret ().
Proof. intros Hm. unfold import_. by rewrite (bool_decide_eq_true_2 _ Hm). Qed.

Lemma import_package installed m :
  m ∉ stdlib_modules →
  import_ installed m
  = if bool_decide (m ∈ installed) then Ret ()
    else Raise (Exn ModuleNotFoundError ("No module named '" +:+ m +:+ "'") None).
Proof. intros Hm. unfold import_. by rewrite (bool_decide_eq_false_2 _ Hm). Qed.

(** Loading the module needs [boto3] and [PIL] and nothing else: the
    [import] statements succeed exactly when both packages are installed,
    and otherwise raise [ModuleNotFoundError] for the first one that is
    missing, [boto3] before [PIL]; Django is not imported when the module
    is loaded. *)
Theorem load_module_spec installed :
  load_module installed
  = if bool_decide ("boto3" ∈ installed) then
      if bool_decide ("PIL" ∈ installed) then Ret ()
      else Raise (Exn ModuleNotFoundError "No module named 'PIL'" None)
    else Raise (Exn ModuleNotFoundError "No module named 'boto3'" None).
Proof.
  unfold load_module.
  rewrite (import_stdlib installed "re"), (import_stdlib installed "os"), (import_stdlib installed "random"),
    (import_stdlib installed "shutil"), (import_stdlib installed "io"),
    (import_package installed "boto3"), (import_package installed "PIL")
    by (apply (bool_decide_unpack _); by vm_compute).
  by repeat case_bool_decide.
Qed.

(** Without Django the module loads, and [webp_converter] is the one
    method that fails, whatever its arguments. *)
Lemma webp_converter_needs_django installed files self args :
  "django" ∉ installed →
  webp_converter self args (session_of installed files)
  = (Raise (Exn ImportError import_error_message (Some no_django)),
     session_of installed files).
Proof.
  intros Hd. rewrite webp_converter_eq. unfold session_of. cbn [django].
  by rewrite (bool_decide_eq_false_2 _ Hd).
Qed.

End imports.

(** ** Building a gateway and using it *)

Section program_theorems.
Context {St : Type} `{!ObjectStore St}.
Implicit Types (w : World St).

(** A gateway is used only once it is built: [S3Minio(...)] followed
    by a use of the gateway prints the line with the credentials and then,
    when [boto3.client] returns a client, runs the use on the gateway of
    that client and the bucket given; when [boto3.client] raises, that
    exception is raised as it is (no [ValueError] wraps it) and the use
    does not run. *)
Theorem with_gateway_spec {A} endpoint key_id secret bucket (use : S3Minio → Py (World St) A) w :
  with_gateway endpoint key_id secret bucket use w =
  let w' := mkWorld (w_fs w) (w_s3 w)
              (w_out w ++ [printed (init_message endpoint key_id secret bucket)]) in
  match boto3_client endpoint key_id secret with
  | Ret c => use (mkS3Minio c bucket) w'
  | Raise e => (Raise e, w')
  end.
Proof.
  unfold with_gateway. py_unfold. rewrite init_eq. cbn zeta.
  by destruct (boto3_client _ _ _).
Qed.

End program_theorems.

(** ** The parts on the examples *)

Example load_module_ex : load_module demo_no_django_installed = Ret ().
Proof. by vm_compute. Qed.

Example load_module_bare_ex :
  load_module ∅ = Raise (Exn ModuleNotFoundError "No module named 'boto3'" None).
Proof. by vm_compute. Qed.

Example demo_key_ex : generate_image_filename demo_instance "My Photo #1.JPG" 234 = Ret demo_key.
Proof. by vm_compute. Qed.

(** The photograph staged under the generated key is uploaded under that
    key by a gateway built for the demo endpoint; its directory, which the
    time stamp names and which held nothing else, is removed, the directory
    of the class stays, and the link is then signed. *)
Example pipeline_ex :
  let r := with_gateway "http://minio:9000" "admin" "hunter2" "media"
             (λ self, upload self [demo_key];; get_url self demo_key) demo_staged in
  is_Some_url r.1 = true ∧
  ms_objects (w_s3 r.2) !! ("media", demo_key) = Some "JPEG" ∧
  w_fs r.2 !! file_direct demo_key = None ∧
  w_fs r.2 !! dirname (file_direct demo_key) = None ∧
  w_fs r.2 !! "temp/media/Post" = Some FileSystem.Dir.
Proof. by vm_compute. Qed.

Lemma generated_key_staging_path_witness :
  ∃ key, generate_image_filename demo_instance "My Photo #1.JPG" 234 = Ret key ∧
    path_ok (file_direct key) = true ∧
    dirname (file_direct key)
    = file_direct ("Post" +:+ "/" +:+ strftime timestamp_format demo_datetime).
Proof. by apply (generated_key_staging_path demo_instance demo_datetime). Defined.

(** An image whose extension is in upper case is converted as well, and
    keeps its name: its key ends in [.PNG] although its bytes are WEBP. *)
Example converted_upper_case_ex :
  renamed "IMG_0001.PNG" = "IMG_0001.PNG" ∧
  generate_image_filename demo_instance (renamed "IMG_0001.PNG") 234
  = Ret "Post/2024-01-02-03-04-05-2024-01-02/2024-01-02-03-04-05-2024-01-02-1234.PNG".
Proof. by vm_compute. Qed.

Lemma converted_image_key_witness :
  ∃ w' n,
    webp_converter demo_self [1%positive; 2%positive] demo_session
    = (Ret (Some (mkContentFile "WEBP:RGB:meow")), w') ∧
    name <$> heap w' !! 1%positive = Some (Some n) ∧
    generate_image_filename demo_instance n 234
    = Ret ("Post" +:+ "/" +:+ strftime timestamp_format demo_datetime +:+ "/"
           +:+ stem demo_datetime 234 +:+ "webp").
Proof.
  apply (converted_image_key demo_self 1%positive [2%positive] "cat" ".png" "PNG:RGBA:meow");
    [done|done|by vm_compute|done|set_solver|done].
Defined.
