(* ===== verification/Concurrent.v ===== *)
(** * Concurrent: the cleanup of [upload] beside other requests

    A web application serves several requests at once, and the staging
    area below [temp/media] is shared between them.  The cleanup at the
    end of [upload] is a sequence of four calls into [os] and [shutil]
    (remove the file, test that its directory exists, list the directory,
    remove the directory); between any two of them another request may
    stage a file.  Here the cleanup runs call by call ([cleanup_step]) and
    the other requests take steps in between ([env_step]), in the order a
    schedule gives.  Run alone, the steps compute [cleanup_staged]; with
    other requests in between, a file staged after the directory was
    listed and before it is removed is lost; when nothing is staged in
    that window, no file of another request is ever removed. *)

From S2P Require Import Prelude PyStr FileSystem ObjectStore Gateway.
From stdpp Require Import relations.
Import S3Minio.

(** ** The cleanup, call by call *)

(** Where the cleanup stands: before one of its four calls, or finished
    with its outcome. *)
Inductive pc : Type :=
| AtRemove
| AtExists
| AtListdir
| AtRmtree
| Finished (r : res exn ()).

(** One call of the cleanup of the staged file [f]. *)
Definition cleanup_step (f : string) (p : pc) (fs : FS) : option (pc * FS) :=
  match p with
  | AtRemove =>
      match os_remove f fs with
      | (Ret _, fs') => Some (AtExists, fs')
      | (Raise e, fs') => Some (Finished (Raise e), fs')
      end
  | AtExists =>
      Some (if os_path_exists fs (dirname f) then AtListdir else Finished (Ret ()), fs)
  | AtListdir =>
      match os_listdir fs (dirname f) with
      | Ret [] => Some (AtRmtree, fs)
      | Ret (_ :: _) => Some (Finished (Ret ()), fs)
      | Raise e => Some (Finished (Raise e), fs)
      end
  | AtRmtree =>
      let '(r, fs') := shutil_rmtree (dirname f) fs in Some (Finished r, fs')
  | Finished _ => None
  end.

(** The cleanup alone, for at most [n] calls. *)
Fixpoint run_alone (f : string) (n : nat) (c : pc * FS) : pc * FS :=
  match n with
  | 0 => c
  | S n => match cleanup_step f c.1 c.2 with
           | Some c' => run_alone f n c'
           | None => c
           end
  end.

(** ** The other requests *)

(** What another request does to the staging area: it makes a directory,
    or writes a file. *)
Inductive action : Type :=
| Mkdir (d : string)
| Write (q data : string).

(** The parent of a path is the working directory or a directory. *)
Definition parent_ok (fs : FS) (p : string) : bool :=
  bool_decide (dirname p = "" ∨ fs !! dirname p = Some Dir).

(** One action: a directory is made where nothing is, a file is written
    where no directory is; both need the parent. *)
Definition env_step (a : action) (fs : FS) : option FS :=
  match a with
  | Mkdir d =>
      if path_ok d && parent_ok fs d && bool_decide (fs !! d = None)
      then Some (<[d := Dir]> fs) else None
  | Write q data =>
      if path_ok q && parent_ok fs q && bool_decide (fs !! q ≠ Some Dir)
      then Some (<[q := File data]> fs) else None
  end.

(** ** Schedules *)

(** Who takes the next step: the cleanup, or another request. *)
Inductive label : Type :=
| Own
| Other (a : action).

(** The other requests are [quiet] at the points of the cleanup at which
    they take no step. *)
Definition always : pc → bool := λ _, true.
Definition never : pc → bool := λ _, false.
Definition at_rmtree : pc → bool := λ p, match p with AtRmtree => true | _ => false end.

(** One step of the cleanup of [f] beside other requests. *)
Inductive sched_step (f : string) (quiet : pc → bool) : relation (pc * FS) :=
| step_own p fs c' :
    cleanup_step f p fs = Some c' → sched_step f quiet (p, fs) c'
| step_other a p fs fs' :
    quiet p = false → env_step a fs = Some fs' → sched_step f quiet (p, fs) (p, fs').

(** The step a label names, and the run a schedule names. *)
Definition step_of (f : string) (quiet : pc → bool) (l : label) (c : pc * FS)
    : option (pc * FS) :=
  match l with
  | Own => cleanup_step f c.1 c.2
  | Other a => if quiet c.1 then None else fs' ← env_step a c.2; Some (c.1, fs')
  end.

Fixpoint exec (f : string) (quiet : pc → bool) (ls : list label) (c : pc * FS)
    : option (pc * FS) :=
  match ls with
  | [] => Some c
  | l :: ls => c' ← step_of f quiet l c; exec f quiet ls c'
  end.

(** A regular file. *)
Definition is_file (fs : FS) (q : string) : bool :=
  match fs !! q with
  | Some (File _) => true
  | _ => false
  end.

(** What holds at every point of a run in which the other requests are
    quiet before [shutil.rmtree]: the staging area is a tree, and before
    [shutil.rmtree] the directory has no entry. *)
Definition cleanup_inv (f : string) (c : pc * FS) : Prop :=
  fs_wf c.2 ∧ (c.1 = AtRmtree → children c.2 (dirname f) = []).

(** ** Examples

    The cleanup of [Post/c.png], the only file of its directory in
    [demo_fs], while another request stages [Post/d.png]. *)

Definition demo_f : string := "temp/media/Post/c.png".
Definition demo_q : string := "temp/media/Post/d.png".

(** After the file was removed and the other file staged, and at the end
    of that run. *)
Definition demo_staged_early : pc * FS :=
  (AtExists, <[demo_q := File "PNG-d"]> (map_del demo_f demo_fs)).

Definition demo_finished_early : pc * FS :=
  (Finished (Ret ()), <[demo_q := File "PNG-d"]> (map_del demo_f demo_fs)).

(** ** The steps alone *)

Section alone.
Implicit Types (f q d : string) (fs : FS) (p : pc) (c : pc * FS).

Lemma sched_step_iff f quiet c c' :
  sched_step f quiet c c' ↔ ∃ l, step_of f quiet l c = Some c'.
Proof.
  split.
  - intros [p fs ? Hs|a p fs fs' Hq He]; [by exists Own|].
    exists (Other a). simpl. by rewrite Hq, He.
  - intros [[|a] Hl]; destruct c as [p fs]; simpl in Hl; [by constructor|].
    destruct (quiet p) eqn:Hq; [done|].
    destruct (env_step a fs) as [fs'|] eqn:He; simplify_eq/=. by econstructor.
Qed.

(** A schedule that runs is a run of the relation. *)
Lemma exec_rtc f quiet ls c c' :
  exec f quiet ls c = Some c' → rtc (sched_step f quiet) c c'.
Proof.
  revert c. induction ls as [|l ls IH]; intros c Hx; simplify_eq/=; [done|].
  destruct (step_of f quiet l c) as [c1|] eqn:Hl; simplify_eq/=.
  eapply rtc_l; [apply sched_step_iff; eauto|eauto].
Qed.

(** Alone, the cleanup is deterministic, and stops when it has finished. *)
Lemma alone_det f : deterministic (sched_step f always).
Proof. intros c c1 c2 H1 H2. destruct H1; inversion H2; unfold always in *; by simplify_eq. Qed.

Lemma finished_nf f r fs : nf (sched_step f always) (Finished r, fs).
Proof. intros [c' Hs]. inversion Hs; by simplify_eq/=. Qed.

Lemma run_alone_rtc f n c : rtc (sched_step f always) c (run_alone f n c).
Proof.
  revert c. induction n as [|n IH]; intros [p fs]; [done|]. simpl.
  destruct (cleanup_step f p fs) as [c'|] eqn:Hs; [|done].
  eapply rtc_l; [by constructor|apply IH].
Qed.

(** Four calls finish the cleanup, with the outcome of [cleanup_staged]. *)
Lemma run_alone_cleanup_staged f fs :
  run_alone f 4 (AtRemove, fs) = (Finished (cleanup_staged f fs).1, (cleanup_staged f fs).2).
Proof.
  unfold cleanup_staged, fs_reading. py_unfold. simpl.
  destruct (os_remove f fs) as [[[]|e] fs1]; simpl; [|done].
  destruct (os_path_exists fs1 (dirname f)); simpl; [|done].
  destruct (os_listdir fs1 (dirname f)) as [[|]|]; simpl; [|done..].
  by destruct (shutil_rmtree (dirname f) fs1).
Qed.

End alone.

(** ** What the steps keep *)

Section files.
Implicit Types (f q d : string) (fs : FS) (p : pc) (c : pc * FS) (n : node).

Lemma is_file_Some fs q : is_file fs q = true ↔ ∃ x, fs !! q = Some (File x).
Proof. unfold is_file. destruct (fs !! q) as [[x|]|]; split; try done; eauto; by intros [? [=]]. Qed.

(** A new entry below a directory keeps the tree, unless a file takes the
    place of a directory. *)
Lemma fs_wf_insert fs q n :
  fs_wf fs → path_ok q = true → parent_ok fs q = true → n = Dir ∨ fs !! q ≠ Some Dir →
  fs_wf (<[q := n]> fs).
Proof.
  intros Hwf Hok Hpar%bool_decide_eq_true Hn.
  assert (∀ d, fs !! d = Some Dir → <[q := n]> fs !! d = Some Dir) as Hdir.
  { intros d Hd. destruct (decide (d = q)) as [->|]; [|by rewrite lookup_insert_ne].
    rewrite lookup_insert_eq. destruct Hn as [->|]; [done|congruence]. }
  intros p m [[<- <-]|[_ Hp]]%lookup_insert_Some.
  - split; [done|]. destruct Hpar; auto.
  - destruct (Hwf _ _ Hp) as [? []]; auto.
Qed.

(** The other requests keep the tree and remove nothing. *)
Lemma env_step_wf a fs fs' : fs_wf fs → env_step a fs = Some fs' → fs_wf fs'.
Proof.
  intros Hwf. destruct a as [d|q data]; simpl; case_match eqn:Hg; intros [= <-];
    apply andb_true_iff in Hg as [[? ?]%andb_true_iff Hn%bool_decide_eq_true];
    apply fs_wf_insert; auto.
Qed.

Lemma env_step_file a fs fs' q :
  env_step a fs = Some fs' → is_file fs q = true → is_file fs' q = true.
Proof.
  rewrite !is_file_Some. intros Ha [x Hx].
  destruct a as [d|q' data]; simpl in Ha; case_match eqn:Hg; simplify_eq/=;
    apply andb_true_iff in Hg as [_ Hn%bool_decide_eq_true].
  - exists x. rewrite lookup_insert_ne; [done|congruence].
  - destruct (decide (q' = q)) as [->|]; [rewrite lookup_insert_eq|rewrite lookup_insert_ne]; eauto.
Qed.

(** A call of the cleanup keeps the invariant and leaves every file but
    its own as it is. *)
Lemma cleanup_step_inv f p fs c' :
  cleanup_inv f (p, fs) → cleanup_step f p fs = Some c' →
  cleanup_inv f c' ∧ ∀ q x, q ≠ f → fs !! q = Some (File x) → c'.2 !! q = Some (File x).
Proof.
  intros [Hwf Hempty]. simpl in *. destruct p; simpl.
  - destruct (os_remove f fs) as [[[]|e] fs1] eqn:Hrm; intros [= <-]; simpl.
    + apply os_remove_Ret_inv in Hrm as [[data Hf] ->].
      split; [split; [by eapply fs_wf_unlink|done]|].
      intros q x Hq. by rewrite lookup_delete_ne.
    + apply os_remove_Raise_inv in Hrm as [-> _]. by split.
  - intros [= <-]. split; [|done]. split; [done|]. by case_match.
  - destruct (os_listdir fs (dirname f)) as [[|]|] eqn:Hl; intros [= <-]; (split; [|done]);
      (split; [done|]); [|done..].
    intros _. apply os_listdir_nil in Hl as [_ Hl]. by apply children_nil.
  - destruct (shutil_rmtree (dirname f) fs) as [[[]|e] fs1] eqn:Hrm; intros [= <-]; simpl.
    + apply shutil_rmtree_Ret_inv in Hrm as [Hd ->].
      split; [split; [by apply fs_wf_rmtree|done]|].
      intros q x _ Hx. rewrite without_tree_empty by auto.
      rewrite lookup_delete_ne; [done|congruence].
    + apply shutil_rmtree_Raise_inv in Hrm as [-> _]. by split.
  - done.
Qed.

Lemma sched_step_inv f c c' :
  cleanup_inv f c → sched_step f at_rmtree c c' →
  cleanup_inv f c' ∧ ∀ q, q ≠ f → is_file c.2 q = true → is_file c'.2 q = true.
Proof.
  intros Hinv Hstep. destruct Hstep as [p fs ? Hs|a p fs fs' Hq Ha].
  - destruct (cleanup_step_inv f p fs _ Hinv Hs) as [? Hk]. split; [done|].
    intros q Hne [x Hx]%is_file_Some. apply is_file_Some. eauto.
  - destruct Hinv as [Hwf _]. split; [split|]; simpl in *.
    + by eapply env_step_wf.
    + intros ->. done.
    + intros q _. by apply (env_step_file a).
Qed.

(** The cleanup only removes entries. *)
Lemma cleanup_step_subseteq f p fs c : cleanup_step f p fs = Some c → c.2 ⊆ fs.
Proof.
  destruct p; simpl; intros Hc.
  - destruct (os_remove f fs) as [[[]|e] fs'] eqn:Hrm; simplify_eq/=.
    + apply os_remove_Ret_inv in Hrm as [_ ->]. apply delete_subseteq.
    + by apply os_remove_Raise_inv in Hrm as [-> _].
  - by simplify_eq.
  - by repeat case_match; simplify_eq.
  - destruct (shutil_rmtree (dirname f) fs) as [[[]|e] fs'] eqn:Hrm; simplify_eq/=.
    + apply shutil_rmtree_Ret_inv in Hrm as [_ ->]. apply without_tree_subseteq.
    + by apply shutil_rmtree_Raise_inv in Hrm as [-> _].
  - done.
Qed.

(** A call of the cleanup leaves the other directories where they are. *)
Lemma cleanup_step_dirs f p fs c d :
  cleanup_inv f (p, fs) → cleanup_step f p fs = Some c →
  d ≠ dirname f → fs !! d = Some Dir → c.2 !! d = Some Dir.
Proof.
  intros [Hwf Hempty] Hc Hne Hd. simpl in *. destruct p; simpl in Hc.
  - destruct (os_remove f fs) as [[[]|e] fs1] eqn:Hrm; simplify_eq/=.
    + apply os_remove_Ret_inv in Hrm as [[data Hf] ->]. rewrite lookup_delete_ne; congruence.
    + by apply os_remove_Raise_inv in Hrm as [-> _].
  - by simplify_eq.
  - by repeat case_match; simplify_eq.
  - destruct (shutil_rmtree (dirname f) fs) as [[[]|e] fs1] eqn:Hrm; simplify_eq/=.
    + apply shutil_rmtree_Ret_inv in Hrm as [_ ->].
      by rewrite without_tree_empty, lookup_delete_ne by auto.
    + by apply shutil_rmtree_Raise_inv in Hrm as [-> _].
  - done.
Qed.

Lemma cleanup_inv_start f fs : fs_wf fs → cleanup_inv f (AtRemove, fs).
Proof. by split. Qed.

Lemma sched_rtc_inv f c c' :
  cleanup_inv f c → rtc (sched_step f at_rmtree) c c' →
  cleanup_inv f c' ∧ ∀ q, q ≠ f → is_file c.2 q = true → is_file c'.2 q = true.
Proof.
  intros Hinv Hr. induction Hr as [c|c c1 c2 Hs _ IH]; [done|].
  destruct (sched_step_inv f c c1 Hinv Hs) as [Hinv1 Hk]. destruct (IH Hinv1) as [? Hk'].
  split; [done|]. auto.
Qed.

End files.

(** ** The theorems *)

Section theorems.
Implicit Types (f q d : string) (fs : FS) (p : pc) (c : pc * FS).

(** Alone, the steps are the cleanup: the calls of the cleanup, with
    no other request in between, reach the end with an outcome and a
    staging area exactly when these are the outcome and the staging area
    of [cleanup_staged]. *)
Theorem cleanup_alone f fs r fs' :
  rtc (sched_step f always) (AtRemove, fs) (Finished r, fs') ↔ cleanup_staged f fs = (r, fs').
Proof.
  pose proof (run_alone_rtc f 4 (AtRemove, fs)) as Hrun.
  rewrite run_alone_cleanup_staged in Hrun. split.
  - intros Hr.
    assert ((Finished r, fs') = (Finished (cleanup_staged f fs).1, (cleanup_staged f fs).2))
      as [= -> ->]; [|by destruct (cleanup_staged f fs)].
    eapply confluent_rtc_nf; eauto using deterministic_confluent, alone_det, finished_nf.
  - intros Hc. by rewrite Hc in Hrun.
Qed.

(** C27. No file is lost when nothing is staged between the listing and
    the removal of the directory: in a run of the cleanup of [f] beside
    other requests that take no step just before [shutil.rmtree], a
    regular file other than [f] that is in the staging area at some point,
    staged before the cleanup or during it, is there at every later
    point. *)
Theorem cleanup_keeps_files f fs c1 c2 q :
  fs_wf fs →
  rtc (sched_step f at_rmtree) (AtRemove, fs) c1 → rtc (sched_step f at_rmtree) c1 c2 →
  q ≠ f → is_file c1.2 q = true → is_file c2.2 q = true.
Proof.
  intros Hwf H1 H2. destruct (sched_rtc_inv f _ c1 (cleanup_inv_start f fs Hwf) H1) as [Hinv _].
  destruct (sched_rtc_inv f c1 c2 Hinv H2) as [_ Hk]. apply Hk.
Qed.

(** C20. The race of the cleanup: when [f] is the only entry of its
    directory and another request writes a file [q] into that directory
    after the cleanup has listed it and before [shutil.rmtree], the
    cleanup finishes without an exception and the file [q] is gone with
    the directory, never uploaded. *)
Theorem cleanup_race f q data data' fs :
  fs_wf fs → fs !! f = Some (File data) → fs !! dirname f = Some Dir →
  children (map_del f fs) (dirname f) = [] →
  path_ok q = true → dirname q = dirname f → q ≠ f →
  ∃ fs',
    exec f never [Own; Own; Own; Other (Write q data')] (AtRemove, fs)
    = Some (AtRmtree, <[q := File data']> (map_del f fs)) ∧
    exec f never [Own] (AtRmtree, <[q := File data']> (map_del f fs))
    = Some (Finished (Ret ()), fs') ∧
    fs' !! q = None.
Proof.
  intros Hwf Hf Hd Honly Hq Hdq Hne. pose proof (proj1 (children_nil _ _) Honly) as Hnil.
  assert (dirname f ≠ f) as Hdf by (intros Heq; rewrite Heq in Hd; congruence).
  assert (map_del f fs !! dirname f = Some Dir) as Hd1 by by rewrite lookup_delete_ne.
  assert (map_del f fs !! q = None) as Hnone.
  { apply eq_None_not_Some. intros Hs. by apply (Hnil q). }
  assert (dirname f ≠ q) as Hdq' by congruence.
  eexists. split_and!.
  - cbn [exec step_of cleanup_step fst snd mbind option_bind].
    rewrite (os_remove_File _ _ data) by done.
    cbn [exec step_of cleanup_step fst snd mbind option_bind].
    rewrite (proj2 (os_path_exists_true _ _)) by eauto.
    cbn [exec step_of cleanup_step fst snd mbind option_bind].
    rewrite (proj2 (os_listdir_nil _ _)) by done.
    cbn [exec step_of cleanup_step fst snd mbind option_bind never env_step].
    unfold parent_ok. rewrite Hq, Hdq, !bool_decide_eq_true_2; [done|congruence|by right].
  - cbn [exec step_of cleanup_step fst snd mbind option_bind].
    rewrite shutil_rmtree_Dir by (by rewrite lookup_insert_ne). done.
  - rewrite lookup_without_tree, decide_False; [done|].
    intros [_ Hu]. rewrite <-Hdq, under_own_parent in Hu; [done..|].
    rewrite Hdq. intros Hempty. rewrite Hempty in Hd. by rewrite (fs_wf_lookup_nil fs Hwf) in Hd.
Qed.

End theorems.

(** ** The theorems on the examples *)

(** Alone, the cleanup of [Post/c.png] removes the file and its directory. *)
Example run_alone_ex :
  run_alone demo_f 4 (AtRemove, demo_fs)
  = (Finished (Ret ()), map_del "temp/media/Post" (map_del demo_f demo_fs)).
Proof. vm_cast_no_check (eq_refl (run_alone demo_f 4 (AtRemove, demo_fs))). Qed.

(** The file staged before the directory is listed stays: the listing is
    not empty and the directory is kept. *)
Example staged_early_ex :
  exec demo_f never [Own; Other (Write demo_q "PNG-d"); Own; Own] (AtRemove, demo_fs)
  = Some demo_finished_early.
Proof. vm_cast_no_check (eq_refl (Some demo_finished_early)). Qed.

(** The file staged after the listing is removed with the directory. *)
Example staged_late_ex :
  exec demo_f never [Own; Own; Own; Other (Write demo_q "PNG-d"); Own] (AtRemove, demo_fs)
  = Some (Finished (Ret ()), map_del "temp/media/Post" (map_del demo_f demo_fs)).
Proof.
  vm_cast_no_check
    (eq_refl (Some (Finished (Ret ()), map_del "temp/media/Post" (map_del demo_f demo_fs)))).
Qed.

(** That schedule is no run of the requests that are quiet before
    [shutil.rmtree]. *)
Example staged_late_quiet_ex :
  exec demo_f at_rmtree [Own; Own; Own; Other (Write demo_q "PNG-d"); Own] (AtRemove, demo_fs)
  = None.
Proof. vm_compute. reflexivity. Qed.

Lemma cleanup_keeps_files_witness : is_file demo_finished_early.2 demo_q = true.
Proof.
  apply (cleanup_keeps_files demo_f demo_fs demo_staged_early demo_finished_early demo_q);
    [apply demo_fs_wf| | |done..].
  - apply (exec_rtc _ _ [Own; Other (Write demo_q "PNG-d")]).
    vm_cast_no_check (eq_refl (Some demo_staged_early)).
  - apply (exec_rtc _ _ [Own; Own]). vm_cast_no_check (eq_refl (Some demo_finished_early)).
Defined.

Lemma cleanup_race_witness :
  ∃ fs',
    exec demo_f never [Own; Own; Own; Other (Write demo_q "PNG-d")] (AtRemove, demo_fs)
    = Some (AtRmtree, <[demo_q := File "PNG-d"]> (map_del demo_f demo_fs)) ∧
    exec demo_f never [Own] (AtRmtree, <[demo_q := File "PNG-d"]> (map_del demo_f demo_fs))
    = Some (Finished (Ret ()), fs') ∧
    fs' !! demo_q = None.
Proof.
  apply (cleanup_race demo_f demo_q "PNG-c" "PNG-d" demo_fs); [apply demo_fs_wf|vm_compute; reflexivity..|done].
Defined.
