(* ===== verification/Threads.v ===== *)
(** * Threads: several requests uploading at once

    Each request of the web application that calls [upload] runs the
    method on the same staging area and the same store.  Here a call
    [upload(k)] is a thread that takes up to six steps, one for each call
    that reads or writes what the calls share: [os.path.exists] for the
    diagnostic print, [upload_file], then the four calls of the cleanup
    ([cleanup_step] of [Concurrent.v]); a print goes with the call next
    to it.  A pool of such threads takes its steps in any order.
    Alone, a thread computes [upload]; in a pool, a call that returns
    [True] has its object in the bucket with the bytes that were staged,
    whatever the order of the steps; and a call can raise although its
    object is in the bucket, when another call has removed the directory
    they share. *)

From S2P Require Import Prelude Loops PyStr FileSystem ObjectStore Gateway Concurrent.
Import S3Minio.

(** ** One call, step by step *)

(** Where a call stands: at its start, before the transfer, in the
    cleanup, or back with its outcome. *)
Inductive upc : Type :=
| AtTransfer
| AtUpload
| InCleanup (p : pc)
| Returned (r : res exn (option bool)).

(** The point of the call after a call of the cleanup: the method returns
    [True] when the cleanup has finished, and the outer handler wraps what
    the cleanup raised. *)
Definition leave (p : pc) : upc :=
  match p with
  | Finished (Ret _) => Returned (Ret (Some true))
  | Finished (Raise e) => Returned (Raise (caught upload_exn e))
  | p => InCleanup p
  end.

(** A call of [upload] for a key, and the calls in flight. *)
Record thread : Type := Thread {
  th_key : string;
  th_pc : upc;
}.

Section threads.
Context {St : Type} `{!ObjectStore St}.

(** The first print, and the diagnostic print of the inner [try] block
    with its look at the staging area. *)
Definition upload_announce (self : S3Minio) (path : string) : Py (World St) () :=
  print (uploading_message path);;
  found ← reading (λ w, Ret (os_path_exists (w_fs w) (file_direct path)));
  print (file_message self path found).

(** The transfer and the message of success, under the handler of the
    inner [try] block. *)
Definition upload_put (self : S3Minio) (path : string) : Py (World St) () :=
  try_except
    (fs ← reading (λ w, Ret (w_fs w));
     on_s3 (upload_file (s3 self) fs (file_direct path) (s3_bucket_name self) path);;
     print (uploaded_message path))
    is_Exception upload_error.

(** One step of the call [upload(k)]. *)
Definition upload_step (self : S3Minio) (k : string) (u : upc) (w : World St)
    : option (upc * World St) :=
  match u with
  | AtTransfer => Some (AtUpload, (upload_announce self k w).2)
  | AtUpload =>
      match upload_put self k w with
      | (Ret _, w') => Some (InCleanup AtRemove, w')
      | (Raise e, w') => Some (Returned (Raise (caught upload_exn e)), w')
      end
  | InCleanup p =>
      c ← cleanup_step (file_direct k) p (w_fs w);
      Some (leave c.1, mkWorld c.2 (w_s3 w) (w_out w))
  | Returned _ => None
  end.

(** The call alone, for at most [n] steps. *)
Fixpoint thread_run (self : S3Minio) (k : string) (n : nat) (c : upc * World St)
    : upc * World St :=
  match n with
  | 0 => c
  | S n => match upload_step self k c.1 c.2 with
           | Some c' => thread_run self k n c'
           | None => c
           end
  end.

(** ** The calls in flight *)

(** One step of the pool: one of its calls takes a step on the world they
    share. *)
Inductive pool_step (self : S3Minio) : relation (list thread * World St) :=
| pool_step_thread i th u' pool w w' :
    pool !! i = Some th → upload_step self (th_key th) (th_pc th) w = Some (u', w') →
    pool_step self (pool, w) (<[i := Thread (th_key th) u']> pool, w').

(** The run a schedule names: the calls that take the steps, in order. *)
Fixpoint pool_exec (self : S3Minio) (sched : list nat) (c : list thread * World St)
    : option (list thread * World St) :=
  match sched with
  | [] => Some c
  | i :: sched =>
      th ← c.1 !! i;
      c' ← upload_step self (th_key th) (th_pc th) c.2;
      pool_exec self sched (<[i := Thread (th_key th) c'.1]> c.1, c'.2)
  end.

(** The calls [upload(k)] for the keys [ks], none started. *)
Definition calls (ks : list string) : list thread := (λ k, Thread k AtTransfer) <$> ks.

(** What holds of the pool at every point, from the world [w0]: a file of
    the staging area is a file of [w0], and the object of a call that is
    past its transfer holds the bytes staged in [w0]. *)
Definition past_transfer (u : upc) : bool :=
  match u with
  | InCleanup _ | Returned (Ret _) => true
  | _ => false
  end.

Definition pool_inv (self : S3Minio) (ks : list string) (w0 : World St)
    (c : list thread * World St) : Prop :=
  th_key <$> c.1 = ks ∧
  (∀ f data, w_fs c.2 !! f = Some (File data) → w_fs w0 !! f = Some (File data)) ∧
  (∀ i th, c.1 !! i = Some th → past_transfer (th_pc th) = true →
     ∃ data, w_fs w0 !! file_direct (th_key th) = Some (File data) ∧
             objects (w_s3 c.2) !! (s3_bucket_name self, th_key th) = Some data).

(** The steps a call has left at most, and the pool. *)
Definition steps_left (u : upc) : nat :=
  match u with
  | AtTransfer => 6
  | AtUpload => 5
  | InCleanup AtRemove => 4
  | InCleanup AtExists => 3
  | InCleanup AtListdir => 2
  | InCleanup AtRmtree => 1
  | _ => 0
  end.

Definition pool_left (c : list thread * World St) : nat :=
  sum_list (steps_left ∘ th_pc <$> c.1).

End threads.

(** ** Examples

    Two files alone in one directory, a call for each, and the steps taken
    in turn. *)

Definition demo_pair : World mem_store :=
  mkWorld {[ "temp" := Dir; "temp/media" := Dir; "temp/media/Post" := Dir;
             "temp/media/Post/c.png" := File "PNG-c";
             "temp/media/Post/d.png" := File "PNG-d" ]}
          demo_store [].

Definition in_turn : list nat := [0; 1; 0; 1; 0; 1; 0; 1; 0; 1; 0; 1].

Definition one_by_one : list nat := [0; 0; 0; 0; 0; 1; 1; 1; 1; 1; 1].

Definition demo_pair_end : list thread * World mem_store :=
  default ([], demo_pair)
    (pool_exec demo_self in_turn (calls ["Post/c.png"; "Post/d.png"], demo_pair)).

(** ** A call alone *)

Section alone.
Context {St : Type} `{!ObjectStore St}.
Implicit Types (self : S3Minio) (w : World St) (k : string) (p : pc) (u : upc).

(** The first step prints and changes nothing else. *)
Lemma upload_announce_eq self k w :
  upload_announce self k w =
  (Ret (), mkWorld (w_fs w) (w_s3 w)
     (w_out w ++ [printed (uploading_message k);
                  printed (file_message self k (os_path_exists (w_fs w) (file_direct k)))])).
Proof.
  unfold upload_announce, print, reading. py_unfold. simpl. by rewrite <-app_assoc.
Qed.

(** The transfer, on each of its paths. *)
Lemma upload_put_eq self k w :
  upload_put self k w =
  match upload_file (s3 self) (w_fs w) (file_direct k) (s3_bucket_name self) k (w_s3 w) with
  | (Ret _, st') =>
      (Ret (), mkWorld (w_fs w) st' (w_out w ++ [printed (uploaded_message k)]))
  | (Raise e, st') => (Raise (caught upload_exn e), mkWorld (w_fs w) st' (w_out w))
  end.
Proof.
  unfold upload_put, print, reading, on_s3. py_unfold. simpl.
  destruct (upload_file _ _ _ _ _ _) as [[[]|e] st']; [done|].
  unfold caught, upload_error. py_unfold. by destruct (is_Exception e).
Qed.

Lemma thread_run_S self k n u w :
  thread_run self k (S n) (u, w)
  = match upload_step self k u w with
    | Some c' => thread_run self k n c'
    | None => (u, w)
    end.
Proof. done. Qed.

(** A step is the first, which prints, or the transfer, which leaves the
    staging area, or a call of the cleanup, which leaves the store. *)
Lemma upload_step_cases self k u w u' w' :
  upload_step self k u w = Some (u', w') →
  (u = AtTransfer ∧ u' = AtUpload ∧ w_fs w' = w_fs w ∧ w_s3 w' = w_s3 w) ∨
  (u = AtUpload ∧ w_fs w' = w_fs w ∧
   ∃ r, upload_file (s3 self) (w_fs w) (file_direct k) (s3_bucket_name self) k (w_s3 w)
        = (r, w_s3 w') ∧
     u' = match r with
          | Ret _ => InCleanup AtRemove
          | Raise e => Returned (Raise (caught upload_exn (caught upload_exn e)))
          end) ∨
  (∃ p p', u = InCleanup p ∧ u' = leave p' ∧ w_s3 w' = w_s3 w ∧
     cleanup_step (file_direct k) p (w_fs w) = Some (p', w_fs w')).
Proof.
  destruct u as [| |p|r]; cbn [upload_step]; [| |destruct (cleanup_step _ _ _) as [[p' fs']|] eqn:Hc|];
    [| |intros [= <- <-]; right; right; by exists p, p'|done..].
  - rewrite upload_announce_eq. intros [= <- <-]. by left.
  - rewrite upload_put_eq. right. left.
    destruct (upload_file _ _ _ _ _ _) as [[[]|e] st']; simplify_eq/=; eauto.
Qed.

(** The steps of the cleanup inside the call are the steps of the cleanup. *)
Lemma thread_run_cleanup self k n p w :
  thread_run self k n (leave p, w) =
  let c := run_alone (file_direct k) n (p, w_fs w) in
  (leave c.1, mkWorld c.2 (w_s3 w) (w_out w)).
Proof.
  revert p w. induction n as [|n IH]; intros p [fs st out]; [done|].
  destruct p as [| | | |[[]|e]]; [| | | |done..];
    cbn [thread_run run_alone leave upload_step fst snd w_fs w_s3 w_out];
    (destruct (cleanup_step _ _ fs) as [[p' fs']|]; cbn [mbind option_bind fst snd]; [|done]);
    apply (IH p' (mkWorld fs' st out)).
Qed.

(** C28. Alone, the steps are the method: six steps of the call
    [upload(k)], with no other call in between, end with the outcome and in
    the world of [upload(k)], on every path: the transfer failed, the
    cleanup failed, or the call returned [True]. *)
Theorem upload_thread_alone self k w :
  thread_run self k 6 (AtTransfer, w)
  = (Returned (upload self [k] w).1, (upload self [k] w).2).
Proof.
  rewrite upload_cons_body, upload_body_eq, thread_run_S. cbn [upload_step].
  rewrite upload_announce_eq. cbn [snd]. rewrite thread_run_S. cbn [upload_step].
  rewrite upload_put_eq. cbn [w_fs w_s3 w_out].
  destruct (upload_file _ _ _ _ _ _) as [[[]|e] st']; [|done].
  change (InCleanup AtRemove) with (leave AtRemove).
  rewrite thread_run_cleanup, run_alone_cleanup_staged. cbn [fst snd w_fs w_s3 w_out].
  by destruct (cleanup_staged _ _) as [[[]|e] fs'].
Qed.

End alone.

(** ** The calls in flight *)

Section pool.
Context {St : Type} `{!ObjectStore St, !ObjectStoreLaws St}.
Implicit Types (self : S3Minio) (w : World St) (k : string) (p : pc) (u : upc).
Implicit Types (pool : list thread) (th : thread) (ks : list string).

(** A schedule that runs is a run of the pool. *)
Lemma pool_exec_rtc self sched c c' :
  pool_exec self sched c = Some c' → rtc (pool_step self) c c'.
Proof.
  revert c. induction sched as [|i sched IH]; intros [pool w] Hx; simplify_eq/=; [done|].
  destruct (pool !! i) as [th|] eqn:Hi; simplify_eq/=.
  destruct (upload_step _ _ _ _) as [[u' w']|] eqn:Hs; simplify_eq/=.
  eapply rtc_l; [by econstructor|eauto].
Qed.

Lemma pool_inv_start self ks w : pool_inv self ks w (calls ks, w).
Proof.
  split_and!; [|done|]; cbn [fst snd].
  - induction ks as [|k ks IH]; [done|]. cbn. by f_equal.
  - intros i th [k [-> _]]%list_lookup_fmap_Some. done.
Qed.

(** Every step of a call keeps the invariant of the pool. *)
Lemma pool_step_inv self ks w0 c c' :
  pool_inv self ks w0 c → pool_step self c c' → pool_inv self ks w0 c'.
Proof.
  intros Hinv Hs. destruct Hs as [i [k u] u' pool w w' Hi Hs].
  destruct Hinv as (Hks & Hfs & Hobj). cbn [fst snd th_key th_pc] in *.
  assert (th_key <$> <[i := Thread k u']> pool = ks) as Hks'.
  { rewrite list_fmap_insert, <-Hks. apply list_insert_id.
    by rewrite list_lookup_fmap, Hi. }
  split; [done|]. cbn [fst snd].
  destruct (upload_step_cases _ _ _ _ _ _ Hs) as [(-> & -> & Hfs' & Hst)|
    [(-> & Hfs' & r & Hup & ->)|(p & p' & -> & -> & Hst & Hc)]].
  - rewrite Hfs', Hst. split; [done|].
    intros j th [(-> & <- & _)|[Hne Hj]]%list_lookup_insert_Some Hp; [done|eauto].
  - rewrite Hfs'. split; [done|]. destruct r as [[]|e].
    + destruct (upload_file_Ret _ _ _ _ _ _ _ Hup) as (data & Hf & Hst).
      intros j th [(-> & <- & _)|[Hne Hj]]%list_lookup_insert_Some Hp.
      * exists data. rewrite Hst, lookup_insert_eq. eauto.
      * destruct (Hobj j th Hj Hp) as (data' & Hf' & Ho).
        exists data'. split; [done|]. rewrite Hst.
        destruct (decide (th_key th = k)) as [Hk|Hk]; [|by rewrite lookup_insert_ne by congruence].
        rewrite Hk in *. rewrite lookup_insert_eq. apply Hfs in Hf. congruence.
    + intros j th [(-> & <- & _)|[Hne Hj]]%list_lookup_insert_Some Hp; [done|].
      rewrite (upload_file_Raise _ _ _ _ _ _ _ _ Hup). eauto.
  - apply cleanup_step_subseteq in Hc. simpl in Hc. rewrite Hst. split.
    + intros f data Hf. apply Hfs. by eapply lookup_weaken.
    + intros j th [(-> & <- & _)|[Hne Hj]]%list_lookup_insert_Some Hp; [|eauto].
      by apply (Hobj j (Thread k (InCleanup p))).
Qed.

Lemma pool_rtc_inv self ks w0 c c' :
  pool_inv self ks w0 c → rtc (pool_step self) c c' → pool_inv self ks w0 c'.
Proof. induction 2; eauto using pool_step_inv. Qed.

(** Every step of a call uses up one of its steps. *)
Lemma upload_step_left self k u w c : upload_step self k u w = Some c → steps_left c.1 < steps_left u.
Proof.
  destruct u as [| |p|r]; cbn [upload_step]; [| |destruct p; cbn [cleanup_step]|done]; intros Hs;
    repeat (simplify_eq/=; try case_match); simpl; lia.
Qed.

Lemma pool_step_left self c c' : pool_step self c c' → pool_left c' < pool_left c.
Proof.
  destruct 1 as [i th u' pool w w' Hi Hs]. unfold pool_left. cbn [fst].
  rewrite list_fmap_insert. eapply sum_list_insert_lt; [by rewrite list_lookup_fmap, Hi|].
  by apply upload_step_left in Hs.
Qed.

Lemma pool_left_le pool w : pool_left (pool, w) ≤ 6 * length pool.
Proof.
  unfold pool_left. cbn [fst]. induction pool as [|[k u] pool IH]; [done|].
  assert (steps_left u ≤ 6) by (destruct u as [| |[]|]; simpl; lia).
  rewrite fmap_cons, length_cons. cbn [sum_list sum_list_with compose th_pc id]. lia.
Qed.

(** Every interleaving ends: a pool of calls of [upload] has no
    infinite run, and no run is longer than six steps for each call,
    whatever the store does and in whatever order the steps are taken. *)
Theorem uploads_terminate self pool w :
  sn (pool_step self) (pool, w) ∧
  ∀ n c, nsteps (pool_step self) n (pool, w) c → n ≤ 6 * length pool.
Proof.
  split; [apply (sn_measure _ pool_left), pool_step_left|].
  intros n c Hn. apply (nsteps_measure _ pool_left (pool_step_left self)) in Hn.
  pose proof (pool_left_le pool w). lia.
Qed.

(** C14. A call past its transfer has stored its object: from calls of
    [upload] for the keys [ks] on a shared world, in whatever order their
    steps are taken, the call for the key [ks !! i] that is in its cleanup
    (where a crash would leave it) or has returned [True] finds under
    that key in the bucket the bytes that were staged for it at the start,
    over any lawful store. *)
Theorem uploads_true_stored self ks w0 pool w i th :
  rtc (pool_step self) (calls ks, w0) (pool, w) →
  pool !! i = Some th → past_transfer (th_pc th) = true →
  ks !! i = Some (th_key th) ∧
  ∃ data, w_fs w0 !! file_direct (th_key th) = Some (File data) ∧
          objects (w_s3 w) !! (s3_bucket_name self, th_key th) = Some data.
Proof.
  intros Hr Hi Hret.
  destruct (pool_rtc_inv self ks w0 _ _ (pool_inv_start self ks w0) Hr) as (Hks & _ & Hobj).
  cbn [fst snd] in *. split; [by rewrite <-Hks, list_lookup_fmap, Hi|].
  by apply (Hobj i th Hi).
Qed.

End pool.

(** ** Two calls in one directory *)

Section shared.
Context {St : Type} `{!ObjectStore St}.
Implicit Types (self : S3Minio) (w : World St) (k : string) (p : pc) (fs : FS).

Lemma pool_exec_cons self i sched pool w th u' w' :
  pool !! i = Some th → upload_step self (th_key th) (th_pc th) w = Some (u', w') →
  pool_exec self (i :: sched) (pool, w)
  = pool_exec self sched (<[i := Thread (th_key th) u']> pool, w').
Proof. intros Hi Hs. cbn [pool_exec fst snd]. rewrite Hi. cbn. by rewrite Hs. Qed.

Lemma upload_step_announce self k w :
  ∃ out, upload_step self k AtTransfer w = Some (AtUpload, mkWorld (w_fs w) (w_s3 w) out).
Proof. cbn [upload_step]. rewrite upload_announce_eq. eauto. Qed.

Lemma upload_step_transfer self k w st' :
  upload_file (s3 self) (w_fs w) (file_direct k) (s3_bucket_name self) k (w_s3 w) = (Ret (), st') →
  ∃ out, upload_step self k AtUpload w = Some (InCleanup AtRemove, mkWorld (w_fs w) st' out).
Proof. intros Hup. cbn [upload_step]. rewrite upload_put_eq, Hup. eauto. Qed.

Lemma upload_step_cleanup self k p fs st out p' fs' :
  cleanup_step (file_direct k) p fs = Some (p', fs') →
  upload_step self k (InCleanup p) (mkWorld fs st out) = Some (leave p', mkWorld fs' st out).
Proof. intros Hc. cbn [upload_step w_fs w_s3 w_out]. by rewrite Hc. Qed.

(** The cleanups of the two files of a directory, call by call in turn:
    both find the directory, both find it empty, the first removes it and
    the second does not find it any more. *)
Lemma cleanup_in_turn f1 f2 fs data1 data2 :
  let d := dirname f1 in
  let fs2 := map_del f2 (map_del f1 fs) in
  fs !! f1 = Some (File data1) → fs !! f2 = Some (File data2) → f1 ≠ f2 →
  dirname f2 = d → fs !! d = Some Dir → children fs2 d = [] →
  cleanup_step f1 AtRemove fs = Some (AtExists, map_del f1 fs) ∧
  cleanup_step f2 AtRemove (map_del f1 fs) = Some (AtExists, fs2) ∧
  (∀ f, dirname f = d → cleanup_step f AtExists fs2 = Some (AtListdir, fs2)) ∧
  (∀ f, dirname f = d → cleanup_step f AtListdir fs2 = Some (AtRmtree, fs2)) ∧
  cleanup_step f1 AtRmtree fs2 = Some (Finished (Ret ()), without_tree d fs2) ∧
  cleanup_step f2 AtRmtree (without_tree d fs2)
  = Some (Finished (Raise (enoent d)), without_tree d fs2).
Proof.
  intros d fs2 Hf1 Hf2 Hne Hd2 Hd Hnil.
  assert (fs2 !! d = Some Dir) as Hd'.
  { unfold fs2. rewrite !lookup_delete_ne; [done|intros <-; congruence..]. }
  split_and!; cbn [cleanup_step].
  - by rewrite (os_remove_File _ _ data1).
  - by rewrite (os_remove_File _ _ data2) by (by rewrite lookup_delete_ne).
  - intros f ->. by rewrite (proj2 (os_path_exists_true _ _)) by eauto.
  - intros f ->. rewrite (proj2 (os_listdir_nil _ _)); [done|].
    split; [done|]. by apply children_nil.
  - by rewrite shutil_rmtree_Dir.
  - rewrite Hd2. unfold shutil_rmtree.
    by rewrite lookup_without_tree, decide_False by (by intros [? _]).
Qed.

(** A call can raise although its object is stored: for two calls
    whose staged files are the only entries of one directory, when the
    steps are taken in turn, both transfers succeed, the first call
    removes the directory and returns [True], and the second call raises
    [ValueError] for the directory it no longer finds, with its object in
    the bucket and its staged file removed. *)
Theorem uploads_shared_directory self k1 k2 w st1 st2 data1 data2 :
  let f1 := file_direct k1 in
  let f2 := file_direct k2 in
  let fs2 := map_del f2 (map_del f1 (w_fs w)) in
  w_fs w !! f1 = Some (File data1) → w_fs w !! f2 = Some (File data2) → k1 ≠ k2 →
  dirname f2 = dirname f1 → w_fs w !! dirname f1 = Some Dir →
  children fs2 (dirname f1) = [] →
  upload_file (s3 self) (w_fs w) f1 (s3_bucket_name self) k1 (w_s3 w) = (Ret (), st1) →
  upload_file (s3 self) (w_fs w) f2 (s3_bucket_name self) k2 st1 = (Ret (), st2) →
  ∃ out,
    pool_exec self in_turn (calls [k1; k2], w)
    = Some ([Thread k1 (Returned (Ret (Some true)));
             Thread k2 (Returned (Raise (upload_exn (enoent (dirname f1)))))],
            mkWorld (without_tree (dirname f1) fs2) st2 out).
Proof.
  intros f1 f2 fs2 Hf1 Hf2 Hk Hd2 Hd Hnil Hup1 Hup2.
  assert (f1 ≠ f2) as Hne by (by intros ?%file_direct_inj).
  destruct (cleanup_in_turn f1 f2 (w_fs w) data1 data2 Hf1 Hf2 Hne Hd2 Hd Hnil)
    as (Hr1 & Hr2 & Hex & Hls & Ht1 & Ht2).
  destruct (upload_step_announce self k1 w) as [o1 Ha1].
  destruct (upload_step_announce self k2 (mkWorld (w_fs w) (w_s3 w) o1)) as [o2 Ha2].
  destruct (upload_step_transfer self k1 (mkWorld (w_fs w) (w_s3 w) o2) st1 Hup1) as [out1 Hs1].
  destruct (upload_step_transfer self k2 (mkWorld (w_fs w) st1 out1) st2 Hup2) as [out2 Hs2].
  exists out2. unfold calls, in_turn. cbn [fmap list_fmap].
  erewrite pool_exec_cons; [|done|exact Ha1].
  erewrite pool_exec_cons; [|done|exact Ha2].
  erewrite pool_exec_cons; [|done|exact Hs1].
  erewrite pool_exec_cons; [|done|exact Hs2].
  do 8 (erewrite pool_exec_cons;
        [|done|apply upload_step_cleanup; first [exact Hr1|exact Hr2|by apply Hex
                 |by apply Hls|exact Ht1|exact Ht2]]; cbn [list_insert insert leave th_key]).
  done.
Qed.

End shared.

(** ** The theorems on the examples *)

(** One call after the other, both return [True]: the first finds the file
    of the second in the directory and leaves it, the second removes it. *)
Example one_by_one_ex :
  (λ c : list thread * World mem_store, (th_pc <$> c.1, w_fs c.2 !! "temp/media/Post"))
    <$> pool_exec demo_self one_by_one (calls ["Post/c.png"; "Post/d.png"], demo_pair)
  = Some ([Returned (Ret (Some true)); Returned (Ret (Some true))], None).
Proof. vm_compute. reflexivity. Qed.

(** In turn, the second call raises; both objects are in the bucket. *)
Example in_turn_ex :
  (th_pc <$> demo_pair_end.1,
   ms_objects (w_s3 demo_pair_end.2) !! ("media", "Post/c.png"),
   ms_objects (w_s3 demo_pair_end.2) !! ("media", "Post/d.png"))
  = ([Returned (Ret (Some true));
      Returned (Raise (Exn ValueError
        "Upload Error: [Errno 2] No such file or directory: 'temp/media/Post'"
        (Some (enoent "temp/media/Post"))))],
     Some "PNG-c", Some "PNG-d").
Proof. vm_compute. reflexivity. Qed.

(** A call that stops after its transfer: its object is stored and its
    file is still staged. *)
Example crashed_ex :
  (λ c : list thread * World mem_store,
     (th_pc <$> c.1, ms_objects (w_s3 c.2) !! ("media", "Post/c.png"),
      w_fs c.2 !! "temp/media/Post/c.png"))
    <$> pool_exec demo_self [0; 0] (calls ["Post/c.png"], demo_pair)
  = Some ([InCleanup AtRemove], Some "PNG-c", Some (File "PNG-c")).
Proof. vm_compute. reflexivity. Qed.

(** Two calls for one key: the first has printed that the file exists
    when the second uploads and removes it, and then raises for the file
    it no longer finds. *)
Example stale_diagnostic_ex :
  (λ c : list thread * World mem_store,
     (th_pc <$> c.1, ms_objects (w_s3 c.2) !! ("media", "Post/c.png"),
      w_out c.2 !! 1))
    <$> pool_exec demo_self [0; 1; 1; 1; 0] (calls ["Post/c.png"; "Post/c.png"], demo_pair)
  = Some ([Returned (Raise (upload_exn (upload_exn (enoent "temp/media/Post/c.png"))));
           InCleanup AtExists],
          Some "PNG-c", Some (printed (file_message demo_self "Post/c.png" true))).
Proof. vm_compute. reflexivity. Qed.

Lemma uploads_true_stored_witness :
  ["Post/c.png"; "Post/d.png"] !! 0 = Some "Post/c.png" ∧
  ∃ data, w_fs demo_pair !! file_direct "Post/c.png" = Some (File data) ∧
          objects (w_s3 demo_pair_end.2) !! ("media", "Post/c.png") = Some data.
Proof.
  apply (uploads_true_stored demo_self ["Post/c.png"; "Post/d.png"] demo_pair
           demo_pair_end.1 demo_pair_end.2 0 (Thread "Post/c.png" (Returned (Ret (Some true)))));
    [|vm_compute; reflexivity|done].
  apply (pool_exec_rtc _ in_turn). vm_compute. reflexivity.
Defined.

Lemma uploads_shared_directory_witness :
  ∃ out,
    pool_exec demo_self in_turn (calls ["Post/c.png"; "Post/d.png"], demo_pair)
    = Some ([Thread "Post/c.png" (Returned (Ret (Some true)));
             Thread "Post/d.png"
               (Returned (Raise (upload_exn (enoent (dirname (file_direct "Post/c.png"))))))],
            mkWorld (without_tree (dirname (file_direct "Post/c.png"))
                       (map_del (file_direct "Post/d.png")
                          (map_del (file_direct "Post/c.png") (w_fs demo_pair))))
              (ms_set_objects {[("media", "Post/c.png") := "PNG-c";
                                ("media", "Post/d.png") := "PNG-d"]} demo_store) out).
Proof.
  apply (uploads_shared_directory demo_self "Post/c.png" "Post/d.png" demo_pair
           (ms_set_objects {[("media", "Post/c.png") := "PNG-c"]} demo_store) _ "PNG-c" "PNG-d");
    [| |done|..]; vm_compute; reflexivity.
Defined.
