(* ===== verification/Serial.v ===== *)
(** * Serial: concurrent calls against the contract

    The contract of [Refinement.v] answers one request at a time.  A run
    of a pool of calls of [upload] is serializable when the answers of the
    calls and the state at the end are those of the contract for the same
    requests, one after the other in some order.  Calls whose staged files
    lie in different directories are serializable, in the order of the
    pool, however their steps interleave ([uploads_serializable]): the
    proof keeps, for every call, what the point it has reached says about
    its key ([thread_ok]), which the steps of the other calls do not
    disturb.  Two calls that share a directory are not: the run of
    [Threads.v] in which the second call raises after its transfer is the
    run of no order ([uploads_shared_not_serializable]). *)

From S2P Require Import Prelude Loops PyStr FileSystem ObjectStore Gateway.
From S2P Require Import Refinement Batch Concurrent Threads.
Import S3Minio Contract.

(** ** Histories *)

(** The request and the answer of a call that is back. *)
Definition outcome (th : thread) : option (request * answer) :=
  match th_pc th with
  | Returned r => a ← upload_answer r; Some (Upload (th_key th), a)
  | _ => None
  end.

(** The requests and answers of a pool whose calls are all back, in the
    order of the pool. *)
Definition history (pool : list thread) : option (list (request * answer)) :=
  mapM outcome pool.

(** Answers and a final state that the contract gives for the requests in
    some order. *)
Definition serializable (s0 : state) (h : list (request * answer)) (s : state) : Prop :=
  ∃ h', h' ≡ₚ h ∧ steps s0 h' s.

(** A key that holds and stages what it did. *)
Definition same_at (s0 s : state) (k : string) : Prop :=
  bucket s k = bucket s0 k ∧ staged s k = staged s0 k.

(** What a call that is back has done to its key: after [True] the bucket
    holds the bytes that were staged and nothing is staged, after an
    exception the key is as it was. *)
Definition settled (s0 s : state) (th : thread) : Prop :=
  match th_pc th with
  | Returned (Ret (Some true)) =>
      ∃ data, staged s0 (th_key th) = Some data ∧ bucket s (th_key th) = Some data ∧
              staged s (th_key th) = None
  | Returned (Raise _) => same_at s0 s (th_key th)
  | _ => False
  end.

(** What the point a call has reached says about the staging area [fs],
    which was [fs0] before any call: after the transfer the file was
    staged, and it is until [os.remove]; the directory is there once it was
    found, and empty once it was listed empty; the cleanup does not
    raise. *)
Definition staging_ok (fs0 fs : FS) (k : string) (u : upc) : Prop :=
  let d := dirname (file_direct k) in
  match u with
  | AtTransfer | AtUpload | Returned (Raise _) => True
  | InCleanup p =>
      ∃ data, staged_bytes fs0 k = Some data ∧
        match p with
        | AtRemove => staged_bytes fs k = Some data
        | AtExists => staged_bytes fs k = None
        | AtListdir => staged_bytes fs k = None ∧ fs !! d = Some Dir
        | AtRmtree => staged_bytes fs k = None ∧ fs !! d = Some Dir ∧ children fs d = []
        | Finished _ => False
        end
  | Returned (Ret (Some true)) => staged_bytes fs k = None
  | Returned (Ret _) => False
  end.

(** What a step of the call for [k] leaves of the staging area: a tree,
    in which entries are only removed, with the files of the other keys
    and the other directories. *)
Definition fs_framed (k : string) (fs fs' : FS) : Prop :=
  fs_wf fs' ∧ fs' ⊆ fs ∧
  (∀ k', k' ≠ k → staged_bytes fs' k' = staged_bytes fs k') ∧
  (∀ d, d ≠ dirname (file_direct k) → fs !! d = Some Dir → fs' !! d = Some Dir).

Section invariant.
Context {St : Type} `{!ObjectStore St}.

(** What the point a call has reached says about its key, from the world
    [w0] to the world [w]: before the transfer and after a failed one the
    key is as it was; after the transfer the bucket holds the bytes that
    were staged. *)
Definition thread_ok (self : S3Minio) (w0 w : World St) (th : thread) : Prop :=
  let k := th_key th in
  let s0 := abs self w0 in
  let s := abs self w in
  staging_ok (w_fs w0) (w_fs w) k (th_pc th) ∧
  if past_transfer (th_pc th)
  then ∃ data, staged s0 k = Some data ∧ bucket s k = Some data
  else same_at s0 s k.

(** What holds of the pool at every point. *)
Definition pool_ok (self : S3Minio) (ks : list string) (w0 : World St)
    (c : list thread * World St) : Prop :=
  th_key <$> c.1 = ks ∧ fs_wf (w_fs c.2) ∧ w_fs c.2 ⊆ w_fs w0 ∧
  (∀ k, k ∉ ks → same_at (abs self w0) (abs self c.2) k) ∧
  (∀ i th, c.1 !! i = Some th → thread_ok self w0 c.2 th).

(** What a step of the call for [k] leaves as it is: the staging area up
    to [fs_framed], and the other keys of the bucket. *)
Definition framed (self : S3Minio) (k : string) (w w' : World St) : Prop :=
  fs_framed k (w_fs w) (w_fs w') ∧
  ∀ k', k' ≠ k → bucket (abs self w') k' = bucket (abs self w) k'.

End invariant.

(** ** Examples

    Two staged files in directories of their own, a call for each, and the
    steps taken in turn. *)

Definition demo_apart : World mem_store :=
  mkWorld {[ "temp" := Dir; "temp/media" := Dir;
             "temp/media/Post" := Dir; "temp/media/User" := Dir;
             "temp/media/Post/c.png" := File "PNG-c";
             "temp/media/User/u.png" := File "PNG-u" ]}
          demo_store [].

Definition demo_apart_end : list thread * World mem_store :=
  default ([], demo_apart)
    (pool_exec demo_self in_turn (calls ["Post/c.png"; "User/u.png"], demo_apart)).

(** ** The staging area, step by step *)

Section staged.
Implicit Types (fs : FS) (k : string) (p : pc) (u : upc).

Lemma staged_bytes_Some fs k data :
  staged_bytes fs k = Some data ↔ fs !! file_direct k = Some (File data).
Proof. unfold staged_bytes. destruct (fs !! _) as [[]|]; naive_solver. Qed.

(** Removing entries stages nothing. *)
Lemma staged_bytes_subseteq_None fs fs' k :
  fs' ⊆ fs → staged_bytes fs k = None → staged_bytes fs' k = None.
Proof.
  intros Hsub Hk. destruct (staged_bytes fs' k) as [data|] eqn:Hk'; [|done].
  apply staged_bytes_Some in Hk'. apply (lookup_weaken _ fs) in Hk'; [|done].
  apply staged_bytes_Some in Hk'. congruence.
Qed.

Lemma staged_bytes_subseteq_Some fs fs' k data :
  fs' ⊆ fs → staged_bytes fs' k = Some data → staged_bytes fs k = Some data.
Proof. rewrite !staged_bytes_Some. intros Hsub Hk. by eapply lookup_weaken. Qed.

(** Removing entries other than the file of a key leaves its bytes
    staged. *)
Lemma staged_bytes_kept fs fs' k :
  fs' ⊆ fs →
  (∀ x, fs !! file_direct k = Some (File x) → fs' !! file_direct k = Some (File x)) →
  staged_bytes fs' k = staged_bytes fs k.
Proof.
  intros Hsub Hkept. destruct (staged_bytes fs k) as [data|] eqn:Hk.
  - apply staged_bytes_Some. apply Hkept. by apply staged_bytes_Some.
  - by eapply staged_bytes_subseteq_None.
Qed.

(** The directory of a staged file that is found is a directory. *)
Lemma staged_parent_dir fs0 fs f data :
  fs_wf fs0 → fs ⊆ fs0 → fs0 !! f = Some (File data) →
  os_path_exists fs (dirname f) = true → fs !! dirname f = Some Dir.
Proof.
  intros Hwf Hsub Hf [n Hn]%os_path_exists_true.
  pose proof (lookup_weaken _ _ _ _ Hn Hsub) as Hn0.
  destruct (Hwf _ _ Hf) as [_ [Hnil|Hd]]; [|congruence].
  rewrite Hnil in Hn0. by rewrite (fs_wf_lookup_nil fs0 Hwf) in Hn0.
Qed.

Lemma fs_framed_refl k fs : fs_wf fs → fs_framed k fs fs.
Proof. done. Qed.

(** After the transfer. *)
Lemma staging_transfer fs0 fs k data :
  fs ⊆ fs0 → staged_bytes fs k = Some data → staging_ok fs0 fs k (InCleanup AtRemove).
Proof. intros Hsub Hk. exists data. eauto using staged_bytes_subseteq_Some. Qed.

(** What a call of the cleanup finds and leaves: the next point, without
    an exception. *)
Lemma staging_next fs0 fs k p p' fs' :
  fs_wf fs0 → fs ⊆ fs0 → staging_ok fs0 fs k (InCleanup p) →
  cleanup_step (file_direct k) p fs = Some (p', fs') →
  staging_ok fs0 fs' k (leave p') ∧ past_transfer (leave p') = true.
Proof.
  intros Hwf0 Hsub (data & Hs0 & Hp) Hc. apply staged_bytes_Some in Hs0.
  destruct p as [| | | |r]; cbn [cleanup_step] in Hc; [| | | |done].
  - apply staged_bytes_Some in Hp. rewrite (os_remove_File _ _ data) in Hc by done.
    simplify_eq/=. split; [|done]. exists data. rewrite staged_bytes_Some. split; [done|].
    unfold staged_bytes. by rewrite lookup_delete_eq.
  - destruct (os_path_exists _ _) eqn:Hex; simplify_eq/=; (split; [|done]); [|done].
    exists data. rewrite staged_bytes_Some. eauto using staged_parent_dir.
  - destruct Hp as [Hp Hd]. unfold os_listdir in Hc. rewrite Hd in Hc.
    destruct (basename <$> children _ _) as [|] eqn:Hl; simplify_eq/=; (split; [|done]); [|done].
    exists data. rewrite staged_bytes_Some. split_and!; [done..|]. by apply fmap_nil_inv in Hl.
  - destruct Hp as (Hp & Hd & Hnil). rewrite shutil_rmtree_Dir in Hc by done.
    simplify_eq/=. split; [|done]. eapply staged_bytes_subseteq_None; [|done].
    apply without_tree_subseteq.
Qed.

(** A call of the cleanup removes the staged file of the call and its
    directory, and nothing else. *)
Lemma staging_framed fs0 fs k p p' fs' :
  fs_wf fs → staging_ok fs0 fs k (InCleanup p) →
  cleanup_step (file_direct k) p fs = Some (p', fs') → fs_framed k fs fs'.
Proof.
  intros Hwf (data & _ & Hp) Hc.
  assert (cleanup_inv (file_direct k) (p, fs)) as Hinv.
  { split; [done|]. simpl. intros ->. apply Hp. }
  destruct (cleanup_step_inv _ _ _ _ Hinv Hc) as [[Hwf' _] Hkept].
  pose proof (cleanup_step_subseteq _ _ _ _ Hc) as Hsub'. simpl in *.
  split_and!; [done..| |intros d; apply (cleanup_step_dirs _ _ _ (p', fs') d Hinv Hc)].
  intros k' Hk. apply staged_bytes_kept; [done|].
  intros x. apply Hkept. by intros ?%file_direct_inj.
Qed.

(** The steps of a call for another key, in another directory, do not
    disturb what a call has found. *)
Lemma staging_frame fs0 fs fs' k k' u :
  fs_framed k fs fs' → k' ≠ k →
  dirname (file_direct k') ≠ dirname (file_direct k) →
  staging_ok fs0 fs k' u → staging_ok fs0 fs' k' u.
Proof.
  intros (_ & Hsub & Hkeys & Hdirs) Hk Hd. unfold staging_ok. rewrite (Hkeys k' Hk).
  destruct u as [| |[| | | |r]|[[[]|]|e]]; try done.
  - intros (data & ? & ? & ?). exists data. eauto.
  - intros (data & ? & ? & ? & ?). exists data. eauto 10 using children_nil_subseteq.
Qed.

(** The cleanup is not stuck before it is over. *)
Lemma staging_progress fs0 fs k p :
  staging_ok fs0 fs k (InCleanup p) → is_Some (cleanup_step (file_direct k) p fs).
Proof.
  intros (data & _ & Hp).
  destruct p as [| | | |r]; [..|done]; (destruct (cleanup_step _ _ _) eqn:Hc; [done|]);
    cbn [cleanup_step] in Hc; repeat case_match; simplify_eq.
Qed.

End staged.

(** ** The effect of a step *)

Section effect.
Context {St : Type} `{!ObjectStore St, !ObjectStoreLaws St}.
Implicit Types (self : S3Minio) (w : World St) (k : string) (p : pc) (u : upc) (th : thread).

(** The transfer: the key of the call, and nothing else. *)
Lemma transfer_effect self w0 k w u' w' :
  fs_wf (w_fs w) → w_fs w ⊆ w_fs w0 → thread_ok self w0 w (Thread k AtUpload) →
  upload_step self k AtUpload w = Some (u', w') →
  thread_ok self w0 w' (Thread k u') ∧ framed self k w w'.
Proof.
  intros Hwf Hsub [_ [Hb Hs]]. cbn [upload_step]. rewrite upload_put_eq.
  destruct (upload_file _ _ _ _ _ _) as [[[]|e] st'] eqn:Hup; intros [= <- <-].
  - destruct (upload_file_Ret _ _ _ _ _ _ _ Hup) as (data & Hf & Hst).
    apply staged_bytes_Some in Hf. simpl in *. split; [split|split; [done|]]; simpl.
    + by eapply staging_transfer.
    + exists data. by rewrite <-Hs, Hst, lookup_insert_eq.
    + intros k' Hk. rewrite Hst, lookup_insert_ne; [done|congruence].
  - pose proof (upload_file_Raise _ _ _ _ _ _ _ _ Hup) as Hst.
    split; [split; [done|]|split; [done|]]; simpl in *.
    + split; simpl; [by rewrite Hst|done].
    + intros k' _. by rewrite Hst.
Qed.

(** A call of the cleanup: the staging area, and nothing of the bucket. *)
Lemma cleanup_effect self w0 k p w u' w' :
  fs_wf (w_fs w0) → fs_wf (w_fs w) → w_fs w ⊆ w_fs w0 →
  thread_ok self w0 w (Thread k (InCleanup p)) →
  upload_step self k (InCleanup p) w = Some (u', w') →
  thread_ok self w0 w' (Thread k u') ∧ framed self k w w'.
Proof.
  intros Hwf0 Hwf Hsub [Hst Hb]. cbn [upload_step].
  destruct (cleanup_step _ _ _) as [[p' fs']|] eqn:Hc; intros [= <- <-].
  destruct (staging_next _ _ _ _ _ _ Hwf0 Hsub Hst Hc) as [Hst' Hpast].
  split; [|split; [by eapply staging_framed|done]].
  split; [done|]. simpl in *. by rewrite Hpast.
Qed.

(** Every step keeps what the call knows of its key, and what the others
    rely on. *)
Lemma upload_step_effect self w0 k u w u' w' :
  fs_wf (w_fs w0) → fs_wf (w_fs w) → w_fs w ⊆ w_fs w0 →
  thread_ok self w0 w (Thread k u) → upload_step self k u w = Some (u', w') →
  thread_ok self w0 w' (Thread k u') ∧ framed self k w w'.
Proof.
  destruct u as [| |p|r]; [|eauto using transfer_effect|eauto using cleanup_effect|done].
  intros _ Hwf _ Hok. cbn [upload_step]. rewrite upload_announce_eq. intros [= <- <-].
  split; [done|]. split; [by apply fs_framed_refl|done].
Qed.

End effect.

(** ** The contract, for calls that are back *)

Section contract.
Implicit Types (s : state) (th : thread) (l : list thread) (k : string).

Lemma same_at_refl s k : same_at s s k.
Proof. done. Qed.

Lemma same_at_trans s0 s1 s2 k : same_at s0 s1 k → same_at s1 s2 k → same_at s0 s2 k.
Proof. unfold same_at. intros [??] [??]. split; congruence. Qed.

(** A key the upload of another key does not touch. *)
Lemma same_at_put s k data k' : k' ≠ k → same_at s (put k data s) k'.
Proof. intros Hk. split; simpl; (rewrite decide_False by done); done. Qed.

Lemma settled_put s0 s k data th :
  th_key th ≠ k → settled s0 s th → settled (put k data s0) s th.
Proof.
  intros Hk. pose proof (same_at_put s0 k data _ Hk) as [Hb Hs].
  unfold settled, same_at. destruct (th_pc th) as [| |p|[[[]|]|e]]; try done.
  - intros (d & ? & ? & ?). exists d. by rewrite Hs.
  - intros [??]. split; congruence.
Qed.

(** Calls for different keys that are back are answers of the contract,
    one after the other in the order of the pool. *)
Lemma steps_of_settled l s0 s :
  NoDup (th_key <$> l) → Forall (settled s0 s) l →
  (∀ k, k ∉ th_key <$> l → same_at s0 s k) →
  ∃ h, history l = Some h ∧ steps s0 h s.
Proof.
  revert s0. induction l as [|[k u] l IH]; intros s0 Hnd Hl Hout.
  { exists []. split; [done|]. apply steps_nil. split; intros k; by apply Hout, not_elem_of_nil. }
  rewrite fmap_cons in Hnd, Hout. cbn [th_key] in Hnd, Hout.
  apply NoDup_cons in Hnd as [Hk Hnd]. apply Forall_cons in Hl as [Hth Hl].
  assert (∀ s1, same_at s1 s k → (∀ k', k' ≠ k → same_at s1 s0 k') →
            Forall (settled s1 s) l → ∃ h, history l = Some h ∧ steps s1 h s) as Hrest.
  { intros s1 Hk1 Hs1 Hl1. apply IH; [done..|]. intros k' Hk'.
    destruct (decide (k' = k)) as [->|Hne]; [done|].
    eapply same_at_trans; [by apply Hs1|]. apply Hout. by apply not_elem_of_cons. }
  unfold settled in Hth. cbn [th_pc th_key] in Hth. destruct u as [| |p|[[[]|]|e]]; try done.
  - destruct Hth as (data & Hs0 & Hb & Hs).
    destruct (Hrest (put k data s0)) as (h & Hh & Hst).
    + split; simpl; (rewrite decide_True by done); done.
    + intros k' Hk'. split; simpl; (rewrite decide_False by done); done.
    + apply Forall_forall. intros th Hin. apply settled_put; [|by eapply Forall_forall].
      intros Heq. apply Hk. rewrite <- Heq. by apply list_elem_of_fmap_2.
    + exists ((Upload k, Done) :: h). unfold history in *. cbn. rewrite Hh. split; [done|].
      eapply steps_cons; [by eapply step_upload|done].
  - destruct (Hrest s0) as (h & Hh & Hst); [done..|].
    exists ((Upload k, failure "Upload Error: " UploadError e) :: h).
    unfold history in *. cbn. rewrite Hh. split; [done|].
    eapply steps_cons; [|done]. unfold failure. by case_match; apply step_failed.
Qed.

(** A request whose answer is not that of an upload that is done leaves
    what is staged. *)
Lemma step_keeps_staged s rq a s' k :
  step s rq a s' → (rq, a) ≠ (Upload k, Done) → staged s' k = staged s k.
Proof.
  destruct 1 as [s k' data s' _ Hp|s k' s' Hp|s k' url s' _ Hp|s k' s' _ Hp|s rq kind s' _ Hp];
    intros Hne; rewrite Hp; simpl; [|done..].
  rewrite decide_False; [done|congruence].
Qed.

Lemma steps_keep_staged s0 h s k :
  steps s0 h s → (Upload k, Done) ∉ h → staged s k = staged s0 k.
Proof.
  induction 1 as [s s' Hp|s rq a s1 h s' Hs _ IH]; intros Hk; [by rewrite Hp|].
  apply not_elem_of_cons in Hk as [Hne Hk]. rewrite IH by done.
  by eapply step_keeps_staged.
Qed.

(** A file that is no longer staged although no upload of it is done is
    the work of no order of the requests. *)
Lemma not_serializable_lost s0 h s k data :
  staged s0 k = Some data → staged s k = None → (Upload k, Done) ∉ h →
  ¬ serializable s0 h s.
Proof.
  intros Hs0 Hs Hk (h' & Hperm & Hst). apply (steps_keep_staged _ _ _ k) in Hst; [congruence|].
  by rewrite Hperm.
Qed.

End contract.

(** ** Calls for keys in different directories *)

Section pool.
Context {St : Type} `{!ObjectStore St, !ObjectStoreLaws St}.
Implicit Types (self : S3Minio) (w : World St) (k : string) (u : upc) (th : thread).

(** The steps of another call do not disturb what a call knows of its
    key. *)
Lemma thread_ok_frame self w0 w w' k k' u :
  framed self k w w' → k' ≠ k →
  dirname (file_direct k') ≠ dirname (file_direct k) →
  thread_ok self w0 w (Thread k' u) → thread_ok self w0 w' (Thread k' u).
Proof.
  intros [Hfs Hb] Hk Hd [Hst Hu]. split; [by eapply staging_frame|].
  destruct Hfs as (_ & _ & Hkeys & _). unfold same_at in *. simpl in *.
  by rewrite (Hb k' Hk), (Hkeys k' Hk).
Qed.

(** Before any step. *)
Lemma pool_ok_start self ks w0 : fs_wf (w_fs w0) → pool_ok self ks w0 (calls ks, w0).
Proof.
  intros Hwf. split_and!; simpl; [|done..|].
  - unfold calls. rewrite <-list_fmap_compose. by induction ks as [|k ks IH]; simpl; f_equal.
  - unfold calls. intros i th [k [-> _]]%list_lookup_fmap_Some. done.
Qed.

Section steps.
Variables (self : S3Minio) (ks : list string) (w0 : World St).
Hypothesis Hwf0 : fs_wf (w_fs w0).
Hypothesis Hks : NoDup (dirname ∘ file_direct <$> ks).

(** Two calls of the pool have different keys in different directories. *)
Lemma keys_apart pool i j th th' :
  th_key <$> pool = ks → pool !! i = Some th → pool !! j = Some th' → i ≠ j →
  th_key th' ≠ th_key th ∧
  dirname (file_direct (th_key th')) ≠ dirname (file_direct (th_key th)).
Proof.
  intros <- Hi Hj Hij.
  assert (dirname (file_direct (th_key th')) ≠ dirname (file_direct (th_key th))) as Hd.
  { intros Heq. apply Hij.
    apply (NoDup_lookup _ i j (dirname (file_direct (th_key th))) Hks);
      rewrite <-list_fmap_compose, list_lookup_fmap; [rewrite Hi|rewrite Hj]; simpl;
      by rewrite ?Heq. }
  split; [|done]. intros Heq. apply Hd. by rewrite Heq.
Qed.

(** A step of the pool keeps what holds of it. *)
Lemma pool_step_ok c c' : pool_ok self ks w0 c → pool_step self c c' → pool_ok self ks w0 c'.
Proof.
  intros (Hkeys & Hwf & Hsub & Hout & Hths) Hstep.
  destruct Hstep as [i [k u] u' pool w w' Hi Hu]. simpl in *.
  destruct (upload_step_effect self w0 k u w u' w' Hwf0 Hwf Hsub (Hths _ _ Hi) Hu)
    as [Hok [(Hwf' & Hsub' & Hothers & Hdirs) Hbucket]].
  assert (k ∈ ks) as Hin.
  { rewrite <-Hkeys. apply (list_elem_of_fmap_2 th_key _ (Thread k u)).
    by apply list_elem_of_lookup_2 with i. }
  split_and!; simpl.
  - rewrite list_fmap_insert. simpl. rewrite list_insert_id; [done|].
    by rewrite list_lookup_fmap, Hi.
  - done.
  - by etrans.
  - intros k' Hk'. eapply same_at_trans; [by apply Hout|].
    assert (k' ≠ k) as Hne by (by intros ->). split; [by apply Hbucket|by apply Hothers].
  - intros j th [(-> & <- & _)|[Hij Hj]]%list_lookup_insert_Some; [done|].
    destruct th as [k' v].
    destruct (keys_apart pool i j _ _ Hkeys Hi Hj Hij) as [Hk Hd]. simpl in *.
    apply (thread_ok_frame self w0 w w' k); [done..|]. by apply (Hths j).
Qed.

Lemma pool_rtc_ok c c' :
  pool_ok self ks w0 c → rtc (pool_step self) c c' → pool_ok self ks w0 c'.
Proof. induction 2; eauto using pool_step_ok. Qed.

End steps.

(** A call that is not back can take a step. *)
Lemma upload_step_progress self fs0 w k u :
  staging_ok fs0 (w_fs w) k u → (∀ r, u ≠ Returned r) → is_Some (upload_step self k u w).
Proof.
  destruct u as [| |p|r]; intros Hok Hu; [| | |by destruct (Hu r)]; cbn [upload_step].
  - done.
  - by destruct (upload_put _ _ _) as [[]].
  - by destruct (staging_progress _ _ _ _ Hok) as [c ->].
Qed.

(** A call that is back has settled its key. *)
Lemma thread_ok_settled self w0 w th :
  thread_ok self w0 w th → (∃ r, th_pc th = Returned r) →
  settled (abs self w0) (abs self w) th.
Proof.
  destruct th as [k u]. intros [Hst Hb] [r [= ->]]. unfold settled. simpl in *.
  destruct r as [[[]|]|]; try done. destruct Hb as (data & ? & ?). by exists data.
Qed.

(** The requests of the history of a pool. *)
Lemma history_requests pool h : history pool = Some h → h.*1 = Upload ∘ th_key <$> pool.
Proof.
  intros Hh%mapM_Some. induction Hh as [|[k u] [rq a] pool h Ho _ IH]; [done|].
  rewrite !fmap_cons, IH. f_equal. unfold outcome in Ho.
  by destruct u; simplify_option_eq.
Qed.

End pool.

(** ** Serializable and not *)

Section serial.
Context {St : Type} `{!ObjectStore St, !ObjectStoreLaws St}.
Implicit Types (self : S3Minio) (w : World St) (k : string) (u : upc) (th : thread).

(** A pool that can take no step has all its calls back. *)
Lemma pool_nf_returned self ks w0 pool w i th :
  pool_ok self ks w0 (pool, w) → nf (pool_step self) (pool, w) → pool !! i = Some th →
  ∃ r, th_pc th = Returned r.
Proof.
  intros (_ & _ & _ & _ & Hths) Hnf Hi. destruct th as [k u].
  destruct u as [| |p|r]; [| | |by eexists];
    (destruct (upload_step_progress self (w_fs w0) w k _ (proj1 (Hths _ _ Hi)))
       as [[u' w'] Hs]; [done|]);
    destruct Hnf; eexists; by eapply (pool_step_thread self i (Thread k _)).
Qed.

(** A pool whose calls are all back can take no step. *)
Lemma returned_nf self pool w :
  Forall (λ th, ∃ r, th_pc th = Returned r) pool → nf (pool_step self) (pool, w).
Proof.
  intros Hall [c Hs]. inversion Hs as [i th u' ? ? w' Hi Hu]; subst.
  destruct (proj1 (Forall_lookup _ _) Hall i th Hi) as [r Hr]. by rewrite Hr in Hu.
Qed.

(** The answer for the exception of the outer handler. *)
Lemma failure_upload_exn e : failure "Upload Error: " UploadError (upload_exn e) = Failed UploadError.
Proof.
  unfold failure, upload_exn. cbn [exn_cls exn_str].
  by rewrite bool_decide_eq_true_2, str_prefix_app by done.
Qed.

(** C13. Calls in directories of their own are serializable: for calls of
    [upload] whose staged files lie in different directories of a
    well-formed staging area, every run in which all calls have come back,
    in whatever order their steps were taken, gives the answers and ends
    in the state that the contract gives for the uploads one after the
    other, in the order of the pool; no call is stuck before it is back. *)
Theorem uploads_serializable self ks w0 pool w :
  fs_wf (w_fs w0) → NoDup (dirname ∘ file_direct <$> ks) →
  rtc (pool_step self) (calls ks, w0) (pool, w) → nf (pool_step self) (pool, w) →
  ∃ h, history pool = Some h ∧ h.*1 = Upload <$> ks ∧
       steps (abs self w0) h (abs self w).
Proof.
  intros Hwf Hks Hr Hnf.
  pose proof (pool_rtc_ok self ks w0 Hwf Hks _ _ (pool_ok_start self ks w0 Hwf) Hr) as Hok.
  pose proof Hok as (Hkeys & _ & _ & Hout & Hths). simpl in *.
  destruct (steps_of_settled pool (abs self w0) (abs self w)) as (h & Hh & Hst).
  - rewrite Hkeys. by eapply NoDup_fmap_1.
  - apply Forall_lookup. intros i th Hi.
    apply thread_ok_settled; eauto using pool_nf_returned.
  - by rewrite Hkeys.
  - exists h. split_and!; [done| |done].
    by rewrite (history_requests _ _ Hh), list_fmap_compose, Hkeys.
Qed.

(** C21. Calls that share a directory are not serializable: for two calls
    whose staged files are the only entries of one directory, the run
    that takes the steps in turn answers the first upload with success
    and the second with an upload error, and ends with the second file no
    longer staged; the contract, which leaves the state as it is when an
    upload fails, gives these answers and this state in no order of the
    two requests. *)
Theorem uploads_shared_not_serializable self k1 k2 w st1 st2 data1 data2 :
  let f1 := file_direct k1 in
  let f2 := file_direct k2 in
  let fs2 := map_del f2 (map_del f1 (w_fs w)) in
  let h := [(Upload k1, Done); (Upload k2, Failed UploadError)] in
  w_fs w !! f1 = Some (File data1) → w_fs w !! f2 = Some (File data2) → k1 ≠ k2 →
  dirname f2 = dirname f1 → w_fs w !! dirname f1 = Some Dir →
  children fs2 (dirname f1) = [] →
  upload_file (s3 self) (w_fs w) f1 (s3_bucket_name self) k1 (w_s3 w) = (Ret (), st1) →
  upload_file (s3 self) (w_fs w) f2 (s3_bucket_name self) k2 st1 = (Ret (), st2) →
  ∃ pool w', pool_exec self in_turn (calls [k1; k2], w) = Some (pool, w') ∧
             history pool = Some h ∧ ¬ serializable (abs self w) h (abs self w').
Proof.
  intros f1 f2 fs2 h Hf1 Hf2 Hk Hd2 Hd Hnil Hup1 Hup2.
  destruct (uploads_shared_directory self k1 k2 w st1 st2 data1 data2) as [out Hx]; [done..|].
  eexists _, _. split; [exact Hx|]. split.
  { unfold history. cbn. by rewrite failure_upload_exn. }
  apply (not_serializable_lost _ _ _ k2 data2).
  - by apply staged_bytes_Some.
  - simpl. apply (staged_bytes_subseteq_None fs2); [apply without_tree_subseteq|].
    unfold staged_bytes, fs2. by rewrite lookup_delete_eq.
  - intros [[=]|[[=]|[]%elem_of_nil]%elem_of_cons]%elem_of_cons. done.
Qed.

End serial.

(** ** The theorems on the examples *)

(** In directories of their own both calls return [True], with the steps
    taken in turn. *)
Example apart_ex :
  (th_pc <$> demo_apart_end.1,
   w_fs demo_apart_end.2 !! "temp/media/Post", w_fs demo_apart_end.2 !! "temp/media/User")
  = ([Returned (Ret (Some true)); Returned (Ret (Some true))], None, None).
Proof. vm_compute. reflexivity. Qed.

Lemma uploads_serializable_witness :
  ∃ h, history demo_apart_end.1 = Some h ∧ h.*1 = Upload <$> ["Post/c.png"; "User/u.png"] ∧
       steps (abs demo_self demo_apart) h (abs demo_self demo_apart_end.2).
Proof.
  apply (uploads_serializable demo_self ["Post/c.png"; "User/u.png"] demo_apart
           demo_apart_end.1 demo_apart_end.2).
  - apply (bool_decide_unpack (fs_wf _)). by vm_compute.
  - apply (bool_decide_unpack _). by vm_compute.
  - apply (pool_exec_rtc _ in_turn). vm_compute. reflexivity.
  - apply returned_nf. vm_compute. repeat constructor; by eexists.
Defined.

Lemma uploads_shared_not_serializable_witness :
  ∃ pool w',
    pool_exec demo_self in_turn (calls ["Post/c.png"; "Post/d.png"], demo_pair) = Some (pool, w') ∧
    history pool = Some [(Upload "Post/c.png", Done); (Upload "Post/d.png", Failed UploadError)] ∧
    ¬ serializable (abs demo_self demo_pair)
        [(Upload "Post/c.png", Done); (Upload "Post/d.png", Failed UploadError)]
        (abs demo_self w').
Proof.
  apply (uploads_shared_not_serializable demo_self "Post/c.png" "Post/d.png" demo_pair
           (ms_set_objects {[("media", "Post/c.png") := "PNG-c"]} demo_store)
           (ms_set_objects {[("media", "Post/c.png") := "PNG-c";
                             ("media", "Post/d.png") := "PNG-d"]} demo_store) "PNG-c" "PNG-d");
    [| |done|..]; vm_compute; reflexivity.
Defined.
