(* ===== verification/Requests.v ===== *)
(** * Requests: uploads, deletions and presigns at once

    The requests of the web application reach the gateway side by side:
    while a call of [upload] is between its transfer and the end of its
    cleanup, other calls of [upload], [delete] and [get_url] run on the
    same store.  A call of [delete] touches what the calls share once, in
    [delete_object], and a call of [get_url] once, in [head_object] (the
    URL is computed locally): each is one step here.  A call of [upload]
    takes the steps of [Threads.v].

    The calls are linearizable against the contract of [Refinement.v]
    when the staged files of the uploads lie in different directories
    ([requests_linearizable]): in the run of every schedule, the requests
    in the order in which they take effect ([job_trace]: the transfer of
    an upload, the one step of a deletion or a presign) are a run of the
    contract.  Between its transfer and [os.remove] an upload has taken
    effect in the bucket and not yet in the staging area: [ghost] is the
    state of the contract at such a point, in which the file of an upload
    that has been transferred counts as removed.  When all calls are
    back, their answers and the state of the world are those of the
    contract for the requests in some order ([requests_serializable]). *)

From S2P Require Import Prelude Loops PyStr FileSystem ObjectStore Gateway.
From S2P Require Import Refinement Concurrent Threads Serial.
Import S3Minio Contract.

(** ** Calls in flight *)

(** A call in flight: an upload at one of its points, a deletion or a
    presign that has not run ([None]) or is back with its result. *)
Inductive job : Type :=
| Uploading (k : string) (u : upc)
| Deleting (k : string) (r : option (res exn (option bool)))
| Presigning (k : string) (r : option (res exn (option string))).

(** The request of the contract a call stands for. *)
Definition request_of (j : job) : request :=
  match j with
  | Uploading k _ => Upload k
  | Deleting k _ => Delete k
  | Presigning k _ => GetPresignedURL k
  end.

(** The call for a request, not started. *)
Definition start (rq : request) : job :=
  match rq with
  | Upload k => Uploading k AtTransfer
  | Delete k => Deleting k None
  | GetPresignedURL k => Presigning k None
  end.

Definition jobs (rqs : list request) : list job := start <$> rqs.

(** The request and the answer of a call that is back. *)
Definition result (j : job) : option (request * answer) :=
  a ← match j with
      | Uploading _ (Returned r) => upload_answer r
      | Deleting _ (Some r) => delete_answer r
      | Presigning _ (Some r) => get_url_answer r
      | _ => None
      end;
  Some (request_of j, a).

(** The requests and answers of a pool whose calls are all back, in the
    order of the pool. *)
Definition results (pool : list job) : option (list (request * answer)) :=
  mapM result pool.

(** The request and the answer of a call that has taken effect: an upload
    from its transfer on, the others when they are back. *)
Definition committed (j : job) : option (request * answer) :=
  match j with
  | Uploading k (InCleanup _) => Some (Upload k, Done)
  | _ => result j
  end.

(** The requests that take effect in a step of a call. *)
Definition effect (j j' : job) : list (request * answer) :=
  match committed j with
  | None => option_list (committed j')
  | Some _ => []
  end.

(** The key of an upload that has been transferred. *)
Definition hidden (j : job) : option string :=
  match j with
  | Uploading k u => if past_transfer u then Some k else None
  | _ => None
  end.

(** The directory an upload cleans up. *)
Definition upload_dir (rq : request) : option string :=
  match rq with
  | Upload k => Some (dirname (file_direct k))
  | _ => None
  end.

Definition job_dir (j : job) : option string := upload_dir (request_of j).

(** The steps a call has left at most. *)
Definition job_left (j : job) : nat :=
  match j with
  | Uploading _ u => steps_left u
  | Deleting _ None | Presigning _ None => 1
  | _ => 0
  end.

(** What the point a call has reached says about the staging area, and
    about its result. *)
Definition job_ok (fs0 fs : FS) (j : job) : Prop :=
  match j with
  | Uploading k u => staging_ok fs0 fs k u
  | Deleting _ (Some r) => is_Some (delete_answer r)
  | _ => True
  end.

(** What a step of a call leaves of the staging area. *)
Definition job_framed (j : job) (fs fs' : FS) : Prop :=
  match j with
  | Uploading k _ => fs_framed k fs fs'
  | _ => fs' = fs
  end.

Section jobs.
Context {St : Type} `{!ObjectStore St}.

(** One step of a call. *)
Definition job_step1 (self : S3Minio) (j : job) (w : World St) : option (job * World St) :=
  match j with
  | Uploading k u => c ← upload_step self k u w; Some (Uploading k c.1, c.2)
  | Deleting k None => let '(r, w') := delete self [k] w in Some (Deleting k (Some r), w')
  | Presigning k None => let '(r, w') := get_url self k w in Some (Presigning k (Some r), w')
  | _ => None
  end.

(** One step of the pool: one of its calls takes a step on the world they
    share. *)
Inductive job_step (self : S3Minio) : relation (list job * World St) :=
| job_step_at i j j' pool w w' :
    pool !! i = Some j → job_step1 self j w = Some (j', w') →
    job_step self (pool, w) (<[i := j']> pool, w').

(** The run a schedule names: the requests in the order in which they
    take effect, and the pool and the world at the end. *)
Fixpoint job_trace (self : S3Minio) (sched : list nat) (c : list job * World St)
    : option (list (request * answer) * (list job * World St)) :=
  match sched with
  | [] => Some ([], c)
  | i :: sched =>
      j ← c.1 !! i;
      c' ← job_step1 self j c.2;
      r ← job_trace self sched (<[i := c'.1]> c.1, c'.2);
      Some (effect j c'.1 ++ r.1, r.2)
  end.

(** The state of the contract at a point of a run: the bucket as it is,
    and the staging area without the files of the uploads that have been
    transferred. *)
Definition ghost (self : S3Minio) (c : list job * World St) : state :=
  mkState (bucket (abs self c.2))
          (λ k, if decide (k ∈ omap hidden c.1) then None else staged_bytes (w_fs c.2) k).

(** The requests that have taken effect, in their order, are a run of the
    contract to the state at this point. *)
Definition linear (self : S3Minio) (s0 : state) (log : list (request * answer))
    (c : list job * World St) : Prop :=
  log ≡ₚ omap committed c.1 ∧ steps s0 log (ghost self c).

(** What holds of the pool at every point, from the world [w0]. *)
Definition jobs_ok (serving : St → Prop) (w0 : World St) (c : list job * World St) : Prop :=
  NoDup (omap job_dir c.1) ∧ fs_wf (w_fs c.2) ∧ w_fs c.2 ⊆ w_fs w0 ∧ serving (w_s3 c.2) ∧
  ∀ i j, c.1 !! i = Some j → job_ok (w_fs w0) (w_fs c.2) j.

Definition jobs_left (c : list job * World St) : nat := sum_list (job_left <$> c.1).

End jobs.

(** ** Examples

    A presign, an upload and a deletion of one key: the presign runs
    after the transfer and the deletion before the cleanup is over. *)

Definition demo_requests : list request :=
  [GetPresignedURL "Post/c.png"; Upload "Post/c.png"; Delete "Post/c.png"].

Definition demo_schedule : list nat := [1; 1; 0; 1; 2; 1; 1; 1].

Definition demo_requests_run : list (request * answer) * (list job * World mem_store) :=
  default ([], ([], demo_apart))
    (job_trace demo_self demo_schedule (jobs demo_requests, demo_apart)).

Definition demo_requests_end : list job * World mem_store := demo_requests_run.2.

(** ** The contract, one request more *)

Section contract.
Implicit Types (s t : state) (k : string) (rq : request) (a : answer)
  (h : list (request * answer)).

Lemma steps_snoc s0 h s rq a s' :
  steps s0 h s → step s rq a s' → steps s0 (h ++ [(rq, a)]) s'.
Proof.
  induction 1 as [s s1 Hp|s rq1 a1 s1 h s2 Hs _ IH]; intros Hstep; simpl.
  - eapply steps_cons; [by rewrite <-Hp|by apply steps_nil].
  - eapply steps_cons; eauto.
Qed.

Lemma serializable_snoc s0 h s rq a s' :
  serializable s0 h s → step s rq a s' → serializable s0 (h ++ [(rq, a)]) s'.
Proof.
  intros (h' & Hp & Hst) Hs. exists (h' ++ [(rq, a)]).
  split; [by rewrite Hp|by eapply steps_snoc].
Qed.

#[export] Instance serializable_proper : Proper ((≡) ==> (≡ₚ) ==> (≡) ==> iff) serializable.
Proof.
  intros s0 t0 H0 h h' Hh s t Hs. unfold serializable.
  by setoid_rewrite Hh; setoid_rewrite H0; setoid_rewrite Hs.
Qed.

(** A deletion and a presign read and write the bucket only. *)
Lemma step_on_bucket s t rq a s' t' :
  step s rq a s' → (∀ k, rq ≠ Upload k) →
  (∀ k, bucket t k = bucket s k) → (∀ k, bucket t' k = bucket s' k) →
  (∀ k, staged t' k = staged t k) →
  step t rq a t'.
Proof.
  intros Hstep Hrq Hb Hb' Hst.
  destruct Hstep as [s k data s' _ _|s k s' Hp|s k url s' Hk Hp|s k s' Hk Hp|s rq kind s' Hk Hp].
  - by destruct (Hrq k).
  - apply step_delete. split; intros k'; [|done]. rewrite Hb', Hp. simpl. by rewrite Hb.
  - apply step_url; [by rewrite Hb|]. split; intros k'; [|done]. by rewrite Hb', Hp, Hb.
  - apply step_absent; [by rewrite Hb|]. split; intros k'; [|done]. by rewrite Hb', Hp, Hb.
  - apply step_failed; [done|]. split; intros k'; [|done]. by rewrite Hb', Hp, Hb.
Qed.

End contract.

(** ** What every step keeps *)

Section local.
Context {St : Type} `{!ObjectStore St, !ObjectStoreLaws St}.
Context (self : S3Minio) (serving : St → Prop) `{!Serving self serving}.
Implicit Types (w : World St) (k : string) (u : upc) (j : job) (pool : list job) (fs : FS).

(** A step is a step of the same request. *)
Lemma job_step1_request j w j' w' :
  job_step1 self j w = Some (j', w') → request_of j' = request_of j.
Proof. destruct j as [k u|k [r|]|k [r|]]; simpl; intros; repeat case_match; by simplify_option_eq. Qed.

(** The step of a call: what it has found, and what it leaves. *)
Lemma job_step1_ok fs0 j w j' w' :
  fs_wf fs0 → fs_wf (w_fs w) → w_fs w ⊆ fs0 → serving (w_s3 w) → job_ok fs0 (w_fs w) j →
  job_step1 self j w = Some (j', w') →
  job_ok fs0 (w_fs w') j' ∧ job_framed j (w_fs w) (w_fs w') ∧ serving (w_s3 w').
Proof.
  intros Hwf0 Hwf Hsub Hsv Hok Hj. destruct j as [k u|k [r|]|k [r|]]; simpl in Hj; try done.
  - destruct (upload_step self k u w) as [[u' w1]|] eqn:Hu; simplify_eq/=.
    destruct (upload_step_cases _ _ _ _ _ _ Hu) as [(-> & -> & Hfs & Hst)|
      [(-> & Hfs & r & Hup & ->)|(p & p' & -> & -> & Hst & Hc)]]; simpl.
    + by rewrite Hfs, Hst.
    + rewrite Hfs. split_and!; [|done|by eapply serving_upload].
      destruct r as [[]|e]; [|done].
      destruct (upload_file_Ret _ _ _ _ _ _ _ Hup) as (data & Hf & _).
      eapply staging_transfer; [done|]. by apply staged_bytes_Some.
    + rewrite Hst. split_and!; [|by eapply staging_framed|done].
      by eapply staging_next.
  - pose proof (delete_ready self serving k w (conj Hwf Hsv)) as [_ Hsv'].
    pose proof (delete_keeps_local self [k] w) as [Hfs _].
    destruct (delete self [k] w) as [r w1] eqn:Hd. simplify_eq/=.
    destruct (delete_refines self k [] w r w' Hd) as (a & Ha & _). by rewrite Ha.
  - pose proof (get_url_pure self k w) as Hw.
    destruct (get_url self k w) as [r w1]. by simplify_eq/=.
Qed.

(** Two uploads of the pool are for different keys in different
    directories. *)
Lemma jobs_apart pool i i' k u k' u' :
  NoDup (omap job_dir pool) →
  pool !! i = Some (Uploading k u) → pool !! i' = Some (Uploading k' u') → i ≠ i' →
  k' ≠ k ∧ dirname (file_direct k') ≠ dirname (file_direct k).
Proof.
  intros Hnd Hi Hi' Hne.
  assert (dirname (file_direct k') ≠ dirname (file_direct k)) as Hd.
  { intros Heq. apply Hne.
    apply (NoDup_omap_lookup job_dir pool i i' _ _ (dirname (file_direct k)) Hnd Hi Hi'); [done|].
    unfold job_dir. simpl. by rewrite Heq. }
  split; [|done]. by intros ->.
Qed.

(** The step of a call does not disturb what another call has found. *)
Lemma job_ok_frame fs0 pool i i' j j2 fs fs' :
  NoDup (omap job_dir pool) → pool !! i = Some j → pool !! i' = Some j2 → i ≠ i' →
  job_framed j fs fs' → job_ok fs0 fs j2 → job_ok fs0 fs' j2.
Proof.
  intros Hnd Hi Hi' Hne Hfr. destruct j as [k u| |]; simpl in Hfr; [|by subst..].
  destruct j2 as [k' u'| |]; [|done..].
  destruct (jobs_apart _ _ _ _ _ _ _ Hnd Hi Hi' Hne) as [Hk Hd].
  by apply staging_frame with k.
Qed.

Lemma job_framed_wf j fs fs' : fs_wf fs → job_framed j fs fs' → fs_wf fs' ∧ fs' ⊆ fs.
Proof. destruct j as [k u| |]; simpl; [by intros _ (? & ? & _)|by intros ? ->..]. Qed.

(** A step of the pool keeps what holds of it. *)
Lemma job_step_ok w0 c c' :
  fs_wf (w_fs w0) → jobs_ok serving w0 c → job_step self c c' → jobs_ok serving w0 c'.
Proof.
  intros Hwf0 (Hnd & Hwf & Hsub & Hsv & Hjobs) Hstep.
  destruct Hstep as [i j j' pool w w' Hi Hj]. simpl in *.
  destruct (job_step1_ok _ _ _ _ _ Hwf0 Hwf Hsub Hsv (Hjobs _ _ Hi) Hj) as (Hok & Hfr & Hsv').
  destruct (job_framed_wf _ _ _ Hwf Hfr) as [Hwf' Hsub'].
  split_and!; simpl; [|done|by etrans|done|].
  - rewrite (omap_insert_same _ _ _ j); [done..|].
    unfold job_dir. by rewrite (job_step1_request _ _ _ _ Hj).
  - intros i' j2 [(-> & <- & _)|[Hne Hi']]%list_lookup_insert_Some; [done|].
    apply (job_ok_frame _ pool i i' j j2 (w_fs w) (w_fs w')); [done..|]. by apply (Hjobs i').
Qed.

Lemma job_rtc_ok w0 c c' :
  fs_wf (w_fs w0) → jobs_ok serving w0 c → rtc (job_step self) c c' → jobs_ok serving w0 c'.
Proof. induction 3; eauto using job_step_ok. Qed.

(** Before any step. *)
Lemma jobs_ok_start rqs w0 :
  fs_wf (w_fs w0) → serving (w_s3 w0) → NoDup (omap upload_dir rqs) →
  jobs_ok serving w0 (jobs rqs, w0).
Proof.
  intros Hwf Hsv Hnd. split_and!; simpl; [|done..|].
  - unfold jobs. erewrite list_omap_ext; [exact Hnd|]. apply Forall2_fmap_l, Forall_Forall2_diag.
    apply Forall_forall. by intros [] _.
  - unfold jobs. by intros i j [[] [-> _]]%list_lookup_fmap_Some.
Qed.

(** A call can take a step, or it is back with an answer of the contract
    and has removed what it staged. *)
Lemma job_step1_progress fs0 w j :
  job_ok fs0 (w_fs w) j →
  is_Some (job_step1 self j w) ∨
  (is_Some (result j) ∧ committed j = result j ∧
   ∀ k, hidden j = Some k → staged_bytes (w_fs w) k = None).
Proof.
  destruct j as [k u|k [r|]|k [r|]]; simpl; intros Hok.
  - destruct u as [| |p|[[[]|]|e]]; try done.
    + by left.
    + left. by destruct (upload_step_progress self fs0 w k AtUpload) as [c ->].
    + left. by destruct (upload_step_progress self fs0 w k (InCleanup p)) as [c ->].
    + right. split_and!; naive_solver.
    + right. split_and!; naive_solver.
  - right. destruct Hok as [a Ha]. unfold result. simpl. rewrite Ha. by split_and!.
  - left. by destruct (delete self [k] w).
  - right. unfold result. simpl. by destruct r as [[]|]; split_and!.
  - left. by destruct (get_url self k w).
Qed.

End local.

(** ** The order in which the calls take effect *)

Section serial.
Context {St : Type} `{!ObjectStore St, !ObjectStoreLaws St}.
Context (self : S3Minio) (serving : St → Prop) `{!Serving self serving}.
Implicit Types (w : World St) (k : string) (u : upc) (j : job) (pool : list job) (fs : FS)
  (s : state).

(** A step that transfers nothing and leaves the bucket leaves the state
    of the contract. *)
Lemma ghost_quiet pool pool' w w' :
  omap hidden pool' = omap hidden pool → objects (w_s3 w') = objects (w_s3 w) →
  (∀ k, k ∉ omap hidden pool → staged_bytes (w_fs w') k = staged_bytes (w_fs w) k) →
  ghost self (pool', w') ≡ ghost self (pool, w).
Proof.
  intros Hh Ho Hs. split; intros k; simpl; [by rewrite Ho|].
  rewrite Hh. case_decide; [done|by apply Hs].
Qed.

(** When all calls are back, the state of the contract is that of the
    world. *)
Lemma ghost_back pool w :
  (∀ j k, j ∈ pool → hidden j = Some k → staged_bytes (w_fs w) k = None) →
  ghost self (pool, w) ≡ abs self w.
Proof.
  intros Hback. split; intros k; simpl; [done|].
  case_decide as Hk; [|done]. apply list_elem_of_omap in Hk as (j & Hj & Hh).
  symmetry. eauto.
Qed.

(** An upload that has not been transferred is not hidden by another. *)
Lemma not_hidden pool i k u :
  NoDup (omap job_dir pool) → pool !! i = Some (Uploading k u) → past_transfer u = false →
  k ∉ omap hidden pool.
Proof.
  intros Hnd Hi Hu (j & [i' Hi']%list_elem_of_lookup & Hh)%list_elem_of_omap.
  destruct j as [k' u'| |]; simplify_eq/=. destruct (past_transfer u') eqn:Hu'; simplify_eq.
  destruct (decide (i = i')) as [->|Hne]; [simplify_eq; congruence|].
  by destruct (jobs_apart _ _ _ _ _ _ _ Hnd Hi Hi' Hne) as [? _].
Qed.

(** The transfer is the upload of the contract. *)
Lemma ghost_sent pool i k w w' data :
  NoDup (omap job_dir pool) → pool !! i = Some (Uploading k AtUpload) →
  w_fs w' = w_fs w → staged_bytes (w_fs w) k = Some data →
  objects (w_s3 w') = <[(s3_bucket_name self, k) := data]> (objects (w_s3 w)) →
  step (ghost self (pool, w)) (Upload k) Done
       (ghost self (<[i := Uploading k (InCleanup AtRemove)]> pool, w')).
Proof.
  intros Hnd Hi Hfs Hk Ho. pose proof (not_hidden _ _ _ _ Hnd Hi eq_refl) as Hnot.
  assert (∀ k', k' ∈ omap hidden (<[i := Uploading k (InCleanup AtRemove)]> pool)
                ↔ k' = k ∨ k' ∈ omap hidden pool) as Hin.
  { intros k'. by rewrite (omap_insert_new hidden _ _ _ _ k Hi), elem_of_cons. }
  apply (step_upload _ _ data); [simpl; by rewrite decide_False|].
  split; intros k'; simpl.
  - rewrite Ho. case_decide; subst; [by rewrite lookup_insert_eq|].
    rewrite lookup_insert_ne; [done|congruence].
  - rewrite Hfs. destruct (decide (k' = k)) as [->|Hne]; [by rewrite decide_True by (apply Hin; by left)|].
    destruct (decide (k' ∈ omap hidden pool)) as [Hh|Hh]; [by rewrite decide_True by (apply Hin; by right)|].
    rewrite decide_False; [done|]. by intros [?|?]%Hin.
Qed.

(** A call takes effect: one request more. *)
Lemma linear_commit s0 log pool i j j' rq a w w' :
  pool !! i = Some j → committed j = None → committed j' = Some (rq, a) →
  step (ghost self (pool, w)) rq a (ghost self (<[i := j']> pool, w')) →
  linear self s0 log (pool, w) → linear self s0 (log ++ effect j j') (<[i := j']> pool, w').
Proof.
  intros Hi Hj Hj' Hstep [Hp Hst]. unfold effect. rewrite Hj, Hj'. split; simpl.
  - rewrite (omap_insert_new committed pool i j j' (rq, a)) by done.
    by rewrite <-Hp, <-Permutation_cons_append.
  - by eapply steps_snoc.
Qed.

(** A deletion and a presign take effect in their one step. *)
Lemma linear_call s0 log pool i j j' rq a w w' :
  pool !! i = Some j → committed j = None → committed j' = Some (rq, a) →
  hidden j = None → hidden j' = None → (∀ k, rq ≠ Upload k) → w_fs w' = w_fs w →
  step (abs self w) rq a (abs self w') →
  linear self s0 log (pool, w) → linear self s0 (log ++ effect j j') (<[i := j']> pool, w').
Proof.
  intros Hi Hj Hj' Hh Hh' Hrq Hfs Hstep. apply linear_commit with rq a; [done..|].
  apply (step_on_bucket _ _ _ _ _ _ Hstep Hrq); [done..|]. intros k. simpl.
  by rewrite (omap_insert_same hidden pool i j), Hfs by congruence.
Qed.

(** A call takes a step after it has taken effect: the same requests
    and the same state. *)
Lemma linear_quiet s0 log pool i j j' w w' :
  pool !! i = Some j → committed j' = committed j → hidden j' = hidden j →
  objects (w_s3 w') = objects (w_s3 w) →
  (∀ k, k ∉ omap hidden pool → staged_bytes (w_fs w') k = staged_bytes (w_fs w) k) →
  linear self s0 log (pool, w) → linear self s0 (log ++ effect j j') (<[i := j']> pool, w').
Proof.
  intros Hi Hc Hh Ho Hs [Hp Hst].
  assert (effect j j' = []) as -> by (unfold effect; rewrite Hc; by destruct (committed j)).
  rewrite app_nil_r. split; simpl; [by rewrite (omap_insert_same committed pool i j)|].
  by rewrite (ghost_quiet pool (<[i := j']> pool) w w') by eauto using omap_insert_same.
Qed.

(** An upload takes effect at its transfer; its first step and its
    cleanup are quiet. *)
Lemma linear_upload s0 log fs0 pool i k u u' w w' :
  fs_wf fs0 → fs_wf (w_fs w) → w_fs w ⊆ fs0 → NoDup (omap job_dir pool) →
  pool !! i = Some (Uploading k u) → staging_ok fs0 (w_fs w) k u →
  upload_step self k u w = Some (u', w') →
  linear self s0 log (pool, w) →
  linear self s0 (log ++ effect (Uploading k u) (Uploading k u'))
    (<[i := Uploading k u']> pool, w').
Proof.
  intros Hwf0 Hwf Hsub Hnd Hi Hok Hu.
  destruct (upload_step_cases _ _ _ _ _ _ Hu) as [(-> & -> & Hfs & Hst)|
    [(-> & Hfs & r & Hup & ->)|(p & p' & -> & -> & Hst & Hc)]].
  - apply linear_quiet; [done..|by rewrite Hst|intros; by rewrite Hfs].
  - destruct r as [[]|e].
    + destruct (upload_file_Ret _ _ _ _ _ _ _ Hup) as (data & Hf & Ho).
      apply linear_commit with (Upload k) Done; [done..|].
      apply ghost_sent with data; [done..|by apply staged_bytes_Some|done].
    + apply linear_commit with (Upload k)
        (failure "Upload Error: " UploadError (caught upload_exn (caught upload_exn e)));
        [done..|].
      rewrite failure_upload. apply step_failed; [by destruct (is_Exception e)|].
      apply ghost_quiet; [by apply (omap_insert_same hidden _ _ (Uploading k AtUpload))
                         |by eapply upload_file_Raise|intros; by rewrite Hfs].
  - destruct (staging_next _ _ _ _ _ _ Hwf0 Hsub Hok Hc) as [_ Hpast].
    destruct (staging_framed _ _ _ _ _ _ Hwf Hok Hc) as (_ & _ & Hkeys & _).
    apply linear_quiet; [done| | |by rewrite Hst|].
    + by destruct p' as [| | | |[[]|]].
    + simpl. by rewrite Hpast.
    + intros k' Hk'. apply Hkeys. intros ->. apply Hk', list_elem_of_omap.
      exists (Uploading k (InCleanup p)). eauto using list_elem_of_lookup_2.
Qed.

(** Every step keeps the requests that have taken effect a run of the
    contract. *)
Lemma job_step1_linear w0 log pool w i j j' w' :
  fs_wf (w_fs w0) → jobs_ok serving w0 (pool, w) → pool !! i = Some j →
  job_step1 self j w = Some (j', w') →
  linear self (abs self w0) log (pool, w) →
  linear self (abs self w0) (log ++ effect j j') (<[i := j']> pool, w').
Proof.
  intros Hwf0 (Hnd & Hwf & Hsub & Hsv & Hjobs) Hi Hj. simpl in *.
  pose proof (Hjobs _ _ Hi) as Hok.
  destruct j as [k u|k [r|]|k [r|]]; simpl in Hj; try done.
  - destruct (upload_step self k u w) as [[u' w1]|] eqn:Hu; simplify_eq/=.
    by apply linear_upload with (w_fs w0).
  - pose proof (delete_keeps_local self [k] w) as [Hfs _].
    destruct (delete self [k] w) as [r w1] eqn:Hd. simplify_eq/=.
    destruct (delete_refines self k [] w r w' Hd) as (a & Ha & Hstep).
    apply linear_call with (Delete k) a; try done.
    unfold committed, result. simpl. by rewrite Ha.
  - pose proof (get_url_pure self k w) as Hw.
    destruct (get_url self k w) as [r w1] eqn:Hg. simplify_eq/=.
    destruct (get_url_refines self serving k _ r _ Hsv Hg) as (a & Ha & Hstep).
    apply linear_call with (GetPresignedURL k) a; try done.
    unfold committed, result. simpl. by rewrite Ha.
Qed.

(** Every run keeps what holds of the pool, and an order of the
    requests that have taken effect. *)
Lemma job_rtc_linear w0 c c' :
  fs_wf (w_fs w0) → rtc (job_step self) c c' →
  jobs_ok serving w0 c ∧ (∃ log, linear self (abs self w0) log c) →
  jobs_ok serving w0 c' ∧ ∃ log, linear self (abs self w0) log c'.
Proof.
  intros Hwf0. induction 1 as [|c c1 c' Hstep _ IH]; [done|]. intros [Hok [log Hlin]].
  apply IH. split; [by eapply job_step_ok|].
  destruct Hstep as [i j j' pool w w' Hi Hj]. eauto using job_step1_linear.
Qed.

(** The run of a schedule, with the order in which the requests took
    effect. *)
Lemma job_trace_linear w0 sched c log0 log c' :
  fs_wf (w_fs w0) → jobs_ok serving w0 c → linear self (abs self w0) log0 c →
  job_trace self sched c = Some (log, c') →
  jobs_ok serving w0 c' ∧ linear self (abs self w0) (log0 ++ log) c'.
Proof.
  intros Hwf0. revert c log0 log.
  induction sched as [|i sched IH]; intros [pool w] log0 log Hok Hlin Hx; simplify_eq/=.
  { by rewrite app_nil_r. }
  destruct (pool !! i) as [j|] eqn:Hi; simplify_eq/=.
  destruct (job_step1 self j w) as [[j' w']|] eqn:Hj; simplify_eq/=.
  destruct (job_trace self sched _) as [[log1 c1]|] eqn:Ht; simplify_eq/=.
  rewrite app_assoc. eapply IH; [|by eapply job_step1_linear|done].
  eapply job_step_ok; [done..|]. by apply (job_step_at self i j).
Qed.

Lemma job_rtc_requests c c' :
  rtc (job_step self) c c' → request_of <$> c'.1 = request_of <$> c.1.
Proof.
  induction 1 as [|c c1 c' Hstep _ IH]; [done|]. rewrite IH.
  destruct Hstep as [i j j' pool w w' Hi Hj]. simpl. rewrite list_fmap_insert.
  rewrite (job_step1_request self _ _ _ _ Hj). apply list_insert_id.
  by rewrite list_lookup_fmap, Hi.
Qed.

(** The requests of the results of a pool. *)
Lemma results_requests pool h : results pool = Some h → h.*1 = request_of <$> pool.
Proof.
  intros Hh%mapM_Some. induction Hh as [|j [rq a] pool h Ho _ IH]; [done|].
  rewrite !fmap_cons, IH. f_equal. unfold result in Ho. by simplify_option_eq.
Qed.

(** Before any step no call has taken effect. *)
Lemma linear_start rqs w0 : linear self (abs self w0) [] (jobs rqs, w0).
Proof.
  assert (∀ f : job → option (request * answer), (∀ rq, f (start rq) = None) →
            omap f (jobs rqs) = []) as Hnil.
  { intros f Hf. induction rqs as [|rq rqs' IH]; [done|]. cbn. by rewrite Hf. }
  split; simpl; [by rewrite Hnil by (by intros [])|]. apply steps_nil.
  apply ghost_back. intros j k [rq [-> _]]%list_elem_of_fmap. by destruct rq.
Qed.

(** The requests of a run are those of the calls. *)
Lemma jobs_requests_of rqs w0 c :
  rtc (job_step self) (jobs rqs, w0) c → request_of <$> c.1 = rqs.
Proof.
  intros Hr. rewrite (job_rtc_requests _ _ Hr). simpl. unfold jobs.
  rewrite <-list_fmap_compose. rewrite <-(list_fmap_id rqs) at 2.
  apply list_fmap_ext. by intros _ [] _.
Qed.

(** When no call can take a step, every call is back with an answer of
    the contract, and the state of the contract is that of the world. *)
Lemma linear_back w0 log pool w :
  jobs_ok serving w0 (pool, w) → nf (job_step self) (pool, w) →
  linear self (abs self w0) log (pool, w) →
  ∃ h, results pool = Some h ∧ h.*1 = request_of <$> pool ∧ log ≡ₚ h ∧
       steps (abs self w0) log (abs self w).
Proof.
  intros (_ & _ & _ & _ & Hjobs) Hnf [Hp Hst]. simpl in *.
  assert (∀ i j, pool !! i = Some j →
            is_Some (result j) ∧ committed j = result j ∧
            ∀ k, hidden j = Some k → staged_bytes (w_fs w) k = None) as Hback.
  { intros i j Hi.
    destruct (job_step1_progress self (w_fs w0) w j (Hjobs i j Hi)) as [[[j' w'] Hj]|]; [|done].
    destruct Hnf. eexists. by eapply job_step_at. }
  assert (results pool = Some (omap committed pool)) as Hres.
  { apply mapM_omap, Forall_lookup. intros i j Hi. by destruct (Hback i j Hi) as (? & ? & _). }
  exists (omap committed pool). split_and!; [done|by apply results_requests|done|].
  rewrite <-(ghost_back pool w); [done|].
  intros j k [i Hi]%list_elem_of_lookup. by apply (Hback i j Hi).
Qed.

End serial.

(** ** Runs *)

Section runs.
Context {St : Type} `{!ObjectStore St, !ObjectStoreLaws St}.
Context (self : S3Minio) (serving : St → Prop) `{!Serving self serving}.
Implicit Types (w : World St) (k : string) (j : job) (pool : list job).

Lemma job_trace_rtc sched c log c' :
  job_trace self sched c = Some (log, c') → rtc (job_step self) c c'.
Proof.
  revert c log. induction sched as [|i sched IH]; intros [pool w] log Hx; simplify_eq/=; [done|].
  destruct (pool !! i) as [j|] eqn:Hi; simplify_eq/=.
  destruct (job_step1 self j w) as [[j' w']|] eqn:Hj; simplify_eq/=.
  destruct (job_trace self sched _) as [[log1 c1]|] eqn:Ht; simplify_eq/=.
  eapply rtc_l; [by apply (job_step_at self i j)|by eapply IH].
Qed.

(** Every step of a call uses up one of its steps. *)
Lemma job_step1_left j w c : job_step1 self j w = Some c → job_left c.1 < job_left j.
Proof.
  destruct j as [k u|k [r|]|k [r|]]; simpl; intros Hj;
    [|repeat case_match; simplify_eq/=; lia..].
  destruct (upload_step self k u w) as [c1|] eqn:Hu; simplify_eq/=.
  by apply upload_step_left in Hu.
Qed.

Lemma job_step_left c c' : job_step self c c' → jobs_left c' < jobs_left c.
Proof.
  destruct 1 as [i j j' pool w w' Hi Hj]. unfold jobs_left. cbn [fst].
  rewrite list_fmap_insert. eapply sum_list_insert_lt; [by rewrite list_lookup_fmap, Hi|].
  by apply job_step1_left in Hj.
Qed.

(** A pool whose calls are all back can take no step. *)
Lemma jobs_back_nf pool w :
  Forall (λ j, is_Some (result j)) pool → nf (job_step self) (pool, w).
Proof.
  intros Hall [c Hs]. inversion Hs as [i j j' ? ? w' Hi Hj]; subst.
  destruct (proj1 (Forall_lookup _ _) Hall i j Hi) as [e He].
  by destruct j as [k [| | |]|k [r|]|k [r|]].
Qed.

(** Every interleaving of the calls ends. *)
Theorem requests_terminate pool w : sn (job_step self) (pool, w).
Proof. apply (sn_measure _ jobs_left), job_step_left. Qed.

(** C11. Concurrent requests are serializable: for calls of [upload],
    [delete] and [get_url] on keys of any kind, in which the staged files
    of the uploads lie in different directories of a well-formed staging
    area, over a store that serves the gateway, every run in which no
    call can take another step has every call back with an answer of the
    contract, and these answers and the final bucket and staging area are
    those the contract gives for the same requests taken one after the
    other in some order. *)
Theorem requests_serializable rqs w0 pool w :
  fs_wf (w_fs w0) → serving (w_s3 w0) → NoDup (omap upload_dir rqs) →
  rtc (job_step self) (jobs rqs, w0) (pool, w) → nf (job_step self) (pool, w) →
  ∃ h, results pool = Some h ∧ h.*1 = rqs ∧ serializable (abs self w0) h (abs self w).
Proof.
  intros Hwf Hsv Hnd Hr Hnf.
  destruct (job_rtc_linear self serving w0 _ _ Hwf Hr) as [Hok [log Hlin]].
  { eauto using jobs_ok_start, linear_start. }
  destruct (linear_back self serving w0 log pool w Hok Hnf Hlin) as (h & Hh & Hrq & Hp & Hst).
  exists h. split_and!; [done| |by exists log].
  rewrite Hrq. apply (jobs_requests_of self rqs _ _ Hr).
Qed.

(** C12. Concurrent requests are linearizable: under the same conditions,
    at every point of the run of every schedule the requests that have
    taken effect so far (an upload at its transfer, a deletion and a
    presign at their one call of the client), in the order in which they
    did, are a run of the contract to the state of that point, in which
    the file of a transferred upload counts as removed; and once no call
    can take a step, they are the answers of all the calls and the state
    is that of the world. *)
Theorem requests_linearizable rqs w0 sched log pool w :
  fs_wf (w_fs w0) → serving (w_s3 w0) → NoDup (omap upload_dir rqs) →
  job_trace self sched (jobs rqs, w0) = Some (log, (pool, w)) →
  steps (abs self w0) log (ghost self (pool, w)) ∧
  (nf (job_step self) (pool, w) →
   ∃ h, results pool = Some h ∧ h.*1 = rqs ∧ log ≡ₚ h ∧ steps (abs self w0) log (abs self w)).
Proof.
  intros Hwf Hsv Hnd Hx.
  destruct (job_trace_linear self serving w0 sched (jobs rqs, w0) [] log (pool, w))
    as [Hok Hlin]; [done|by apply jobs_ok_start|apply linear_start|done|].
  split; [apply Hlin|]. intros Hnf.
  destruct (linear_back self serving w0 log pool w Hok Hnf Hlin) as (h & Hh & Hrq & Hp & Hst).
  exists h. split_and!; [done| |done..].
  rewrite Hrq. apply (jobs_requests_of self rqs _ _ (job_trace_rtc _ _ _ _ Hx)).
Qed.

End runs.

(** ** The theorems on the examples *)

(** The presign that ran after the transfer answers with a URL, and the
    deletion leaves the bucket empty. *)
Example demo_requests_ex :
  (results demo_requests_end.1, ms_objects (w_s3 demo_requests_end.2),
   w_fs demo_requests_end.2 !! "temp/media/Post/c.png")
  = (Some [(GetPresignedURL "Post/c.png",
            Url ("http://minio:9000/media/Post/c.png?X-Amz-Algorithm=AWS4-HMAC-SHA256"
                 +:+ "&X-Amz-Credential=admin&X-Amz-Expires=3600"));
           (Upload "Post/c.png", Done); (Delete "Post/c.png", Done)], ∅, None).
Proof. vm_compute. reflexivity. Qed.

(** The order of the pool is not an order of the contract: the presign
    comes first in the pool, and before the upload the contract has no URL
    for the key. *)
Example not_in_pool_order_ex h s :
  results demo_requests_end.1 = Some h → ¬ steps (abs demo_self demo_apart) h s.
Proof.
  vm_compute results. intros [= <-] Hst.
  inversion Hst as [|? ? ? ? ? ? Hstep _]; subst. inversion Hstep as [| |? ? ? ? Hk _| |]; subst.
  vm_compute in Hk. by destruct Hk.
Qed.

(** The requests in the order in which they took effect: the upload
    first, at its transfer. *)
Example demo_requests_log_ex :
  demo_requests_run.1.*1
  = [Upload "Post/c.png"; GetPresignedURL "Post/c.png"; Delete "Post/c.png"].
Proof. vm_compute. reflexivity. Qed.

Lemma requests_serializable_witness :
  ∃ h, results demo_requests_end.1 = Some h ∧ h.*1 = demo_requests ∧
       serializable (abs demo_self demo_apart) h (abs demo_self demo_requests_end.2).
Proof.
  apply (requests_serializable demo_self (ms_serving demo_self) demo_requests demo_apart
           demo_requests_end.1 demo_requests_end.2).
  - apply (bool_decide_unpack (fs_wf _)). by vm_compute.
  - split_and!; [done|by apply (bool_decide_unpack _)..].
  - apply (bool_decide_unpack _). by vm_compute.
  - apply (job_trace_rtc _ demo_schedule _ demo_requests_run.1). vm_compute. reflexivity.
  - apply jobs_back_nf. vm_compute. repeat constructor; by eexists.
Defined.

Lemma requests_linearizable_witness :
  steps (abs demo_self demo_apart) demo_requests_run.1
    (ghost demo_self (demo_requests_end.1, demo_requests_end.2)) ∧
  (nf (job_step demo_self) (demo_requests_end.1, demo_requests_end.2) →
   ∃ h, results demo_requests_end.1 = Some h ∧ h.*1 = demo_requests ∧
        demo_requests_run.1 ≡ₚ h ∧
        steps (abs demo_self demo_apart) demo_requests_run.1
          (abs demo_self demo_requests_end.2)).
Proof.
  apply (requests_linearizable demo_self (ms_serving demo_self) demo_requests demo_apart
           demo_schedule demo_requests_run.1 demo_requests_end.1 demo_requests_end.2).
  - apply (bool_decide_unpack (fs_wf _)). by vm_compute.
  - split_and!; [done|by apply (bool_decide_unpack _)..].
  - apply (bool_decide_unpack _). by vm_compute.
  - vm_compute. reflexivity.
Defined.
