(* ===== verification/Crash.v ===== *)
(** * Crash: a call of upload that is stopped and made again

    spec.md (section 5) notes that the transfer and the cleanup of
    [upload] are not atomic: a process that stops between the two leaves
    the object in the bucket and the staged file where it was, which is
    acceptable when the caller calls again.  Here the call [upload(k)] of
    [Threads.v] takes its steps ([Run]), and at any point its process can
    be stopped and the call made again from its first line on the world
    the steps have left ([Restart]).

    At every point of every such run the key is in one of three states:
    as it was, stored with its file still staged ([stored], a state that
    no sequence of requests of the contract reaches unless the bucket
    held these bytes before), or uploaded ([Contract.put]); nothing that
    was staged is lost.  While the file is
    staged, the call made again returns [True] and ends in the state of
    the upload, over a store that serves and accepts.  Once [os.remove]
    has run, it does not: every later call raises at the transfer, and
    what was left of the cleanup, the directory, is never removed. *)

From S2P Require Import Prelude Loops PyStr FileSystem ObjectStore Gateway.
From S2P Require Import Refinement Batch Concurrent Threads Serial.
Import S3Minio Contract.

(** ** Stopping a call and making it again *)

(** What happens next to the call: it takes its next step, or its process
    is stopped and the caller calls [upload] for the key again. *)
Inductive event : Type :=
| Run
| Restart.

#[export] Instance event_eq_dec : EqDecision event.
Proof. solve_decision. Defined.

(** The state in which the object of [k] is stored and its file is still
    staged: what a stop between [upload_file] and [os.remove] leaves. *)
Definition stored (k data : string) (s : state) : state :=
  mkState (λ k', if decide (k' = k) then Some data else bucket s k') (staged s).

(** The calls made again in a run. *)
Definition restarts (evs : list event) : nat := length (filter (.= Restart) evs).

(** The steps taken in a run. *)
Definition runs (evs : list event) : nat := length (filter (.= Run) evs).

Section crash.
Context {St : Type} `{!ObjectStore St}.

(** One event: a step of the call on the world, or the call at its first
    line again, on the world as it is. *)
Definition crash_event (self : S3Minio) (k : string) (ev : event) (c : upc * World St)
    : option (upc * World St) :=
  match ev with
  | Run => upload_step self k c.1 c.2
  | Restart => Some (AtTransfer, c.2)
  end.

Inductive crash_step (self : S3Minio) (k : string) : relation (upc * World St) :=
| crash_step_event ev c c' : crash_event self k ev c = Some c' → crash_step self k c c'.

(** The run a list of events names. *)
Fixpoint crash_exec (self : S3Minio) (k : string) (evs : list event) (c : upc * World St)
    : option (upc * World St) :=
  match evs with
  | [] => Some c
  | ev :: evs => c' ← crash_event self k ev c; crash_exec self k evs c'
  end.

(** What holds at every point of a run from the world [w0], in which
    [data] was staged for [k]: the staging area is a tree in which entries
    were only removed; the point of the call says what [staging_ok] says;
    the other keys are as they were; the bucket holds under [k] what it
    held or [data], and it holds [data] once the call is past its transfer
    and whenever the file is no longer staged; and the directory of the
    file is still there after [os.remove]. *)
Definition crash_inv (self : S3Minio) (k data : string) (w0 : World St)
    (c : upc * World St) : Prop :=
  let s0 := abs self w0 in
  let s := abs self c.2 in
  let d := dirname (file_direct k) in
  fs_wf (w_fs c.2) ∧ w_fs c.2 ⊆ w_fs w0 ∧
  staging_ok (w_fs w0) (w_fs c.2) k c.1 ∧
  (∀ k', k' ≠ k → same_at s0 s k') ∧
  (bucket s k = bucket s0 k ∨ bucket s k = Some data) ∧
  (past_transfer c.1 = true ∨ staged s k = None → bucket s k = Some data) ∧
  (c.1 = InCleanup AtExists → w_fs w0 !! d = Some Dir → w_fs c.2 !! d = Some Dir).

(** What holds at every point of a run from a world in which nothing is
    staged for the key: the staging area and the bucket are as they were,
    and the call is before its transfer or has raised there. *)
Definition missing_inv (w1 : World St) (c : upc * World St) : Prop :=
  w_fs c.2 = w_fs w1 ∧ objects (w_s3 c.2) = objects (w_s3 w1) ∧
  match c.1 with
  | AtTransfer | AtUpload => True
  | Returned (Raise e) => ∃ e0, e = caught upload_exn (caught upload_exn e0)
  | _ => False
  end.

End crash.

(** ** Examples

    The file [Post/c.png], alone in its directory: the call stopped after
    the transfer and made again, and the call stopped after [os.remove]
    and made again. *)

Definition stop_after_transfer : list event :=
  [Run; Run; Restart; Run; Run; Run; Run; Run; Run].

Definition stop_after_remove : list event :=
  [Run; Run; Run; Restart; Run; Run].

Definition demo_crash (evs : list event) : upc * World mem_store :=
  default (AtTransfer, demo_world)
    (crash_exec demo_self "Post/c.png" evs (AtTransfer, demo_world)).

(** The call stopped after the transfer and made again, one step on; the
    call stopped after [os.remove]; and the call made again from there. *)
Definition demo_stopped : upc * World mem_store := demo_crash [Run; Run; Restart; Run].

Definition demo_removed : upc * World mem_store := demo_crash [Run; Run; Run].

Definition demo_retried : upc * World mem_store :=
  default (AtTransfer, demo_removed.2)
    (crash_exec demo_self "Post/c.png" [Run; Run] (AtTransfer, demo_removed.2)).

(** ** The states of the contract *)

Section states.
Implicit Types (s : state) (k data : string).

#[export] Instance stored_proper k data : Proper ((≡) ==> (≡)) (stored k data).
Proof. intros s t [Hb Hs]. split; intros k'; simpl; by rewrite ?Hb, ?Hs. Qed.

(** The upload of a key that is stored already with the same bytes. *)
Lemma put_stored k data s : put k data (stored k data s) ≡ put k data s.
Proof. split; intros k'; simpl; by case_decide. Qed.

(** No request stages a file. *)
Lemma steps_not_staged s h s' k : steps s h s' → staged s k = None → staged s' k = None.
Proof.
  induction 1 as [s s' Hp|]; eauto using step_not_staged. by rewrite Hp.
Qed.

(** A request leaves the object of a key whose file stays staged, or
    removes it. *)
Lemma step_staged_bucket s rq a s' k :
  step s rq a s' → is_Some (staged s' k) → bucket s' k = bucket s k ∨ bucket s' k = None.
Proof.
  destruct 1 as [s k' data s' _ Hp|s k' s' Hp|s k' url s' _ Hp|s k' s' _ Hp|s rq kind s' _ Hp];
    rewrite Hp; simpl; [| |by left..].
  - case_decide; [by intros []|by left].
  - intros _. case_decide; [by right|by left].
Qed.

(** In the contract, the bucket gains an object only by an upload, which
    takes the staged file: a key whose file is staged at the end holds
    what it held at first, or nothing. *)
Lemma steps_staged_bucket s h s' k :
  steps s h s' → is_Some (staged s' k) → bucket s' k = bucket s k ∨ bucket s' k = None.
Proof.
  induction 1 as [s s' Hp|s rq a s1 h s' Hs Hst IH]; intros Hk; [left; by rewrite Hp|].
  destruct (IH Hk) as [Hb|Hb]; [|by right]. rewrite Hb. eapply step_staged_bucket; [done|].
  destruct (staged s1 k) eqn:Hs1; [done|].
  rewrite (steps_not_staged _ _ _ k Hst Hs1) in Hk. by destruct Hk.
Qed.

(** The state of a stop between the transfer and [os.remove] is a state of
    the contract only when the bucket held the bytes already. *)
Lemma stored_not_reached s h k data :
  staged s k = Some data → bucket s k ≠ Some data → ¬ steps s h (stored k data s).
Proof.
  intros Hs Hb Hst.
  destruct (steps_staged_bucket _ _ _ k Hst) as [Hk|Hk]; [simpl; by rewrite Hs|..];
    simpl in Hk; rewrite decide_True in Hk by done; congruence.
Qed.

End states.

(** ** Runs *)

Section runs.
Context {St : Type} `{!ObjectStore St}.
Implicit Types (self : S3Minio) (w : World St) (k : string) (u : upc) (c : upc * World St).

Lemma crash_exec_rtc self k evs c c' :
  crash_exec self k evs c = Some c' → rtc (crash_step self k) c c'.
Proof.
  revert c. induction evs as [|ev evs IH]; intros c Hc; simplify_option_eq; [done|].
  eapply rtc_l; [by econstructor|]. by apply IH.
Qed.

Lemma crash_exec_app self k evs1 evs2 c :
  crash_exec self k (evs1 ++ evs2) c = crash_exec self k evs1 c ≫= crash_exec self k evs2.
Proof.
  revert c. induction evs1 as [|ev evs1 IH]; intros c; [done|]. simpl.
  destruct (crash_event _ _ _ _) as [c'|]; [apply IH|done].
Qed.

(** An invariant of the events is an invariant of the runs. *)
Lemma crash_rtc_ind (P : upc * World St → Prop) self k c c' :
  (∀ ev c1 c2, P c1 → crash_event self k ev c1 = Some c2 → P c2) →
  P c → rtc (crash_step self k) c c' → P c'.
Proof.
  intros Hev Hc Hrtc. induction Hrtc as [|c1 c2 c3 [ev ? ? Hstep] _ IH]; eauto.
Qed.

(** ** The length of a run *)

(** A run takes at most six steps between two calls. *)
Lemma crash_exec_runs self k evs c c' :
  crash_exec self k evs c = Some c' →
  runs evs + steps_left c'.1 ≤ steps_left c.1 + 6 * restarts evs.
Proof.
  unfold runs, restarts. revert c.
  induction evs as [|ev evs IH]; intros c Hc; simpl in Hc; [simplify_eq/=; lia|].
  destruct (crash_event self k ev c) as [c1|] eqn:Hev; [|done]. apply IH in Hc.
  destruct ev; simpl in Hev.
  - apply upload_step_left in Hev.
    rewrite filter_cons_True, (filter_cons_False _ Run) by done. simpl. lia.
  - injection Hev as <-. rewrite filter_cons_False, (filter_cons_True _ Restart) by done.
    assert (steps_left c.1 ≤ 6) by (destruct c as [[| |[]|] ?]; simpl; lia).
    simpl in *. lia.
Qed.

End runs.

(** ** Nothing that was staged is lost *)

Section invariant.
Context {St : Type} `{!ObjectStore St, !ObjectStoreLaws St}.
Implicit Types (w : World St) (u : upc) (p : pc) (c : upc * World St).

Section steps.
Variables (self : S3Minio) (k data : string) (w0 : World St).
Hypothesis Hwf0 : fs_wf (w_fs w0).
Hypothesis Hk0 : staged_bytes (w_fs w0) k = Some data.

Lemma crash_inv_start : crash_inv self k data w0 (AtTransfer, w0).
Proof.
  unfold crash_inv. simpl. split_and!; try done; [by left|]. intros [|]; [done|congruence].
Qed.

(** The bytes staged for the key at any point are those staged at first. *)
Lemma crash_staged fs x : fs ⊆ w_fs w0 → staged_bytes fs k = Some x → x = data.
Proof. intros Hsub Hx. apply (staged_bytes_subseteq_Some _ _ _ _ Hsub) in Hx. congruence. Qed.

(** An event that leaves the staging area and the bucket, and the call
    before its transfer: the first step, a transfer that raised, the call
    made again. *)
Lemma crash_inv_quiet u w u' w' :
  crash_inv self k data w0 (u, w) → w_fs w' = w_fs w →
  objects (w_s3 w') = objects (w_s3 w) → past_transfer u' = false →
  crash_inv self k data w0 (u', w').
Proof.
  intros (Hwf & Hsub & _ & Hothers & Hb & Hdata & _) Hfs Hobj Hu'.
  unfold crash_inv, same_at in *. simpl in *. rewrite Hfs, Hobj.
  split_and!; [done|done| |done|done| |by intros ->].
  - by destruct u' as [| |p|[[[]|]|e]].
  - intros [|Hnone]; [congruence|]. by apply Hdata; right.
Qed.

(** The transfer. *)
Lemma crash_inv_transfer w w' :
  crash_inv self k data w0 (AtUpload, w) → w_fs w' = w_fs w →
  upload_file (s3 self) (w_fs w) (file_direct k) (s3_bucket_name self) k (w_s3 w)
  = (Ret (), w_s3 w') →
  crash_inv self k data w0 (InCleanup AtRemove, w').
Proof.
  intros (Hwf & Hsub & _ & Hothers & _) Hfs Hup.
  destruct (upload_file_Ret _ _ _ _ _ _ _ Hup) as (x & Hf & Hobj).
  apply staged_bytes_Some in Hf. pose proof (crash_staged _ _ Hsub Hf) as ->.
  unfold crash_inv, same_at in *. simpl in *. rewrite Hfs, Hobj, lookup_insert_eq.
  split_and!; [done|done| | |by right|done|done].
  - by apply (staging_transfer _ _ _ data).
  - intros k' Hk'. rewrite lookup_insert_ne by congruence. by apply Hothers.
Qed.

(** The directory of a staged file is there after [os.remove]. *)
Lemma crash_dir_kept fs p p' fs' :
  fs_wf fs → cleanup_step (file_direct k) p fs = Some (p', fs') →
  staging_ok (w_fs w0) fs k (InCleanup p) → leave p' = InCleanup AtExists →
  w_fs w0 !! dirname (file_direct k) = Some Dir → fs' !! dirname (file_direct k) = Some Dir.
Proof.
  intros Hwf Hc (x & _ & Hp) Hl Hd0. destruct p' as [| | | |[[]|e]]; simplify_eq/=.
  destruct p as [| | | |r]; cbn [cleanup_step] in Hc; [|repeat case_match; simplify_eq..].
  apply staged_bytes_Some in Hp. rewrite (os_remove_File _ _ x) in Hc by done. simplify_eq.
  destruct (Hwf _ _ Hp) as [_ [Hnil|Hd]].
  - rewrite Hnil in Hd0. by rewrite (fs_wf_lookup_nil _ Hwf0) in Hd0.
  - rewrite lookup_delete_ne; [done|congruence].
Qed.

(** A call of the cleanup. *)
Lemma crash_inv_cleanup p p' w w' :
  crash_inv self k data w0 (InCleanup p, w) → w_s3 w' = w_s3 w →
  cleanup_step (file_direct k) p (w_fs w) = Some (p', w_fs w') →
  crash_inv self k data w0 (leave p', w').
Proof.
  intros (Hwf & Hsub & Hst & Hothers & _ & Hdata & _) Hs3 Hc.
  destruct (staging_next _ _ _ _ _ _ Hwf0 Hsub Hst Hc) as [Hst' Hpast].
  destruct (staging_framed _ _ _ _ _ _ Hwf Hst Hc) as (Hwf' & Hsub' & Hkeys & _).
  assert (objects (w_s3 w) !! (s3_bucket_name self, k) = Some data) as Hb.
  { apply Hdata. by left. }
  unfold crash_inv, same_at in *. simpl in *. rewrite Hs3.
  split_and!; [done|by etrans|done| |by right|done|exact (crash_dir_kept _ _ _ _ Hwf Hc Hst)].
  intros k' Hk'. rewrite (Hkeys k' Hk'). by apply Hothers.
Qed.

(** Every event keeps the invariant. *)
Lemma crash_event_inv ev c c' :
  crash_inv self k data w0 c → crash_event self k ev c = Some c' →
  crash_inv self k data w0 c'.
Proof.
  destruct c as [u w], c' as [u' w'], ev; simpl; intros Hinv Hev;
    [|simplify_eq; by eapply crash_inv_quiet].
  destruct (upload_step_cases _ _ _ _ _ _ Hev) as
    [(-> & -> & Hfs & Hs3)|[(-> & Hfs & r & Hup & ->)|(p & p' & -> & -> & Hs3 & Hc)]].
  - eapply crash_inv_quiet; [done|done|by rewrite Hs3|done].
  - destruct r as [[]|e]; [by eapply crash_inv_transfer|].
    eapply crash_inv_quiet; [done|done|by eapply upload_file_Raise|done].
  - by eapply crash_inv_cleanup.
Qed.

Lemma crash_rtc_inv c :
  rtc (crash_step self k) (AtTransfer, w0) c → crash_inv self k data w0 c.
Proof.
  apply (crash_rtc_ind (crash_inv self k data w0)); [|apply crash_inv_start].
  intros ev c1 c2. apply crash_event_inv.
Qed.

(** The three states of the key. *)
Lemma crash_inv_states c :
  crash_inv self k data w0 c →
  match staged_bytes (w_fs c.2) k with
  | Some _ => abs self c.2 ≡ abs self w0 ∨ abs self c.2 ≡ stored k data (abs self w0)
  | None => abs self c.2 ≡ put k data (abs self w0)
  end.
Proof.
  intros (_ & Hsub & _ & Hothers & Hb & Hdata & _). unfold same_at in *. simpl in *.
  destruct (staged_bytes (w_fs c.2) k) as [x|] eqn:Hx.
  - pose proof (crash_staged _ _ Hsub Hx) as ->.
    destruct Hb as [Hb|Hb]; [left|right]; (split; intros k'; simpl);
      (destruct (decide (k' = k)) as [->|Hk']; [congruence|by apply Hothers]).
  - split; intros k'; simpl; (destruct (decide (k' = k)) as [->|Hk']; [|by apply Hothers]);
      [|done]. apply Hdata. by right.
Qed.

End steps.
End invariant.

(** ** A call for a file that is not staged *)

Section missing.
Context {St : Type} `{!ObjectStore St, !ObjectStoreLaws St}.
Implicit Types (self : S3Minio) (w : World St) (k : string) (u : upc) (c : upc * World St).

Lemma missing_event_inv self k w1 ev c c' :
  staged_bytes (w_fs w1) k = None →
  missing_inv w1 c → crash_event self k ev c = Some c' → missing_inv w1 c'.
Proof.
  intros Hk (Hfs & Hobj & Hu) Hev.
  destruct c as [u w], c' as [u' w'], ev; simpl in *; [|by simplify_eq].
  destruct (upload_step_cases _ _ _ _ _ _ Hev) as
    [(-> & -> & Hfs' & Hs3)|[(-> & Hfs' & r & Hup & ->)|(p & p' & -> & -> & Hs3 & Hc)]];
    [| |done].
  - unfold missing_inv. simpl. by rewrite Hfs', Hs3.
  - destruct r as [[]|e].
    + destruct (upload_file_Ret _ _ _ _ _ _ _ Hup) as (x & Hf & _).
      rewrite Hfs in Hf. apply staged_bytes_Some in Hf. congruence.
    + unfold missing_inv. simpl. rewrite Hfs', (upload_file_Raise _ _ _ _ _ _ _ _ Hup). eauto.
Qed.

(** However often the call is made, it changes nothing and does not
    return. *)
Lemma crash_rtc_missing self k w1 c :
  staged_bytes (w_fs w1) k = None →
  rtc (crash_step self k) (AtTransfer, w1) c → missing_inv w1 c.
Proof.
  intros Hk. apply (crash_rtc_ind (missing_inv w1)); [|done].
  intros ev c1 c2. by apply missing_event_inv.
Qed.

(** What a call that does not find its file answers. *)
Lemma missing_inv_answer w1 r w :
  missing_inv w1 (Returned r, w) → ∃ kind, upload_answer r = Some (Failed kind).
Proof.
  intros (_ & _ & Hr). destruct r as [|e]; [done|]. destruct Hr as [e0 ->].
  eexists. cbn [upload_answer]. by rewrite failure_upload.
Qed.

End missing.

(** ** The theorems *)

Section theorems.
Context {St : Type} `{!ObjectStore St, !ObjectStoreLaws St}.
Implicit Types (self : S3Minio) (w : World St) (k data : string) (u : upc) (p : pc).

(** C15. Nothing staged is lost by stopping and calling again: at every
    point of every run of [upload(k)] in which the process is stopped and
    the call made again, any number of times, the state is the one before
    the call, or the one in which the object is stored with the bytes that
    were staged and the file is still staged, or the one after the upload
    of the contract; the bytes are staged or stored; the other keys are as
    they were; and a call that has returned has returned [True] in the
    state after the upload. *)
Theorem crash_states self k data w0 u w :
  fs_wf (w_fs w0) → staged_bytes (w_fs w0) k = Some data →
  rtc (crash_step self k) (AtTransfer, w0) (u, w) →
  (abs self w ≡ abs self w0 ∨ abs self w ≡ stored k data (abs self w0) ∨
   abs self w ≡ put k data (abs self w0)) ∧
  (staged_bytes (w_fs w) k = Some data ∨ bucket (abs self w) k = Some data) ∧
  (∀ r, u = Returned (Ret r) → r = Some true ∧ abs self w ≡ put k data (abs self w0)).
Proof.
  intros Hwf0 Hk0 Hrun. pose proof (crash_rtc_inv _ _ data _ Hwf0 Hk0 _ Hrun) as Hinv.
  pose proof (crash_inv_states _ _ _ _ Hk0 _ Hinv) as Hst.
  destruct Hinv as (_ & Hsub & Hok & _ & _ & Hdata & _). simpl in *.
  destruct (staged_bytes (w_fs w) k) as [x|] eqn:Hx.
  - pose proof (crash_staged _ _ _ Hk0 _ _ Hsub Hx) as ->.
    split_and!; [tauto|by left|]. by intros [[]|] ->; simpl in Hok; simplify_eq.
  - split_and!; [tauto|right; apply Hdata; by right|]. by intros [[]|] ->.
Qed.

(** C22. A stop after [os.remove] is never made good: when the process is
    stopped in the cleanup after the staged file has been removed, the
    object is stored and the state is the one after the upload; but every
    call made again, any number of times, finds no file to transfer and
    raises, the staging area stays as the stop left it, and the directory
    of the file, which the call removes when it is left empty, stays. *)
Theorem crash_in_cleanup_stuck self k data w0 p w1 u w :
  fs_wf (w_fs w0) → staged_bytes (w_fs w0) k = Some data →
  w_fs w0 !! dirname (file_direct k) = Some Dir →
  rtc (crash_step self k) (AtTransfer, w0) (InCleanup p, w1) → p ≠ AtRemove →
  rtc (crash_step self k) (AtTransfer, w1) (u, w) →
  abs self w ≡ put k data (abs self w0) ∧
  w_fs w = w_fs w1 ∧ w_fs w !! dirname (file_direct k) = Some Dir ∧
  ∀ r, u = Returned r → ∃ kind, upload_answer r = Some (Failed kind).
Proof.
  intros Hwf0 Hk0 Hd0 Hrun1 Hp Hrun.
  pose proof (crash_rtc_inv _ _ data _ Hwf0 Hk0 _ Hrun1) as Hinv.
  pose proof (crash_inv_states _ _ _ _ Hk0 _ Hinv) as Hst.
  destruct Hinv as (_ & _ & (x & _ & Hok) & _ & _ & _ & Hdir). simpl in *.
  assert (staged_bytes (w_fs w1) k = None ∧ w_fs w1 !! dirname (file_direct k) = Some Dir)
    as [Hk1 Hd1].
  { destruct p as [| | | |r]; [done|split; [done|by apply Hdir]|done| |done].
    by destruct Hok as (? & ? & _). }
  rewrite Hk1 in Hst. pose proof (crash_rtc_missing _ _ _ _ Hk1 Hrun) as Hm.
  destruct (Hm) as (Hfs & Hobj & _). simpl in *. split_and!; [|done|by rewrite Hfs|].
  - by rewrite <-Hst; apply abs_equiv.
  - intros r ->. by eapply missing_inv_answer.
Qed.

(** The transfer and the cleanup are not one step of the contract: a
    process stopped after two steps of [upload(k)], between a transfer the
    store accepts and [os.remove], leaves the object stored and the file
    staged, and unless the bucket held these bytes under the key before,
    no sequence of requests of the contract leads from the state before
    the call to this state. *)
Theorem crash_between_outside_contract self k data w0 st' :
  staged_bytes (w_fs w0) k = Some data → bucket (abs self w0) k ≠ Some data →
  upload_file (s3 self) (w_fs w0) (file_direct k) (s3_bucket_name self) k (w_s3 w0)
  = (Ret (), st') →
  ∃ w1, crash_exec self k [Run; Run] (AtTransfer, w0) = Some (InCleanup AtRemove, w1) ∧
        abs self w1 ≡ stored k data (abs self w0) ∧
        ∀ h, ¬ steps (abs self w0) h (abs self w1).
Proof.
  intros Hk0 Hb Hup. destruct (upload_step_announce self k w0) as [out Ha].
  destruct (upload_step_transfer self k (mkWorld (w_fs w0) (w_s3 w0) out) st' Hup) as [out' Ht].
  destruct (upload_file_Ret _ _ _ _ _ _ _ Hup) as (x & Hf & Hobj).
  apply staged_bytes_Some in Hf. assert (x = data) as -> by congruence.
  assert (abs self (mkWorld (w_fs w0) st' out') ≡ stored k data (abs self w0)) as Hst.
  { split; intros k'; simpl; [|done]. rewrite Hobj. case_decide; subst.
    - by rewrite lookup_insert_eq.
    - rewrite lookup_insert_ne; [done|congruence]. }
  eexists. split_and!; [|done|].
  - cbn [crash_exec crash_event fst snd]. rewrite Ha.
    cbn [mbind option_bind crash_event fst snd]. by rewrite Ht.
  - intros h. rewrite Hst. by apply stored_not_reached.
Qed.

Section retry.
Context (self : S3Minio) (serving : St → Prop).
Context `{!Serving self serving} `{!Accepting self serving}.

(** The store serves at every point of a run. *)
Lemma crash_rtc_serving k c c' :
  serving (w_s3 c.2) → rtc (crash_step self k) c c' → serving (w_s3 c'.2).
Proof.
  intros Hs Hrun. apply (crash_rtc_ind (λ c, serving (w_s3 c.2)) self k c c'); [|done..].
  clear c c' Hs Hrun. intros [] [u w] [u' w'] Hs Hev; simpl in *; [|by simplify_eq].
  destruct (upload_step_cases _ _ _ _ _ _ Hev) as
    [(_ & _ & _ & Hs3)|[(_ & _ & r & Hup & _)|(p & p' & _ & _ & Hs3 & _)]];
    rewrite ?Hs3; [done| |done]. by eapply serving_upload.
Qed.

(** C17. Calling again completes the upload: over a store that serves and
    accepts, after any run of [upload(k)] with stops and calls made
    again, as long as the file is still staged the call [upload(k)]
    returns [True], and it ends in the state after the upload of the
    contract from the state before the first call, with the file no longer
    staged: what the stopped calls have stored is stored once. *)
Theorem crash_retry_completes k data w0 u w :
  fs_wf (w_fs w0) → serving (w_s3 w0) → staged_bytes (w_fs w0) k = Some data →
  rtc (crash_step self k) (AtTransfer, w0) (u, w) →
  staged_bytes (w_fs w) k = Some data →
  ∃ w', upload self [k] w = (Ret (Some true), w') ∧
        abs self w' ≡ put k data (abs self w0) ∧ staged_bytes (w_fs w') k = None.
Proof.
  intros Hwf0 Hs0 Hk0 Hrun Hx.
  pose proof (crash_rtc_serving k (AtTransfer, w0) (u, w) Hs0 Hrun) as Hs.
  pose proof (crash_rtc_inv _ _ data _ Hwf0 Hk0 _ Hrun) as Hinv.
  pose proof (crash_inv_states _ _ _ _ Hk0 _ Hinv) as Hst.
  destruct Hinv as (Hwf & _). simpl in *. rewrite Hx in Hst.
  destruct (upload_accepted self serving k w data (conj Hwf Hs) Hx) as (w' & Hup & Hput & Hnone).
  exists w'. split_and!; [done| |done]. rewrite Hput.
  destruct Hst as [->| ->]; [done|apply put_stored].
Qed.

End retry.
End theorems.

(** ** Examples and the theorems at the demonstration world *)

(** Stopped after the transfer and made again, the call returns [True]:
    the object is stored, the file and its directory are removed. *)
Example stop_after_transfer_ex :
  (λ c : upc * World mem_store,
     (c.1, ms_objects (w_s3 c.2) !! ("media", "Post/c.png"),
      w_fs c.2 !! "temp/media/Post/c.png", w_fs c.2 !! "temp/media/Post"))
    (demo_crash stop_after_transfer)
  = (Returned (Ret (Some true)), Some "PNG-c", None, None).
Proof. vm_compute. reflexivity. Qed.

(** Stopped after [os.remove] and made again, the call raises although the
    object is stored, and the empty directory stays. *)
Example stop_after_remove_ex :
  (λ c : upc * World mem_store,
     (c.1, ms_objects (w_s3 c.2) !! ("media", "Post/c.png"),
      w_fs c.2 !! "temp/media/Post/c.png", w_fs c.2 !! "temp/media/Post",
      children (w_fs c.2) "temp/media/Post"))
    (demo_crash stop_after_remove)
  = (Returned (Raise (upload_exn (upload_exn (enoent "temp/media/Post/c.png")))),
     Some "PNG-c", None, Some Dir, []).
Proof. vm_compute. reflexivity. Qed.

(** A run with one call made again has at most twelve steps. *)
Example stop_after_transfer_runs :
  runs stop_after_transfer = 8 ∧ restarts stop_after_transfer = 1.
Proof. done. Qed.

Lemma crash_states_witness :
  (abs demo_self demo_stopped.2 ≡ abs demo_self demo_world ∨
   abs demo_self demo_stopped.2 ≡ stored "Post/c.png" "PNG-c" (abs demo_self demo_world) ∨
   abs demo_self demo_stopped.2 ≡ put "Post/c.png" "PNG-c" (abs demo_self demo_world)) ∧
  (staged_bytes (w_fs demo_stopped.2) "Post/c.png" = Some "PNG-c" ∨
   bucket (abs demo_self demo_stopped.2) "Post/c.png" = Some "PNG-c") ∧
  (∀ r, demo_stopped.1 = Returned (Ret r) →
     r = Some true ∧
     abs demo_self demo_stopped.2 ≡ put "Post/c.png" "PNG-c" (abs demo_self demo_world)).
Proof.
  apply (crash_states demo_self "Post/c.png" "PNG-c" demo_world demo_stopped.1 demo_stopped.2);
    [apply demo_fs_wf|vm_compute; reflexivity|].
  apply (crash_exec_rtc _ _ [Run; Run; Restart; Run]). vm_compute. reflexivity.
Defined.

Lemma crash_in_cleanup_stuck_witness :
  abs demo_self demo_retried.2 ≡ put "Post/c.png" "PNG-c" (abs demo_self demo_world) ∧
  w_fs demo_retried.2 = w_fs demo_removed.2 ∧
  w_fs demo_retried.2 !! dirname (file_direct "Post/c.png") = Some Dir ∧
  ∀ r, demo_retried.1 = Returned r → ∃ kind, upload_answer r = Some (Failed kind).
Proof.
  apply (crash_in_cleanup_stuck demo_self "Post/c.png" "PNG-c" demo_world AtExists
           demo_removed.2 demo_retried.1 demo_retried.2);
    [apply demo_fs_wf|vm_compute; reflexivity|vm_compute; reflexivity| |done|].
  - apply (crash_exec_rtc _ _ [Run; Run; Run]). vm_compute. reflexivity.
  - apply (crash_exec_rtc _ _ [Run; Run]). vm_compute. reflexivity.
Defined.

Lemma crash_between_outside_contract_witness :
  ∃ w1, crash_exec demo_self "Post/c.png" [Run; Run] (AtTransfer, demo_world)
        = Some (InCleanup AtRemove, w1) ∧
        abs demo_self w1 ≡ stored "Post/c.png" "PNG-c" (abs demo_self demo_world) ∧
        ∀ h, ¬ steps (abs demo_self demo_world) h (abs demo_self w1).
Proof.
  apply (crash_between_outside_contract demo_self "Post/c.png" "PNG-c" demo_world
           (ms_set_objects {[("media", "Post/c.png") := "PNG-c"]} demo_store));
    [vm_compute; reflexivity|by vm_compute|vm_compute; reflexivity].
Defined.

Lemma crash_retry_completes_witness :
  ∃ w', upload demo_self ["Post/c.png"] demo_stopped.2 = (Ret (Some true), w') ∧
        abs demo_self w' ≡ put "Post/c.png" "PNG-c" (abs demo_self demo_world) ∧
        staged_bytes (w_fs w') "Post/c.png" = None.
Proof.
  apply (crash_retry_completes demo_self (ms_serving demo_self) "Post/c.png" "PNG-c"
           demo_world demo_stopped.1 demo_stopped.2);
    [apply demo_fs_wf| |vm_compute; reflexivity| |vm_compute; reflexivity].
  - split_and!; [done|by apply (bool_decide_unpack _)..].
  - apply (crash_exec_rtc _ _ [Run; Run; Restart; Run]). vm_compute. reflexivity.
Defined.
