(* ===== verification/Reference.v ===== *)
(** * Reference: the gateway over a store that answers

    The contract of [Refinement.v] is a relation: every request may fail,
    and then nothing changes.  The testable properties of spec.md
    (section 8) say more: an upload of a staged file is done and an upload
    without one is an upload error, a deletion is done, and the presign
    answers with a URL that names the bucket and the key for a key that
    holds an object and with the absence of a URL for one that holds
    nothing.  These are the answers of a store that serves, accepts and
    answers (the class [Answering]); over such a store the calls compute
    the reference machine [ref_run], a function on the states of the
    contract ([run_reference]), and the life of an image, from its upload
    to the presign after its deletion, has the four answers the
    specification expects ([life_cycle_answers]). *)

From S2P Require Import Prelude Loops PyStr FileSystem ObjectStore Gateway.
From S2P Require Import Refinement Batch.
Import S3Minio Contract.

(** ** The reference machine *)

(** An answer of the contract up to the URL it carries. *)
Inductive verdict : Type :=
| VDone
| VUrl
| VAbsent
| VFailed (kind : error_kind).

#[export] Instance verdict_eq_dec : EqDecision verdict.
Proof. solve_decision. Defined.

Definition verdict_of (a : answer) : verdict :=
  match a with
  | Done => VDone
  | Url _ => VUrl
  | Absent => VAbsent
  | Failed kind => VFailed kind
  end.

Definition key_of (rq : request) : string :=
  match rq with
  | Upload k | Delete k | GetPresignedURL k => k
  end.

(** One request: the answer and the state after it. *)
Definition ref_step (s : state) (rq : request) : verdict * state :=
  match rq with
  | Upload k =>
      match staged s k with
      | Some data => (VDone, put k data s)
      | None => (VFailed UploadError, s)
      end
  | Delete k => (VDone, remove k s)
  | GetPresignedURL k =>
      (match bucket s k with Some _ => VUrl | None => VAbsent end, s)
  end.

(** A sequence of requests. *)
Fixpoint ref_run (s : state) (rqs : list request) : list verdict * state :=
  match rqs with
  | [] => ([], s)
  | rq :: rqs =>
      let '(v, s1) := ref_step s rq in
      let '(vs, s') := ref_run s1 rqs in (v :: vs, s')
  end.

(** The requests the client sends: a deletion and a presign with the empty
    key are rejected before they are sent. *)
Definition answerable (rq : request) : Prop :=
  match rq with
  | Upload _ => True
  | Delete k | GetPresignedURL k => k ≠ ""
  end.

#[export] Instance answerable_dec rq : Decision (answerable rq).
Proof. destruct rq; apply _. Defined.

(** The life of an image: uploaded, linked, deleted, and no longer
    linked. *)
Definition life_cycle (k : string) : list request :=
  [Upload k; GetPresignedURL k; Delete k; GetPresignedURL k].

Section answering.
Context {St : Type} `{!ObjectStore St}.

(** What the reference needs of the store beyond [Serving] and
    [Accepting], in the states in which it serves: a transfer without a
    file fails with an [Exception]; a deletion is done; the probe succeeds
    for a key that holds an object and fails with a [ClientError] for one
    that holds nothing; the URL is computed and names the bucket and the
    key. *)
Class Answering (self : S3Minio) (serving : St → Prop) : Prop := {
  answering_missing fs f k st e st' :
    serving st → (∀ data, fs !! f ≠ Some (File data)) →
    upload_file (s3 self) fs f (s3_bucket_name self) k st = (Raise e, st') →
    is_Exception e = true;
  answering_delete k st :
    serving st → k ≠ "" →
    ∃ st', delete_object (s3 self) (s3_bucket_name self) k st = (Ret (), st');
  answering_found k st :
    serving st → k ≠ "" → is_Some (objects st !! (s3_bucket_name self, k)) →
    head_object (s3 self) (s3_bucket_name self) k st = Ret ();
  answering_not_found k st :
    serving st → k ≠ "" → objects st !! (s3_bucket_name self, k) = None →
    ∃ e, head_object (s3 self) (s3_bucket_name self) k st = Raise e ∧
         is_ClientError e = true;
  answering_presign k :
    k ≠ "" →
    ∃ url, generate_presigned_url (s3 self) (s3_bucket_name self) k expires_in = Ret url ∧
           contains (s3_bucket_name self) url = true ∧ contains k url = true;
}.

(** A URL that names the bucket and the key of its request. *)
Definition url_ok (self : S3Minio) (ra : request * answer) : Prop :=
  ∀ url, ra.2 = Url url →
    contains (s3_bucket_name self) url = true ∧ contains (key_of ra.1) url = true.

End answering.

(** ** Examples *)

Definition demo_life : option (list (request * answer)) * World mem_store :=
  run demo_self (life_cycle "Post/c.png") demo_world.

(** A world in which the key of a staged file holds an earlier image. *)
Definition demo_taken : World mem_store :=
  mkWorld demo_fs (ms_set_objects {[("media", "a.png") := "an earlier image"]} demo_store) [].

(** ** The reference and the contract *)

Section machine.
Implicit Types (s t : state) (rq : request) (rqs : list request) (a : answer).

(** The reference does not tell equivalent states apart. *)
Lemma ref_step_proper s t rq :
  s ≡ t → (ref_step s rq).1 = (ref_step t rq).1 ∧ (ref_step s rq).2 ≡ (ref_step t rq).2.
Proof.
  intros Hst. pose proof Hst as [Hb Hs]. destruct rq as [k|k|k]; simpl.
  - rewrite (Hs k). destruct (staged t k); simpl; by rewrite ?Hst.
  - by rewrite Hst.
  - by rewrite (Hb k).
Qed.

Lemma ref_run_proper s t rqs :
  s ≡ t → (ref_run s rqs).1 = (ref_run t rqs).1 ∧ (ref_run s rqs).2 ≡ (ref_run t rqs).2.
Proof.
  revert s t. induction rqs as [|rq rqs IH]; intros s t Hst; [done|]. simpl.
  destruct (ref_step_proper s t rq Hst) as [Hv Hs1].
  destruct (ref_step s rq) as [v s1], (ref_step t rq) as [v' t1]. simpl in *. subst v'.
  destruct (IH s1 t1 Hs1) as [Hvs Hs'].
  destruct (ref_run s1 rqs) as [vs s'], (ref_run t1 rqs) as [vs' t']. simpl in *.
  by subst vs'.
Qed.

(** The reference is a run of the contract: its answers are answers the
    contract allows. *)
Lemma ref_step_step s rq :
  ∃ a, verdict_of a = (ref_step s rq).1 ∧ step s rq a (ref_step s rq).2.
Proof.
  destruct rq as [k|k|k]; simpl.
  - destruct (staged s k) as [data|] eqn:Hs.
    + exists Done. split; [done|]. by apply (step_upload _ _ data).
    + exists (Failed UploadError). split; [done|]. by apply step_failed.
  - exists Done. split; [done|]. by apply step_delete.
  - destruct (bucket s k) as [data|] eqn:Hb.
    + exists (Url ""). split; [done|]. by apply step_url.
    + exists Absent. split; [done|]. by apply step_absent.
Qed.

(** A step of the contract that fails only as the reference does is the
    step of the reference. *)
Lemma step_reference s rq a s' :
  step s rq a s' →
  (∀ kind, a = Failed kind → (ref_step s rq).1 = VFailed kind) →
  (∀ k, rq = Upload k → a = Done ∨ staged s k = None) →
  verdict_of a = (ref_step s rq).1 ∧ s' ≡ (ref_step s rq).2.
Proof.
  destruct 1 as [s k data s' Hs Hp|s k s' Hp|s k url s' [x Hb] Hp|s k s' Hb Hp|s rq kind s' _ Hp];
    intros Hfail Hup; simpl.
  - by rewrite Hs.
  - done.
  - by rewrite Hb.
  - by rewrite Hb.
  - pose proof (Hfail kind eq_refl) as Hv. rewrite Hv, Hp. split; [done|].
    destruct rq as [k|k|k]; simpl in *; [|done|by destruct (bucket s k)].
    destruct (Hup k eq_refl) as [|Hs]; [done|]. by rewrite Hs.
Qed.

(** The life of an image in the reference. *)
Lemma ref_life_cycle s k data :
  staged s k = Some data →
  (ref_run s (life_cycle k)).1 = [VDone; VUrl; VDone; VAbsent] ∧
  (ref_run s (life_cycle k)).2 ≡ remove k (put k data s).
Proof.
  intros Hs. unfold life_cycle. cbn [ref_run ref_step]. rewrite Hs.
  cbn [bucket put remove]. by rewrite !decide_True by done.
Qed.

End machine.

(** ** The calls compute the reference *)

Section calls.
Context {St : Type} `{!ObjectStore St} `{!ObjectStoreLaws St}.
Context (self : S3Minio) (serving : St → Prop).
Context `{!Serving self serving} `{!Accepting self serving} `{!Answering self serving}.
Implicit Types (w : World St) (k : string) (rq : request) (rqs : list request) (a : answer).

(** Over a store that answers, a call fails only as the reference does,
    an upload is done whenever a file is staged, and a URL names the
    bucket and the key. *)
Lemma call_fails rq w a :
  ready serving w → answerable rq → (call self rq w).1 = Some a →
  (∀ kind, a = Failed kind → (ref_step (abs self w) rq).1 = VFailed kind) ∧
  (∀ k, rq = Upload k → a = Done ∨ staged (abs self w) k = None) ∧
  url_ok self (rq, a).
Proof.
  intros [Hwf Hs] Hrq. destruct rq as [k|k|k]; cbn [call].
  - destruct (staged_bytes (w_fs w) k) as [data|] eqn:Hk.
    { destruct (upload_accepted self serving k w data (conj Hwf Hs) Hk) as (w' & -> & _).
      intros [= <-]. split_and!; [done|by left|by intros url]. }
    rewrite upload_cons_body, upload_body_eq. cbv zeta.
    assert (∀ data, w_fs w !! file_direct k ≠ Some (File data)) as Hno.
    { intros data Hf. unfold staged_bytes in Hk. by rewrite Hf in Hk. }
    destruct (upload_file _ _ _ _ _ _) as [[[]|e] st'] eqn:Hup.
    { destruct (upload_file_Ret _ _ _ _ _ _ _ Hup) as (data & Hf & _). by destruct (Hno data). }
    cbn. rewrite failure_upload, (answering_missing _ _ _ _ _ _ Hs Hno Hup).
    intros [= <-]. split_and!; [|intros k' [= <-]; by right|by intros url].
    intros kind [= <-]. simpl. by rewrite Hk.
  - destruct (answering_delete k _ Hs Hrq) as [st' Hdel].
    rewrite delete_cons_body, delete_body_eq, Hdel. intros [= <-].
    split_and!; [done|done|by intros url].
  - rewrite get_url_eq. destruct (objects (w_s3 w) !! (s3_bucket_name self, k)) as [x|] eqn:Hb.
    + rewrite (answering_found k _ Hs Hrq) by (by rewrite Hb).
      destruct (answering_presign k Hrq) as (url & -> & Hurl). intros [= <-].
      split_and!; [done|done|]. by intros url' [= <-].
    + destruct (answering_not_found k _ Hs Hrq Hb) as (e & -> & ->). intros [= <-].
      split_and!; [done|done|by intros url].
Qed.

(** One call is the step of the reference. *)
Lemma call_reference rq w :
  ready serving w → answerable rq →
  ∃ a, (call self rq w).1 = Some a ∧
       verdict_of a = (ref_step (abs self w) rq).1 ∧
       abs self (call self rq w).2 ≡ (ref_step (abs self w) rq).2 ∧
       url_ok self (rq, a) ∧ ready serving (call self rq w).2.
Proof.
  intros Hr Hrq. destruct (call_refines self serving rq w Hr) as (a & Ha & Hstep & Hr').
  destruct (call_fails rq w a Hr Hrq Ha) as (Hf & Hu & Hurl).
  destruct (step_reference _ _ _ _ Hstep Hf Hu) as [Hv Hs]. eauto 10.
Qed.

(** A sequence of calls from a world that stands for the state [s]. *)
Lemma run_reference_from rqs w s :
  ready serving w → Forall answerable rqs → abs self w ≡ s →
  ∃ tr, (run self rqs w).1 = Some tr ∧ tr.*1 = rqs ∧
        verdict_of <$> tr.*2 = (ref_run s rqs).1 ∧
        abs self (run self rqs w).2 ≡ (ref_run s rqs).2 ∧
        Forall (url_ok self) tr ∧ ready serving (run self rqs w).2.
Proof.
  revert w s. induction rqs as [|rq rqs IH]; intros w s Hr Hrqs Hs.
  { exists []. by split_and!. }
  apply Forall_cons in Hrqs as [Hrq Hrqs].
  destruct (call_reference rq w Hr Hrq) as (a & Ha & Hv & Hs1 & Hurl & Hr1).
  destruct (ref_step_proper _ _ rq Hs) as [Hv' Hs']. rewrite Hv' in Hv. rewrite Hs' in Hs1.
  cbn [run ref_run]. destruct (call self rq w) as [oa w1]. simpl in Ha, Hs1, Hr1. subst oa.
  destruct (ref_step s rq) as [v s1]. simpl in Hv, Hs1.
  destruct (IH w1 s1 Hr1 Hrqs Hs1) as (tr & Htr & Hk & Hvs & Hend & Hurls & Hr').
  destruct (run self rqs w1) as [otr w']. simpl in Htr, Hend, Hr'. subst otr.
  destruct (ref_run s1 rqs) as [vs s']. simpl in *.
  exists ((rq, a) :: tr). split_and!; [done|by rewrite <-Hk|by rewrite <-Hv, <-Hvs|done| |done].
  by apply Forall_cons.
Qed.

(** C10. The gateway computes the reference: over a store that serves,
    accepts and answers, every sequence of calls of [upload], [delete] and
    [get_url] (a deletion and a presign with a key that is not empty)
    answers every request; the answers are, up to the URLs, those of the
    reference machine from the state the world stands for, and the world
    at the end stands for the state of the reference; every URL handed
    out names the bucket and the key of its request. *)
Theorem run_reference rqs w :
  ready serving w → Forall answerable rqs →
  ∃ tr, (run self rqs w).1 = Some tr ∧ tr.*1 = rqs ∧
        verdict_of <$> tr.*2 = (ref_run (abs self w) rqs).1 ∧
        abs self (run self rqs w).2 ≡ (ref_run (abs self w) rqs).2 ∧
        Forall (url_ok self) tr ∧ ready serving (run self rqs w).2.
Proof. intros Hr Hrqs. by apply run_reference_from. Qed.

(** The life of an image: over a store that serves, accepts and
    answers, for a key with a staged file the upload returns [True], the
    presign then hands out a URL that names the bucket and the key, the
    deletion returns [True], and the presign after it returns [None]; at
    the end the key holds nothing and nothing is staged for it. *)
Corollary life_cycle_answers k w data :
  ready serving w → staged_bytes (w_fs w) k = Some data →
  ∃ url, (run self (life_cycle k) w).1
         = Some [(Upload k, Done); (GetPresignedURL k, Url url); (Delete k, Done);
                 (GetPresignedURL k, Absent)] ∧
         contains (s3_bucket_name self) url = true ∧ contains k url = true ∧
         abs self (run self (life_cycle k) w).2 ≡ remove k (put k data (abs self w)).
Proof.
  intros Hr Hk.
  assert (k ≠ "") as Hne by (intros ->; by rewrite (staged_bytes_empty_key _ (proj1 Hr)) in Hk).
  destruct (run_reference_from (life_cycle k) w (abs self w) Hr)
    as (tr & Htr & Hrq & Hv & Hs & Hurl & _); [by repeat constructor|done|].
  destruct (ref_life_cycle (abs self w) k data Hk) as [Hvs Hend].
  rewrite Hvs in Hv. rewrite Hend in Hs. clear Hvs Hend.
  destruct (run self (life_cycle k) w) as [otr w']. unfold life_cycle in Hrq.
  simpl in Htr, Hs. subst otr.
  destruct tr as [|[rq1 a1] [|[rq2 a2] [|[rq3 a3] [|[rq4 a4] [|]]]]]; simplify_eq/=.
  destruct a1 as [|u1| |e1]; simplify_eq/=. destruct a2 as [|url| |e2]; simplify_eq/=.
  destruct a3 as [|u3| |e3]; simplify_eq/=. destruct a4 as [|u4| |e4]; simplify_eq/=.
  apply Forall_cons in Hurl as [_ [Hu _]%Forall_cons]. destruct (Hu url eq_refl) as [??].
  by exists url.
Qed.

(** An upload replaces what the key held: the object of an earlier upload
    under the same key is gone, and the call returns [True]. *)
Corollary upload_replaces k w data old :
  ready serving w → staged_bytes (w_fs w) k = Some data →
  bucket (abs self w) k = Some old →
  ∃ w', upload self [k] w = (Ret (Some true), w') ∧ bucket (abs self w') k = Some data.
Proof.
  intros Hr Hk _. destruct (upload_accepted self serving k w data Hr Hk) as (w' & Hup & Hput & _).
  exists w'. split; [done|]. rewrite Hput. simpl. by rewrite decide_True.
Qed.

End calls.

(** ** The in-memory store answers *)

#[export] Instance mem_store_answering self : Answering self (ms_serving self).
Proof.
  split.
  - intros fs f k st e st' _ Hno. cbn [upload_file mem_store_ops]. unfold ms_upload_file, read_file.
    destruct (fs !! f) as [[data|]|] eqn:Hf; [by destruct (Hno data)|by intros [= <- _]..].
  - intros k st Hs Hk. cbn [delete_object mem_store_ops]. unfold ms_delete_object.
    rewrite (ms_request_serving _ _ _ _ Hs). destruct (String.eqb_spec k ""); [done|eauto].
  - intros k st Hs Hk [x Hx]. cbn [head_object mem_store_ops objects] in *. unfold ms_head_object.
    rewrite (ms_request_serving _ _ _ _ Hs), Hx. by destruct (String.eqb_spec k "").
  - intros k st Hs Hk Hx. cbn [head_object mem_store_ops objects] in *. unfold ms_head_object.
    rewrite (ms_request_serving _ _ _ _ Hs), Hx. destruct (String.eqb_spec k ""); [done|eauto].
  - intros k _. cbn [generate_presigned_url mem_store_ops]. unfold ms_generate_presigned_url.
    eexists. split; [done|]. split.
    + rewrite <-(str_app_assoc (endpoint_url (s3 self)) "/"). apply contains_app.
    + do 4 apply contains_app_r. apply contains_prefix, str_prefix_app.
Qed.

(** ** Examples and the theorems at the demonstration world *)

(** The life of [Post/c.png] over the in-memory store. *)
Example demo_life_ex :
  demo_life.1
  = Some [(Upload "Post/c.png", Done);
          (GetPresignedURL "Post/c.png",
           Url "http://minio:9000/media/Post/c.png?X-Amz-Algorithm=AWS4-HMAC-SHA256&X-Amz-Credential=admin&X-Amz-Expires=3600");
          (Delete "Post/c.png", Done); (GetPresignedURL "Post/c.png", Absent)].
Proof. vm_compute. reflexivity. Qed.

(** The reference for requests on two keys, one of them not staged. *)
Example ref_run_ex :
  (ref_run (abs demo_self demo_world)
     [GetPresignedURL "a.png"; Upload "a.png"; Upload "a.png"; GetPresignedURL "a.png";
      Upload "nothing.png"; Delete "a.png"; GetPresignedURL "a.png"]).1
  = [VAbsent; VDone; VFailed UploadError; VUrl; VFailed UploadError; VDone; VAbsent].
Proof. vm_compute. reflexivity. Qed.

(** The upload of [a.png] over the earlier image of that key. *)
Example upload_replaces_ex :
  (λ rw : res exn (option bool) * World mem_store,
     (rw.1, ms_objects (w_s3 rw.2) !! ("media", "a.png")))
    (upload demo_self ["a.png"] demo_taken)
  = (Ret (Some true), Some "PNG-a").
Proof. vm_compute. reflexivity. Qed.

Lemma run_reference_witness :
  ∃ tr, (run demo_self (life_cycle "Post/c.png") demo_world).1 = Some tr ∧
        tr.*1 = life_cycle "Post/c.png" ∧
        verdict_of <$> tr.*2
        = (ref_run (abs demo_self demo_world) (life_cycle "Post/c.png")).1 ∧
        abs demo_self (run demo_self (life_cycle "Post/c.png") demo_world).2
        ≡ (ref_run (abs demo_self demo_world) (life_cycle "Post/c.png")).2 ∧
        Forall (url_ok demo_self) tr ∧
        ready (ms_serving demo_self) (run demo_self (life_cycle "Post/c.png") demo_world).2.
Proof.
  apply (run_reference demo_self (ms_serving demo_self) (life_cycle "Post/c.png") demo_world);
    [apply demo_ready|by repeat constructor].
Defined.

Lemma life_cycle_answers_witness :
  ∃ url, (run demo_self (life_cycle "Post/c.png") demo_world).1
         = Some [(Upload "Post/c.png", Done); (GetPresignedURL "Post/c.png", Url url);
                 (Delete "Post/c.png", Done); (GetPresignedURL "Post/c.png", Absent)] ∧
         contains (s3_bucket_name demo_self) url = true ∧ contains "Post/c.png" url = true ∧
         abs demo_self (run demo_self (life_cycle "Post/c.png") demo_world).2
         ≡ remove "Post/c.png" (put "Post/c.png" "PNG-c" (abs demo_self demo_world)).
Proof.
  apply (life_cycle_answers demo_self (ms_serving demo_self) "Post/c.png" demo_world "PNG-c");
    [apply demo_ready|vm_compute; reflexivity].
Defined.
