(* ===== verification/Traversal.v ===== *)
(** * Traversal: the staging path of a key that is not in normal form

    [upload] builds the path of the staged file by writing the key behind
    [temp/media/] and hands it to [upload_file], [os.remove] and
    [os.path.dirname] as it is.  The staging area of [FileSystem.v] holds
    paths in normal form, which the operating system reads as they are
    written ([normpath_path_ok]): for a key in normal form the path lies
    in [temp/media] ([file_direct_inside]), and these are the only keys
    for which a tree stages a file ([staged_key_normal]).  A key with the
    component [..] is not checked by the method, and the path built for it
    names a file outside the staging directory: [normpath], the lexical
    resolution of a relative path ([os.path.normpath]), gives the file the
    operating system opens ([file_direct_escapes]).

    [upload_at] is [upload] once more, with the resolution of the paths by
    the operating system written out at every call that takes a path.
    With the paths read as they are written it is [upload]
    ([upload_at_id]); with [normpath] it is [upload] for every key in
    normal form ([upload_at_normal]), and for the key [../../q] it uploads
    and removes the file [q], wherever that lies ([upload_escapes]). *)

From S2P Require Import Prelude PyStr FileSystem ObjectStore Gateway Refinement.
Import S3Minio.

(** ** Lexical resolution of a relative path *)

(** One component on the stack of the components kept so far, the last
    one first: an empty component and [.] are dropped, [..] removes the
    component before it unless there is none or it is [..] itself. *)
Definition norm_push (stack : list string) (c : string) : list string :=
  if String.eqb c "" || String.eqb c "." then stack
  else if String.eqb c ".." then
    match stack with
    | [] => [c]
    | top :: rest => if String.eqb top ".." then c :: stack else rest
    end
  else c :: stack.

(** [os.path.normpath(p)] for a relative path: the file the operating
    system opens for [p] when the directories that [p] walks through
    exist and none of them is a symbolic link. *)
Definition normpath (p : string) : string :=
  match rev (fold_left norm_push (split "/" p) []) with
  | [] => "."
  | comps => join "/" comps
  end.

(** The directory of the staged files. *)
Definition staging_root : string := "temp/media".

(** ** [upload], with the paths resolved *)

Section resolved.
Context {St : Type} `{!ObjectStore St}.

(** How the operating system reads a path. *)
Variable resolve : string → string.

(** The inner [try] block. *)
Definition upload_transfer_at (self : S3Minio) (path : string) : Py (World St) () :=
  found ← reading (λ w, Ret (os_path_exists (w_fs w) (resolve (file_direct path))));
  print (file_message self path found);;
  fs ← reading (λ w, Ret (w_fs w));
  on_s3 (upload_file (s3 self) fs (resolve (file_direct path)) (s3_bucket_name self) path);;
  print (uploaded_message path).

(** The removal of the staged file and of its directory. *)
Definition cleanup_at (file_direct : string) : Py FS () :=
  os_remove (resolve file_direct);;
  let dir_local := dirname file_direct in
  found ← fs_reading (λ fs, Ret (os_path_exists fs (resolve dir_local)));
  if found : bool then
    names ← fs_reading (λ fs, os_listdir fs (resolve dir_local));
    match names with
    | [] => shutil_rmtree (resolve dir_local)
    | _ :: _ => mret ()
    end
  else mret ().

(** The body of the loop of [upload]. *)
Definition upload_body_at (self : S3Minio) (path : string) : Py (World St) (option bool) :=
  try_except
    (print (uploading_message path);;
     try_except (upload_transfer_at self path) is_Exception upload_error;;
     on_fs (cleanup_at (file_direct path));;
     mret (Some true))
    is_Exception upload_error.

(** [upload(self, *args)]. *)
Definition upload_at (self : S3Minio) (args : list string) : Py (World St) (option bool) :=
  py_for args (upload_body_at self).

End resolved.

(** ** Examples *)

(** A project with a settings file beside the staging area. *)
Definition demo_project : World mem_store :=
  mkWorld {[ "app" := Dir; "app/settings.py" := File "SECRET_KEY"; "app/urls.py" := File "urls";
             "temp" := Dir; "temp/media" := Dir; "temp/media/a.png" := File "PNG-a" ]}
          demo_store [].

(** ** Paths in normal form *)

Section normal.
Implicit Types (p q k c : string) (l stack : list string).

Lemma norm_push_ok stack c : comp_ok c = true → norm_push stack c = c :: stack.
Proof.
  unfold comp_ok, norm_push. intros [[H1 H2]%andb_true_iff H3]%andb_true_iff.
  apply negb_true_iff in H1, H2, H3. by rewrite H1, H2, H3.
Qed.

Lemma norm_fold_ok l stack :
  forallb comp_ok l = true → fold_left norm_push l stack = rev l ++ stack.
Proof.
  revert stack. induction l as [|c l IH]; intros stack; [done|]. cbn [forallb fold_left].
  intros [Hc Hl]%andb_true_iff. rewrite norm_push_ok, IH by done.
  simpl. by rewrite <-app_assoc.
Qed.

(** What follows components that cancel. *)
Lemma normpath_after p q :
  fold_left norm_push (split "/" p) [] = [] → path_ok q = true →
  normpath (p +:+ String "/" q) = q.
Proof.
  intros Hp Hq. unfold normpath. rewrite split_app_sep, fold_left_app, Hp.
  rewrite norm_fold_ok, app_nil_r, rev_involutive by done.
  destruct (split "/" q) as [|c l] eqn:Hs; [by destruct (split_nonempty "/" q)|].
  rewrite <-Hs. apply join_split.
Qed.

(** A path in normal form is read as it is written. *)
Lemma normpath_path_ok p : path_ok p = true → normpath p = p.
Proof.
  intros Hp. unfold normpath. rewrite norm_fold_ok, app_nil_r, rev_involutive by done.
  destruct (split "/" p) as [|c l] eqn:Hs; [by destruct (split_nonempty "/" p)|].
  rewrite <-Hs. apply join_split.
Qed.

(** The staging path of a key, as a path below the staging directory. *)
Lemma file_direct_root k : file_direct k = staging_root +:+ String "/" k.
Proof. done. Qed.

(** A key in normal form is staged inside the staging directory: its path
    is in normal form, the operating system reads it as it is, and it
    lies below [temp/media]. *)
Theorem file_direct_inside k :
  path_ok k = true →
  path_ok (file_direct k) = true ∧ normpath (file_direct k) = file_direct k ∧
  under staging_root (file_direct k) = true.
Proof.
  intros Hk. assert (path_ok (file_direct k) = true) as Hp.
  { by rewrite file_direct_root, path_ok_app_sep, Hk. }
  split_and!; [done|by apply normpath_path_ok|]. apply str_prefix_app.
Qed.

(** In a tree a file is staged only for a key in normal form. *)
Theorem staged_key_normal fs k data :
  fs_wf fs → staged_bytes fs k = Some data → path_ok k = true.
Proof.
  intros Hwf Hk. unfold staged_bytes in Hk.
  destruct (fs !! file_direct k) as [n|] eqn:Hf; [|done].
  destruct (Hwf _ _ Hf) as [Hp _]. rewrite file_direct_root, path_ok_app_sep in Hp.
  by apply andb_true_iff in Hp as [_ ?].
Qed.

(** The key is not checked: for every path [q] in normal form, the
    path that [upload] builds for the key [../../q] is the file [q] of the
    working directory, which [upload_file] reads and [os.remove] removes;
    it lies outside the staging directory unless [q] itself lies in it. *)
Theorem file_direct_escapes q :
  path_ok q = true →
  normpath (file_direct ("../../" +:+ q)) = q ∧
  path_ok (file_direct ("../../" +:+ q)) = false ∧
  (under staging_root q = false →
   under staging_root (normpath (file_direct ("../../" +:+ q))) = false).
Proof.
  intros Hq.
  assert (file_direct ("../../" +:+ q) = "temp/media/../.." +:+ String "/" q) as -> by done.
  rewrite (normpath_after "temp/media/../.." q) by done.
  split_and!; [done| |done]. by rewrite path_ok_app_sep.
Qed.

(** The parent of [p/b] for a name [b], when [p] is not made of slashes
    and does not end in one. *)
Lemma dirname_app_name p b :
  str_forall is_sep p = false → rstrip_sep p = p → no_sep "/" b = true →
  dirname (p +:+ String "/" b) = p.
Proof.
  intros Hp Hr Hb. unfold dirname.
  assert (head_part (p +:+ String "/" b) = p +:+ "/") as ->.
  { rewrite head_part_app; cbn [head_part]; by rewrite (head_part_no_sep b Hb). }
  assert (str_forall is_sep (p +:+ "/") = false) as -> by (by rewrite str_forall_app, Hp).
  destruct (String.eqb_spec (p +:+ "/") "") as [[_ ?]%str_app_eq_nil|_]; [done|].
  cbn [negb andb]. by rewrite rstrip_sep_app_seps, Hr.
Qed.

Lemma rstrip_sep_app_keep a b : rstrip_sep b ≠ "" → rstrip_sep (a +:+ b) = a +:+ rstrip_sep b.
Proof.
  intros Hb. induction a as [|c a IH]; [done|]. rewrite !str_app_cons. cbn [rstrip_sep].
  rewrite IH. destruct (a +:+ rstrip_sep b) eqn:Ha; [|done].
  by apply str_app_eq_nil in Ha as [_ ?].
Qed.

(** The directory of the path built for the key [../../q], as it is
    written and as it is read. *)
Lemma dirname_escapes q :
  path_ok q = true →
  (dirname q = "" ∧ normpath (dirname (file_direct ("../../" +:+ q))) = ".") ∨
  normpath (dirname (file_direct ("../../" +:+ q))) = dirname q.
Proof.
  intros Hq.
  assert (file_direct ("../../" +:+ q) = "temp/media/../.." +:+ String "/" q) as -> by done.
  destruct (path_ok_decompose q Hq) as [[Hd Hn]|(b & Hb & Hn & Hd)]; [left|right].
  - split; [done|]. by rewrite dirname_app_name.
  - rewrite Hb at 1. rewrite <-(str_app_assoc _ (String "/" (dirname q)) (String "/" b)).
    rewrite dirname_app_name; [by apply normpath_after| | |done].
    + by rewrite str_forall_app.
    + change (rstrip_sep ("temp/media/../../" +:+ dirname q) = "temp/media/../../" +:+ dirname q).
      rewrite rstrip_sep_app_keep; rewrite (rstrip_sep_path_ok _ Hd); [done|].
      intros Hnil. by rewrite Hnil in Hd.
Qed.

End normal.

(** ** The method with the paths resolved *)

Section resolved_lemmas.
Context {St : Type} `{!ObjectStore St}.
Implicit Types (self : S3Minio) (w : World St) (k q f : string) (fs : FS).
Implicit Types (resolve : string → string).

(** Read as they are written, the paths give [upload]. *)
Lemma upload_at_id self args : upload_at id self args = upload self args.
Proof. done. Qed.

(** The cleanup depends on how its two paths are read. *)
Lemma cleanup_at_staged resolve f q :
  resolve f = q → resolve (dirname f) = dirname q → cleanup_at resolve f = cleanup_staged q.
Proof. intros Hf Hd. unfold cleanup_at, cleanup_staged. by rewrite Hf, Hd. Qed.

(** A file of the working directory itself: its directory is no entry of a
    tree, however it is written. *)
Lemma cleanup_at_top resolve f q fs :
  fs_wf fs → resolve f = q → dirname q = "" → path_ok (resolve (dirname f)) = false →
  cleanup_at resolve f fs = cleanup_staged q fs.
Proof.
  intros Hwf Hf Hd Hr. rewrite cleanup_staged_eq.
  unfold cleanup_at, fs_reading, os_remove. py_unfold. rewrite Hf.
  destruct (fs !! q) as [[data|]|] eqn:Hq; [|done..].
  assert (∀ p, path_ok p = false → map_del q fs !! p = None) as Hno.
  { intros p Hp. destruct (map_del q fs !! p) as [n|] eqn:Hn; [|done].
    apply lookup_delete_Some in Hn as [_ Hn]. destruct (Hwf _ _ Hn) as [? _]. congruence. }
  unfold os_path_exists. rewrite bool_decide_eq_false_2 by (rewrite Hno by done; by intros [??]).
  by rewrite Hd, (Hno "") by done.
Qed.

(** The body, on each of its paths. *)
Lemma upload_body_at_eq resolve self k w :
  upload_body_at resolve self k w =
  let f := resolve (file_direct k) in
  let out := w_out w ++ [printed (uploading_message k);
      printed (file_message self k (os_path_exists (w_fs w) f))] in
  match upload_file (s3 self) (w_fs w) f (s3_bucket_name self) k (w_s3 w) with
  | (Raise e, st') =>
      (Raise (caught upload_exn (caught upload_exn e)), mkWorld (w_fs w) st' out)
  | (Ret _, st') =>
      match cleanup_at resolve (file_direct k) (w_fs w) with
      | (Raise e, fs') =>
          (Raise (caught upload_exn e), mkWorld fs' st' (out ++ [printed (uploaded_message k)]))
      | (Ret _, fs') =>
          (Ret (Some true), mkWorld fs' st' (out ++ [printed (uploaded_message k)]))
      end
  end.
Proof.
  unfold upload_body_at, upload_transfer_at, print, reading, on_s3, on_fs, upload_error, caught.
  py_unfold. cbn [w_fs w_s3 w_out]. rewrite <-!app_assoc. cbn [app].
  destruct (upload_file _ _ _ _ _ _) as [[[]|e] st']; cbn [w_fs w_s3 w_out].
  - rewrite <-!app_assoc. cbn [app].
    destruct (cleanup_at _ _ _) as [[[]|e] fs']; [done|]. by destruct (is_Exception e).
  - destruct (is_Exception e) eqn:He; [|by rewrite He]. done.
Qed.

Lemma upload_at_cons_body resolve self k ks w :
  upload_at resolve self (k :: ks) w = upload_body_at resolve self k w.
Proof.
  unfold upload_at. cbn [py_for]. py_unfold. rewrite upload_body_at_eq. cbv zeta.
  destruct (upload_file _ _ _ _ _ _) as [[[]|e] st']; [|done].
  by destruct (cleanup_at _ _ _) as [[[]|e] fs'].
Qed.

End resolved_lemmas.

Section resolved_theorems.
Context {St : Type} `{!ObjectStore St} `{!ObjectStoreLaws St}.
Implicit Types (self : S3Minio) (w : World St) (k q : string) (ks : list string).

(** For a key in normal form the operating system reads the paths of
    [upload] as they are written: the method with the paths resolved is
    the method. *)
Theorem upload_at_normal self k ks w :
  path_ok k = true → upload_at normpath self (k :: ks) w = upload self (k :: ks) w.
Proof.
  intros Hk. destruct (file_direct_inside k Hk) as (Hp & Hn & _).
  rewrite upload_at_cons_body, upload_cons_body, upload_body_at_eq, upload_body_eq, Hn.
  rewrite (cleanup_at_staged normpath _ (file_direct k)); [done..|].
  apply normpath_path_ok. destruct (path_ok_decompose _ Hp) as [[_ Hs]|(b & _ & _ & Hd)]; [|done].
  rewrite file_direct_root in Hs. unfold no_sep in Hs. rewrite str_forall_app in Hs.
  cbn [str_forall] in Hs. by rewrite andb_false_r in Hs.
Qed.

(** C31. The key is not checked: when the staging directory exists, so
    that the operating system can walk through it, for every file [q] of
    the tree, in the staging directory or not, whose transfer under the
    key [../../q] the store accepts, [upload] with the paths resolved
    returns [True] for that key, the bucket holds the bytes of [q] under
    it, and [q] is removed. *)
Theorem upload_escapes self q data w st' :
  fs_wf (w_fs w) → w_fs w !! staging_root = Some Dir →
  w_fs w !! q = Some (File data) →
  upload_file (s3 self) (w_fs w) q (s3_bucket_name self) ("../../" +:+ q) (w_s3 w)
  = (Ret (), st') →
  ∃ w', upload_at normpath self ["../../" +:+ q] w = (Ret (Some true), w') ∧
        objects (w_s3 w') !! (s3_bucket_name self, "../../" +:+ q) = Some data ∧
        w_fs w' !! q = None ∧ w_fs w' ⊆ w_fs w.
Proof.
  intros Hwf _ Hf Hup. destruct (Hwf _ _ Hf) as [Hq _].
  destruct (file_direct_escapes q Hq) as (Hn & _).
  destruct (upload_file_Ret _ _ _ _ _ _ _ Hup) as (x & Hx & Hobj).
  assert (x = data) as -> by congruence.
  destruct (cleanup_staged_total _ _ data Hwf Hf) as [fs' Hc].
  assert (cleanup_at normpath (file_direct ("../../" +:+ q)) (w_fs w) = (Ret (), fs')) as Hc'.
  { rewrite <-Hc. destruct (dirname_escapes q Hq) as [[Hd Hdot]|Hd].
    - apply cleanup_at_top; [done..|by rewrite Hdot].
    - by rewrite (cleanup_at_staged normpath _ q). }
  rewrite upload_at_cons_body, upload_body_at_eq. cbv zeta. rewrite Hn, Hup, Hc'.
  eexists. split_and!; [done|simpl; by rewrite Hobj, lookup_insert_eq| |]; simpl.
  - by apply cleanup_staged_Ret in Hc as [_ ?].
  - by eapply cleanup_staged_subseteq.
Qed.

End resolved_theorems.

(** ** Examples and the theorems at a demonstration key *)

(** The keys [../settings.py] and [../../manage.py] name files beside and
    above the staging directory, and a key with doubled slashes names the
    file of the key without them. *)
Example normpath_ex :
  normpath <$> (file_direct <$> ["Post/c.png"; "../settings.py"; "../../manage.py";
                                 "Post//c.png"; "./Post/../Post/c.png"; "../../.."])
  = ["temp/media/Post/c.png"; "temp/settings.py"; "manage.py";
     "temp/media/Post/c.png"; "temp/media/Post/c.png"; ".."].
Proof. vm_compute. reflexivity. Qed.

Lemma file_direct_escapes_witness :
  normpath (file_direct ("../../" +:+ "app/settings.py")) = "app/settings.py" ∧
  path_ok (file_direct ("../../" +:+ "app/settings.py")) = false ∧
  (under staging_root "app/settings.py" = false →
   under staging_root (normpath (file_direct ("../../" +:+ "app/settings.py"))) = false).
Proof. apply (file_direct_escapes "app/settings.py"). vm_compute. reflexivity. Defined.

(** The settings of the project, uploaded and removed through the key
    [../../app/settings.py]; the directory [app] keeps its other file. *)
Example upload_escapes_ex :
  (λ rw : res exn (option bool) * World mem_store,
     (rw.1, ms_objects (w_s3 rw.2) !! ("media", "../../app/settings.py"),
      w_fs rw.2 !! "app/settings.py", w_fs rw.2 !! "app/urls.py",
      w_fs rw.2 !! "temp/media/a.png"))
    (upload_at normpath demo_self ["../../app/settings.py"] demo_project)
  = (Ret (Some true), Some "SECRET_KEY", None, Some (File "urls"), Some (File "PNG-a")).
Proof. vm_compute. reflexivity. Qed.

(** The method as it is modelled elsewhere, for the same key: the paths
    are read as they are written, and no file has that path. *)
Example upload_literal_ex :
  (upload demo_self ["../../app/settings.py"] demo_project).1
  = Raise (upload_exn (upload_exn (enoent "temp/media/../../app/settings.py"))).
Proof. vm_compute. reflexivity. Qed.

Lemma upload_escapes_witness :
  ∃ w', upload_at normpath demo_self ["../../" +:+ "app/settings.py"] demo_project
        = (Ret (Some true), w') ∧
        objects (w_s3 w') !! (s3_bucket_name demo_self, "../../" +:+ "app/settings.py")
        = Some "SECRET_KEY" ∧
        w_fs w' !! "app/settings.py" = None ∧ w_fs w' ⊆ w_fs demo_project.
Proof.
  apply (upload_escapes demo_self "app/settings.py" "SECRET_KEY" demo_project
           (ms_set_objects {[("media", "../../app/settings.py") := "SECRET_KEY"]} demo_store));
    [apply (bool_decide_unpack (fs_wf _)); by vm_compute|vm_compute; reflexivity..].
Defined.
